(* ===== verification/_CoqProject ===== *)
-Q . S2P
Prelude.v
JsString.v
JsNum.v
JsBits.v
Base64.v
Uri.v
JsObject.v
JsValue.v
Json.v
JsonFacts.v
JsonSafety.v
Columns.v
Prefs.v
PrefsFacts.v
Escape.v
Format.v
Links.v
Markup.v
Access.v
QueueTypes.v
Statistics.v
Forms.v
FormsFacts.v
FormValues.v
Multifields.v
Requests.v
ChartRanges.v
Ejs.v
Visibility.v
Popups.v
World.v
Pages.v
Refresh.v
Sync.v
Password.v
Router.v
FormRows.v
Navigation.v
FormPage.v
FormEntries.v
Title.v
Routes.v
RefreshFacts.v
RouteFacts.v
Session.v
RefreshRuns.v
Examples.v
Submissions.v
Bodies.v
Theme.v
OAuth.v
OAuthFacts.v
Login.v
LoginFacts.v
Doubles.v
CryptoJs.v
Sha256.v
CodeChallenge.v
OidcTimers.v
OidcWorld.v
OidcTokens.v
OidcSignin.v
OidcUser.v
OidcSession.v
OidcFacts.v
OidcPkce.v
OidcStorage.v
OidcExamples.v
Rounding.v
Numbers.v
Charts.v
ChartsFacts.v
Help.v
Listeners.v
Widgets.v
NumbersFacts.v
