(* ===== verification/Prelude.v ===== *)
(** * The management UI of the broker

    The broker serves a web UI: a page of JavaScript under
    src/src/management/www/js that asks the HTTP API of the broker for its state
    and shows it. This library models that page: what it computes, the state it
    keeps, the handlers of its events, and the theorems that make it correct.

    ** The program and its parts

    - prefs.js, base64.js: the preferences and the credentials of the user, in
      the local storage and in one cookie;
    - formatters.js: values from the broker turned into markup;
    - global.js: the state shared by all files, the tables (navigation, columns,
      queue types, statistics, ranges of charts), the access and display controls;
    - main.js: the requests, the refreshes and their timer, the forms, the
      navigation bar, the lists, the change of the user's own password;
    - charts.js: the texts and legends of statistics, and the lines of charts;
    - dispatcher.js: the routes, each an address or a form with its handler;
    - theme-switcher.js: the colour schemes of the page;
    - oidc-oauth/helper.js: the login with an OpenID Connect provider;
    - sammy-0.7.6.js, ejs-1.0.js and json2-2016.10.28.js, the libraries beside
      them that route addresses and forms, compile templates, and write and read
      JSON texts;
    - oidc-oauth/oidc-client-ts.js: the OpenID Connect client. The file is the
      readable copy, version 2.0.3; the page imports a minified 3.0.1 that lies
      beside it, so that what is proved here is proved of the copy. (The libraries
      that index.html loads minified, such as Sammy, are likewise modelled in the
      readable copies of the repository.)

    An event (a click, a timer, an answer of the server) runs one handler to its
    end. Handlers read and change the globals, the local storage and the cookie,
    and have effects on the browser. An exception leaves the changes made before
    it and goes to the console.

    ** The files

    - [Prelude]: strings of 16-bit code units, results and exceptions ([res],
      [exn]), handlers ([M]: a state and a result or an exception), tactics.
    - [JsString], [JsNum], [JsObject], [JsValue]: what the code uses of the
      language: string operations, numerals, objects as lists of properties in
      the order of [for (k in o)], values with their coercions.
    - [Base64] (base64.js), [Uri] (escape, encodeURIComponent, UTF-8, and
      b64_encode_utf8 of prefs.js): encoders against reference definitions.
    - [Json] (json2-2016.10.28.js): JSON.stringify and JSON.parse; [JsonFacts]: a
      reader of the grammar of JSON and the round trip; [JsonSafety]: what the
      check before the evaluation lets through. [Bodies] (main.js): the texts of
      the bodies that forms send.
    - [Columns] (global.js), [Prefs] and [PrefsFacts] (prefs.js): the cookie, the
      preferences, the session and its credentials. The browser's cookies are an
      interface, [CookieJar] with its laws [CookieJarLaws]; [PrefsFacts.Browser]
      is an implementation.
    - [Escape], [Format], [Links], [Markup] (formatters.js): escaping, wrapping,
      values, states, links; [Markup] is the grammar of the markup produced.
    - [Access] (global.js, main.js): tags of users, controls, navigation bar.
    - [QueueTypes], [Statistics], [ChartRanges] (global.js, main.js): tables.
    - [Forms], [FormsFacts] (main.js): the fields of forms made into parameters.
      [FormValues]: what the loop builds with shared arrays, against the nesting
      of the ids.
    - [Multifields] (main.js): the rows of a multi-valued field while it is edited.
      [FormRows] (main.js, sammy-0.7.6.js): the names and inputs of the rows, and
      the steps of a user; [FormPage], [FormEntries]: the form of a page, from
      keystrokes to the parameters of the request.
    - [Ejs] (ejs-1.0.js, main.js): the templates: scanner, compiler and cache.
    - [Popups] (main.js): the popups of the document and the handlers that close
      them.
    - [Visibility] (main.js): which sections of a page are open.
    - [Requests] (main.js): addresses of requests: fill_path_template and
      apply_state.
    - [World] (global.js, main.js): the state of the page as one record
      ([world]: preferences, query, view, timers, network, ranges, document,
      log of effects) and the refresh timer.
    - [Pages] (main.js, formatters.js): lists with pages, filters and truncation.
    - [Refresh] (main.js): asynchronous requests, check_bad_response, full and
      partial refreshes, render, and the events of the page ([event], [handle],
      [run]).
    - [Sync] (main.js): synchronous requests, messages, put_parameter.
    - [Password] (main.js): change_own_password as a state machine.
    - [Router] (sammy-0.7.6.js), [Routes] (dispatcher.js): the routes; [Title]
      (title.js): the title of the document. [Navigation] (sammy-0.7.6.js): the
      application of the library with its location proxy: how a change of the
      address, a link or a form becomes a call of a route.
    - [Submissions] (sammy-0.7.6.js, dispatcher.js, main.js): [Navigation] and
      [Session] as one machine, with the questions a form asks first; the table
      of the forms of the page and what each of them sends.
    - [RefreshFacts], [RouteFacts], [Session], [RefreshRuns]: their theorems;
      [Session] has the events of a whole session (page events, visits and
      forms through the routes, timeouts and answers of a password change).
    - [Examples]: concrete pages, witnesses and demonstrations.
    - [Theme] (theme-switcher.js): the schemes, against a specification with
      three schemes and no document.
    - [OAuth], [OAuthFacts] (oidc-oauth/helper.js): resources and providers, the
      way to a provider and back, logouts; the calls to the library are requests
      of a state machine, its answers events ([continue]).
    - The client library (oidc-client-ts.js): [JsBits] (32-bit operators),
      [CryptoJs] (WordArray, SHA-256, base64, CryptoUtils), [Sha256] (FIPS 180-4
      and the bounds of sums), [CodeChallenge] (RFC 7636), [OidcTimers] (Event,
      Timer, AccessTokenEvents, what SilentRenewService registers), [OidcWorld]
      (errors, storages, JsonService, MetadataService), [OidcTokens] (settings,
      jwt_decode, UserInfoService, TokenClient, claims), [OidcSignin] (State,
      SigninState, requests and responses, ResponseValidator, OidcClient),
      [OidcUser] (User, UserManager, silent renewal), [OidcSession]
      (CheckSessionIFrame, SessionMonitor, InMemoryWebStorage). A function that waits for
      the network is a program of the monad [OidcWorld.IO] over the storages, the
      clock, the generator and the metadata. [OidcFacts], [OidcPkce],
      [OidcStorage]: its theorems, with [OidcFacts.moves] as the rule that carries
      a preorder on worlds through a program; [OidcExamples]: a sign-in of the
      page with a provider, run to its end.
    - [Login], [LoginFacts] (main.js, global.js): from the document that is ready
      to the application that runs: login page, check_login, the globals,
      extensions, start.
    - [Doubles], [Rounding]: numbers of the language as binary64 doubles (the
      Standard Library's SpecFloat), conversions to and from texts, and bounds on
      what is rounded. [Numbers], [NumbersFacts] (formatters.js): prefixes,
      thousands, rates, percentages, dates, durations.
    - [Charts], [ChartsFacts] (charts.js): statistics with a store of the details
      that charts share and mark, texts, bars, legends, lines.
    - [Help] (global.js): the texts of the help, and that they are markup.
    - [Listeners] (main.js, global.js): handlers a rendered page gives to the
      document, filters, warnings, debounce, the registries of extensions.
    - [Widgets] (formatters.js): members, plugins, pages of lists, form fields.

    ** The theorems

    - Runs: at most one request in flight and one timer
      ([RefreshRuns.refreshes_never_overlap], [World.timers_never_leak]); what a
      refresh asks, collects and leaves ([update_collects]); what a request needs
      ([with_req_spec]); how answers are judged ([check_bad_response_spec]). They
      hold for every sequence of events: invariants are proved handler by
      handler (tactic [keeps]) and carried through [run]. [Session.frame] is the
      interface between handlers and invariants: what any handler, every route
      included, can change of timers and network.
    - Password changes: refreshes and requests are released when a change ends
      ([Session.password_change_releases], [password_change_ends]).
    - Routes: a link leads to the page of its object, names decoded
      ([RouteFacts.links_open_pages]); no dead link in the navigation.
    - Access: the navigation shows what the tags grant ([Access]).
    - Credentials, cookie and preferences: login, logout, round trips ([PrefsFacts]).
    - Markup: what is escaped is shown as it was; no value can inject markup;
      passwords in URIs are masked, up to the cases listed as lemmas ([Markup]).
    - Forms and addresses: [FormsFacts], [Requests], [Pages].
      An edited multi-valued field keeps its values and one empty row
      ([Multifields.update_multifield_spec]); the parameters of a form are what
      its ids show, lists nested as they are named ([FormValues.collapse_multifields_values]),
      and whatever was edited, the entries a form shows are what it sends
      ([FormEntries.entries_are_sent]).
    - From the page to the broker: an address is run once however often its change
      is told ([Navigation.addresses_run_once]); each form is routed to its own
      handler, whose request is the next thing that happens
      ([Submissions.forms_send_requests]); and the composition of all of it for
      the form of a new queue, from the rows that are typed to the body that is
      sent ([Submissions.queue_form_sends]).
    - JSON: what is written is read back and passes the check
      ([JsonSafety.stringify_parses]); what is evaluated can only be data
      ([JsonSafety.parse_guards]); whatever form is sent, the broker reads the
      parameters it stands for ([Bodies.forms_send_json]).
    - Templates: what is compiled does what the template shows
      ([Ejs.template_compiled]), what it puts out is written as literals
      ([Ejs.literals_read]), and a template is asked for once
      ([Ejs.format_asks_once]). Popups: one of a type at most is seen, and each
      can be closed ([Popups.popups_close]).
    - Encoders: [Base64] and [Uri] against references, and round trips.
    - Themes: the sheets, the icon and the stored choice are those of the
      specification ([Theme.theme_refines]).
    - Logins: what check_login asks and sets, and what a refused one leaves
      ([LoginFacts]); extensions are loaded in order and then the application
      starts ([scripts_then_start]); which providers are offered, sign-in and
      logout to their ends ([OAuth], [OAuthFacts]).
    - Signing in: an answer of a provider is followed only when it was awaited,
      and once ([OidcFacts.signin_once]); the code is exchanged with the verifier
      whose challenge was sent ([OidcPkce.pkce_bound]), which is the challenge of
      the standard ([CodeChallenge.challenge_is_S256]), computed without loss
      ([Sha256.sums_exact]) from verifiers as the standard asks
      ([generateCodeVerifier_spec]); users are read back as they were stored and
      survive the clearing of stale states ([OidcStorage]); the notices of a
      token's end are given once and in time ([OidcTimers.token_timers]).
    - Numbers: the search for a prefix ends for every finite number
      ([NumbersFacts.si_scale_ends]), commas group thousands, bars stay within
      their width whatever the rounding ([ChartsFacts.bar_offset_range]).
    - Charts: the lines plotted are those of the legend, in its colours
      ([ChartsFacts.chart_lines_match_legend]). Sections stay as they were left
      ([Visibility.visibility_persists]).
    - Lemmas such as [update_lost_while_refreshing], [ten_elements_reordered] or
      [cluster_name_change_throws] show behaviours the authors did not intend.

    ** Bounds and fuel

    Integers of the language are unbounded [Z] where the code only compares and
    counts; base64.js's octets and the code units of strings keep their width.
    Fuel occurs in [Access.nav_loop] and [walk_down] (one step is enough for the
    program's navigation, as [navigation_tabs] proves), in [Forms.reify] (the
    number of lists), in [Router.decode_loop] and [compile] (the length of the
    text, each step consuming a unit), in [Ejs.rsplit_loop] and [Ejs.lex] (the
    length of the text, as [rsplit_concat] and [lex_fuel] show), in the printing of numerals (their bits),
    in [JsonFacts.read_value] (the length of the text),
    in [Numbers.si_scale] (200 calls; 113 are enough for every finite maximum, as
    [si_scale_ends] proves, and without fuel the recursion is too deep), in
    [thousands_loop] (the length of the text), in [Doubles.shortest] (17 digits
    identify a double) and [decimal_exponent] (the estimate is off by less than
    6). In [CryptoJS.constants] the loop runs 311 times (the 64th prime is 311, as
    [constants_loop_primes] shows) and [factors] as often as the number it is
    about. Arithmetic that can be inexact is that of doubles; the words of SHA-256
    are [Z] with the 32-bit operators of the language.

    ** What is a parameter

    The cookie jar and the clock of the browser ([CookieJar], [Clock]), whether a
    text is a regular expression ([RegExpSyntax]), lower case ([LowerCase]), the
    templates and what they show ([Templates], the function that is built from a
    compiled one), the answers of the
    server (events of asynchronous requests, the function [server] of the
    synchronous ones), regular expressions ([RegExps]), the media queries of the
    browser ([MediaQueries]), its location, its window, its history and how it
    resolves an address ([Navigation]), texts of errors and JSON texts
    ([OAuth]), the answers of the OpenID Connect client to the page ([OAuth]); of
    the client itself: Math.pow (within two units in the last place), the random
    values, atob, addresses with parameters (URL and URLSearchParams), windows,
    and [fetch], which answers and may change the storages and the clock while it
    is waited for; the local time of a
    moment ([Numbers.Timestamps]); the evaluation of a program text ([Json.parse]).

    ** What is not modelled

    The broker itself (Rust), the templates and style sheets, jQuery, flot,
    excanvas; of the OpenID Connect client its windows and navigators, the start
    of SessionMonitor with its question for anonymous sessions (the page does not
    switch monitorSession on), the logs, and what other pages do to the storages
    between two requests; the rest of Sammy (third-party code: filters around
    routes, its templates and redirects, which the page does not use); the parts
    of the document that handlers only write; the handlers that only set
    labels. *)

From stdpp Require Export base numbers list strings gmap.
From Stdlib Require Export ZArith Lia ZifyNat.

#[export] Set Default Goal Selector "!".
#[global] Open Scope Z_scope.

(** ** Strings

    A JavaScript string is a sequence of 16-bit code units. *)

Notation jstr := (list Z) (only parsing).

(** The code unit of a source character of a literal. A backquote stands for
    the double quote, which a literal cannot hold. *)
Definition code_unit (a : Ascii.ascii) : Z :=
  let c := Z.of_N (Ascii.N_of_ascii a) in
  if Z.eqb c 96 then 34 else c.

Fixpoint js (s : string) : list Z :=
  match s with
  | EmptyString => []
  | String a s => code_unit a :: js s
  end.

(** Literals are used where a code-unit string is expected. *)
Coercion js : string >-> list.
Arguments js !_%_string /.

(** A 16-bit code unit, and the strings the language can hold. *)
Definition is_code_unit (c : Z) : Prop := 0 <= c < 65536.

#[global] Instance is_code_unit_dec c : Decision (is_code_unit c).
Proof. unfold is_code_unit. apply _. Defined.

Definition wf_jstr (s : jstr) : Prop := Forall is_code_unit s.

(** ** Results: a value, or a thrown exception *)

Inductive exn :=
  | Thrown (s : jstr)      (* throw "..." *)
  | URIError               (* encodeURIComponent of a lone surrogate *)
  | SyntaxError            (* JSON.parse of what is not JSON *)
  | TypeError              (* property of undefined, call of a non-function *)
  | ReferenceError (s : jstr)  (* an undeclared variable *)
  | JsError (s : jstr)     (* throw new Error(...) *)
  | RangeError.            (* recursion too deep, or a bad repeat count *)

#[global] Instance exn_eq_dec : EqDecision exn.
Proof. solve_decision. Defined.

Inductive res (A : Type) :=
  | Ok (a : A)
  | Throw (e : exn).
Arguments Ok {A} a.
Arguments Throw {A} e.

#[global] Instance res_eq_dec `{EqDecision A} : EqDecision (res A).
Proof. solve_decision. Defined.

#[global] Instance res_ret : MRet res := fun A a => Ok a.
#[global] Instance res_bind : MBind res := fun A B f r =>
  match r with Ok a => f a | Throw e => Throw e end.
#[global] Instance res_fmap : FMap res := fun A B f r =>
  match r with Ok a => Ok (f a) | Throw e => Throw e end.

(** [try { r } catch (e) { h e }] *)
Definition try_catch {A} (r : res A) (h : exn -> A) : A :=
  match r with Ok a => a | Throw e => h e end.

(** ** Handlers: state passing with exceptions

    A handler reads and changes a state and returns a value or throws; the
    changes made before the exception stay. *)

Definition M (W A : Type) : Type := W -> res A * W.

#[global] Instance M_ret {W} : MRet (M W) := fun A a w => (Ok a, w).
#[global] Instance M_bind {W} : MBind (M W) := fun A B f m w =>
  match m w with
  | (Ok a, w') => f a w'
  | (Throw e, w') => (Throw e, w')
  end.

Definition throw {W A} (e : exn) : M W A := fun w => (Throw e, w).
Definition lift {W A} (r : res A) : M W A := fun w => (r, w).
Definition gets {W A} (f : W -> A) : M W A := fun w => (Ok (f w), w).
Definition modify {W} (f : W -> W) : M W unit := fun w => (Ok tt, f w).
Definition skip {W} : M W unit := fun w => (Ok tt, w).

Notation "m ;;; k" := (m ≫= fun _ => k) (at level 100, k at level 200, right associativity).

(** The handler run for each element in turn, stopping at an exception. *)
Fixpoint for_each {W A} (f : A -> M W unit) (l : list A) : M W unit :=
  match l with [] => skip | x :: l => f x ;;; for_each f l end.

Lemma res_bind_ok {A B} (r : res A) (f : A -> res B) b :
  r ≫= f = Ok b <-> exists a, r = Ok a /\ f a = Ok b.
Proof. destruct r; cbn; naive_solver. Qed.

Lemma res_bind_throw {A B} (r : res A) (f : A -> res B) e :
  r ≫= f = Throw e <-> r = Throw e \/ exists a, r = Ok a /\ f a = Throw e.
Proof. destruct r; cbn; naive_solver. Qed.

(** ** Automation *)

(** Case analysis on the first match of the goal, keeping the equation. *)
Ltac case_match_goal :=
  match goal with
  | |- context [match ?x with _ => _ end] => destruct x eqn:?
  end.

(** Case analysis on the first computation of a sequence. *)
Ltac case_match_res :=
  match goal with
  | |- context [mbind _ ?r] =>
      lazymatch r with
      | context [mbind] => fail
      | _ => destruct r eqn:?; cbn [mbind res_bind fmap res_fmap]
      end
  end.

(** Linear arithmetic with division and remainder by constants. *)
Ltac lia_div := zify; Z.to_euclidean_division_equations; lia.

(** Decides a closed computation. *)
Ltac by_compute := vm_compute; first [reflexivity | congruence].

(** Splits conjunctions and closes each part by evaluation or arithmetic. *)
Ltac closed :=
  repeat split; first [lia | reflexivity | vm_compute; reflexivity
    | apply bool_decide_unpack; vm_compute; exact I].

(** Decides a closed proposition by evaluation. *)
Ltac by_decide := apply (bool_decide_unpack _); vm_compute; exact I.

(** A property of all numbers below a bound, by evaluation on each. *)
Lemma Forall_range (P : Z -> Prop) (n : Z) :
  Forall P (seqZ 0 n) -> forall c, 0 <= c < n -> P c.
Proof. rewrite Forall_forall. intros H c Hc. apply H, elem_of_seqZ. lia. Qed.

Create Rewrite HintDb js_rw.
Create HintDb js_db.
#[export] Hint Rewrite @length_app @length_map @length_cons : js_rw.
