(* ===== verification/JsString.v ===== *)
(** String operations of the language, on code units. *)
From S2P Require Import Prelude.

(** [s.charAt(i)]: the empty string when [i] is out of range. *)
Definition char_at (s : jstr) (i : nat) : jstr :=
  match s !! i with Some c => [c] | None => [] end.

(** [p] is a prefix of [s] ([s.startsWith(p)]). *)
Fixpoint starts_with (s p : jstr) {struct p} : bool :=
  match p, s with
  | [], _ => true
  | c :: p', d :: s' => Z.eqb c d && starts_with s' p'
  | _ :: _, [] => false
  end.

(** [s.indexOf(p)]: the first position of [p] in [s], -1 when there is none. *)
Fixpoint index_from (k : Z) (s p : jstr) : Z :=
  if starts_with s p then k
  else match s with [] => -1 | _ :: s' => index_from (k + 1) s' p end.

Definition index_of (s p : jstr) : Z := index_from 0 s p.

(** [s.substring(a, b)]: both ends clamped to the length, and swapped when
    [b < a]; [s.substring(a)] is [substring s a (length s)]. *)
Definition clamp (s : jstr) (a : Z) : nat := Z.to_nat (Z.min (Z.max a 0) (Z.of_nat (length s))).

Definition substring (s : jstr) (a b : Z) : jstr :=
  let i := clamp s a in
  let j := clamp s b in
  take (Nat.max i j - Nat.min i j) (drop (Nat.min i j) s).

Definition substring_from (s : jstr) (a : Z) : jstr := substring s a (Z.of_nat (length s)).

(** [s.slice(a, b)]: negative ends count from the end; empty when [b <= a]. *)
Definition slice_index (s : jstr) (a : Z) : nat :=
  clamp s (if a <? 0 then a + Z.of_nat (length s) else a).

Definition slice (s : jstr) (a b : Z) : jstr :=
  let i := slice_index s a in
  let j := slice_index s b in
  take (j - i) (drop i s).

Definition slice_from (s : jstr) (a : Z) : jstr := slice s a (Z.of_nat (length s)).

(** [xs.join(sep)] *)
Fixpoint join (sep : jstr) (xs : list jstr) : jstr :=
  match xs with
  | [] => []
  | [x] => x
  | x :: xs' => x ++ sep ++ join sep xs'
  end.

(** [s.split(c)] for a one-unit separator: always at least one piece. *)
Fixpoint split_on (c : Z) (s : jstr) : list jstr :=
  match s with
  | [] => [[]]
  | d :: s' =>
      if decide (d = c) then [] :: split_on c s'
      else match split_on c s' with
           | [] => [[d]]
           | w :: ws => (d :: w) :: ws
           end
  end.

(** [s.replace(/c/g, r)] for a one-unit pattern. *)
Fixpoint replace_unit (c : Z) (r s : jstr) : jstr :=
  match s with
  | [] => []
  | d :: s' => (if decide (d = c) then r else [d]) ++ replace_unit c r s'
  end.

(** [String.fromCharCode(z)] keeps the low 16 bits. *)
Definition from_char_code (z : Z) : jstr := [z mod 65536].

(** ** Lemmas *)

Lemma starts_with_spec s p : starts_with s p = true <-> exists t, s = p ++ t.
Proof.
  revert s. induction p as [|c p IH]; intros s; cbn.
  { split; eauto. }
  destruct s as [|d s].
  { split; [congruence | by intros [t [=]]]. }
  rewrite andb_true_iff, Z.eqb_eq, IH. split.
  - intros [-> [t ->]]. by exists t.
  - intros [t [= -> ->]]. eauto.
Qed.

Lemma starts_with_single c d s : starts_with (d :: s) [c] = Z.eqb c d.
Proof. cbn. destruct s; by rewrite andb_true_r. Qed.

Lemma index_from_range k s p :
  0 <= k -> index_from k s p = -1 \/ k <= index_from k s p <= k + Z.of_nat (length s).
Proof.
  revert k. induction s as [|d s IH]; intros k Hk; cbn [index_from length].
  - case_match_goal; lia.
  - case_match_goal; [lia|]. specialize (IH (k + 1)). lia.
Qed.

Lemma index_from_shift k s p :
  0 <= k ->
  index_from k s p = if decide (index_of s p = -1) then -1 else k + index_of s p.
Proof.
  unfold index_of. revert k. induction s as [|d s IH]; intros k Hk; cbn [index_from].
  - destruct (starts_with [] p); repeat case_decide; lia.
  - destruct (starts_with (d :: s) p); [repeat case_decide; lia|]. rewrite (IH (k + 1)), (IH (0 + 1)) by lia.
    pose proof (index_from_range 0 s p). unfold index_of. repeat case_decide; lia.
Qed.

Lemma index_of_range s p : -1 <= index_of s p <= Z.of_nat (length s).
Proof. pose proof (index_from_range 0 s p). unfold index_of. lia. Qed.

Lemma index_of_cons d s c :
  index_of (d :: s) [c] =
  if decide (c = d) then 0
  else if decide (index_of s [c] = -1) then -1 else 1 + index_of s [c].
Proof.
  unfold index_of at 1. cbn [index_from]. rewrite starts_with_single.
  destruct (Z.eqb_spec c d); case_decide; try done. by rewrite index_from_shift by lia.
Qed.

(** Index of a one-unit pattern is the position of its first occurrence. *)
Lemma index_of_single_lookup s c (i : nat) :
  index_of s [c] = Z.of_nat i -> s !! i = Some c.
Proof.
  revert i. induction s as [|d s IH]; intros i; [cbn; lia|].
  rewrite index_of_cons. pose proof (index_of_range s [c]).
  repeat case_decide; try lia.
  - subst. intros Hi. by assert (i = 0%nat) as -> by lia.
  - intros Hi. destruct i as [|i]; [lia|]. cbn. apply IH. lia.
Qed.

Lemma index_of_single_none s c : index_of s [c] = -1 <-> c ∉ s.
Proof.
  induction s as [|d s IH].
  { split; [intros _; apply not_elem_of_nil | done]. }
  rewrite index_of_cons, not_elem_of_cons, <- IH.
  pose proof (index_of_range s [c]). repeat case_decide; intuition lia.
Qed.

Lemma index_of_single_take s c n : Z.of_nat n <= index_of s [c] -> c ∉ take n s.
Proof.
  revert n. induction s as [|d s IH]; intros n; [destruct n; intros _; apply not_elem_of_nil|].
  rewrite index_of_cons. pose proof (index_of_range s [c]).
  destruct n as [|n]; [intros _; apply not_elem_of_nil|].
  repeat case_decide; try lia. intros Hn. cbn. rewrite not_elem_of_cons.
  split; [done | apply IH; lia].
Qed.

Lemma substring_prefix s a :
  0 <= a <= Z.of_nat (length s) -> substring s 0 a = take (Z.to_nat a) s.
Proof.
  intros Ha. unfold substring, clamp. rewrite !Z.max_l, !Z.min_l by lia.
  rewrite Nat.max_r, Nat.min_l by lia. cbn [Z.to_nat drop]. by rewrite Nat.sub_0_r.
Qed.

Lemma substring_from_drop s a :
  0 <= a <= Z.of_nat (length s) -> substring_from s a = drop (Z.to_nat a) s.
Proof.
  intros Ha. unfold substring_from, substring, clamp.
  rewrite !Z.max_l, (Z.min_l a), Z.min_id, Nat2Z.id by lia.
  rewrite Nat.max_r, Nat.min_l by lia. apply take_ge. rewrite length_drop. lia.
Qed.

Lemma char_at_lookup s i c : s !! i = Some c -> char_at s i = [c].
Proof. unfold char_at. by intros ->. Qed.

Lemma replace_unit_app c r s t :
  replace_unit c r (s ++ t) = replace_unit c r s ++ replace_unit c r t.
Proof. induction s as [|d s IH]; cbn; [done|]. by rewrite IH, app_assoc. Qed.

Lemma replace_unit_id c r s : c ∉ s -> replace_unit c r s = s.
Proof.
  induction s as [|d s IH]; cbn; [done|]. rewrite not_elem_of_cons. intros [Hne Hs].
  rewrite decide_False by congruence. cbn. by rewrite IH.
Qed.

Lemma replace_unit_flat_map c r s :
  replace_unit c r s = flat_map (fun d => if decide (d = c) then r else [d]) s.
Proof. induction s; cbn; congruence. Qed.

Lemma split_on_nonempty c s : split_on c s <> [].
Proof. destruct s; cbn; [done|]. case_decide; [done|]. by destruct (split_on c s). Qed.

Lemma split_on_free c s : c ∉ s -> split_on c s = [s].
Proof.
  induction s as [|d s IH]; cbn; [done|]. rewrite not_elem_of_cons. intros [Hne Hs].
  rewrite decide_False by congruence. by rewrite IH.
Qed.

Lemma split_on_app_sep c s t :
  c ∉ s -> split_on c (s ++ c :: t) = s :: split_on c t.
Proof.
  induction s as [|d s IH]; cbn.
  - intros _. by rewrite decide_True.
  - rewrite not_elem_of_cons. intros [Hne Hs].
    rewrite decide_False by congruence. by rewrite IH.
Qed.

(** Splitting what was joined gives the pieces back, when no piece holds the
    separator. *)
Lemma split_join c xs :
  xs <> [] -> Forall (fun x => c ∉ x) xs -> split_on c (join [c] xs) = xs.
Proof.
  induction xs as [|x xs IH]; [done|]. intros _ Hall.
  inversion Hall as [|? ? Hx Hxs]; subst. destruct xs as [|y xs].
  - by apply split_on_free.
  - change (join [c] (x :: y :: xs)) with (x ++ c :: join [c] (y :: xs)).
    rewrite split_on_app_sep by done. f_equal. by apply IH.
Qed.

(** The pieces of a split hold neither the separator nor anything new. *)
Lemma split_on_pieces (P : Z -> Prop) c s :
  Forall P s -> Forall (fun x => c ∉ x /\ Forall P x) (split_on c s).
Proof.
  induction 1 as [|d s Hd _ IH]; cbn.
  { repeat constructor. apply not_elem_of_nil. }
  case_decide as Hc.
  - constructor; [|done]. split; [apply not_elem_of_nil | constructor].
  - destruct (split_on c s) as [|w ws].
    + repeat constructor; [|done]. rewrite not_elem_of_cons.
      split; [congruence | apply not_elem_of_nil].
    + inversion IH as [|? ? [Hw Hp] Hws]; subst. constructor; [|done].
      split; [rewrite not_elem_of_cons; split; [congruence | done] | by constructor].
Qed.

(** Splitting a text joined by a two-unit separator at its first unit leaves
    the second unit at the head of the later pieces. *)
Lemma split_join2 c d x xs :
  Forall (fun x => c ∉ x) (x :: xs) -> c <> d ->
  split_on c (join [c; d] (x :: xs)) = x :: map (cons d) xs.
Proof.
  intros Hall Hcd. revert x Hall. induction xs as [|y xs IH]; intros x Hall.
  { apply split_on_free. by inversion Hall. }
  inversion Hall as [|? ? Hx Hxs]; subst.
  change (join [c; d] (x :: y :: xs)) with (x ++ c :: (d :: join [c; d] (y :: xs))).
  rewrite split_on_app_sep by done. cbn [split_on]. rewrite decide_False by congruence.
  by rewrite IH.
Qed.

Lemma join_nil_concat xs : join [] xs = concat xs.
Proof.
  induction xs as [|x xs IH]; [done|].
  destruct xs as [|y xs]; [cbn; by rewrite app_nil_r|].
  change (join [] (x :: y :: xs)) with (x ++ join [] (y :: xs)). by rewrite IH.
Qed.

#[export] Hint Rewrite replace_unit_app join_nil_concat : js_rw.
#[export] Hint Resolve split_on_nonempty : js_db.

Lemma join_split c s : join [c] (split_on c s) = s.
Proof.
  induction s as [|d s IH]; [done|]. cbn [split_on]. pose proof (split_on_nonempty c s) as Hne.
  destruct (split_on c s) as [|w ws]; [done|]. destruct (decide (d = c)) as [->|].
  - change (join [c] ([] :: w :: ws)) with (c :: join [c] (w :: ws)). by rewrite IH.
  - rewrite <- IH. by destruct ws.
Qed.

Lemma join_snoc sep xs x : xs <> [] -> join sep (xs ++ [x]) = join sep xs ++ sep ++ x.
Proof.
  induction xs as [|y xs IH]; [done|]. intros _. destruct xs as [|z xs]; [done|].
  change (join sep ((y :: z :: xs) ++ [x])) with (y ++ sep ++ join sep ((z :: xs) ++ [x])).
  rewrite IH by done. change (join sep (y :: z :: xs)) with (y ++ sep ++ join sep (z :: xs)).
  by rewrite <- !app_assoc.
Qed.
