(* ===== verification/JsNum.v ===== *)
(** Integer arithmetic of the language: the bitwise operators work on 32-bit
    two's complement integers; other arithmetic on integers below 2^53 in
    absolute value is exact. *)
From S2P Require Import Prelude.

(** ToInt32: the value modulo 2^32, in [-2^31, 2^31). *)
Definition to_int32 (z : Z) : Z :=
  let m := z mod 2 ^ 32 in
  if m <? 2 ^ 31 then m else m - 2 ^ 32.

Definition shl (x n : Z) : Z := to_int32 (Z.shiftl (to_int32 x) n).
Definition shr (x n : Z) : Z := Z.shiftr (to_int32 x) n.
Definition bor (x y : Z) : Z := Z.lor (to_int32 x) (to_int32 y).
Definition band (x y : Z) : Z := Z.land (to_int32 x) (to_int32 y).

(** Decimal and hexadecimal digits of a non-negative integer, most significant
    first; [fuel] bounds the number of digits. *)
Definition digit_unit (d : Z) : Z := if d <? 10 then 48 + d else 87 + d.

Fixpoint digits (fuel : nat) (base n : Z) (acc : jstr) : jstr :=
  match fuel with
  | O => acc
  | S fuel =>
      let acc := digit_unit (n mod base) :: acc in
      if n <? base then acc else digits fuel base (n / base) acc
  end.

(** Enough fuel: one digit per bit. *)
Definition digit_fuel (n : Z) : nat := S (Z.to_nat (Z.log2 n)).

(** [n.toString(base)] of an integer below 10^21 in absolute value. *)
Definition to_string (base n : Z) : jstr :=
  if n <? 0 then 45 :: digits (digit_fuel (- n)) base (- n) []
  else digits (digit_fuel n) base n [].

(** ["" + n] *)
Definition dec (n : Z) : jstr := to_string 10 n.

(** ** Lemmas *)

Lemma to_int32_small z : - 2 ^ 31 <= z < 2 ^ 31 -> to_int32 z = z.
Proof.
  intros Hz. unfold to_int32. destruct (Z.ltb_spec (z mod 2 ^ 32) (2 ^ 31)) as [H|H].
  - destruct (Z_lt_dec z 0) as [Hn|Hp].
    + rewrite <- (Z.mod_unique z (2 ^ 32) (-1) (z + 2 ^ 32)) in H |- * by lia. lia.
    + apply Z.mod_small. lia.
  - destruct (Z_lt_dec z 0) as [Hn|Hp].
    + rewrite <- (Z.mod_unique z (2 ^ 32) (-1) (z + 2 ^ 32)) by lia. lia.
    + rewrite Z.mod_small in H by lia. lia.
Qed.

Lemma to_int32_range z : - 2 ^ 31 <= to_int32 z < 2 ^ 31.
Proof.
  unfold to_int32. pose proof (Z.mod_pos_bound z (2 ^ 32) ltac:(lia)).
  destruct (Z.ltb_spec (z mod 2 ^ 32) (2 ^ 31)); lia.
Qed.

Lemma shl_small x n : 0 <= n -> 0 <= x -> x * 2 ^ n < 2 ^ 31 -> shl x n = x * 2 ^ n.
Proof.
  intros Hn Hx Hb. pose proof (Z.pow_pos_nonneg 2 n ltac:(lia) Hn).
  unfold shl. rewrite (to_int32_small x) by nia.
  rewrite Z.shiftl_mul_pow2 by lia. apply to_int32_small. nia.
Qed.

Lemma shr_small x n : 0 <= n -> 0 <= x < 2 ^ 31 -> shr x n = x / 2 ^ n.
Proof. intros Hn Hx. unfold shr. rewrite to_int32_small by lia. by apply Z.shiftr_div_pow2. Qed.

Lemma band_mask x k : 0 <= k < 31 -> 0 <= x < 2 ^ 31 -> band x (2 ^ k - 1) = x mod 2 ^ k.
Proof.
  intros Hk Hx. unfold band.
  pose proof (Z.pow_pos_nonneg 2 k). pose proof (Z.pow_lt_mono_r 2 k 31).
  rewrite !to_int32_small by lia.
  rewrite <- Z.land_ones by lia. by rewrite Z.ones_equiv, Z.sub_1_r.
Qed.

(** Or of a multiple of [2 ^ n] with a number below [2 ^ n] is their sum. *)
Lemma lor_disjoint a b n : 0 <= n -> 0 <= b < 2 ^ n -> Z.lor (a * 2 ^ n) b = a * 2 ^ n + b.
Proof.
  intros Hn Hb.
  assert (Hland : Z.land (a * 2 ^ n) b = 0).
  { apply Z.bits_inj'. intros i Hi. rewrite Z.land_spec, Z.bits_0.
    destruct (Z_lt_dec i n) as [Hlt|Hge].
    - by rewrite Z.mul_pow2_bits_low.
    - destruct (Z.eq_dec b 0) as [->|Hb0]; [by rewrite Z.bits_0, andb_false_r|].
      rewrite (Z.bits_above_log2 b i), andb_false_r; [done | lia |].
      assert (Z.log2 b < n) by (apply Z.log2_lt_pow2; lia). lia. }
  rewrite <- Z.lxor_lor by done. by rewrite <- Z.add_nocarry_lxor.
Qed.

Lemma bor_disjoint a b n :
  0 <= n -> 0 <= a -> 0 <= b < 2 ^ n -> a * 2 ^ n + b < 2 ^ 31 ->
  bor (a * 2 ^ n) b = a * 2 ^ n + b.
Proof.
  intros Hn Ha Hb Hs. unfold bor. pose proof (Z.pow_pos_nonneg 2 n ltac:(lia) Hn).
  rewrite !to_int32_small by nia. by apply lor_disjoint.
Qed.

Lemma digit_unit_range d : 0 <= d < 16 -> 48 <= digit_unit d <= 102.
Proof. unfold digit_unit. case_match; lia. Qed.

#[global] Opaque to_int32 shl shr bor band.
