(* ===== verification/JsBits.v ===== *)
(** The bitwise operators of the language on 32-bit words: shifts with the count
    taken modulo 32, the unsigned shift, exclusive or and complement; and what
    they are modulo 2^32. A number stands for the word [u32] of it, whatever its
    sign and however large the sum it comes from. *)
From S2P Require Import Prelude JsNum.

(** [x << n], [x >>> n], [x ^ y], [~x] *)
Definition sll (x n : Z) : Z := shl x (n mod 32).
Definition ushr (x n : Z) : Z := Z.shiftr (x mod 2 ^ 32) (n mod 32).
Definition bxor (x y : Z) : Z := Z.lxor (to_int32 x) (to_int32 y).
Definition bnot (x : Z) : Z := Z.lnot (to_int32 x).

(** The word a number stands for. *)
Definition u32 (x : Z) : Z := x mod 2 ^ 32.

Lemma u32_range x : 0 <= u32 x < 2 ^ 32.
Proof. apply Z.mod_pos_bound. lia. Qed.

Lemma u32_small x : 0 <= x < 2 ^ 32 -> u32 x = x.
Proof. apply Z.mod_small. Qed.

Lemma u32_idem x : u32 (u32 x) = u32 x.
Proof. apply Z.mod_mod. lia. Qed.

Lemma u32_to_int32 x : u32 (to_int32 x) = u32 x.
Proof.
  pose proof (u32_range x) as Hr. unfold u32 in *. Transparent to_int32. unfold to_int32. Opaque to_int32.
  destruct (Z.ltb_spec (x mod 2 ^ 32) (2 ^ 31)); [by apply Z.mod_mod|].
  rewrite Zminus_mod, Z_mod_same_full, Z.sub_0_r, !Z.mod_mod by lia. done.
Qed.

Lemma to_int32_u32 x : to_int32 (u32 x) = to_int32 x.
Proof.
  Transparent to_int32. unfold to_int32, u32. Opaque to_int32. by rewrite Z.mod_mod by lia.
Qed.

Lemma u32_add x y : u32 (x + y) = u32 (u32 x + u32 y).
Proof. apply Zplus_mod. Qed.

(** ** Bits *)

Lemma u32_bits x i : 0 <= i -> Z.testbit (u32 x) i = (i <? 32) && Z.testbit x i.
Proof. intros Hi. unfold u32. rewrite <- Z.land_ones by lia. rewrite Z.land_spec, Z.testbit_ones by lia.
  replace (0 <=? i) with true by lia. by rewrite andb_comm. Qed.

Lemma to_int32_bits x i : 0 <= i < 32 -> Z.testbit (to_int32 x) i = Z.testbit x i.
Proof.
  intros Hi. pose proof (u32_bits (to_int32 x) i ltac:(lia)) as H. rewrite u32_to_int32, u32_bits in H by lia.
  by replace (i <? 32) with true in H by lia.
Qed.

(** Two words are equal when their 32 bits are. *)
Lemma u32_ext x y : (forall i, 0 <= i < 32 -> Z.testbit x i = Z.testbit y i) -> u32 x = u32 y.
Proof.
  intros H. apply Z.bits_inj'. intros i Hi. rewrite !u32_bits by done.
  destruct (Z.ltb_spec i 32); [|done]. cbn. apply H. lia.
Qed.

Ltac word_bits :=
  apply u32_ext; intros i Hi;
  repeat first [rewrite Z.land_spec | rewrite Z.lor_spec | rewrite Z.lxor_spec | rewrite Z.lnot_spec by lia
    | rewrite to_int32_bits by lia | rewrite u32_bits by lia];
  replace (i <? 32) with true by lia; cbn [andb].

Lemma u32_band x y : u32 (band x y) = u32 (Z.land (u32 x) (u32 y)).
Proof. Transparent band. unfold band. Opaque band. by word_bits. Qed.

Lemma u32_bor x y : u32 (bor x y) = u32 (Z.lor (u32 x) (u32 y)).
Proof. Transparent bor. unfold bor. Opaque bor. by word_bits. Qed.

Lemma u32_bxor x y : u32 (bxor x y) = u32 (Z.lxor (u32 x) (u32 y)).
Proof. unfold bxor. by word_bits. Qed.

Lemma u32_bnot x : u32 (bnot x) = u32 (Z.lnot (u32 x)).
Proof. unfold bnot. word_bits. done. Qed.

Lemma land_u32 x y : u32 (Z.land (u32 x) (u32 y)) = Z.land (u32 x) (u32 y).
Proof.
  apply Z.bits_inj'. intros i Hi. rewrite u32_bits, !Z.land_spec, !u32_bits by done. by destruct (i <? 32).
Qed.

Lemma lor_u32 x y : u32 (Z.lor (u32 x) (u32 y)) = Z.lor (u32 x) (u32 y).
Proof.
  apply Z.bits_inj'. intros i Hi. rewrite u32_bits, !Z.lor_spec, !u32_bits by done. by destruct (i <? 32).
Qed.

Lemma lxor_u32 x y : u32 (Z.lxor (u32 x) (u32 y)) = Z.lxor (u32 x) (u32 y).
Proof.
  apply Z.bits_inj'. intros i Hi. rewrite u32_bits, !Z.lxor_spec, !u32_bits by done. by destruct (i <? 32).
Qed.

(** ** Shifts *)

Lemma ushr_u32 x n : ushr (u32 x) n = ushr x n.
Proof. unfold ushr. fold (u32 (u32 x)). by rewrite u32_idem. Qed.

Lemma ushr_range x n : 0 <= ushr x n < 2 ^ 32.
Proof.
  unfold ushr. pose proof (u32_range x) as Hx. unfold u32 in Hx. pose proof (Z.mod_pos_bound n 32 ltac:(lia)).
  rewrite Z.shiftr_div_pow2 by lia. assert (0 < 2 ^ (n mod 32)) by (apply Z.pow_pos_nonneg; lia).
  split; [apply Z.div_pos; lia|]. apply Z.div_lt_upper_bound; [done|]. nia.
Qed.

Lemma ushr_small x n : 0 <= x < 2 ^ 32 -> 0 <= n < 32 -> ushr x n = x / 2 ^ n.
Proof.
  intros Hx Hn. unfold ushr. rewrite (Z.mod_small x), (Z.mod_small n) by lia. apply Z.shiftr_div_pow2. lia.
Qed.

Lemma u32_sll x n : 0 <= n < 32 -> u32 (sll x n) = u32 (Z.shiftl (u32 x) n).
Proof.
  intros Hn. unfold sll. rewrite Z.mod_small by lia.
  Transparent shl. unfold shl. Opaque shl. rewrite u32_to_int32.
  apply u32_ext. intros i Hi. rewrite !Z.shiftl_spec by lia.
  destruct (Z_lt_dec i n); [by rewrite !(Z.testbit_neg_r _ (i - n)) by lia|].
  rewrite to_int32_bits, u32_bits by lia. by replace (i - n <? 32) with true by lia.
Qed.

(** The words that are results of the operators. *)
Definition int32 (x : Z) : Prop := - 2 ^ 31 <= x < 2 ^ 31.

Lemma int32_to_int32 x : int32 (to_int32 x).
Proof. apply to_int32_range. Qed.

(** A signed word is what its bits from the 31st on are the same as. *)
Lemma int32_bits x : int32 x <-> forall i, 31 <= i -> Z.testbit x i = Z.testbit x 31.
Proof.
  unfold int32. split.
  - intros Hx i Hi. destruct (Z_lt_dec x 0).
    + assert (Hb : forall j, 31 <= j -> Z.testbit x j = true).
      { intros j Hj. rewrite <- (Z.lnot_involutive x), Z.lnot_spec by lia.
        assert (Hl : 0 <= Z.lnot x < 2 ^ 31) by (unfold Z.lnot; lia).
        destruct (Z.eq_dec (Z.lnot x) 0) as [->|]; [by rewrite Z.bits_0|].
        rewrite Z.bits_above_log2; [done|lia|]. assert (Z.log2 (Z.lnot x) < 31) by (apply Z.log2_lt_pow2; lia). lia. }
      by rewrite !Hb by lia.
    + destruct (Z.eq_dec x 0) as [->|]; [by rewrite !Z.bits_0|].
      assert (Z.log2 x < 31) by (apply Z.log2_lt_pow2; lia). by rewrite !Z.bits_above_log2 by lia.
  - intros H.
    assert (Hs : Z.shiftr x 31 = 0 \/ Z.shiftr x 31 = -1).
    { destruct (Z.testbit x 31) eqn:Hb; [right|left]; apply Z.bits_inj'; intros i Hi;
        rewrite Z.shiftr_spec, H by lia; rewrite ?Z.bits_0, ?Z.bits_m1 by lia; done. }
    rewrite Z.shiftr_div_pow2 in Hs by lia. pose proof (Z.mod_pos_bound x (2 ^ 31) ltac:(lia)).
    pose proof (Z.div_mod x (2 ^ 31) ltac:(lia)). lia.
Qed.

Lemma band_int32 x y : int32 (band x y).
Proof.
  Transparent band. unfold band. Opaque band. apply int32_bits. intros i Hi.
  rewrite !Z.land_spec. by rewrite !(proj1 (int32_bits _) (int32_to_int32 _) i Hi).
Qed.

Lemma bor_int32 x y : int32 (bor x y).
Proof.
  Transparent bor. unfold bor. Opaque bor. apply int32_bits. intros i Hi.
  rewrite !Z.lor_spec. by rewrite !(proj1 (int32_bits _) (int32_to_int32 _) i Hi).
Qed.

Lemma bxor_int32 x y : int32 (bxor x y).
Proof.
  unfold bxor. apply int32_bits. intros i Hi.
  rewrite !Z.lxor_spec. by rewrite !(proj1 (int32_bits _) (int32_to_int32 _) i Hi).
Qed.

Lemma int32_zero : int32 0.
Proof. unfold int32. lia. Qed.

Create HintDb words.
#[export] Hint Resolve int32_to_int32 band_int32 bor_int32 bxor_int32 int32_zero : words.
