(* ===== verification/Base64.v ===== *)
(** base64.js: encoding of byte strings as base64 text, and back.

    [encode] and [decode] are the two loops of the file with their index
    arithmetic and 32-bit operations; [rfc_encode] and [rfc_decode] are the
    reference definitions by groups of three bytes and of four digits. *)
From S2P Require Import Prelude JsString JsNum.

Module Base64.

(** base64.PADCHAR, base64.ALPHA *)
Definition PADCHAR : jstr := "=".
Definition ALPHA : jstr :=
  "ABCDEFGHIJKLMNOPQRSTUVWXYZabcdefghijklmnopqrstuvwxyz0123456789+/".

Definition decode_error : exn := Thrown "Cannot decode base64".
Definition encode_error : exn := Thrown "INVALID_CHARACTER_ERR: DOM Exception 5".

(** base64.getbyte64: [ALPHA.indexOf(s.charAt(i))], thrown when absent. *)
Definition getbyte64 (s : jstr) (i : nat) : res Z :=
  let idx := index_of ALPHA (char_at s i) in
  if decide (idx = -1) then Throw decode_error else Ok idx.

(** The loop [for (i = 0; i < imax; i += 4)] of base64.decode, from index [i]
    with [k] rounds to go; [x] is what was pushed. *)
Fixpoint decode_loop (k : nat) (s : jstr) (i : nat) (x : list jstr) : res (list jstr) :=
  match k with
  | O => Ok x
  | S k =>
      a ← getbyte64 s i; b ← getbyte64 s (i + 1);
      c ← getbyte64 s (i + 2); d ← getbyte64 s (i + 3);
      let b10 := bor (bor (bor (shl a 18) (shl b 12)) (shl c 6)) d in
      decode_loop k s (i + 4)
        (x ++ [from_char_code (shr b10 16) ++ from_char_code (band (shr b10 8) 255)
               ++ from_char_code (band b10 255)])
  end.

(** The number of padding characters found at the end. *)
Definition pads (s : jstr) : nat :=
  let imax := length s in
  if decide (char_at s (imax - 1) = PADCHAR) then
    if decide (char_at s (imax - 2) = PADCHAR) then 2%nat else 1%nat
  else 0%nat.

(** base64.decode *)
Definition decode (s : jstr) : res jstr :=
  let imax := length s in
  if decide (imax = 0)%nat then Ok s
  else if decide (imax mod 4 ≠ 0)%nat then Throw decode_error
  else
    let pads := pads s in
    let imax := if decide (pads = 0)%nat then imax else (imax - 4)%nat in
    x ← decode_loop (imax / 4) s 0 [];
    let i := imax in
    x ← match pads with
        | 1%nat =>
            a ← getbyte64 s i; b ← getbyte64 s (i + 1); c ← getbyte64 s (i + 2);
            let b10 := bor (bor (shl a 18) (shl b 12)) (shl c 6) in
            Ok (x ++ [from_char_code (shr b10 16) ++ from_char_code (band (shr b10 8) 255)])
        | 2%nat =>
            a ← getbyte64 s i; b ← getbyte64 s (i + 1);
            let b10 := bor (shl a 18) (shl b 12) in
            Ok (x ++ [from_char_code (shr b10 16)])
        | _ => Ok x
        end;
    Ok (join [] x).

(** base64.getbyte: [s.charCodeAt(i)], thrown above 255. Out of range it is
    NaN, which is not above 255 and which the bit operators read as 0. *)
Definition getbyte (s : jstr) (i : nat) : res Z :=
  match s !! i with
  | Some x => if decide (255 < x) then Throw encode_error else Ok x
  | None => Ok 0
  end.

Definition alpha_at (z : Z) : jstr := char_at ALPHA (Z.to_nat z).

(** The loop [for (i = 0; i < imax; i += 3)] of base64.encode. *)
Fixpoint encode_loop (k : nat) (s : jstr) (i : nat) (x : list jstr) : res (list jstr) :=
  match k with
  | O => Ok x
  | S k =>
      a ← getbyte s i; b ← getbyte s (i + 1); c ← getbyte s (i + 2);
      let b10 := bor (bor (shl a 16) (shl b 8)) c in
      encode_loop k s (i + 3)
        (x ++ [alpha_at (shr b10 18); alpha_at (band (shr b10 12) 63);
               alpha_at (band (shr b10 6) 63); alpha_at (band b10 63)])
  end.

(** base64.encode, called with its one argument. *)
Definition encode (s : jstr) : res jstr :=
  let imax := (length s - length s mod 3)%nat in
  if decide (length s = 0)%nat then Ok s
  else
    x ← encode_loop (imax / 3) s 0 [];
    let i := imax in
    x ← match (length s - imax)%nat with
        | 1%nat =>
            a ← getbyte s i;
            let b10 := shl a 16 in
            Ok (x ++ [alpha_at (shr b10 18) ++ alpha_at (band (shr b10 12) 63)
                      ++ PADCHAR ++ PADCHAR])
        | 2%nat =>
            a ← getbyte s i; b ← getbyte s (i + 1);
            let b10 := bor (shl a 16) (shl b 8) in
            Ok (x ++ [alpha_at (shr b10 18) ++ alpha_at (band (shr b10 12) 63)
                      ++ alpha_at (band (shr b10 6) 63) ++ PADCHAR])
        | _ => Ok x
        end;
    Ok (join [] x).

(** ** Reference definitions *)

Definition is_byte (c : Z) : Prop := 0 <= c < 256.

Definition sextet (z : Z) : Z := ALPHA !!! Z.to_nat z.

(** Three bytes give four digits; one or two left over give two or three and
    padding (RFC 4648, section 4). *)
Fixpoint rfc_encode (s : jstr) : jstr :=
  match s with
  | a :: b :: c :: s' =>
      [sextet (a / 4); sextet (a mod 4 * 16 + b / 16);
       sextet (b mod 16 * 4 + c / 64); sextet (c mod 64)] ++ rfc_encode s'
  | [a; b] =>
      [sextet (a / 4); sextet (a mod 4 * 16 + b / 16); sextet (b mod 16 * 4); 61]
  | [a] => [sextet (a / 4); sextet (a mod 4 * 16); 61; 61]
  | [] => []
  end.

(** The digit of a character of the alphabet. *)
Definition unsextet (c : Z) : option Z :=
  let i := index_of ALPHA [c] in if decide (i = -1) then None else Some i.

Definition in_alpha (c : Z) : bool := bool_decide (is_Some (unsextet c)).

(** The texts [decode] accepts: groups of four characters of the alphabet, the
    last one possibly ending in one or two padding characters. *)
Fixpoint well_formed (s : jstr) : bool :=
  match s with
  | [] => true
  | [a; b; c; d] =>
      in_alpha a && in_alpha b &&
      (if decide (d = 61) then (bool_decide (c = 61) || in_alpha c) else in_alpha c && in_alpha d)
  | a :: b :: c :: d :: s' =>
      in_alpha a && in_alpha b && in_alpha c && in_alpha d && well_formed s'
  | _ => false
  end.

Definition digit (c : Z) : Z := default 0 (unsextet c).

(** The bytes of a text: six bits a digit, the bits past the last byte dropped. *)
Fixpoint rfc_decode (s : jstr) : jstr :=
  match s with
  | a :: b :: c :: d :: s' =>
      let '(u, v, w, z) := (digit a, digit b, digit c, digit d) in
      let b0 := u * 4 + v / 16 in
      let b1 := v mod 16 * 16 + w / 4 in
      let b2 := w mod 4 * 64 + z in
      if decide (s' = [] /\ d = 61) then
        if decide (c = 61) then [b0] else [b0; b1]
      else [b0; b1; b2] ++ rfc_decode s'
  | _ => []
  end.
(** ** Reading one digit *)

Lemma unsextet_range c v : unsextet c = Some v -> 0 <= v < 64.
Proof.
  unfold unsextet. pose proof (index_of_range ALPHA [c]) as Hr.
  pose proof (index_of_single_lookup ALPHA c) as Hl.
  pose proof (eq_refl : length ALPHA = 64%nat) as H64.
  revert Hr Hl H64. generalize (index_of ALPHA [c]) as r. generalize ALPHA as l.
  intros l r Hr Hl H64. case_decide; [done|]. intros [= <-].
  specialize (Hl (Z.to_nat r) ltac:(lia)). apply lookup_lt_Some in Hl. lia.
Qed.

Definition dig (c : Z) : res Z :=
  match unsextet c with Some v => Ok v | None => Throw decode_error end.

Lemma getbyte64_at s i c :
  s !! i = Some c ->
  getbyte64 s i = dig c.
Proof.
  intros H. unfold dig, unsextet, getbyte64. rewrite (char_at_lookup _ _ _ H).
  by case_decide.
Qed.

Lemma getbyte64_drop s i j : getbyte64 s (i + j) = getbyte64 (drop i s) j.
Proof. unfold getbyte64, char_at. by rewrite lookup_drop. Qed.

Lemma decode_loop_acc k s i x :
  decode_loop k s i x = (fun y => x ++ y) <$> decode_loop k s i [].
Proof.
  revert i x. induction k as [|k IH]; intros i x; cbn [decode_loop].
  { cbn. by rewrite app_nil_r. }
  do 4 (case_match_res; [|done]).
  cbn [app]. match goal with |- context [x ++ [?p]] => generalize p as q; intros q end.
  rewrite (IH (i + 4)%nat (x ++ [q])), (IH (i + 4)%nat [q]).
  destruct (decode_loop k s (i + 4) []); cbn; [|done]. by rewrite <- app_assoc.
Qed.

Lemma decode_loop_drop k s i j x :
  decode_loop k s (i + j) x = decode_loop k (drop i s) j x.
Proof.
  revert j x. induction k as [|k IH]; intros j x; cbn [decode_loop]; [done|].
  rewrite <- !Nat.add_assoc, !getbyte64_drop.
  do 4 (case_match_res; [|done]). by rewrite IH.
Qed.

Lemma well_formed_cons a b c d e s :
  well_formed (a :: b :: c :: d :: e :: s) =
  in_alpha a && in_alpha b && in_alpha c && in_alpha d && well_formed (e :: s).
Proof. done. Qed.

Lemma rfc_decode_cons a b c d e s :
  rfc_decode (a :: b :: c :: d :: e :: s) =
  [digit a * 4 + digit b / 16; digit b mod 16 * 16 + digit c / 4;
   digit c mod 4 * 64 + digit d] ++ rfc_decode (e :: s).
Proof. cbn -[app]. by rewrite decide_False by naive_solver. Qed.

Lemma well_formed_mod s : (length s mod 4 <> 0)%nat -> well_formed s = false.
Proof.
  induction s as [s IH] using (induction_ltof1 _ length).
  destruct s as [|a [|b [|c [|d [|e s]]]]]; try done.
  intros Hm. rewrite well_formed_cons, IH, andb_false_r; [done | unfold ltof; cbn; lia |].
  cbn [length] in *. lia_div.
Qed.

(** ** One block of four digits *)

Definition block (a b c d : Z) : res jstr :=
  u ← dig a;   v ← dig b;
  w ← dig c;   z ← dig d;
  Ok [u * 4 + v / 16; v mod 16 * 16 + w / 4; w mod 4 * 64 + z].

Lemma pack3 u v w z :
  0 <= u < 64 -> 0 <= v < 64 -> 0 <= w < 64 -> 0 <= z < 64 ->
  bor (bor (bor (shl u 18) (shl v 12)) (shl w 6)) z = u * 2 ^ 18 + v * 2 ^ 12 + w * 2 ^ 6 + z.
Proof.
  intros Hu Hv Hw Hz. rewrite !shl_small by lia.
  rewrite (bor_disjoint u (v * 2 ^ 12) 18) by lia.
  replace (u * 2 ^ 18 + v * 2 ^ 12) with ((u * 2 ^ 6 + v) * 2 ^ 12) by lia.
  rewrite (bor_disjoint _ (w * 2 ^ 6) 12) by lia.
  replace ((u * 2 ^ 6 + v) * 2 ^ 12 + w * 2 ^ 6)
    with (((u * 2 ^ 6 + v) * 2 ^ 6 + w) * 2 ^ 6) by lia.
  rewrite (bor_disjoint _ z 6) by lia. lia.
Qed.

Lemma from_char_code_small z : 0 <= z < 256 -> from_char_code z = [z].
Proof. intros Hz. unfold from_char_code. by rewrite Z.mod_small by lia. Qed.

Lemma unpack3 u v w z :
  0 <= u < 64 -> 0 <= v < 64 -> 0 <= w < 64 -> 0 <= z < 64 ->
  let b10 := u * 2 ^ 18 + v * 2 ^ 12 + w * 2 ^ 6 + z in
  from_char_code (shr b10 16) = [u * 4 + v / 16] /\
  from_char_code (band (shr b10 8) 255) = [v mod 16 * 16 + w / 4] /\
  from_char_code (band b10 255) = [w mod 4 * 64 + z].
Proof.
  intros Hu Hv Hw Hz b10.
  assert (Hb : 0 <= b10 < 2 ^ 24) by (unfold b10; lia).
  change 255 with (2 ^ 8 - 1).
  rewrite !shr_small, !band_mask by (try split; try (apply Z.div_pos; lia);
    try (apply Z.div_lt_upper_bound; lia); lia).
  unfold b10. repeat split; (rewrite from_char_code_small; [f_equal|]); lia_div.
Qed.

Lemma decode_loop_block k a b c d s :
  decode_loop (S k) (a :: b :: c :: d :: s) 0 [] =
  p ← block a b c d; (fun x => p :: x) <$> decode_loop k s 0 [].
Proof.
  cbn [decode_loop]. unfold block.
  rewrite (getbyte64_at _ 0 a), (getbyte64_at _ (0 + 1) b),
    (getbyte64_at _ (0 + 2) c), (getbyte64_at _ (0 + 3) d) by done.
  unfold dig.
  destruct (unsextet a) as [u|] eqn:Ha; [|done]; apply unsextet_range in Ha.
  destruct (unsextet b) as [v|] eqn:Hb; [|done]; apply unsextet_range in Hb.
  destruct (unsextet c) as [w|] eqn:Hc; [|done]; apply unsextet_range in Hc.
  destruct (unsextet d) as [z|] eqn:Hd; [|done]; apply unsextet_range in Hd.
  cbn [mbind res_bind]. rewrite pack3 by done.
  destruct (unpack3 u v w z) as (-> & -> & ->); try done.
  rewrite decode_loop_acc, (decode_loop_drop _ _ 4 0). done.
Qed.

(** ** Decoding a text block by block *)

Lemma pads_cons a b c d s :
  (2 <= length s)%nat -> pads (a :: b :: c :: d :: s) = pads s.
Proof.
  intros Hs. unfold pads, char_at. cbn [length].
  replace (S (S (S (S (length s)))) - 1)%nat with (4 + (length s - 1))%nat by lia.
  replace (S (S (S (S (length s)))) - 2)%nat with (4 + (length s - 2))%nat by lia.
  done.
Qed.

(** The last group, once the complete groups have been pushed. *)
Definition tail_block (n : nat) (s : jstr) (i : nat) (x : list jstr) : res (list jstr) :=
  match n with
  | 1%nat =>
      a ← getbyte64 s i; b ← getbyte64 s (i + 1); c ← getbyte64 s (i + 2);
      let b10 := bor (bor (shl a 18) (shl b 12)) (shl c 6) in
      Ok (x ++ [from_char_code (shr b10 16) ++ from_char_code (band (shr b10 8) 255)])
  | 2%nat =>
      a ← getbyte64 s i; b ← getbyte64 s (i + 1);
      let b10 := bor (shl a 18) (shl b 12) in
      Ok (x ++ [from_char_code (shr b10 16)])
  | _ => Ok x
  end.

Lemma tail_block_drop n s i j x : tail_block n s (i + j) x = tail_block n (drop i s) j x.
Proof. unfold tail_block. by rewrite <- ?Nat.add_assoc, ?getbyte64_drop. Qed.

Lemma tail_block_cons n s i p x :
  tail_block n s i (p :: x) = (fun y => p :: y) <$> tail_block n s i x.
Proof.
  unfold tail_block. destruct n as [|[|[|n]]]; try done;
    repeat (case_match_res; [|done]); done.
Qed.

(** [decode] on a non-empty text whose length is a multiple of four. *)
Definition decode_body (s : jstr) : res jstr :=
  let n := if decide (pads s = 0)%nat then length s else (length s - 4)%nat in
  x ← decode_loop (n / 4) s 0 []; y ← tail_block (pads s) s n x; Ok (concat y).

Lemma decode_body_ok s :
  s <> [] -> (length s mod 4 = 0)%nat -> decode s = decode_body s.
Proof.
  intros Hs Hm. unfold decode, decode_body, tail_block.
  rewrite decide_False by (by destruct s). rewrite decide_False by lia.
  destruct (decode_loop _ s 0 []); cbn [mbind res_bind]; [|done].
  destruct (pads s) as [|[|[|n]]]; repeat (case_match_res; [|done]);
    by rewrite join_nil_concat.
Qed.

Lemma decode_body_cons a b c d s :
  (4 <= length s)%nat -> (length s mod 4 = 0)%nat ->
  decode_body (a :: b :: c :: d :: s) =
  p ← block a b c d; (fun x => p ++ x) <$> decode_body s.
Proof.
  intros Hs Hm. unfold decode_body. rewrite pads_cons by lia.
  set (n := if decide (pads s = 0)%nat then length s else (length s - 4)%nat).
  assert (Hn : (if decide (pads s = 0)%nat then length (a :: b :: c :: d :: s)
                else (length (a :: b :: c :: d :: s) - 4)%nat) = (4 + n)%nat).
  { unfold n. cbn [length]. case_decide; lia. }
  rewrite Hn.
  replace ((4 + n) / 4)%nat with (S (n / 4)) by lia_div.
  rewrite decode_loop_block. destruct (block a b c d) as [p|]; [|done]. cbn [mbind res_bind].
  destruct (decode_loop (n / 4) s 0 []) as [x|]; [|done]. cbn [mbind res_bind fmap res_fmap].
  rewrite (tail_block_drop _ _ 4 n).
  change (drop 4 (a :: b :: c :: d :: s)) with s. rewrite tail_block_cons.
  by destruct (tail_block (pads s) s n x).
Qed.

Lemma lookup_4 {A} (a b c d : A) :
  [a; b; c; d] !! 0%nat = Some a /\ [a; b; c; d] !! 1%nat = Some b /\
  [a; b; c; d] !! 2%nat = Some c /\ [a; b; c; d] !! 3%nat = Some d.
Proof. done. Qed.

Lemma unsextet_pad : unsextet 61 = None.
Proof. by vm_compute. Qed.

Lemma pads_last a b c d :
  pads [a; b; c; d] =
  if decide (d = 61) then if decide (c = 61) then 2%nat else 1%nat else 0%nat.
Proof.
  unfold pads, char_at, PADCHAR. cbn. repeat case_decide; naive_solver.
Qed.

(** The last group when it ends in padding. *)
Lemma decode_body_pad2 a b :
  decode_body [a; b; 61; 61] = u ← dig a; v ← dig b; Ok [u * 4 + v / 16].
Proof.
  unfold decode_body. rewrite pads_last. do 2 rewrite (decide_True (P := (61 = 61))) by done.
  change (decode_loop _ _ _ _) with (Ok ([] : list jstr)). cbn [mbind res_bind].
  unfold tail_block. change (if decide (2%nat = 0%nat) then _ else _) with 0%nat.
  rewrite (getbyte64_at _ 0 a), (getbyte64_at _ (0 + 1) b) by done. unfold dig.
  destruct (unsextet a) as [u|] eqn:Ha; [|done]; apply unsextet_range in Ha.
  destruct (unsextet b) as [v|] eqn:Hb; [|done]; apply unsextet_range in Hb.
  cbn [mbind res_bind concat app]. rewrite app_nil_r.
  pose proof (unpack3 u v 0 0) as Hun. cbn zeta in Hun.
  rewrite !shl_small, (bor_disjoint u (v * 2 ^ 12) 18) by lia.
  rewrite !Z.mul_0_l, !Z.add_0_r in Hun. by destruct Hun as (-> & _); try lia.
Qed.

Lemma decode_body_pad1 a b c :
  c <> 61 ->
  decode_body [a; b; c; 61] =
  u ← dig a; v ← dig b; w ← dig c; Ok [u * 4 + v / 16; v mod 16 * 16 + w / 4].
Proof.
  intros Hc. unfold decode_body.
  rewrite pads_last, (decide_True (P := 61 = 61)), (decide_False (P := c = 61)) by done.
  change (decode_loop _ _ _ _) with (Ok ([] : list jstr)). cbn [mbind res_bind].
  unfold tail_block. change (if decide (1%nat = 0%nat) then _ else _) with 0%nat.
  rewrite (getbyte64_at _ 0 a), (getbyte64_at _ (0 + 1) b), (getbyte64_at _ (0 + 2) c) by done.
  unfold dig.
  destruct (unsextet a) as [u|] eqn:Ha; [|done]; apply unsextet_range in Ha.
  destruct (unsextet b) as [v|] eqn:Hb; [|done]; apply unsextet_range in Hb.
  destruct (unsextet c) as [w|] eqn:Hw; [|done]; apply unsextet_range in Hw.
  cbn [mbind res_bind concat app]. rewrite app_nil_r.
  pose proof (pack3 u v w 0) as Hp. pose proof (unpack3 u v w 0) as Hun. cbn zeta in Hun.
  rewrite Z.add_0_r in Hun. rewrite !shl_small by lia.
  rewrite (bor_disjoint u (v * 2 ^ 12) 18) by lia.
  replace (u * 2 ^ 18 + v * 2 ^ 12) with ((u * 2 ^ 6 + v) * 2 ^ 12) in * by lia.
  rewrite (bor_disjoint _ (w * 2 ^ 6) 12) by lia.
  by destruct Hun as (-> & -> & _); try lia.
Qed.

Lemma decode_body_pad0 a b c d : d <> 61 -> decode_body [a; b; c; d] = block a b c d.
Proof.
  intros Hd. unfold decode_body. rewrite pads_last, decide_False by done.
  change ((if decide (0%nat = 0%nat) then _ else _) / 4)%nat with 1%nat.
  rewrite decode_loop_block. destruct (block a b c d); [|done]. cbn. by rewrite app_nil_r.
Qed.

(** The single group that ends a text. *)
Lemma decode_body_last a b c d :
  decode_body [a; b; c; d] =
  if well_formed [a; b; c; d] then Ok (rfc_decode [a; b; c; d]) else Throw decode_error.
Proof.
  cbn [well_formed rfc_decode]. unfold in_alpha, digit.
  destruct (decide (d = 61)) as [->|Hd]; [destruct (decide (c = 61)) as [->|Hc]|].
  - rewrite decode_body_pad2, decide_True by done. unfold dig.
    by destruct (unsextet a), (unsextet b).
  - rewrite decode_body_pad1, decide_True by done. unfold dig.
    rewrite (bool_decide_false (c = 61)) by done.
    by destruct (unsextet a), (unsextet b), (unsextet c).
  - rewrite decode_body_pad0 by done. unfold block, dig.
    destruct (unsextet a), (unsextet b), (unsextet c), (unsextet d); try done. cbn.
    by rewrite decide_False by naive_solver.
Qed.

Lemma decode_spec s :
  decode s = if well_formed s then Ok (rfc_decode s) else Throw decode_error.
Proof.
  induction s as [s IH] using (induction_ltof1 _ length).
  destruct s as [|a [|b [|c [|d s]]]]; [done..|].
  destruct (decide (length s mod 4 = 0)%nat) as [Hm|Hm].
  2: { unfold decode. rewrite decide_False by done. cbn [length].
       rewrite decide_True by (change (S (S (S (S (length s))))) with (4 + length s)%nat; lia_div).
       by rewrite well_formed_mod by (cbn [length]; lia_div). }
  destruct s as [|e s].
  { rewrite decode_body_ok by done. apply decode_body_last. }
  rewrite decode_body_ok by (try done; cbn [length] in *; lia_div).
  rewrite decode_body_cons by (cbn [length] in *; lia_div).
  rewrite <- decode_body_ok by done. rewrite (IH (e :: s)) by (unfold ltof; cbn [length]; lia).
  rewrite well_formed_cons, rfc_decode_cons. unfold block, dig, in_alpha, digit.
  destruct (unsextet a), (unsextet b), (unsextet c), (unsextet d); try done.
  by destruct (well_formed (e :: s)).
Qed.

(** ** Encoding *)

Definition chk (c : Z) : res Z := if decide (255 < c) then Throw encode_error else Ok c.

Lemma getbyte_at s i c : s !! i = Some c -> getbyte s i = chk c.
Proof. unfold getbyte, chk. by intros ->. Qed.

Lemma getbyte_drop s i j : getbyte s (i + j) = getbyte (drop i s) j.
Proof. unfold getbyte. by rewrite lookup_drop. Qed.

Lemma chk_ok c v : 0 <= c -> chk c = Ok v -> v = c /\ is_byte c.
Proof. unfold chk, is_byte. case_decide; intros ? [=]; lia. Qed.

Lemma encode_loop_acc k s i x :
  encode_loop k s i x = (fun y => x ++ y) <$> encode_loop k s i [].
Proof.
  revert i x. induction k as [|k IH]; intros i x; cbn [encode_loop].
  { cbn. by rewrite app_nil_r. }
  do 3 (case_match_res; [|done]).
  cbn [app]. match goal with |- context [x ++ ?p] => generalize p as q; intros q end.
  rewrite (IH (i + 3)%nat (x ++ q)), (IH (i + 3)%nat q).
  destruct (encode_loop k s (i + 3) []); cbn; [|done]. by rewrite <- app_assoc.
Qed.

Lemma encode_loop_drop k s i j x :
  encode_loop k s (i + j) x = encode_loop k (drop i s) j x.
Proof.
  revert j x. induction k as [|k IH]; intros j x; cbn [encode_loop]; [done|].
  rewrite <- !Nat.add_assoc, !getbyte_drop.
  do 3 (case_match_res; [|done]). by rewrite IH.
Qed.

Lemma alpha_at_sextet z : 0 <= z < 64 -> alpha_at z = [sextet z].
Proof.
  intros Hz. unfold alpha_at, char_at, sextet.
  destruct (lookup_lt_is_Some_2 ALPHA (Z.to_nat z)) as [c Hc].
  { change (length ALPHA) with 64%nat. lia. }
  by rewrite (list_lookup_total_correct _ _ _ Hc), Hc.
Qed.

Lemma pack2 a b c :
  is_byte a -> is_byte b -> is_byte c ->
  bor (bor (shl a 16) (shl b 8)) c = a * 2 ^ 16 + b * 2 ^ 8 + c.
Proof.
  unfold is_byte. intros Ha Hb Hc. rewrite !shl_small by lia.
  rewrite (bor_disjoint a (b * 2 ^ 8) 16) by lia.
  replace (a * 2 ^ 16 + b * 2 ^ 8) with ((a * 2 ^ 8 + b) * 2 ^ 8) by lia.
  rewrite (bor_disjoint _ c 8) by lia. lia.
Qed.

Lemma unpack2 a b c :
  is_byte a -> is_byte b -> is_byte c ->
  let b10 := a * 2 ^ 16 + b * 2 ^ 8 + c in
  alpha_at (shr b10 18) = [sextet (a / 4)] /\
  alpha_at (band (shr b10 12) 63) = [sextet (a mod 4 * 16 + b / 16)] /\
  alpha_at (band (shr b10 6) 63) = [sextet (b mod 16 * 4 + c / 64)] /\
  alpha_at (band b10 63) = [sextet (c mod 64)].
Proof.
  intros Ha Hb Hc b10. unfold is_byte in Ha, Hb, Hc.
  assert (Hb10 : 0 <= b10 < 2 ^ 24) by (unfold b10; lia).
  change 63 with (2 ^ 6 - 1).
  rewrite !shr_small, !band_mask by (try split; try (apply Z.div_pos; lia);
    try (apply Z.div_lt_upper_bound; lia); lia).
  unfold b10. repeat split; (rewrite alpha_at_sextet; [do 2 f_equal|]); lia_div.
Qed.

Definition enc_block (a b c : Z) : res jstr :=
  a ← chk a; b ← chk b; c ← chk c;
  Ok [sextet (a / 4); sextet (a mod 4 * 16 + b / 16);
      sextet (b mod 16 * 4 + c / 64); sextet (c mod 64)].

Definition enc_tail (s : jstr) : res jstr :=
  match s with
  | [a] => a ← chk a; Ok [sextet (a / 4); sextet (a mod 4 * 16); 61; 61]
  | [a; b] =>
      a ← chk a; b ← chk b;
      Ok [sextet (a / 4); sextet (a mod 4 * 16 + b / 16); sextet (b mod 16 * 4); 61]
  | _ => Ok []
  end.

Lemma byte_0 : is_byte 0.
Proof. unfold is_byte. lia. Qed.

Lemma encode_loop_block k a b c s :
  0 <= a -> 0 <= b -> 0 <= c ->
  encode_loop (S k) (a :: b :: c :: s) 0 [] =
  p ← enc_block a b c; (fun x => map (fun c => [c]) p ++ x) <$> encode_loop k s 0 [].
Proof.
  intros Ha Hb Hc. cbn [encode_loop]. unfold enc_block.
  rewrite (getbyte_at _ 0 a), (getbyte_at _ (0 + 1) b), (getbyte_at _ (0 + 2) c) by done.
  destruct (chk a) as [v|] eqn:E; [|done]. apply chk_ok in E as [-> Ha']; [|done].
  destruct (chk b) as [v|] eqn:E; [|done]. apply chk_ok in E as [-> Hb']; [|done].
  destruct (chk c) as [v|] eqn:E; [|done]. apply chk_ok in E as [-> Hc']; [|done].
  cbn [mbind res_bind]. rewrite pack2 by done.
  destruct (unpack2 a b c) as (-> & -> & -> & ->); try done.
  by rewrite encode_loop_acc, (encode_loop_drop _ _ 3 0).
Qed.

(** The last group of [encode], from index [i]. *)
Definition enc_rest (s : jstr) (i n : nat) (x : list jstr) : res (list jstr) :=
  match n with
  | 1%nat =>
      a ← getbyte s i;
      let b10 := shl a 16 in
      Ok (x ++ [alpha_at (shr b10 18) ++ alpha_at (band (shr b10 12) 63)
                ++ PADCHAR ++ PADCHAR])
  | 2%nat =>
      a ← getbyte s i; b ← getbyte s (i + 1);
      let b10 := bor (shl a 16) (shl b 8) in
      Ok (x ++ [alpha_at (shr b10 18) ++ alpha_at (band (shr b10 12) 63)
                ++ alpha_at (band (shr b10 6) 63) ++ PADCHAR])
  | _ => Ok x
  end.

Lemma enc_rest_drop s i j n x : enc_rest s (i + j) n x = enc_rest (drop i s) j n x.
Proof. unfold enc_rest. by rewrite <- ?Nat.add_assoc, ?getbyte_drop. Qed.

Lemma enc_rest_app s i n p x : enc_rest s i n (p ++ x) = (fun y => p ++ y) <$> enc_rest s i n x.
Proof.
  unfold enc_rest. destruct n as [|[|[|n]]]; try done;
    repeat (case_match_res; [|done]); by rewrite <- app_assoc.
Qed.

Definition encode_body (s : jstr) : res jstr :=
  x ← encode_loop (length s / 3) s 0 [];
  y ← enc_rest s (3 * (length s / 3)) (length s mod 3) x; Ok (concat y).

Lemma encode_body_ok s : encode s = encode_body s.
Proof.
  unfold encode, encode_body, enc_rest. destruct (decide (length s = 0)%nat) as [H|H].
  { by apply nil_length_inv in H as ->. }
  replace ((length s - length s mod 3) / 3)%nat with (length s / 3)%nat by lia_div.
  replace (length s - (length s - length s mod 3))%nat with (length s mod 3)%nat by lia_div.
  replace (length s - length s mod 3)%nat with (3 * (length s / 3))%nat by lia_div.
  destruct (encode_loop _ s 0 []); cbn [mbind res_bind]; [|done].
  destruct (length s mod 3)%nat as [|[|[|n]]]; repeat (case_match_res; [|done]);
    by rewrite join_nil_concat.
Qed.

Lemma encode_1 a : 0 <= a -> encode [a] = enc_tail [a].
Proof.
  intros Ha. rewrite encode_body_ok.
  change (encode_body [a]) with (y ← enc_rest [a] 0 1 []; Ok (concat y)). unfold enc_rest.
  rewrite (getbyte_at _ 0 a) by done. cbn [enc_tail].
  destruct (chk a) as [v|] eqn:E; [|done]. apply chk_ok in E as [-> Hb]; [|done].
  cbn [mbind res_bind]. pose proof (unpack2 a 0 0 Hb byte_0 byte_0) as (H1 & H2 & _).
  rewrite !Z.mul_0_l, !Z.add_0_r in H1, H2. rewrite shl_small by (unfold is_byte in Hb; lia).
  rewrite H1, H2. cbn. by rewrite Z.add_0_r.
Qed.

Lemma encode_2 a b : 0 <= a -> 0 <= b -> encode [a; b] = enc_tail [a; b].
Proof.
  intros Ha Hb. rewrite encode_body_ok.
  change (encode_body [a; b]) with (y ← enc_rest [a; b] 0 2 []; Ok (concat y)). unfold enc_rest.
  rewrite (getbyte_at _ 0 a), (getbyte_at _ (0 + 1) b) by done. cbn [enc_tail].
  destruct (chk a) as [v|] eqn:E; [|done]. apply chk_ok in E as [-> Ha']; [|done].
  destruct (chk b) as [v|] eqn:E; [|done]. apply chk_ok in E as [-> Hb']; [|done].
  cbn [mbind res_bind].
  pose proof (unpack2 a b 0 Ha' Hb' byte_0) as (H1 & H2 & H3 & _).
  rewrite Z.add_0_r in H1, H2, H3. unfold is_byte in *. rewrite !shl_small by lia.
  rewrite (bor_disjoint a (b * 2 ^ 8) 16) by lia. rewrite H1, H2, H3. cbn.
  by rewrite Z.add_0_r.
Qed.

Lemma concat_singletons (p : jstr) : concat (map (fun c => [c]) p) = p.
Proof. induction p; cbn; congruence. Qed.

Lemma encode_cons a b c s :
  0 <= a -> 0 <= b -> 0 <= c ->
  encode (a :: b :: c :: s) = p ← enc_block a b c; (fun x => p ++ x) <$> encode s.
Proof.
  intros Ha Hb Hc. rewrite !encode_body_ok. unfold encode_body.
  replace (length (a :: b :: c :: s) / 3)%nat with (S (length s / 3)) by (cbn [length]; lia_div).
  replace (length (a :: b :: c :: s) mod 3)%nat with (length s mod 3)%nat
    by (cbn [length]; lia_div).
  rewrite encode_loop_block by done. destruct (enc_block a b c) as [p|]; [|done].
  cbn [mbind res_bind]. destruct (encode_loop (length s / 3) s 0 []) as [x|]; [|done].
  cbn [mbind res_bind fmap res_fmap].
  replace (3 * S (length s / 3))%nat with (3 + 3 * (length s / 3))%nat by lia.
  rewrite enc_rest_drop. change (drop 3 (a :: b :: c :: s)) with s. rewrite enc_rest_app.
  destruct (enc_rest _ _ _ x); [|done]. cbn. by rewrite concat_app, concat_singletons.
Qed.

Definition all_bytes (s : jstr) : bool := forallb (fun c => c <=? 255) s.

Lemma chk_le c : chk c = if c <=? 255 then Ok c else Throw encode_error.
Proof. unfold chk. case_decide; destruct (Z.leb_spec c 255); try lia; done. Qed.

Lemma encode_spec s :
  wf_jstr s ->
  encode s = if all_bytes s then Ok (rfc_encode s) else Throw encode_error.
Proof.
  induction s as [s IH] using (induction_ltof1 _ length). unfold wf_jstr, is_code_unit in *.
  destruct s as [|a [|b [|c s]]]; rewrite ?Forall_cons; [done| | |].
  - intros [Ha _]. rewrite encode_1 by lia. cbn. rewrite chk_le. by destruct (a <=? 255).
  - intros (Ha & Hb & _). rewrite encode_2 by lia. cbn. rewrite !chk_le.
    by destruct (a <=? 255), (b <=? 255).
  - intros (Ha & Hb & Hc & Hs). rewrite encode_cons by lia. unfold enc_block.
    rewrite !chk_le, IH by (done || (unfold ltof; cbn; lia)). cbn [all_bytes forallb].
    destruct (a <=? 255), (b <=? 255), (c <=? 255); try done. cbn [andb mbind res_bind].
    fold (all_bytes s). by destruct (all_bytes s).
Qed.

(** ** Round trip *)

Lemma unsextet_sextet z : 0 <= z < 64 -> unsextet (sextet z) = Some z.
Proof.
  intros Hz. assert (Hall : Forall (fun z => unsextet (sextet z) = Some z) (seqZ 0 64)).
  { apply (bool_decide_unpack _). by vm_compute. }
  rewrite Forall_forall in Hall. apply Hall, elem_of_seqZ. lia.
Qed.

Lemma digit_sextet z : 0 <= z < 64 -> digit (sextet z) = z.
Proof. intros Hz. unfold digit. by rewrite unsextet_sextet. Qed.

Lemma in_alpha_sextet z : 0 <= z < 64 -> in_alpha (sextet z) = true.
Proof. intros Hz. unfold in_alpha. rewrite unsextet_sextet by done. by apply bool_decide_true. Qed.

Lemma sextet_not_pad z : 0 <= z < 64 -> sextet z <> 61.
Proof. intros Hz Heq. pose proof (unsextet_sextet z Hz) as H. by rewrite Heq, unsextet_pad in H. Qed.

Ltac byte_arith := unfold is_byte in *; lia_div.

Lemma rfc_encode_first_cons a s : exists e t, rfc_encode (a :: s) = e :: t.
Proof. destruct s as [|b [|c s]]; cbn; eauto. Qed.

Lemma rfc_round_trip s :
  Forall is_byte s -> well_formed (rfc_encode s) = true /\ rfc_decode (rfc_encode s) = s.
Proof.
  induction s as [s IH] using (induction_ltof1 _ length).
  destruct s as [|a [|b [|c s]]]; rewrite ?Forall_cons; [done| | |].
  - intros [Ha _]. cbn [rfc_encode well_formed rfc_decode].
    rewrite !decide_True by done. rewrite !in_alpha_sextet, !digit_sextet by byte_arith.
    split; [done|]. f_equal. byte_arith.
  - intros (Ha & Hb & _). cbn [rfc_encode well_formed rfc_decode].
    rewrite !(decide_True (P := 61 = 61)), (decide_True (P := [] = [] /\ _)) by done.
    rewrite (decide_False (P := sextet _ = 61)) by (apply sextet_not_pad; byte_arith).
    rewrite !in_alpha_sextet, !digit_sextet, orb_true_r by byte_arith.
    split; [done|]. f_equal; [|f_equal]; byte_arith.
  - intros (Ha & Hb & Hc & Hs). destruct (IH s) as [IH1 IH2]; [unfold ltof; cbn; lia | done |].
    cbn [rfc_encode app]. destruct s as [|d s].
    + cbn [rfc_encode well_formed rfc_decode].
      rewrite !(decide_False (P := sextet _ = 61)) by (apply sextet_not_pad; byte_arith).
      rewrite decide_False by (intros [_ H]; revert H; apply sextet_not_pad; byte_arith).
      rewrite !in_alpha_sextet, !digit_sextet by byte_arith.
      split; [done|]. cbn. f_equal; [|f_equal; [|f_equal]]; byte_arith.
    + destruct (rfc_encode_first_cons d s) as (e & t & He). rewrite He in *.
      rewrite well_formed_cons, rfc_decode_cons, IH1, IH2.
      rewrite !in_alpha_sextet, !digit_sextet by byte_arith.
      split; [done|]. cbn. f_equal; [|f_equal; [|f_equal]]; byte_arith.
Qed.

Lemma all_bytes_spec s : wf_jstr s -> all_bytes s = true <-> Forall is_byte s.
Proof.
  unfold wf_jstr, is_code_unit, is_byte, all_bytes. induction 1 as [|c s Hc _ IH].
  { split; constructor. }
  cbn. rewrite andb_true_iff, IH, Forall_cons, Z.leb_le. intuition lia.
Qed.

Lemma bytes_wf s : Forall is_byte s -> wf_jstr s.
Proof. intros H. eapply Forall_impl; [exact H|]. unfold is_byte, is_code_unit. intros; lia. Qed.

Lemma encode_bytes s : Forall is_byte s -> encode s = Ok (rfc_encode s).
Proof.
  intros Hs. rewrite encode_spec by by apply bytes_wf.
  by rewrite (proj2 (all_bytes_spec s (bytes_wf s Hs)) Hs).
Qed.

(** C29: base64.decode accepts exactly the texts made of groups of four
    characters of the alphabet, the last group possibly padded, returns the
    bytes of the reference definition for them, and throws "Cannot decode
    base64" on every other text. *)
Theorem decode_correct s :
  decode s = if well_formed s then Ok (rfc_decode s) else Throw decode_error.
Proof. apply decode_spec. Qed.

(** Base64.encode returns the text of the reference definition on a byte
    string and throws on any string that holds a code unit above 255. *)
Theorem encode_correct s :
  wf_jstr s ->
  encode s = if all_bytes s then Ok (rfc_encode s) else Throw encode_error.
Proof. apply encode_spec. Qed.

(** Decoding what base64.encode returned gives the byte string back. *)
Theorem decode_encode s : Forall is_byte s -> encode s ≫= decode = Ok s.
Proof.
  intros Hs. rewrite encode_bytes by done. cbn. rewrite decode_spec.
  by destruct (rfc_round_trip s Hs) as [-> ->].
Qed.

Lemma decode_encode_witness :
  Forall is_byte [0; 104; 255; 10] /\ encode [0; 104; 255; 10] ≫= decode = Ok [0; 104; 255; 10].
Proof.
  assert (H : Forall is_byte [0; 104; 255; 10]) by (repeat constructor; unfold is_byte; lia).
  split; [exact H | exact (decode_encode _ H)].
Defined.

Lemma encode_correct_witness :
  wf_jstr [104; 105] /\
  encode [104; 105] = if all_bytes [104; 105] then Ok (rfc_encode [104; 105]) else Throw encode_error.
Proof.
  assert (H : wf_jstr [104; 105]) by (repeat constructor; unfold is_code_unit; lia).
  split; [exact H | exact (encode_correct _ H)].
Defined.

Example encode_hi : encode "hi!" = Ok (js "aGkh").
Proof. by vm_compute. Qed.

Example decode_rejects : decode "aG=h" = Throw decode_error.
Proof. by vm_compute. Qed.

End Base64.
