(* ===== verification/Uri.v ===== *)
(** The percent encodings of the language that the UI relies on
    ([encodeURIComponent], [escape], [unescape]), and prefs.js's
    [encode_utf8] and [b64_encode_utf8] built from them. *)
From S2P Require Import Prelude JsString JsNum Base64.

(** ** Character classes *)

Definition is_digit (c : Z) : bool := (48 <=? c) && (c <=? 57).
Definition is_upper (c : Z) : bool := (65 <=? c) && (c <=? 90).
Definition is_lower (c : Z) : bool := (97 <=? c) && (c <=? 122).
Definition is_alnum (c : Z) : bool := is_digit c || is_upper c || is_lower c.

(** Kept by encodeURIComponent: letters, digits and [-_.!~*'()]. *)
Definition uri_unreserved (c : Z) : bool :=
  is_alnum c || bool_decide (c ∈ [45; 95; 46; 33; 126; 42; 39; 40; 41]).

(** Kept by escape: letters, digits and [@*_+-./]. *)
Definition escape_safe (c : Z) : bool :=
  is_alnum c || bool_decide (c ∈ [64; 42; 95; 43; 45; 46; 47]).

(** ** White space and number parsing *)

(** White space and line terminators of the language. *)
Definition is_space (c : Z) : bool :=
  bool_decide (c ∈ [9; 10; 11; 12; 13; 32; 160; 5760; 8232; 8233; 8239; 8287; 12288; 65279])
  || ((8192 <=? c) && (c <=? 8202)).

Fixpoint trim_start (s : jstr) : jstr :=
  match s with c :: s' => if is_space c then trim_start s' else s | [] => [] end.

Definition trim (s : jstr) : jstr := rev (trim_start (rev (trim_start s))).

Fixpoint digits_value (val : Z -> option Z) (base acc : Z) (seen : bool) (s : jstr) : option Z :=
  match s with
  | c :: s' =>
      match val c with
      | Some d => digits_value val base (acc * base + d) true s'
      | None => if seen then Some acc else None
      end
  | [] => if seen then Some acc else None
  end.

Definition dec_val (c : Z) : option Z := if is_digit c then Some (c - 48) else None.

(** A sign and what follows it. *)
Definition split_sign (s : jstr) : Z * jstr :=
  match s with
  | 45 :: s' => (-1, s')
  | 43 :: s' => (1, s')
  | _ => (1, s)
  end.

(** [parseInt(s, 10)]: [None] is NaN. *)
Definition parse_int10 (s : jstr) : option Z :=
  let '(sg, s) := split_sign (trim_start s) in
  Z.mul sg <$> digits_value dec_val 10 0 false s.

(** ** Hexadecimal *)

Definition hex_digit (d : Z) : Z := if d <? 10 then 48 + d else 55 + d.

Definition hex_val (c : Z) : option Z :=
  if is_digit c then Some (c - 48)
  else if (65 <=? c) && (c <=? 70) then Some (c - 55)
  else if (97 <=? c) && (c <=? 102) then Some (c - 87)
  else None.

(** [parseInt(s)]: a [0x] prefix selects base 16. *)
Definition parse_int (s : jstr) : option Z :=
  let '(sg, s) := split_sign (trim_start s) in
  match s with
  | 48 :: x :: s' =>
      if decide (x = 120 \/ x = 88) then Z.mul sg <$> digits_value hex_val 16 0 false s'
      else Z.mul sg <$> digits_value dec_val 10 0 false s
  | _ => Z.mul sg <$> digits_value dec_val 10 0 false s
  end.

Definition pct_byte (b : Z) : jstr := [37; hex_digit (b / 16); hex_digit (b mod 16)].

(** ** UTF-8 *)

Definition is_lead (c : Z) : bool := (55296 <=? c) && (c <=? 56319).
Definition is_trail (c : Z) : bool := (56320 <=? c) && (c <=? 57343).

Definition code_point (lead trail : Z) : Z := (lead - 55296) * 1024 + (trail - 56320) + 65536.

(** The octets of a code point. *)
Definition utf8 (cp : Z) : list Z :=
  if cp <? 128 then [cp]
  else if cp <? 2048 then [192 + cp / 64; 128 + cp mod 64]
  else if cp <? 65536 then [224 + cp / 4096; 128 + cp / 64 mod 64; 128 + cp mod 64]
  else [240 + cp / 262144; 128 + cp / 4096 mod 64; 128 + cp / 64 mod 64; 128 + cp mod 64].

Definition pct (bs : list Z) : jstr := flat_map pct_byte bs.

(** [encodeURIComponent(s)]: a surrogate that is not the first or second half
    of a pair throws. *)
Fixpoint encodeURIComponent (s : jstr) : res jstr :=
  match s with
  | [] => Ok []
  | c :: s1 =>
      if uri_unreserved c then cons c <$> encodeURIComponent s1
      else if is_trail c then Throw URIError
      else if is_lead c then
        match s1 with
        | d :: s2 =>
            if is_trail d then app (pct (utf8 (code_point c d))) <$> encodeURIComponent s2
            else Throw URIError
        | [] => Throw URIError
        end
      else app (pct (utf8 c)) <$> encodeURIComponent s1
  end.

(** [escape(s)] *)
Definition escape_unit (c : Z) : jstr :=
  if escape_safe c then [c]
  else if c <? 256 then pct_byte c
  else [37; 117; hex_digit (c / 4096); hex_digit (c / 256 mod 16);
        hex_digit (c / 16 mod 16); hex_digit (c mod 16)].

Definition escape (s : jstr) : jstr := flat_map escape_unit s.

Definition hex2 (a b : Z) : option Z :=
  x ← hex_val a; y ← hex_val b; Some (x * 16 + y).

Definition hex4 (a b c d : Z) : option Z :=
  x ← hex2 a b; y ← hex2 c d; Some (x * 256 + y).

(** [unescape(s)]: [%uXXXX] and [%XX] are decoded, anything else is kept. *)
Fixpoint unescape (s : jstr) : jstr :=
  match s with
  | [] => []
  | c :: s1 =>
      if decide (c = 37) then
        match s1 with
        | u :: a :: s3 =>
            let two := match hex2 u a with
                       | Some v => v :: unescape s3
                       | None => c :: unescape s1
                       end in
            match s3 with
            | b :: e :: d :: s6 =>
                match (if decide (u = 117) then hex4 a b e d else None) with
                | Some v => v :: unescape s6
                | None => two
                end
            | _ => two
            end
        | _ => c :: unescape s1
        end
      else c :: unescape s1
  end.

(** prefs.js: [unescape(encodeURIComponent(str))] *)
Definition encode_utf8 (s : jstr) : res jstr := unescape <$> encodeURIComponent s.

(** prefs.js: [base64.encode(encode_utf8(str))] *)
Definition b64_encode_utf8 (s : jstr) : res jstr := encode_utf8 s ≫= Base64.encode.

(** formatters.js: [esc(str)] of a string. *)
Definition esc (s : jstr) : res jstr := encodeURIComponent s.

(** ** Reference definition: the UTF-8 octets of a string, [None] when a
    surrogate stands alone *)

Fixpoint utf8_of (s : jstr) : option (list Z) :=
  match s with
  | [] => Some []
  | c :: s1 =>
      if is_trail c then None
      else if is_lead c then
        match s1 with
        | d :: s2 => if is_trail d then app (utf8 (code_point c d)) <$> utf8_of s2 else None
        | [] => None
        end
      else app (utf8 c) <$> utf8_of s1
  end.

(** ** Hexadecimal digits *)

Lemma hex_val_digit d : 0 <= d < 16 -> hex_val (hex_digit d) = Some d.
Proof.
  intros Hd. assert (Hall : Forall (fun d => hex_val (hex_digit d) = Some d) (seqZ 0 16)).
  { apply (bool_decide_unpack _). by vm_compute. }
  rewrite Forall_forall in Hall. apply Hall, elem_of_seqZ. lia.
Qed.

Lemma hex2_digits b :
  0 <= b < 256 -> hex2 (hex_digit (b / 16)) (hex_digit (b mod 16)) = Some b.
Proof.
  intros Hb. unfold hex2. rewrite !hex_val_digit by lia_div. cbn. f_equal. lia_div.
Qed.

Lemma hex_digit_not_u d : 0 <= d < 16 -> hex_digit d <> 117.
Proof. unfold hex_digit. case_match_goal; lia. Qed.

Lemma hex4_digits c :
  0 <= c < 65536 ->
  hex4 (hex_digit (c / 4096)) (hex_digit (c / 256 mod 16))
       (hex_digit (c / 16 mod 16)) (hex_digit (c mod 16)) = Some c.
Proof.
  intros Hc. unfold hex4, hex2. rewrite !hex_val_digit by lia_div. cbn. f_equal. lia_div.
Qed.

(** ** Decimal numerals *)

Lemma dec_val_digit d : 0 <= d < 10 -> dec_val (digit_unit d) = Some d.
Proof.
  intros Hd. unfold dec_val, is_digit, digit_unit. rewrite (proj2 (Z.ltb_lt d 10)) by lia.
  rewrite !(proj2 (Z.leb_le _ _)) by lia. cbn. f_equal. lia.
Qed.

Lemma digits_value_digits fuel n acc :
  (0 < fuel)%nat -> 0 <= n < 2 ^ Z.of_nat fuel ->
  digits_value dec_val 10 0 false (digits fuel 10 n acc) = digits_value dec_val 10 n true acc.
Proof.
  revert n acc. induction fuel as [|fuel IH]; intros n acc Hf Hn; [lia|]. cbn [digits].
  rewrite Nat2Z.inj_succ, Z.pow_succ_r in Hn by lia. destruct (Z.ltb_spec n 10) as [Hlt|Hge].
  - cbn [digits_value]. rewrite dec_val_digit by lia_div. f_equal. lia_div.
  - assert (0 < fuel)%nat by (destruct fuel; cbn in Hn; lia).
    rewrite IH by lia_div. cbn [digits_value]. rewrite dec_val_digit by lia_div. f_equal. lia_div.
Qed.

Lemma digits_head fuel n acc :
  (0 < fuel)%nat -> 0 <= n ->
  exists d s, 0 <= d < 10 /\ digits fuel 10 n acc = digit_unit d :: s.
Proof.
  revert n acc. induction fuel as [|fuel IH]; intros n acc Hf Hn; [lia|]. cbn [digits].
  case_match_goal; [exists (n mod 10), acc; split; [lia_div | done]|].
  destruct fuel as [|fuel]; [exists (n mod 10), acc; split; [lia_div | done]|].
  apply IH; [lia | lia_div].
Qed.

Lemma digits_wf fuel base n acc : 0 <= n -> 1 < base <= 16 -> wf_jstr acc -> wf_jstr (digits fuel base n acc).
Proof.
  intros Hn Hb. revert n Hn acc. induction fuel as [|fuel IH]; intros n Hn acc Hacc; [done|].
  cbn [digits]. assert (wf_jstr (digit_unit (n mod base) :: acc)).
  { constructor; [|done]. pose proof (digit_unit_range (n mod base)) as Hr.
    pose proof (Z.mod_pos_bound n base). unfold is_code_unit. lia. }
  case_match_goal; [done|]. apply IH; [apply Z.div_pos; lia | done].
Qed.

Lemma dec_wf n : 0 <= n -> wf_jstr (dec n).
Proof.
  intros Hn. unfold dec, to_string. rewrite (proj2 (Z.ltb_ge n 0)) by lia.
  apply digits_wf; [lia | lia | constructor].
Qed.

Lemma digits_digits fuel n acc :
  0 <= n -> forallb is_digit acc = true -> forallb is_digit (digits fuel 10 n acc) = true.
Proof.
  revert n acc. induction fuel as [|fuel IH]; intros n acc Hn Hacc; [done|]. cbn [digits].
  assert (forallb is_digit (digit_unit (n mod 10) :: acc) = true).
  { cbn [forallb]. rewrite Hacc, andb_true_r. pose proof (Z.mod_pos_bound n 10 eq_refl).
    unfold is_digit, digit_unit. case_match; lia. }
  case_match; [done|]. apply IH; [apply Z.div_pos; lia|done].
Qed.

Lemma dec_digits n : 0 <= n -> forallb is_digit (dec n) = true.
Proof.
  intros Hn. unfold dec, to_string. rewrite (proj2 (Z.ltb_ge n 0)) by lia. by apply digits_digits.
Qed.

Lemma digits_value_dec n : 0 <= n -> digits_value dec_val 10 0 false (dec n) = Some n.
Proof.
  intros Hn. unfold dec, to_string. rewrite (proj2 (Z.ltb_ge n 0)) by lia.
  rewrite digits_value_digits; [done | unfold digit_fuel; lia |]. unfold digit_fuel.
  destruct (Z.eq_dec n 0) as [->|Hne]; [cbn; lia|]. pose proof (Z.log2_spec n ltac:(lia)).
  pose proof (Z.log2_nonneg n). rewrite Nat2Z.inj_succ, Z2Nat.id by lia. lia.
Qed.

(** [parseInt] reads back the numeral of a non-negative integer. *)
Lemma parse_int10_dec n : 0 <= n -> parse_int10 (dec n) = Some n.
Proof.
  intros Hn. pose proof (digits_value_dec n Hn) as Hv. revert Hv.
  unfold dec, to_string. rewrite (proj2 (Z.ltb_ge n 0)) by lia. intros Hv.
  destruct (digits_head (digit_fuel n) n []) as (d & s & Hd & E); [unfold digit_fuel; lia|lia|].
  rewrite E in Hv |- *. unfold parse_int10.
  assert (Hc : is_space (digit_unit d) = false /\ split_sign (digit_unit d :: s) = (1, digit_unit d :: s)).
  { clear -Hd. revert d Hd. apply (Forall_range (fun d =>
      is_space (digit_unit d) = false /\ split_sign (digit_unit d :: s) = (1, digit_unit d :: s))).
    repeat constructor. }
  destruct Hc as [Hsp Hs]. cbn [trim_start]. rewrite Hsp.
  rewrite Hs, Hv. cbn. f_equal. lia.
Qed.

(** ** unescape inverts escape *)

Lemma unescape_other c s : c <> 37 -> unescape (c :: s) = c :: unescape s.
Proof. intros Hc. cbn [unescape]. by rewrite decide_False. Qed.

Lemma unescape_pct b s : 0 <= b < 256 -> unescape (pct_byte b ++ s) = b :: unescape s.
Proof.
  intros Hb. unfold pct_byte. cbn [app unescape]. rewrite (decide_True (P := 37 = 37)) by done.
  rewrite hex2_digits by done.
  destruct s as [|? [|? [|? ?]]]; try done.
  by rewrite (decide_False (P := hex_digit _ = 117)) by (apply hex_digit_not_u; lia_div).
Qed.

Lemma unescape_u c s :
  0 <= c < 65536 ->
  unescape ([37; 117; hex_digit (c / 4096); hex_digit (c / 256 mod 16);
             hex_digit (c / 16 mod 16); hex_digit (c mod 16)] ++ s) = c :: unescape s.
Proof.
  intros Hc. cbn [app unescape]. rewrite (decide_True (P := 37 = 37)) by done.
  rewrite (decide_True (P := 117 = 117)) by done. by rewrite hex4_digits.
Qed.

Lemma escape_safe_not_pct c : escape_safe c = true -> c <> 37.
Proof. intros H ->. by vm_compute in H. Qed.

Lemma unescape_escape_app s t : wf_jstr s -> unescape (escape s ++ t) = s ++ unescape t.
Proof.
  unfold wf_jstr, is_code_unit. induction 1 as [|c s Hc _ IH]; [done|].
  cbn [escape flat_map]. fold (escape s). rewrite <- app_assoc.
  unfold escape_unit. destruct (escape_safe c) eqn:E.
  - apply escape_safe_not_pct in E. cbn [app]. by rewrite unescape_other, IH.
  - destruct (Z.ltb_spec c 256); [rewrite unescape_pct by lia | rewrite unescape_u by lia];
      cbn; by rewrite IH.
Qed.

Lemma unescape_escape_all s : wf_jstr s -> unescape (escape s) = s.
Proof. intros Hs. by rewrite <- (app_nil_r (escape s)), unescape_escape_app, app_nil_r. Qed.

(** Unescape undoes escape on every string of the language, so what
    store_cookie writes is what parse_cookie reads. *)
Theorem unescape_escape s t : wf_jstr s -> unescape (escape s ++ t) = s ++ unescape t.
Proof. apply unescape_escape_app. Qed.

Lemma unescape_escape_witness :
  wf_jstr [58; 124; 8364; 37] /\
  unescape (escape [58; 124; 8364; 37] ++ js "%3A") = [58; 124; 8364; 37; 58].
Proof.
  assert (H : wf_jstr [58; 124; 8364; 37]) by (repeat constructor; unfold is_code_unit; lia).
  split; [exact H | exact (unescape_escape _ "%3A" H)].
Defined.

(** The only exception of [esc]. *)
Lemma esc_error s e : esc s = Throw e -> e = URIError.
Proof.
  unfold esc. induction s as [s IH] using (induction_ltof1 _ length).
  destruct s as [|c s1]; [done|]. cbn [encodeURIComponent].
  assert (Hf : forall (f : jstr -> jstr) t, (ltof jstr length t (c :: s1)) ->
      f <$> encodeURIComponent t = Throw e -> e = URIError).
  { intros f t Ht. destruct (encodeURIComponent t) eqn:E; [done|]. intros [= <-]. by apply (IH t). }
  destruct (uri_unreserved c); [apply Hf; unfold ltof; cbn; lia|].
  destruct (is_trail c); [by intros [= <-]|]. destruct (is_lead c).
  - destruct s1 as [|d s2]; [by intros [= <-]|].
    destruct (is_trail d); [apply Hf; unfold ltof; cbn; lia | by intros [= <-]].
  - apply Hf; unfold ltof; cbn; lia.
Qed.

(** ** UTF-8 *)

Lemma utf8_bytes cp : 0 <= cp < 1114112 -> Forall Base64.is_byte (utf8 cp).
Proof.
  intros Hcp. unfold utf8, Base64.is_byte.
  destruct (Z.ltb_spec cp 128); [|destruct (Z.ltb_spec cp 2048); [|destruct (Z.ltb_spec cp 65536)]];
    repeat constructor; lia_div.
Qed.

Lemma unescape_pct_app bs s :
  Forall Base64.is_byte bs -> unescape (pct bs ++ s) = bs ++ unescape s.
Proof.
  induction 1 as [|b bs Hb _ IH]; [done|].
  change (pct (b :: bs)) with (pct_byte b ++ pct bs). rewrite <- app_assoc.
  rewrite unescape_pct by exact Hb. cbn. by rewrite IH.
Qed.

Lemma code_point_range c d :
  is_lead c = true -> is_trail d = true -> 65536 <= code_point c d < 1114112.
Proof.
  unfold is_lead, is_trail, code_point. rewrite !andb_true_iff, !Z.leb_le. lia.
Qed.

Lemma unreserved_ascii c : uri_unreserved c = true -> 0 <= c < 128 /\ c <> 37.
Proof.
  unfold uri_unreserved, is_alnum, is_digit, is_upper, is_lower.
  rewrite !orb_true_iff, !andb_true_iff, !Z.leb_le, bool_decide_eq_true.
  rewrite !elem_of_cons, elem_of_nil. lia.
Qed.

Lemma ascii_not_surrogate c : c < 128 -> is_trail c = false /\ is_lead c = false.
Proof. unfold is_trail, is_lead. rewrite !andb_false_iff, !Z.leb_gt. lia. Qed.

Lemma encode_utf8_utf8_of s :
  wf_jstr s ->
  encode_utf8 s = match utf8_of s with Some bs => Ok bs | None => Throw URIError end.
Proof.
  unfold encode_utf8. induction s as [s IH] using (induction_ltof1 _ length). intros Hs.
  destruct s as [|c s1]; [done|]. inversion Hs as [|? ? Hc Hs1]; subst.
  assert (IH1 := IH s1 ltac:(unfold ltof; cbn; lia) Hs1).
  cbn [encodeURIComponent utf8_of]. destruct (uri_unreserved c) eqn:Eu.
  { apply unreserved_ascii in Eu as [Hr Hp]. destruct (ascii_not_surrogate c) as [-> ->]; [lia|].
    unfold utf8. rewrite (proj2 (Z.ltb_lt c 128)) by lia.
    destruct (encodeURIComponent s1), (utf8_of s1); cbn -[unescape] in IH1 |- *; try congruence.
    rewrite unescape_other by done. congruence. }
  destruct (is_trail c) eqn:Et; [done|]. destruct (is_lead c) eqn:El.
  - destruct s1 as [|d s2]; [done|]. destruct (is_trail d) eqn:Ed; [|done].
    inversion Hs1 as [|? ? _ Hs2]; subst.
    assert (IH2 := IH s2 ltac:(unfold ltof; cbn; lia) Hs2).
    pose proof (utf8_bytes (code_point c d)) as Hb. pose proof (code_point_range c d El Ed).
    destruct (encodeURIComponent s2), (utf8_of s2); cbn -[unescape] in IH2 |- *; try congruence.
    rewrite unescape_pct_app by (apply Hb; lia). congruence.
  - unfold is_code_unit in Hc. pose proof (utf8_bytes c ltac:(lia)) as Hb.
    destruct (encodeURIComponent s1), (utf8_of s1); cbn -[unescape] in IH1 |- *; try congruence.
    rewrite unescape_pct_app by done. congruence.
Qed.

Lemma utf8_of_bytes s bs : wf_jstr s -> utf8_of s = Some bs -> Forall Base64.is_byte bs.
Proof.
  revert bs. induction s as [s IH] using (induction_ltof1 _ length). intros bs Hs.
  destruct s as [|c s1]; cbn [utf8_of]; [intros [= <-]; constructor|].
  inversion Hs as [|? ? Hc Hs1]; subst. destruct (is_trail c) eqn:Et; [done|].
  destruct (is_lead c) eqn:El.
  - destruct s1 as [|d s2]; [done|]. destruct (is_trail d) eqn:Ed; [|done].
    inversion Hs1 as [|? ? _ Hs2]; subst. intros (bs' & Hbs' & ->)%fmap_Some.
    apply Forall_app. split; [|by eapply (IH s2); [unfold ltof; cbn; lia|..]].
    apply utf8_bytes. pose proof (code_point_range c d El Ed). lia.
  - intros (bs' & Hbs' & ->)%fmap_Some. unfold is_code_unit in Hc.
    apply Forall_app. split; [apply utf8_bytes; lia | by eapply (IH s1); [unfold ltof; cbn; lia|..]].
Qed.

Lemma b64_encode_utf8_spec s :
  wf_jstr s ->
  b64_encode_utf8 s =
  match utf8_of s with
  | Some bs => Ok (Base64.rfc_encode bs)
  | None => Throw URIError
  end.
Proof.
  intros Hs. unfold b64_encode_utf8. rewrite encode_utf8_utf8_of by done.
  destruct (utf8_of s) as [bs|] eqn:E; [|done]. cbn.
  apply Base64.encode_bytes. by eapply utf8_of_bytes.
Qed.

(** The credentials encoder: b64_encode_utf8 returns the base64 text of the
    string's UTF-8 octets, so it never hits base64.encode's INVALID_CHARACTER
    exception; the only exception is a URIError, for a lone surrogate. *)
Theorem b64_encode_utf8_correct s :
  wf_jstr s ->
  b64_encode_utf8 s =
  match utf8_of s with
  | Some bs => Ok (Base64.rfc_encode bs)
  | None => Throw URIError
  end.
Proof. apply b64_encode_utf8_spec. Qed.

Lemma b64_encode_utf8_correct_witness :
  wf_jstr [103; 58; 233; 55357; 56832] /\
  b64_encode_utf8 [103; 58; 233; 55357; 56832] = Ok (js "ZzrDqfCfmIA=").
Proof.
  assert (H : wf_jstr [103; 58; 233; 55357; 56832])
    by (repeat constructor; unfold is_code_unit; lia).
  split; [exact H | rewrite (b64_encode_utf8_correct _ H); vm_compute; reflexivity].
Defined.
