(* ===== verification/JsObject.v ===== *)
(** Plain objects used as dictionaries: own properties in creation order, with
    the enumeration order of the language (integer keys first, ascending). *)
From S2P Require Import Prelude JsString JsNum Uri.

Notation obj A := (list (jstr * A)) (only parsing).

(** [o[k]] on own properties; [None] is undefined. *)
Fixpoint get {A} (o : obj A) (k : jstr) : option A :=
  match o with
  | [] => None
  | (k', v) :: o' => if decide (k' = k) then Some v else get o' k
  end.

(** [o[k] = v]: replaced in place, or created last. *)
Fixpoint put {A} (o : obj A) (k : jstr) (v : A) : obj A :=
  match o with
  | [] => [(k, v)]
  | (k', v') :: o' => if decide (k' = k) then (k', v) :: o' else (k', v') :: put o' k v
  end.

(** [delete o[k]] *)
Definition del {A} (o : obj A) (k : jstr) : obj A := filter (fun kv => kv.1 <> k) o.

Definition keys_of {A} (o : obj A) : list jstr := o.*1.

(** The integer a key stands for, when it is a canonical array index. *)
Definition index_key (k : jstr) : option Z :=
  match k with
  | [] => None
  | _ =>
      if forallb is_digit k then
        let n := foldl (fun n c => n * 10 + (c - 48)) 0 k in
        if decide (dec n = k /\ n < 2 ^ 32 - 1) then Some n else None
      else None
  end.

(** Insertion of an integer-keyed property in ascending order. *)
Fixpoint insert_index {A} (n : Z) (kv : jstr * A) (l : list (Z * (jstr * A))) :=
  match l with
  | [] => [(n, kv)]
  | (m, kv') :: l' => if n <=? m then (n, kv) :: l else (m, kv') :: insert_index n kv l'
  end.

Definition index_entries {A} (o : obj A) : list (Z * (jstr * A)) :=
  foldr (fun kv l => match index_key kv.1 with Some n => insert_index n kv l | None => l end) [] o.

(** The own properties in the order of [for (k in o)] and Object.keys. *)
Definition entries {A} (o : obj A) : obj A :=
  (index_entries o).*2 ++ filter (fun kv => index_key kv.1 = None) o.

(** ** Laws *)

Section Laws.
Context {A : Type}.
Implicit Types (o : obj A) (k : jstr) (v : A).

Lemma get_put o k v : get (put o k v) k = Some v.
Proof. induction o as [|[k' v'] o IH]; cbn; repeat (case_decide; cbn); congruence. Qed.

Lemma get_put_ne o k k' v : k <> k' -> get (put o k v) k' = get o k'.
Proof.
  intros Hne. induction o as [|[k1 v1] o IH]; cbn; repeat (case_decide; cbn); congruence.
Qed.

Lemma get_del o k : get (del o k) k = None.
Proof.
  unfold del. induction o as [|[k1 v1] o IH]; [done|].
  rewrite filter_cons. cbn. case_decide; cbn; [|done]. by rewrite decide_False.
Qed.

Lemma get_del_ne o k k' : k <> k' -> get (del o k) k' = get o k'.
Proof.
  intros Hne. unfold del. induction o as [|[k1 v1] o IH]; [done|].
  rewrite filter_cons. cbn. case_decide as H; cbn.
  - by rewrite IH.
  - subst. by rewrite decide_False.
Qed.

Lemma get_In o k v : get o k = Some v -> (k, v) ∈ o.
Proof.
  induction o as [|[k1 v1] o IH]; cbn; [done|].
  case_decide as H; [intros [= ->]; subst; left | intros ?; right; auto].
Qed.

Lemma get_None o k : get o k = None <-> k ∉ keys_of o.
Proof.
  unfold keys_of. induction o as [|[k1 v1] o IH]; cbn.
  - split; [intros _; apply not_elem_of_nil | done].
  - rewrite not_elem_of_cons. case_decide; [naive_solver|]. rewrite IH. naive_solver.
Qed.

Lemma In_get o k v : NoDup (keys_of o) -> (k, v) ∈ o -> get o k = Some v.
Proof.
  unfold keys_of. induction o as [|[k1 v1] o IH]; [intros _ H; by apply elem_of_nil in H|].
  cbn. rewrite NoDup_cons. intros [Hn Hd] [[= -> ->]|H]%elem_of_cons.
  - by rewrite decide_True.
  - case_decide as He; [|auto]. subst. destruct Hn. apply list_elem_of_fmap. by exists (k, v).
Qed.

Lemma keys_put o k v :
  keys_of (put o k v) = if decide (k ∈ keys_of o) then keys_of o else keys_of o ++ [k].
Proof.
  unfold keys_of. induction o as [|[k1 v1] o IH]; [done|]. cbn.
  destruct (decide (k1 = k)) as [->|Hne].
  - rewrite decide_True; [done | left].
  - cbn. rewrite IH. repeat case_decide; try done.
    + by destruct H0; right.
    + match goal with H : _ ∈ _ :: _ |- _ => apply elem_of_cons in H as [?|?] end; congruence.
Qed.

Lemma put_put o k v v' : put (put o k v) k v' = put o k v'.
Proof.
  induction o as [|[k1 v1] o IH]; cbn; [by rewrite decide_True|].
  case_decide; cbn; [by rewrite decide_True|]. rewrite decide_False by done. by rewrite IH.
Qed.

Lemma put_fresh o k v : k ∉ keys_of o -> put o k v = o ++ [(k, v)].
Proof.
  unfold keys_of. induction o as [|[k1 v1] o IH]; cbn; [done|].
  rewrite not_elem_of_cons. intros [Hne Hn]. rewrite decide_False by congruence. by rewrite IH.
Qed.

Lemma entries_unindexed o : Forall (fun k => index_key k = None) (keys_of o) -> entries o = o.
Proof.
  unfold keys_of, entries. intros Hf.
  assert (index_entries o = []) as ->.
  { induction o as [|[k v] o IH]; [done|]. inversion Hf as [|? ? Hk Ho]; subst. cbn in Hk |- *.
    unfold index_entries in IH. rewrite IH by done. by rewrite Hk. }
  cbn. induction o as [|[k v] o IH]; [done|]. inversion Hf as [|? ? Hk Ho]; subst. cbn in Hk.
  rewrite filter_cons. cbn. rewrite decide_True by done. by rewrite IH.
Qed.

Lemma NoDup_put o k v : NoDup (keys_of o) -> NoDup (keys_of (put o k v)).
Proof.
  rewrite keys_put. case_decide; [done|]. intros Hd. apply NoDup_app. split; [done|].
  split; [|apply NoDup_singleton]. intros x Hx ->%list_elem_of_singleton. done.
Qed.

Lemma NoDup_del o k : NoDup (keys_of o) -> NoDup (keys_of (del o k)).
Proof.
  unfold keys_of, del. intros Hd. eapply sublist_NoDup; [exact Hd|].
  apply fmap_sublist, sublist_filter.
Qed.

Lemma insert_index_perm n (kv : jstr * A) l : (insert_index n kv l).*2 ≡ₚ kv :: l.*2.
Proof.
  induction l as [|[m kv'] l IH]; [done|]. cbn. case_match_goal; [done|]. cbn.
  rewrite IH. apply Permutation_swap.
Qed.

Lemma entries_perm o : entries o ≡ₚ o.
Proof.
  unfold entries. induction o as [|kv o IH]; [done|].
  rewrite filter_cons. cbn [index_entries foldr]. fold (index_entries o).
  destruct (index_key kv.1) eqn:E; rewrite ?E.
  - rewrite decide_False by done. rewrite insert_index_perm. cbn. by rewrite IH.
  - rewrite decide_True by done. rewrite <- Permutation_middle. by rewrite IH.
Qed.

Lemma get_perm o1 o2 : NoDup (keys_of o1) -> o1 ≡ₚ o2 -> forall k, get o1 k = get o2 k.
Proof.
  intros Hd Hp k. assert (Hd2 : NoDup (keys_of o2)).
  { unfold keys_of in *. by rewrite <- Hp. }
  destruct (get o1 k) as [v|] eqn:E.
  - symmetry. apply In_get; [done|]. rewrite <- Hp. by apply get_In.
  - symmetry. apply get_None. apply get_None in E. unfold keys_of in *. by rewrite <- Hp.
Qed.

Lemma get_entries o k : NoDup (keys_of o) -> get (entries o) k = get o k.
Proof. intros Hd. symmetry. apply get_perm; [done|]. by rewrite entries_perm. Qed.

Lemma NoDup_entries o : NoDup (keys_of o) -> NoDup (keys_of (entries o)).
Proof. unfold keys_of. by rewrite entries_perm. Qed.

End Laws.

#[export] Hint Resolve NoDup_put NoDup_del NoDup_entries : js_db.
