(* ===== verification/JsValue.v ===== *)
(** Values of the language as the UI meets them: what JSON.parse returns, form
    fields, and the plain objects built from them.

    Numbers are decimals [mant / 10 ^ scale]. The conversions between decimal
    text and doubles are exact for the decimals of at most 15 digits, which are
    the ones the model speaks of. *)
From S2P Require Import Prelude JsString JsNum Uri JsObject.

(** ** Numbers *)

Record num := Num { mant : Z; scale : nat }.

#[global] Instance num_eq_dec : EqDecision num.
Proof. solve_decision. Defined.

Definition num_of (n : Z) : num := Num n 0.

(** No trailing zero after the point. *)
Fixpoint strip_zeros (m : Z) (s : nat) : num :=
  match s with
  | O => Num m 0
  | S s' => if m mod 10 =? 0 then strip_zeros (m / 10) s' else Num m s
  end.

(** [x < y] and [x <= y] *)
Definition num_ltb (x y : num) : bool :=
  mant x * 10 ^ Z.of_nat (scale y) <? mant y * 10 ^ Z.of_nat (scale x).
Definition num_leb (x y : num) : bool := negb (num_ltb y x).

(** [n] as exactly [s] digits. *)
Fixpoint pad_digits (s : nat) (n : Z) (acc : jstr) : jstr :=
  match s with O => acc | S s => pad_digits s (n / 10) (digit_unit (n mod 10) :: acc) end.

(** ["" + x] *)
Definition num_string (x : num) : jstr :=
  match scale x with
  | O => dec (mant x)
  | S _ =>
      let a := Z.abs (mant x) in
      let p := 10 ^ Z.of_nat (scale x) in
      (if mant x <? 0 then js "-" else []) ++ dec (a / p) ++ "." ++ pad_digits (scale x) (a mod p) []
  end.

(** The digits of a fraction: the number read so far and how many digits. *)
Fixpoint frac_digits (m : Z) (s : nat) (t : jstr) : Z * nat * jstr :=
  match t with
  | c :: t' => match dec_val c with
               | Some d => frac_digits (m * 10 + d) (S s) t'
               | None => (m, s, t)
               end
  | [] => (m, s, t)
  end.

Definition starts_digit (t : jstr) : bool :=
  match t with c :: _ => is_digit c | [] => false end.

(** An exponent part; ignored when no digit follows the [e]. *)
Definition exponent (t : jstr) : Z :=
  match t with
  | c :: t' =>
      if decide (c = 101 \/ c = 69) then
        let '(sg, t') := split_sign t' in
        match digits_value dec_val 10 0 false t' with Some e => sg * e | None => 0 end
      else 0
  | [] => 0
  end.

Definition scaled (m : Z) (s : nat) (e : Z) : num :=
  if e <? 0 then strip_zeros m (s + Z.to_nat (- e))
  else let m' := m * 10 ^ e in strip_zeros m' s.

(** [parseFloat(s)]: [None] is NaN (the text "Infinity" is not treated). *)
Definition parse_float (t : jstr) : option num :=
  let '(sg, t) := split_sign (trim_start t) in
  let '(m, d, t1) := frac_digits 0 0 t in
  let '(m, s, t2) := match t1 with
                     | 46 :: t' => frac_digits m 0 t'
                     | _ => (m, 0%nat, t1)
                     end in
  if decide (d + s = 0)%nat then None
  else Some (scaled (sg * m) s (exponent t2)).

(** ** Values *)

Inductive value :=
  | VUndef
  | VNull
  | VBool (b : bool)
  | VNum (n : num)
  | VNaN
  | VStr (s : jstr)
  | VArr (l : list value)
  | VObj (o : list (jstr * value)).

Definition VInt (n : Z) : value := VNum (num_of n).

(** Induction with hypotheses for the elements and the properties. *)
Section Induction.
Variable P : value -> Prop.
Hypothesis (Hu : P VUndef) (Hn : P VNull) (Hb : forall b, P (VBool b)) (Hi : forall n, P (VNum n))
  (Hnan : P VNaN) (Hs : forall s, P (VStr s))
  (Ha : forall l, Forall P l -> P (VArr l))
  (Ho : forall o, Forall (fun kv => P kv.2) o -> P (VObj o)).

Fixpoint value_ind' (v : value) : P v :=
  match v with
  | VUndef => Hu
  | VNull => Hn
  | VBool b => Hb b
  | VNum n => Hi n
  | VNaN => Hnan
  | VStr s => Hs s
  | VArr l => Ha l ((fix go l : Forall P l :=
      match l with
      | [] => @List.Forall_nil _ P
      | v :: l => @List.Forall_cons _ P v l (value_ind' v) (go l)
      end) l)
  | VObj o => Ho o ((fix go o : Forall (fun kv => P kv.2) o :=
      match o with
      | [] => @List.Forall_nil _ _
      | kv :: o => @List.Forall_cons _ (fun kv : jstr * value => P kv.2) kv o (value_ind' kv.2) (go o)
      end) o)
  end.
End Induction.

(** ["" + v] *)
Fixpoint to_str (v : value) : jstr :=
  match v with
  | VUndef => "undefined"
  | VNull => "null"
  | VBool b => if b then "true" else "false"
  | VNum n => num_string n
  | VNaN => "NaN"
  | VStr s => s
  | VArr l => join "," (map (fun x => match x with VUndef | VNull => [] | _ => to_str x end) l)
  | VObj _ => "[object Object]"
  end.

(** [v == undefined] *)
Definition nullish (v : value) : bool := match v with VUndef | VNull => true | _ => false end.

Definition truthy (v : value) : bool :=
  match v with
  | VUndef | VNull | VNaN => false
  | VBool b => b
  | VNum n => negb (mant n =? 0)
  | VStr s => bool_decide (s <> [])
  | VArr _ | VObj _ => true
  end.

(** [v == s] for a string that is neither blank nor a numeral: an array is
    compared by its text, everything else but a string differs. *)
Definition eq_word (v : value) (s : jstr) : bool :=
  match v with
  | VStr t => bool_decide (t = s)
  | VArr _ => bool_decide (to_str v = s)
  | _ => false
  end.

(** [v == ""]: the empty string, and what converts to it or to the number 0. *)
Definition eq_empty (v : value) : bool :=
  match v with
  | VStr t => bool_decide (t = [])
  | VNum n => mant n =? 0
  | VBool b => negb b
  | VArr _ => bool_decide (to_str v = [])
  | _ => false
  end.

(** Names every object inherits, which [in] and property access see. *)
Definition PROTOTYPE : list jstr :=
  [js "constructor"; js "__defineGetter__"; js "__defineSetter__"; js "hasOwnProperty";
   js "__lookupGetter__"; js "__lookupSetter__"; js "isPrototypeOf"; js "propertyIsEnumerable";
   js "toString"; js "valueOf"; js "__proto__"; js "toLocaleString"].

(** [k in o] *)
Definition has_in {A} (o : obj A) (k : jstr) : bool :=
  bool_decide (k ∈ keys_of o) || bool_decide (k ∈ PROTOTYPE).

(** [v.k] and [v[k]] on own properties. *)
Definition field (v : value) (k : jstr) : res value :=
  match v with
  | VUndef | VNull => Throw TypeError
  | VObj o => Ok (default VUndef (get o k))
  | VArr l =>
      Ok (if decide (k = "length") then VInt (Z.of_nat (length l))
          else match index_key k with
               | Some i => default VUndef (l !! Z.to_nat i)
               | None => VUndef
               end)
  | VStr s =>
      Ok (if decide (k = "length") then VInt (Z.of_nat (length s))
          else match index_key k with
               | Some i => match s !! Z.to_nat i with Some c => VStr [c] | None => VUndef end
               | None => VUndef
               end)
  | _ => Ok VUndef
  end.

(** A property of an object known to be one. *)
Definition prop (o : obj value) (k : jstr) : value := default VUndef (get o k).

(** The pairs a [for (k in v)] runs through. *)
Definition for_in (v : value) : list (jstr * value) :=
  match v with
  | VObj o => entries o
  | VArr l => imap (fun i x => (dec (Z.of_nat i), x)) l
  | VStr s => imap (fun i c => (dec (Z.of_nat i), VStr [c])) s
  | _ => []
  end.

Example parse_float_frac : parse_float " -12.50kB" = Some (Num (-125) 1).
Proof. by_compute. Qed.

Example parse_float_exp : parse_float ".5e3" = Some (Num 500 0).
Proof. by_compute. Qed.

Example num_string_frac : num_string (Num (-1205) 3) = js "-1.205".
Proof. by_compute. Qed.
