(* ===== verification/Json.v ===== *)
(** JSON texts (json2-2016.10.28.js): [JSON.stringify] with [quote] and [str],
    and [JSON.parse] with the check that a text is safe before it is evaluated.
    The library installs them in a browser that has none of its own; the page
    uses them for the bodies of its requests and the answers to them.

    The values are those the page makes into texts: data without functions and
    dates, so no value has a toJSON method and a replacer is a value too. *)
From S2P Require Import Prelude JsString JsNum Uri JsObject JsValue.

(** ** Classes of code units *)

Definition in_ranges (l : list (Z * Z)) (u : Z) : bool :=
  existsb (fun '(a, b) => (a <=? u) && (u <=? b)) l.

(** What both expressions escape. *)
Definition rx_dangerous : list (Z * Z) :=
  [(0x0, 0x0); (0xad, 0xad); (0x600, 0x604); (0x70f, 0x70f); (0x17b4, 0x17b4); (0x17b5, 0x17b5);
   (0x200c, 0x200f); (0x2028, 0x202f); (0x2060, 0x206f); (0xfeff, 0xfeff); (0xfff0, 0xffff)].

Definition rx_escapable : list (Z * Z) :=
  [(92, 92); (34, 34); (0x0, 0x1f); (0x7f, 0x9f); (0xad, 0xad); (0x600, 0x604); (0x70f, 0x70f);
   (0x17b4, 0x17b4); (0x17b5, 0x17b5); (0x200c, 0x200f); (0x2028, 0x202f); (0x2060, 0x206f);
   (0xfeff, 0xfeff); (0xfff0, 0xffff)].

(** ** Writing *)

(** The table of character substitutions. *)
Definition meta : obj jstr :=
  [([8], js "\b"); ([9], js "\t"); ([10], js "\n"); ([12], js "\f"); ([13], js "\r");
   ([34], js "\`"); ([92], js "\\")].

Definition unicode_escape (a : Z) : jstr :=
  "\u" ++ slice_from ("0000" ++ to_string 16 a) (-4).

Definition substitute (a : Z) : jstr :=
  match get meta [a] with Some c => c | None => unicode_escape a end.

Definition escaped (s : jstr) : jstr :=
  flat_map (fun a => if in_ranges rx_escapable a then substitute a else [a]) s.

Definition quote (s : jstr) : jstr :=
  if existsb (in_ranges rx_escapable) s then "`" ++ escaped s ++ "`" else "`" ++ s ++ "`".

(** The partial results of an array or an object in its brackets. *)
Definition wrap (opening closing : jstr) (gap mind : jstr) (partial : list jstr) : jstr :=
  match partial with
  | [] => opening ++ closing
  | _ =>
      if decide (gap = []) then opening ++ join "," partial ++ closing
      else opening ++ [10] ++ gap ++ join ("," ++ [10] ++ gap) partial ++ [10] ++ mind ++ closing
  end.

(** The member [k] of an object, unless its value has no text. *)
Definition member (gap : jstr) (k : jstr) (v : option jstr) : list jstr :=
  match v with
  | None | Some [] => []
  | Some v => [quote k ++ (if decide (gap = []) then js ":" else js ": ") ++ v]
  end.

(** The members of an object with the names of an array, given the texts of
    the members it has or inherits. *)
Definition selected (gap : jstr) (names : list value) (text : jstr -> option jstr) : list jstr :=
  flat_map (fun k => match k with VStr k => member gap k (text k) | _ => [] end) names.

(** The text of the prototype of all objects: its members are functions, which
    have none, and its own prototype is null. *)
Definition prototype_text (indent gap : jstr) (names : list value) : jstr :=
  let mind := gap in
  let gap := gap ++ indent in
  wrap "{" "}" gap mind
    (selected gap names (fun k => if decide (k = "__proto__") then Some (js "null") else None)).

(** The text of [value[k]], given those of the own members: all an object
    inherits are functions and its prototype. *)
Definition member_text (texts : obj (option jstr)) (prototype k : jstr) : option jstr :=
  match get texts k with
  | Some t => t
  | None => if decide (k = "__proto__") then Some prototype else None
  end.

(** [str(k, v)] || "null" *)
Definition or_null (t : option jstr) : jstr :=
  match t with None | Some [] => "null" | Some t => t end.

(** str, for the value found in the holder: [gap] is the current indentation,
    [rep] the array that selects members, if there is one. *)
Fixpoint str (rep : option (list value)) (indent gap : jstr) (v : value) : option jstr :=
  match v with
  | VStr s => Some (quote s)
  | VNum n => Some (num_string n)
  | VNaN | VNull => Some (js "null")
  | VBool b => Some (if b then js "true" else js "false")
  | VUndef => None
  | VArr l =>
      let mind := gap in
      let gap := gap ++ indent in
      Some (wrap "[" "]" gap mind (map (fun x => or_null (str rep indent gap x)) l))
  | VObj o =>
      let mind := gap in
      let gap := gap ++ indent in
      let texts := map (fun kv => (kv.1, str rep indent gap kv.2)) o in
      let partial :=
        match rep with
        | Some names => selected gap names (member_text texts (prototype_text indent gap names))
        | None => flat_map (fun kv => member gap kv.1 kv.2) (entries texts)
        end in
      Some (wrap "{" "}" gap mind partial)
  end.

(** The least integer that is not below [n], for loops [i < n]. *)
Definition ceiling (n : num) : Z := - ((- mant n) / 10 ^ Z.of_nat (scale n)).

(** The indentation for a space parameter. *)
Definition space_indent (space : value) : jstr :=
  match space with
  | VNum n => replicate (Z.to_nat (ceiling n)) 32
  | VStr s => s
  | _ => []
  end.

(** The members a replacer selects, or the complaint about it. *)
Definition replacer_members (replacer : value) : res (option (list value)) :=
  if truthy replacer then
    match replacer with
    | VArr l => Ok (Some l)
    | VObj o =>
        match prop o "length" with
        | VNum n => Ok (Some (map (fun i => prop o (dec i)) (seqZ 0 (ceiling n))))
        | VNaN => Ok (Some [])
        | _ => Throw (JsError "JSON.stringify")
        end
    | _ => Throw (JsError "JSON.stringify")
    end
  else Ok None.

(** JSON.stringify; undefined when the value has no text. *)
Definition stringify (v replacer space : value) : res (option jstr) :=
  rep ← replacer_members replacer;
  Ok (str rep (space_indent space) [] v).

(** ** The check of a text *)

Definition is_hex (c : Z) : bool := match hex_val c with Some _ => true | None => false end.

(** [text.replace(rx_two, "@")]: the pairs of a backslash. *)
Fixpoint replace_two (t : jstr) : jstr :=
  match t with
  | [] => []
  | c :: t1 =>
      if decide (c = 92) then
        match t1 with
        | d :: t2 =>
            if bool_decide (d ∈ js "`\/bfnrt") then 64 :: replace_two t2
            else if decide (d = 117) then
              match t2 with
              | h1 :: h2 :: h3 :: h4 :: t3 =>
                  if is_hex h1 && is_hex h2 && is_hex h3 && is_hex h4 then 64 :: replace_two t3
                  else c :: replace_two t1
              | _ => c :: replace_two t1
              end
            else c :: replace_two t1
        | [] => [c]
        end
      else c :: replace_two t1
  end.

(** The units of a string token between its quotes. *)
Definition string_unit (c : Z) : bool := negb (bool_decide (c ∈ [34; 92; 10; 13])).

(** The longest prefix of units with a property, and the rest. *)
Fixpoint span (p : Z -> bool) (t : jstr) : jstr * jstr :=
  match t with
  | c :: t' => if p c then let '(a, b) := span p t' in (c :: a, b) else ([], t)
  | [] => ([], [])
  end.

Definition after_sign (t : jstr) : jstr :=
  match t with c :: t' => if bool_decide (c ∈ js "+-") then t' else t | [] => [] end.

(** [(?:\.\d* )?] *)
Definition after_fraction (t : jstr) : jstr :=
  match t with c :: t' => if decide (c = 46) then (span is_digit t').2 else t | [] => [] end.

(** [(?:[eE][+\-]?\d+)?] *)
Definition after_exponent (t : jstr) : jstr :=
  match t with
  | c :: t' =>
      if bool_decide (c ∈ js "eE") then
        match span is_digit (after_sign t') with
        | ([], _) => t
        | (_, t') => t'
        end
      else t
  | [] => []
  end.

(** [\d+(?:\.\d* )?(?:[eE][+\-]?\d+)?] *)
Definition after_digits (t : jstr) : option jstr :=
  match span is_digit t with
  | ([], _) => None
  | (_, t) => Some (after_exponent (after_fraction t))
  end.

(** What follows a simple value token at the start of the text. *)
Definition after_token (t : jstr) : option jstr :=
  if starts_with t "true" then Some (drop 4 t)
  else if starts_with t "false" then Some (drop 5 t)
  else if starts_with t "null" then Some (drop 4 t)
  else match t with
       | c :: t' =>
           if decide (c = 34) then
             match (span string_unit t').2 with
             | d :: t'' => if decide (d = 34) then Some t'' else None
             | [] => None
             end
           else if decide (c = 45) then after_digits t'
           else after_digits t
       | [] => None
       end.

(** [.replace(rx_three, "]")]: [skip] units belong to the token before. *)
Fixpoint replace_three (skip : nat) (t : jstr) : jstr :=
  match t with
  | [] => []
  | c :: t' =>
      match skip with
      | S n => replace_three n t'
      | O =>
          match after_token t with
          | Some r => 93 :: replace_three (length t' - length r) t'
          | None => c :: replace_three 0 t'
          end
      end
  end.

(** What follows [(?:\s*\[)*], the brackets at the start of [t]; [best] is what
    follows the last one found. *)
Fixpoint after_brackets (best t : jstr) : jstr :=
  match t with
  | c :: t' =>
      if decide (c = 91) then after_brackets t' t'
      else if is_space c then after_brackets best t'
      else best
  | [] => best
  end.

(** The matches of rx_four after the first unit: a colon or a comma with the
    brackets that follow it. *)
Fixpoint replace_four_rest (skip : nat) (t : jstr) : jstr :=
  match t with
  | [] => []
  | c :: t' =>
      match skip with
      | S n => replace_four_rest n t'
      | O =>
          let r := after_brackets t' t' in
          if bool_decide (c ∈ js ":,") && (length r <? length t')%nat
          then replace_four_rest (length t' - length r) t'
          else c :: replace_four_rest 0 t'
      end
  end.

(** [.replace(rx_four, "")] *)
Definition replace_four (t : jstr) : jstr := replace_four_rest 0 (after_brackets t t).

Definition rx_one_unit (c : Z) : bool := bool_decide (c ∈ js "],:{}") || is_space c.

(** [rx_one.test(...)] *)
Definition json_safe (t : jstr) : bool :=
  forallb rx_one_unit (replace_four (replace_three 0 (replace_two t))).

(** ** Reading *)

(** The text whose dangerous characters are escapes. *)
Definition escape_dangerous (t : jstr) : jstr :=
  if existsb (in_ranges rx_dangerous) t
  then flat_map (fun a => if in_ranges rx_dangerous a then unicode_escape a else [a]) t
  else t.

Section Parse.
(** The evaluation of a program text, which is part of the language. *)
Variable eval : jstr -> res value.

Definition defined (v : value) : bool := match v with VUndef => false | _ => true end.

(** walk, with a reviver that depends on key and value. *)
Fixpoint walk (reviver : jstr -> value -> value) (key : jstr) (v : value) : value :=
  reviver key
    match v with
    | VArr l =>
        VArr ((fix elements (i : Z) (l : list value) :=
                 match l with
                 | [] => []
                 | x :: l => walk reviver (dec i) x :: elements (i + 1) l
                 end) 0 l)
    | VObj o => VObj (filter (fun kv => defined kv.2 = true) (map (fun kv => (kv.1, walk reviver kv.1 kv.2)) o))
    | _ => v
    end.

(** JSON.parse *)
Definition parse (text : jstr) (reviver : option (jstr -> value -> value)) : res value :=
  let text := escape_dangerous text in
  if json_safe text then
    j ← eval ("(" ++ text ++ ")");
    Ok match reviver with Some f => walk f [] j | None => j end
  else Throw SyntaxError.

End Parse.
