(* ===== verification/JsonFacts.v ===== *)
(** The JSON texts the page writes are read back: a reader of the JSON grammar,
    the values that have texts, and the round trip through [Json.stringify]. *)
From S2P Require Import Prelude JsString JsNum Uri JsObject JsValue Json.

(** ** The reader

    The grammar of JSON as the language reads it, by recursive descent; the
    fuel bounds the depth of values and the number of their parts. *)

Definition json_ws (c : Z) : bool := bool_decide (c ∈ [9; 10; 13; 32]).

Fixpoint skip_ws (t : jstr) : jstr :=
  match t with c :: t' => if json_ws c then skip_ws t' else t | [] => [] end.

(** The unit a character after a backslash stands for. *)
Definition unescaped (c : Z) : option Z :=
  get [([34], 34); ([92], 92); ([47], 47); ([98], 8); ([102], 12); ([110], 10); ([114], 13); ([116], 9)] [c].

(** What follows an opening quote: the string and what follows its closing one. *)
Fixpoint read_string (t : jstr) : option (jstr * jstr) :=
  match t with
  | [] => None
  | c :: t1 =>
      if decide (c = 34) then Some ([], t1)
      else if decide (c = 92) then
        match t1 with
        | d :: t2 =>
            if decide (d = 117) then
              match t2 with
              | h1 :: h2 :: h3 :: h4 :: t3 =>
                  u ← hex4 h1 h2 h3 h4; '(s, r) ← read_string t3; Some (u :: s, r)
              | _ => None
              end
            else u ← unescaped d; '(s, r) ← read_string t2; Some (u :: s, r)
        | [] => None
        end
      else if c <? 32 then None
      else '(s, r) ← read_string t1; Some (c :: s, r)
  end.

Definition read_minus (t : jstr) : Z * jstr :=
  match t with c :: t' => if decide (c = 45) then (-1, t') else (1, t) | [] => (1, t) end.

(** Digits without a leading zero. *)
Definition read_int (t : jstr) : option (Z * jstr) :=
  let '(m, d, t') := frac_digits 0 0 t in
  if decide (d = O) then None
  else if bool_decide (head t = Some 48) && (1 <? d)%nat then None
  else Some (m, t').

Definition read_frac (m : Z) (t : jstr) : option (Z * nat * jstr) :=
  match t with
  | c :: t' =>
      if decide (c = 46) then
        let '(m, s, t'') := frac_digits m 0 t' in
        if decide (s = O) then None else Some (m, s, t'')
      else Some (m, O, t)
  | [] => Some (m, O, t)
  end.

Definition read_exponent (t : jstr) : option (Z * jstr) :=
  match t with
  | c :: t' =>
      if bool_decide (c ∈ js "eE") then
        let '(sg, t') := split_sign t' in
        let '(e, d, t'') := frac_digits 0 0 t' in
        if decide (d = O) then None else Some (sg * e, t'')
      else Some (0, t)
  | [] => Some (0, t)
  end.

Definition read_number (t : jstr) : option (num * jstr) :=
  let '(sg, t) := read_minus t in
  '(m, t) ← read_int t;
  '(m, s, t) ← read_frac m t;
  '(e, t) ← read_exponent t;
  Some (scaled (sg * m) s e, t).

(** The items of a list, at least one, and its closing bracket. *)
Section Items.
Context {A : Type}.
Variable item : jstr -> option (A * jstr).
Variable closing : Z.

Fixpoint read_list (n : nat) (t : jstr) : option (list A * jstr) :=
  match n with
  | O => None
  | S n =>
      '(x, t) ← item t;
      match skip_ws t with
      | c :: t =>
          if decide (c = 44) then '(l, t) ← read_list n t; Some (x :: l, t)
          else if decide (c = closing) then Some ([x], t)
          else None
      | [] => None
      end
  end.
End Items.

Definition read_member (read : jstr -> option (value * jstr)) (t : jstr)
  : option (jstr * value * jstr) :=
  match skip_ws t with
  | c :: t =>
      if decide (c = 34) then
        '(k, t) ← read_string t;
        match skip_ws t with
        | c :: t => if decide (c = 58) then '(v, t) ← read t; Some (k, v, t) else None
        | [] => None
        end
      else None
  | [] => None
  end.

(** A later member of the same name replaces the value of the one before. *)
Definition object_of (members : obj value) : obj value :=
  foldl (fun o kv => put o kv.1 kv.2) [] members.

Definition read_keyword (t : jstr) : option (value * jstr) :=
  if starts_with t "true" then Some (VBool true, drop 4 t)
  else if starts_with t "false" then Some (VBool false, drop 5 t)
  else if starts_with t "null" then Some (VNull, drop 4 t)
  else None.

Fixpoint read_value (fuel : nat) (t : jstr) : option (value * jstr) :=
  match fuel with
  | O => None
  | S n =>
      match skip_ws t with
      | [] => None
      | c :: t' =>
          if decide (c = 34) then '(s, r) ← read_string t'; Some (VStr s, r)
          else if decide (c = 91) then
            if bool_decide (head (skip_ws t') = Some 93) then Some (VArr [], tail (skip_ws t'))
            else '(l, r) ← read_list (read_value n) 93 n t'; Some (VArr l, r)
          else if decide (c = 123) then
            if bool_decide (head (skip_ws t') = Some 125) then Some (VObj [], tail (skip_ws t'))
            else '(o, r) ← read_list (read_member (read_value n)) 125 n t'; Some (VObj (object_of o), r)
          else match read_keyword (c :: t') with
               | Some x => Some x
               | None => '(x, r) ← read_number (c :: t'); Some (VNum x, r)
               end
      end
  end.

(** The value a text denotes, if it is JSON. *)
Definition json_value (t : jstr) : option value :=
  '(v, r) ← read_value (S (length t)) t;
  if decide (skip_ws r = []) then Some v else None.

(** ** The values with texts *)

(** Data: strings of code units, numbers without trailing zeros, and objects
    that have each member once. *)
Inductive json_data : value -> Prop :=
  | data_undef : json_data VUndef
  | data_null : json_data VNull
  | data_bool b : json_data (VBool b)
  | data_num n : strip_zeros (mant n) (scale n) = n -> json_data (VNum n)
  | data_nan : json_data VNaN
  | data_str s : wf_jstr s -> json_data (VStr s)
  | data_arr l : Forall json_data l -> json_data (VArr l)
  | data_obj o :
      NoDup (keys_of o) -> Forall wf_jstr (keys_of o) -> Forall (fun kv => json_data kv.2) o ->
      json_data (VObj o).

(** What of a value its text keeps: undefined members are left out, and what
    has no text in an array is null. *)
Fixpoint json_norm (v : value) : value :=
  match v with
  | VNaN => VNull
  | VArr l => VArr (map (fun x => if defined x then json_norm x else VNull) l)
  | VObj o =>
      VObj (filter (fun kv => defined kv.2 = true) (entries (map (fun kv => (kv.1, json_norm kv.2)) o)))
  | _ => v
  end.

Example read_sample :
  json_value (" {`a`:[1 ,null, -2.50e1],`a\u0062\n`:{},`a`:true}" ++ [10]) =
  Some (VObj [(js "a", VBool true); ("ab" ++ [10], VObj [])]).
Proof. by_compute. Qed.

Example read_bad : map json_value [js "[1,]"; js "01"; js "{`a`:1"; js "1 2"; js "`\x`"; js "{a:1}"; js "1."] =
  replicate 7 None.
Proof. by_compute. Qed.

(** ** Numerals are read back *)

Definition digits_num (m : Z) (ds : jstr) : Z := foldl (fun m c => m * 10 + (c - 48)) m ds.

Definition no_digit (t : jstr) : Prop := starts_digit t = false.

Lemma dec_val_other c : is_digit c = false -> dec_val c = None.
Proof. unfold dec_val. by intros ->. Qed.

Lemma frac_digits_read m s ds t :
  forallb is_digit ds = true -> no_digit t ->
  frac_digits m s (ds ++ t) = (digits_num m ds, (s + length ds)%nat, t).
Proof.
  intros Hds Ht. revert m s Hds. induction ds as [|d ds IH]; intros m s Hds.
  - cbn. rewrite Nat.add_0_r. destruct t as [|c t]; [done|]. cbn. by rewrite dec_val_other.
  - cbn in Hds |- *. apply andb_true_iff in Hds as [Hd Hds]. unfold dec_val at 1. rewrite Hd.
    rewrite IH by done. f_equal. f_equal. lia.
Qed.

Lemma digits_value_num ds m seen :
  forallb is_digit ds = true -> ds <> [] \/ seen = true ->
  digits_value dec_val 10 m seen ds = Some (digits_num m ds).
Proof.
  revert m seen. induction ds as [|d ds IH]; intros m seen Hds Hs.
  - destruct Hs as [?| ->]; done.
  - cbn in Hds |- *. apply andb_true_iff in Hds as [Hd Hds]. unfold dec_val at 1. rewrite Hd.
    rewrite IH; auto.
Qed.

Lemma dec_nonempty n : 0 <= n -> dec n <> [].
Proof. intros Hn E. pose proof (digits_value_dec n Hn) as H. by rewrite E in H. Qed.

Lemma dec_num n : 0 <= n -> digits_num 0 (dec n) = n.
Proof.
  intros Hn. pose proof (digits_value_dec n Hn) as H.
  rewrite digits_value_num in H; [congruence | by apply dec_digits | left; by apply dec_nonempty].
Qed.

(** The first digit of a numeral is not zero, unless it is the only one. *)
Lemma digits_lead fuel n acc :
  0 < n < 2 ^ Z.of_nat fuel -> head (digits fuel 10 n acc) <> Some 48.
Proof.
  revert n acc. induction fuel as [|fuel IH]; intros n acc Hn; [cbn in Hn; lia|].
  rewrite Nat2Z.inj_succ, Z.pow_succ_r in Hn by lia. cbn [digits]. destruct (Z.ltb_spec n 10) as [H|H].
  - rewrite Z.mod_small by lia. cbn. unfold digit_unit. case_match; [|lia]. intros [=]. lia.
  - apply IH. lia_div.
Qed.

Lemma dec_lead n : 0 < n -> head (dec n) <> Some 48.
Proof.
  intros Hn. unfold dec, to_string. rewrite (proj2 (Z.ltb_ge n 0)) by lia. apply digits_lead.
  unfold digit_fuel. pose proof (Z.log2_spec n Hn). pose proof (Z.log2_nonneg n).
  rewrite Nat2Z.inj_succ, Z2Nat.id by lia. lia.
Qed.

Lemma dec_neg n : n < 0 -> dec n = 45 :: dec (- n).
Proof.
  intros Hn. unfold dec, to_string. rewrite (proj2 (Z.ltb_lt n 0)), (proj2 (Z.ltb_ge (- n) 0)) by lia. done.
Qed.

Lemma pad_digits_num s : forall n m acc,
  0 <= n < 10 ^ Z.of_nat s -> digits_num m (pad_digits s n acc) = digits_num (m * 10 ^ Z.of_nat s + n) acc.
Proof.
  induction s as [|s IH]; intros n m acc Hn.
  - cbn in Hn |- *. f_equal. lia.
  - rewrite Nat2Z.inj_succ, Z.pow_succ_r in Hn |- * by lia. cbn [pad_digits].
    rewrite IH by lia_div. cbn [digits_num foldl]. f_equal. unfold digit_unit.
    pose proof (Z.mod_pos_bound n 10 eq_refl). rewrite (proj2 (Z.ltb_lt _ 10)) by lia.
    rewrite (Z.div_mod n 10) at 3 by lia. lia.
Qed.

Lemma pad_digits_digits s : forall n acc,
  0 <= n -> forallb is_digit acc = true ->
  forallb is_digit (pad_digits s n acc) = true /\ length (pad_digits s n acc) = (s + length acc)%nat.
Proof.
  induction s as [|s IH]; intros n acc Hn Hacc; [done|]. cbn [pad_digits].
  destruct (IH (n / 10) (digit_unit (n mod 10) :: acc)) as [H1 H2].
  - apply Z.div_pos; lia.
  - cbn. rewrite Hacc, andb_true_r. pose proof (Z.mod_pos_bound n 10 eq_refl).
    unfold is_digit, digit_unit. case_match; lia.
  - split; [done|]. rewrite H2. cbn. lia.
Qed.

(** What may follow a value. *)
Definition delimited (t : jstr) : Prop :=
  match t with [] => True | c :: _ => c ∈ [44; 93; 125; 9; 10; 13; 32] end.

Lemma delimited_head t c t' :
  delimited t -> t = c :: t' -> is_digit c = false /\ c <> 46 /\ c ∉ js "eE" /\ c ∉ js "+-".
Proof.
  intros Ht ->. cbn in Ht.
  rewrite !elem_of_cons, elem_of_nil in Ht. repeat destruct Ht as [->|Ht]; try done; split_and!; by_decide.
Qed.

Lemma delimited_no_digit t : delimited t -> no_digit t.
Proof. destruct t as [|c t]; [done|]. intros H. by destruct (delimited_head _ _ _ H eq_refl). Qed.

Lemma num_string_parts x :
  num_string x =
  (if mant x <? 0 then js "-" else []) ++ dec (Z.abs (mant x) / 10 ^ Z.of_nat (scale x)) ++
  match scale x with
  | O => []
  | S _ => "." ++ pad_digits (scale x) (Z.abs (mant x) mod 10 ^ Z.of_nat (scale x)) []
  end.
Proof.
  unfold num_string. destruct (scale x) as [|s]; [|done]. cbn [Z.of_nat]. rewrite Z.pow_0_r, Z.div_1_r, app_nil_r.
  destruct (Z.ltb_spec (mant x) 0); [rewrite Z.abs_neq by lia; by rewrite dec_neg by lia|].
  by rewrite Z.abs_eq by lia.
Qed.

Lemma read_minus_num (m : Z) ds t :
  forallb is_digit ds = true -> ds <> [] ->
  read_minus ((if m <? 0 then js "-" else []) ++ ds ++ t) = ((if m <? 0 then -1 else 1), ds ++ t).
Proof.
  intros Hds Hne. destruct (m <? 0); [done|]. destruct ds as [|d ds]; [done|]. cbn in Hds |- *.
  rewrite decide_False; [done|]. intros ->. done.
Qed.

Lemma read_int_dec n t : 0 <= n -> no_digit t -> read_int (dec n ++ t) = Some (n, t).
Proof.
  intros Hn Ht. unfold read_int. rewrite frac_digits_read by (done || by apply dec_digits).
  rewrite dec_num by done. pose proof (dec_nonempty n Hn) as Hne.
  destruct (dec n) as [|d ds] eqn:E; [done|]. rewrite decide_False by (cbn; lia).
  destruct (Z.eq_dec n 0) as [->|Hz]; [by injection E as <- <-|].
  rewrite bool_decide_false; [done|]. intros H. pose proof (dec_lead n ltac:(lia)) as Hl. by rewrite E in Hl.
Qed.

Lemma read_frac_pad m s n t :
  0 <= n < 10 ^ Z.of_nat s -> delimited t ->
  read_frac m (match s with O => [] | S _ => ("." ++ pad_digits s n [])%list end ++ t) =
  Some (m * 10 ^ Z.of_nat s + n, s, t).
Proof.
  intros Hn Ht. destruct s as [|s].
  - cbn [Z.of_nat] in *. rewrite Z.pow_0_r in *. replace (m * 1 + n) with m by lia.
    destruct t as [|c t]; [done|]. cbn.
    destruct (delimited_head _ _ _ Ht eq_refl) as (_ & H & _). by rewrite decide_False.
  - destruct (pad_digits_digits (S s) n [] ltac:(lia) eq_refl) as [Hd Hl].
    unfold read_frac. cbn [app js]. rewrite decide_True by done.
    rewrite frac_digits_read by (done || by apply delimited_no_digit).
    rewrite pad_digits_num by done. rewrite Hl. rewrite decide_False by lia. cbn [digits_num foldl length].
    by rewrite !Nat.add_0_r, Nat.add_0_l.
Qed.

Lemma read_exponent_none t : delimited t -> read_exponent t = Some (0, t).
Proof.
  destruct t as [|c t]; [done|]. intros Ht. destruct (delimited_head _ _ _ Ht eq_refl) as (_ & _ & H & _).
  cbn. by rewrite bool_decide_false.
Qed.

(** The numeral of a number is read as the number. *)
Lemma read_number_string x t :
  strip_zeros (mant x) (scale x) = x -> delimited t -> read_number (num_string x ++ t) = Some (x, t).
Proof.
  intros Hx Ht. rewrite num_string_parts. unfold read_number. rewrite <- !app_assoc.
  set (p := 10 ^ Z.of_nat (scale x)). assert (Hp : 0 < p) by (apply Z.pow_pos_nonneg; lia).
  set (a := Z.abs (mant x)). assert (Ha : 0 <= a / p) by (apply Z.div_pos; lia).
  rewrite read_minus_num by (by apply dec_digits || by apply dec_nonempty).
  rewrite read_int_dec; [|done|].
  2:{ destruct (scale x); [by apply delimited_no_digit|done]. }
  cbn [mbind option_bind]. rewrite read_frac_pad by (done || by apply Z.mod_pos_bound).
  cbn [mbind option_bind]. rewrite read_exponent_none by done. cbn. unfold scaled. cbn.
  rewrite Z.mul_1_r. fold p. replace (a / p * p + a mod p) with a by (rewrite (Z.div_mod a p) at 1; lia).
  replace _ with (mant x); [by rewrite Hx|]. unfold a. destruct (Z.ltb_spec (mant x) 0); lia.
Qed.

(** ** Strings are read back *)

Definition unicode_escape_ok (u : Z) : bool :=
  match unicode_escape u with
  | [c; d; h1; h2; h3; h4] =>
      (c =? 92) && (d =? 117) && bool_decide (hex4 h1 h2 h3 h4 = Some u)
  | _ => false
  end.

(** The units of a list of ranges. *)
Definition range_units (l : list (Z * Z)) : list Z := flat_map (fun '(a, b) => seqZ a (b - a + 1)) l.

Lemma in_ranges_units l u : in_ranges l u = true -> u ∈ range_units l.
Proof.
  unfold in_ranges, range_units. rewrite existsb_exists. intros ([a b] & Hin & H).
  apply list_elem_of_In, in_flat_map. exists (a, b). split; [done|]. apply list_elem_of_In, elem_of_seqZ. lia.
Qed.

Lemma unicode_escape_units u :
  in_ranges rx_escapable u = true ->
  exists h1 h2 h3 h4, unicode_escape u = [92; 117; h1; h2; h3; h4] /\ hex4 h1 h2 h3 h4 = Some u.
Proof.
  intros Hu. assert (H : unicode_escape_ok u = true).
  { assert (Hall : forallb unicode_escape_ok (range_units rx_escapable) = true) by (by vm_compute).
    rewrite forallb_forall in Hall. by apply Hall, list_elem_of_In, in_ranges_units. }
  unfold unicode_escape_ok in H. destruct (unicode_escape u) as [|c [|d [|h1 [|h2 [|h3 [|h4 [|]]]]]]]; try done.
  rewrite !andb_true_iff, !Z.eqb_eq, bool_decide_eq_true in H. destruct H as [[-> ->] H]. by exists h1, h2, h3, h4.
Qed.

Lemma unescapable u : 0 <= u -> in_ranges rx_escapable u = false -> u <> 34 /\ u <> 92 /\ 32 <= u.
Proof.
  unfold in_ranges, rx_escapable. cbn [existsb]. rewrite !orb_false_iff, !andb_false_iff, !Z.leb_gt. lia.
Qed.

(** The units of [meta] are read back. *)
Lemma meta_read u c t :
  get meta [u] = Some c ->
  read_string (c ++ t) = ('(s, r) ← read_string t; Some (u :: s, r)).
Proof.
  intros H. apply get_In in H. unfold meta in H. rewrite !elem_of_cons, elem_of_nil in H.
  repeat destruct H as [[= -> ->]|H]; try done.
Qed.

Lemma read_escaped_unit u t :
  is_code_unit u ->
  read_string ((if in_ranges rx_escapable u then substitute u else [u]) ++ t) =
  ('(s, r) ← read_string t; Some (u :: s, r)).
Proof.
  intros Hu. destruct (in_ranges rx_escapable u) eqn:E.
  - unfold substitute. destruct (get meta [u]) as [c|] eqn:Em; [by apply meta_read|].
    destruct (unicode_escape_units u E) as (h1 & h2 & h3 & h4 & -> & Hh).
    cbn [app read_string]. rewrite decide_False, !decide_True by done. by rewrite Hh.
  - apply unescapable in E as (H1 & H2 & H3); [|apply Hu]. cbn [app read_string].
    rewrite !decide_False by done. by rewrite (proj2 (Z.ltb_ge u 32)).
Qed.

Lemma read_escaped s r : wf_jstr s -> read_string (escaped s ++ 34 :: r) = Some (s, r).
Proof.
  induction 1 as [|u s Hu _ IH]; [done|]. cbn [escaped flat_map]. fold (escaped s).
  rewrite <- app_assoc, read_escaped_unit, IH by done. done.
Qed.

Lemma quote_escaped s : quote s = 34 :: escaped s ++ [34].
Proof.
  unfold quote. destruct (existsb _ s) eqn:E; [done|]. change (js "`") with [34]. cbn. do 2 f_equal.
  induction s as [|u s IH]; [done|]. cbn in E |- *. apply orb_false_iff in E as [E1 E2].
  rewrite E1. cbn. f_equal. by apply IH.
Qed.

Lemma read_quote s r : wf_jstr s -> quote s ++ r = 34 :: escaped s ++ 34 :: r.
Proof. intros _. rewrite quote_escaped. cbn. by rewrite <- app_assoc. Qed.

(** ** Lists of items are read back *)

Definition all_ws (w : jstr) : Prop := forallb json_ws w = true.

Lemma skip_ws_app w t : all_ws w -> skip_ws (w ++ t) = skip_ws t.
Proof.
  unfold all_ws. induction w as [|c w IH]; [done|]. cbn. intros [Hc Hw]%andb_true_iff. rewrite Hc. by apply IH.
Qed.

Lemma json_ws_delimits c : json_ws c = true -> c ∈ [44; 93; 125; 9; 10; 13; 32].
Proof. unfold json_ws. rewrite bool_decide_eq_true, !elem_of_cons, elem_of_nil. tauto. Qed.

Lemma delimited_ws w c t : all_ws w -> c ∈ [44; 93; 125] -> delimited (w ++ c :: t).
Proof.
  unfold all_ws. destruct w as [|d w]; cbn.
  - intros _. rewrite !elem_of_cons, elem_of_nil. tauto.
  - intros [Hd _]%andb_true_iff _. by apply json_ws_delimits.
Qed.

(** An item is read from its text, whatever space precedes it. *)
Definition reads_as {A} (item : jstr -> option (A * jstr)) (t : jstr) (x : A) : Prop :=
  forall w r, all_ws w -> delimited r -> item (w ++ t ++ r) = Some (x, r).

Lemma read_list_texts {A} (item : jstr -> option (A * jstr)) closing w w' items r n :
  all_ws w -> all_ws w' -> closing = 93 \/ closing = 125 ->
  items <> [] -> Forall (fun tx => reads_as item tx.1 tx.2) items -> (length items <= n)%nat ->
  read_list item closing n (w ++ join (44 :: w) items.*1 ++ w' ++ closing :: r) = Some (items.*2, r).
Proof.
  intros Hw Hw' Hc. revert n. induction items as [|[t x] items IH]; intros n Hne Hall Hn; [done|].
  apply Forall_cons in Hall as [Ht Hall]. destruct n as [|n]; [cbn in Hn; lia|]. cbn [read_list].
  destruct items as [|y items].
  - cbn [join fmap list_fmap fst snd]. rewrite (Ht w) by (done || (apply delimited_ws; [done|set_solver])).
    cbn [mbind option_bind]. rewrite skip_ws_app by done. cbn [skip_ws].
    replace (json_ws closing) with false by (by destruct Hc as [-> | ->]).
    rewrite decide_False, decide_True by (lia || done). done.
  - change (join (44 :: w) ((t, x) :: y :: items).*1) with (t ++ (44 :: w) ++ join (44 :: w) (y :: items).*1).
    rewrite <- !app_assoc, (Ht w) by (done || (cbn; set_solver)).
    cbn [mbind option_bind app skip_ws]. change (json_ws 44) with false. cbn match. rewrite decide_True by done.
    rewrite IH by (done || cbn in *; lia). done.
Qed.

Lemma read_member_text read k t v c :
  wf_jstr k -> all_ws c -> reads_as read t v ->
  reads_as (read_member read) (quote k ++ 58 :: c ++ t) (k, v).
Proof.
  intros Hk Hc Ht w r Hw Hr. unfold read_member. rewrite skip_ws_app by done.
  rewrite <- app_assoc, read_quote by done. cbn [skip_ws]. change (json_ws 34) with false. cbn match.
  rewrite decide_True by done. cbn [app]. rewrite read_escaped by done. cbn [mbind option_bind skip_ws].
  change (json_ws 58) with false. cbn match. rewrite decide_True by done.
  by rewrite <- app_assoc, Ht by done.
Qed.

(** ** The shape of texts *)

(** How the text of a value starts. *)
Definition value_start (c : Z) : bool := bool_decide (c ∈ js "`[{tfn-") || is_digit c.
Definition starts (t : jstr) : Prop := exists c t', t = c :: t' /\ value_start c = true.

Lemma starts_cons c t : value_start c = true -> starts (c :: t).
Proof. by exists c, t. Qed.

Lemma starts_app t t' : starts t -> starts (t ++ t').
Proof. intros (c & s & -> & H). by exists c, (s ++ t'). Qed.

Lemma wrap_starts c c' gap mind partial : value_start c = true -> starts (wrap [c] c' gap mind partial).
Proof. intros H. unfold wrap. destruct partial; [by apply starts_cons|]. case_decide; by apply starts_cons. Qed.

Lemma num_string_start x : exists c t, num_string x = c :: t /\ (c = 45 \/ is_digit c = true).
Proof.
  rewrite num_string_parts. case_match; [by eexists _, _; split; [|left]|]. cbn.
  set (n := _ / _). assert (Hn : 0 <= n) by (apply Z.div_pos; lia).
  pose proof (dec_digits n Hn) as Hd. pose proof (dec_nonempty n Hn).
  destruct (dec n) as [|d ds]; [done|]. cbn in Hd. apply andb_true_iff in Hd as [Hd _].
  eexists _, _. split; [done|by right].
Qed.

Lemma num_string_starts x : starts (num_string x).
Proof.
  destruct (num_string_start x) as (c & t & -> & H). apply starts_cons. unfold value_start.
  destruct H as [->| ->]; [done|by rewrite orb_true_r].
Qed.

Lemma str_starts rep indent gap v :
  match str rep indent gap v with Some t => starts t | None => v = VUndef end.
Proof.
  destruct v as [| |[]|n| |s|l|o]; cbn [str]; try done; try (by apply starts_cons).
  - apply num_string_starts.
  - rewrite quote_escaped. by apply starts_cons.
  - by apply wrap_starts.
  - by apply wrap_starts.
Qed.

Lemma str_defined rep indent gap v :
  defined v = true -> exists t, str rep indent gap v = Some t /\ starts t.
Proof.
  intros Hv. pose proof (str_starts rep indent gap v) as H. destruct (str _ _ _ v) as [t|]; [by exists t|].
  by subst.
Qed.

(** The white space after an opening bracket and a comma, before a closing
    bracket, and after a colon. *)
Definition line_break (gap indentation : jstr) : jstr := if decide (gap = []) then [] else 10 :: indentation.
Definition after_colon (gap : jstr) : jstr := if decide (gap = []) then [] else [32].

Lemma wrap_parts c c' gap mind partial :
  partial <> [] ->
  wrap [c] [c'] gap mind partial =
  c :: line_break gap gap ++ join (44 :: line_break gap gap) partial ++ line_break gap mind ++ [c'].
Proof.
  intros Hne. unfold wrap, line_break. destruct partial; [done|]. case_decide; cbn; by rewrite <- ?app_assoc.
Qed.

Lemma member_parts gap k t :
  starts t -> member gap k (Some t) = [quote k ++ 58 :: after_colon gap ++ t].
Proof.
  intros (c & t' & -> & _). unfold member, after_colon. by case_decide.
Qed.

Lemma all_ws_app w w' : all_ws w -> all_ws w' -> all_ws (w ++ w').
Proof. unfold all_ws. rewrite forallb_app. by intros -> ->. Qed.

Lemma line_break_ws gap w : all_ws w -> all_ws (line_break gap w).
Proof. unfold line_break. by case_decide. Qed.

Lemma after_colon_ws gap : all_ws (after_colon gap).
Proof. unfold after_colon. by case_decide. Qed.

#[local] Hint Resolve all_ws_app line_break_ws after_colon_ws : core.

Lemma index_entries_map {A B} (f : jstr -> A -> B) (o : obj A) :
  index_entries (map (fun kv => (kv.1, f kv.1 kv.2)) o) =
  map (fun '(n, kv) => (n, (kv.1, f kv.1 kv.2))) (index_entries o).
Proof.
  unfold index_entries. induction o as [|[k v] o IH]; [done|]. cbn. rewrite IH.
  destruct (index_key k) as [n|]; [|done]. clear IH.
  induction (foldr _ _ _) as [|[m kv'] l IH]; [done|]. cbn. destruct (n <=? m); [done|]. cbn. by rewrite IH.
Qed.

(** The order of the members does not depend on their values. *)
Lemma entries_map {A B} (f : jstr -> A -> B) (o : obj A) :
  entries (map (fun kv => (kv.1, f kv.1 kv.2)) o) = map (fun kv => (kv.1, f kv.1 kv.2)) (entries o).
Proof.
  unfold entries. rewrite index_entries_map, map_app. f_equal.
  - induction (index_entries o) as [|[n kv] l IH]; [done|]. cbn. by rewrite <- IH.
  - induction o as [|[k v] o IH]; [done|]. cbn [map]. rewrite !filter_cons. cbn. case_decide; cbn; by rewrite IH.
Qed.

Lemma object_of_fresh (o : obj value) : NoDup (keys_of o) -> object_of o = o.
Proof.
  unfold object_of. intros H. change o with ([] ++ o) at 2. change (keys_of o) with (keys_of ([] : obj value) ++ keys_of o) in H.
  revert H. generalize ([] : obj value). induction o as [|[k v] o IH]; intros acc H; [by rewrite app_nil_r|].
  cbn. change (keys_of ((k, v) :: o)) with (k :: keys_of o) in H. rewrite put_fresh.
  - rewrite IH; [by rewrite <- app_assoc|]. unfold keys_of in *. rewrite fmap_app, <- app_assoc. done.
  - apply NoDup_app in H as (_ & H & _). intros Hk. apply (H k Hk). left.
Qed.

Lemma defined_norm v : defined (json_norm v) = defined v.
Proof. by destruct v. Qed.

(** ** Texts are read back *)

Lemma value_start_units c :
  value_start c = true -> json_ws c = false /\ c <> 93 /\ c <> 125.
Proof.
  unfold value_start. intros [H|H]%orb_true_iff.
  - rewrite bool_decide_eq_true in H. cbn in H. rewrite !elem_of_cons, elem_of_nil in H.
    repeat destruct H as [->|H]; done.
  - unfold is_digit in H. unfold json_ws. rewrite bool_decide_eq_false, !not_elem_of_cons.
    split_and!; try lia. apply not_elem_of_nil.
Qed.

Lemma skip_ws_starts w t : all_ws w -> starts t -> skip_ws (w ++ t) = t.
Proof.
  intros Hw (c & t' & -> & H). rewrite skip_ws_app by done. cbn. by destruct (value_start_units c H) as [-> _].
Qed.

Lemma read_value_ws n w t : all_ws w -> read_value n (w ++ t) = read_value n t.
Proof. intros Hw. destruct n as [|n]; [done|]. cbn [read_value]. by rewrite skip_ws_app. Qed.

Lemma read_value_number n x r :
  strip_zeros (mant x) (scale x) = x -> delimited r -> read_value (S n) (num_string x ++ r) = Some (VNum x, r).
Proof.
  intros Hx Hr. pose proof (read_number_string x r Hx Hr) as H.
  destruct (num_string_start x) as (c & t & E & Hc). rewrite E in H |- *. cbn [app read_value skip_ws] in *.
  assert (Hne : json_ws c = false /\ c <> 34 /\ c <> 91 /\ c <> 123 /\ c <> 116 /\ c <> 102 /\ c <> 110).
  { destruct Hc as [->|Hc]; [done|]. unfold is_digit in Hc. unfold json_ws.
    rewrite bool_decide_eq_false, !not_elem_of_cons. split_and!; try lia. apply not_elem_of_nil. }
  destruct Hne as (-> & H1 & H2 & H3 & H4 & H5 & H6). rewrite !decide_False by done.
  replace (read_keyword (c :: t ++ r)) with (@None (value * jstr)); [by rewrite H|].
  unfold read_keyword. cbn. by rewrite !(proj2 (Z.eqb_neq _ c)) by done.
Qed.

Lemma join_length (w : jstr) (ts : list jstr) :
  (length ts <= S (length (join (44%Z :: w) ts)))%nat /\
  Forall (fun t => (length t <= length (join (44%Z :: w) ts))%nat) ts.
Proof.
  induction ts as [|t ts [IH1 IH2]]; [split; [cbn; lia|constructor]|]. destruct ts as [|y ts].
  - split; [cbn; lia|]. by repeat constructor.
  - change (join (44 :: w) (t :: y :: ts)) with (t ++ (44 :: w) ++ join (44 :: w) (y :: ts)).
    rewrite !length_app. cbn [length] in *. split; [lia|]. apply Forall_cons. split; [lia|].
    eapply Forall_impl; [exact IH2|]. cbn. intros. lia.
Qed.

Lemma join_starts (w t : jstr) (ts : list jstr) : starts t -> starts (join (44 :: w) (t :: ts)).
Proof. intros H. destruct ts; [done|]. by apply (starts_app t). Qed.

(** After an opening bracket: the first item is not the closing one. *)
Lemma first_item {A} (w : jstr) (items : list (jstr * A)) (t : jstr) :
  all_ws w -> items <> [] -> Forall (fun tx => starts tx.1) items ->
  head (skip_ws (w ++ join (44 :: w) items.*1 ++ t)) <> Some 93 /\
  head (skip_ws (w ++ join (44 :: w) items.*1 ++ t)) <> Some 125.
Proof.
  intros Hw Hne Hs. destruct items as [|[t0 x] items]; [done|]. apply Forall_cons in Hs as [Ht _].
  rewrite (skip_ws_starts w) by (done || by apply starts_app, join_starts).
  destruct (join_starts w t0 items.*1 Ht) as (c & t' & E & Hc). cbn in E |- *. rewrite E.
  apply value_start_units in Hc as (_ & ? & ?). cbn. split; congruence.
Qed.

Section Brackets.
Context (n : nat) (w w' r : jstr) (Hw : all_ws w) (Hw' : all_ws w').

Lemma read_array items :
  items <> [] -> Forall (fun tx => starts tx.1 /\ reads_as (read_value n) tx.1 tx.2) items ->
  (length items <= n)%nat ->
  read_value (S n) (91 :: w ++ join (44 :: w) items.*1 ++ w' ++ 93 :: r) = Some (VArr items.*2, r).
Proof.
  intros Hne Hall Hn. apply Forall_and in Hall as [Hs Hall].
  cbn [read_value skip_ws]. change (json_ws 91) with false. cbn match.
  rewrite decide_False, decide_True by done.
  rewrite bool_decide_false by (by apply first_item). by rewrite read_list_texts by (done || by left).
Qed.

Lemma read_object items :
  items <> [] -> Forall (fun tx => starts tx.1 /\ reads_as (read_member (read_value n)) tx.1 tx.2) items ->
  (length items <= n)%nat ->
  read_value (S n) (123 :: w ++ join (44 :: w) items.*1 ++ w' ++ 125 :: r) = Some (VObj (object_of items.*2), r).
Proof.
  intros Hne Hall Hn. apply Forall_and in Hall as [Hs Hall].
  cbn [read_value skip_ws]. change (json_ws 123) with false. cbn match.
  rewrite !decide_False, decide_True by done.
  rewrite bool_decide_false by (by apply first_item). by rewrite read_list_texts by (done || by right).
Qed.
End Brackets.

Lemma read_null : forall n r, read_value (S n) (js "null" ++ r) = Some (VNull, r).
Proof. done. Qed.

Section RoundTrip.
Context (indent : jstr) (Hindent : all_ws indent).

Definition read_back (v : value) : Prop :=
  forall gap n t, all_ws gap -> str None indent gap v = Some t -> (length t <= n)%nat ->
  reads_as (read_value n) t (json_norm v).

Lemma read_element gap n x :
  all_ws gap -> read_back x -> (length (or_null (str None indent gap x)) <= n)%nat ->
  starts (or_null (str None indent gap x)) /\
  reads_as (read_value n) (or_null (str None indent gap x)) (if defined x then json_norm x else VNull).
Proof.
  intros Hg Hx Hn. destruct (defined x) eqn:Hd.
  - destruct (str_defined None indent gap x Hd) as (t & E & Ht). rewrite E in Hn |- *.
    assert (or_null (Some t) = t) as Ho by (by destruct Ht as (c & t' & -> & _)). rewrite Ho in Hn |- *.
    split; [done|]. by eapply Hx.
  - assert (x = VUndef) as -> by (by destruct x). split; [by apply starts_cons|].
    intros w r Hw Hr. rewrite read_value_ws by done. destruct n as [|n]; [cbn in Hn; lia|]. apply read_null.
Qed.

Lemma read_back_array l : Forall read_back l -> read_back (VArr l).
Proof.
  intros Hl gap n t Hg Ht Hn w r Hw Hr. rewrite read_value_ws by done. cbn [str] in Ht.
  injection Ht as <-. set (g := gap ++ indent) in *. assert (Hg' : all_ws g) by (by apply all_ws_app).
  destruct l as [|x0 l]; [cbn in Hn; destruct n as [|n]; [lia|done]|]. revert Hl Hn. generalize (x0 :: l) (@nil_cons _ x0 l).
  clear x0 l. intros l Hne Hl Hn.
  rewrite wrap_parts in Hn |- * by (by destruct l).
  destruct n as [|n]; [cbn in Hn; lia|]. set (b := line_break g g) in *. set (b' := line_break g gap) in *.
  set (items := map (fun x => (or_null (str None indent g x), if defined x then json_norm x else VNull)) l).
  assert (E1 : map (fun x => or_null (str None indent g x)) l = items.*1).
  { unfold items. clear. induction l as [|x l IH]; [done|]. cbn. by rewrite <- IH. }
  assert (E2 : json_norm (VArr l) = VArr items.*2).
  { cbn. f_equal. unfold items. clear. induction l as [|x l IH]; [done|]. cbn. by rewrite <- IH. }
  rewrite E1 in Hn |- *. rewrite E2. clear E1 E2. cbn [app]. rewrite <- !app_assoc. cbn [app].
  cbn [length] in Hn. rewrite !length_app in Hn. cbn [length] in Hn.
  destruct (join_length b items.*1) as [H1 H2]. rewrite length_fmap in H1.
  apply read_array; subst b b'; auto.
  - unfold items. by destruct l.
  - rewrite Forall_fmap in H2. apply Forall_forall. intros tx Hin. rewrite Forall_forall in H2.
    specialize (H2 tx Hin). unfold items in Hin. apply list_elem_of_fmap in Hin as (x & -> & Hin).
    rewrite Forall_forall in Hl. apply read_element; auto. cbn in H2 |- *. lia.
  - lia.
Qed.

(** The members of an object with their texts. *)
Definition member_items (g : jstr) (o : obj value) : list (jstr * (jstr * value)) :=
  flat_map (fun kv => match str None indent g kv.2 with
                      | Some t => [(quote kv.1 ++ 58 :: after_colon g ++ t, (kv.1, json_norm kv.2))]
                      | None => []
                      end) (entries o).

Lemma member_items_texts g o :
  flat_map (fun kv => member g kv.1 kv.2) (entries (map (fun kv => (kv.1, str None indent g kv.2)) o)) =
  (member_items g o).*1.
Proof.
  rewrite (entries_map (fun _ => str None indent g)). unfold member_items. generalize (entries o). clear o.
  intros o. induction o as [|[k v] o IH]; [done|]. cbn. rewrite fmap_app, IH. f_equal.
  pose proof (str_starts None indent g v) as H. destruct (str _ _ _ v) as [t|]; [|done].
  by rewrite member_parts.
Qed.

Lemma member_items_values g o : VObj (member_items g o).*2 = json_norm (VObj o).
Proof.
  cbn. rewrite (entries_map (fun _ => json_norm)). unfold member_items. f_equal. generalize (entries o). clear o.
  intros o. induction o as [|[k v] o IH]; [done|]. cbn [flat_map map]. rewrite fmap_app, IH, filter_cons. cbn.
  rewrite defined_norm. destruct (defined v) eqn:E.
  - destruct (str_defined None indent g v E) as (t & -> & _). by rewrite decide_True.
  - by destruct v.
Qed.

Lemma norm_keys o o' :
  json_norm (VObj o) = VObj o' -> NoDup (keys_of o) -> NoDup (keys_of o').
Proof.
  cbn. intros [= <-] Hd. unfold keys_of. eapply sublist_NoDup; [|apply fmap_sublist, sublist_filter].
  rewrite entries_perm. unfold keys_of in Hd. replace (_ <$> _) with o.*1; [done|].
  clear. induction o as [|kv o IH]; [done|]. cbn. by rewrite IH.
Qed.

Lemma read_back_object o :
  NoDup (keys_of o) -> Forall wf_jstr (keys_of o) -> Forall (fun kv => read_back kv.2) o -> read_back (VObj o).
Proof.
  intros Hd Hk Hl gap n t Hg Ht Hn w r Hw Hr. rewrite read_value_ws by done. cbn [str] in Ht.
  injection Ht as <-. set (g := gap ++ indent) in *. assert (Hg' : all_ws g) by (by apply all_ws_app).
  rewrite member_items_texts in Hn |- *. pose proof (member_items_values g o) as Ev.
  rewrite <- Ev. destruct (decide (member_items g o = [])) as [E|Hne].
  { rewrite E in Hn |- *. cbn in Hn. destruct n as [|n]; [lia|done]. }
  rewrite wrap_parts in Hn |- * by (by destruct (member_items g o)).
  destruct n as [|n]; [cbn in Hn; lia|]. set (b := line_break g g) in *. set (b' := line_break g gap) in *.
  cbn [app]. rewrite <- !app_assoc. cbn [app].
  cbn [length] in Hn. rewrite !length_app in Hn. cbn [length] in Hn.
  destruct (join_length b (member_items g o).*1) as [H1 H2]. rewrite length_fmap in H1.
  rewrite read_object; subst b b'; auto; [|apply Forall_forall|lia].
  { by rewrite object_of_fresh by (by eapply norm_keys). }
  intros tx Hin. rewrite Forall_fmap in H2. rewrite Forall_forall in H2. specialize (H2 tx Hin).
  unfold member_items in Hin. apply list_elem_of_In, in_flat_map in Hin as ([k v] & Hin & Ht).
  apply list_elem_of_In in Hin. rewrite entries_perm in Hin. cbn in Ht.
  destruct (str None indent g v) as [t|] eqn:Es; [|done]. destruct Ht as [<-|[]]. cbn in H2 |- *.
  rewrite Forall_forall in Hl. rewrite Forall_forall in Hk. split; [rewrite quote_escaped; by apply starts_cons|].
  apply read_member_text; auto.
  - apply Hk. unfold keys_of. apply list_elem_of_fmap. by exists (k, v).
  - apply (Hl (k, v) Hin g); [done|done|]. rewrite !length_app in H2. cbn in H2. rewrite length_app in H2. lia.
Qed.

(** The texts without parts. *)
Lemma leaf_read v gap t n r :
  json_data v -> str None indent gap v = Some t -> delimited r ->
  match v with VArr _ | VObj _ => True | _ => read_value (S n) (t ++ r) = Some (json_norm v, r) end.
Proof.
  intros Hv Ht Hr. destruct v as [| |[]|x| |s|l|o]; try done; injection Ht as <-; try done.
  - inversion Hv. by apply read_value_number.
  - inversion Hv. rewrite read_quote by done. cbn [read_value skip_ws app]. change (json_ws 34) with false.
    cbn match. rewrite decide_True by done. by rewrite read_escaped.
Qed.

Lemma read_back_leaf v :
  json_data v -> match v with VArr _ | VObj _ => False | _ => True end -> read_back v.
Proof.
  intros Hv Hl gap n t Hg Ht Hn w r Hw Hr. rewrite read_value_ws by done.
  pose proof (str_starts None indent gap v) as Hs. rewrite Ht in Hs. destruct Hs as (c & t' & -> & _).
  destruct n as [|n]; [cbn in Hn; lia|]. pose proof (leaf_read v gap (c :: t') n r Hv Ht Hr) as H. by destruct v.
Qed.

Lemma text_read_back v : json_data v -> read_back v.
Proof.
  induction v as [| | | | | |l IH|o IH] using value_ind'; intros Hv; try (by apply read_back_leaf).
  - inversion Hv as [| | | | | |? Hl|]; subst. apply read_back_array, Forall_forall. intros x Hin.
    rewrite Forall_forall in IH. rewrite Forall_forall in Hl. by apply IH, Hl.
  - inversion Hv as [| | | | | | |? Hd Hk Hl]; subst. apply read_back_object; [done..|]. apply Forall_forall.
    intros x Hin. rewrite Forall_forall in IH. rewrite Forall_forall in Hl. by apply IH, Hl.
Qed.

End RoundTrip.

Lemma str_round_trip indent v t :
  all_ws indent -> json_data v -> str None indent [] v = Some t -> json_value t = Some (json_norm v).
Proof.
  intros Hi Hv Ht. unfold json_value. pose proof (text_read_back indent Hi v Hv [] (S (length t)) t eq_refl Ht
    ltac:(lia) [] [] eq_refl I) as H. cbn [app] in H. rewrite app_nil_r in H. by rewrite H.
Qed.
