(* ===== verification/JsonSafety.v ===== *)
(** The check of JSON.parse: what it lets through to the evaluation, and that
    it lets through every text that JSON.stringify writes. *)
From S2P Require Import Prelude JsString JsNum Uri JsObject JsValue Json JsonFacts.

(** ** What is evaluated

    The text with its strings emptied. *)
Fixpoint emptied (inside : bool) (t : jstr) : jstr :=
  match t with
  | [] => []
  | c :: t1 =>
      if inside then
        if decide (c = 34) then 34 :: emptied false t1
        else if decide (c = 92) then match t1 with _ :: t2 => emptied true t2 | [] => [] end
        else emptied true t1
      else if decide (c = 34) then 34 :: emptied true t1
      else c :: emptied false t1
  end.

(** Program text of brackets, commas, colons and white space, of empty strings,
    of the words true, false and null, and of numerals. *)
Inductive code_text : jstr -> Prop :=
  | code_nil : code_text []
  | code_unit c t : rx_one_unit c = true \/ c = 91 -> code_text t -> code_text (c :: t)
  | code_string t : code_text t -> code_text (34 :: 34 :: t)
  | code_token k t : k <> [] -> head k <> Some 34 -> after_token k = Some [] -> code_text t -> code_text (k ++ t).

(** ** The second expression *)

Lemma replace_two_other c t : c <> 92 -> replace_two (c :: t) = c :: replace_two t.
Proof. intros H. cbn [replace_two]. by rewrite decide_False. Qed.

Lemma replace_two_app s t : 92 ∉ s -> replace_two (s ++ t) = s ++ replace_two t.
Proof.
  induction s as [|c s IH]; [done|]. rewrite not_elem_of_cons. intros [Hc Hs].
  cbn [app]. rewrite replace_two_other by congruence. by rewrite IH.
Qed.

(** A unit of the result that no pair stands for is a unit of the text. *)
Lemma replace_two_head t c m :
  replace_two t = c :: m -> c <> 64 -> c <> 92 -> exists t', t = c :: t' /\ replace_two t' = m.
Proof.
  intros H H1 H2. destruct t as [|d t]; [done|]. destruct (decide (d = 92)) as [->|Hd].
  - exfalso. cbn [replace_two] in H. rewrite decide_True in H by done.
    repeat case_match; congruence.
  - rewrite replace_two_other in H by done. injection H as -> <-. by exists t.
Qed.

Lemma replace_two_prefix tok t r :
  replace_two t = tok ++ r -> Forall (fun c => c <> 64 /\ c <> 92) tok ->
  exists t', t = tok ++ t' /\ replace_two t' = r.
Proof.
  revert t. induction tok as [|c tok IH]; intros t H Hall; [by exists t|].
  apply Forall_cons in Hall as [[H1 H2] Hall]. apply replace_two_head in H as (t' & -> & H); [|done..].
  destruct (IH t' H Hall) as (t2 & -> & H'). by exists t2.
Qed.

Lemma hex4_is_hex a b c d u :
  hex4 a b c d = Some u -> is_hex a && is_hex b && is_hex c && is_hex d = true.
Proof.
  unfold hex4, hex2, is_hex. destruct (hex_val a), (hex_val b), (hex_val c), (hex_val d); done.
Qed.

Lemma replace_two_u h1 h2 h3 h4 t :
  is_hex h1 && is_hex h2 && is_hex h3 && is_hex h4 = true ->
  replace_two (92 :: 117 :: h1 :: h2 :: h3 :: h4 :: t) = 64 :: replace_two t.
Proof.
  intros H.
  change (replace_two (92 :: 117 :: h1 :: h2 :: h3 :: h4 :: t)) with
    (if is_hex h1 && is_hex h2 && is_hex h3 && is_hex h4 then 64 :: replace_two t
     else 92 :: replace_two (117 :: h1 :: h2 :: h3 :: h4 :: t)).
  by rewrite H.
Qed.

Lemma replace_two_escaped s t :
  wf_jstr s ->
  replace_two (escaped s ++ 34 :: t) =
  map (fun u => if in_ranges rx_escapable u then 64 else u) s ++ 34 :: replace_two t.
Proof.
  induction 1 as [|u s Hu _ IH]; [done|]. cbn [escaped flat_map map app]. fold (escaped s).
  rewrite <- app_assoc, <- IH. destruct (in_ranges rx_escapable u) eqn:E.
  - unfold substitute. destruct (get meta [u]) as [c|] eqn:Em.
    + apply get_In in Em. unfold meta in Em. rewrite !elem_of_cons, elem_of_nil in Em.
      repeat destruct Em as [[= -> ->]|Em]; done.
    + destruct (unicode_escape_units u E) as (h1 & h2 & h3 & h4 & -> & Hh).
      apply replace_two_u. by eapply hex4_is_hex.
  - apply unescapable in E as (_ & H & _); [|apply Hu]. by apply replace_two_other.
Qed.

(** ** The third expression *)

Lemma token_span_app p s t : forallb p s = true -> (match t with c :: _ => p c = false | [] => True end) ->
  span p (s ++ t) = (s, t).
Proof.
  intros Hs Ht. induction s as [|c s IH].
  - destruct t as [|c t]; [done|]. cbn. by rewrite Ht.
  - cbn in Hs |- *. apply andb_true_iff in Hs as [-> Hs]. by rewrite IH.
Qed.

Lemma span_parts p t :
  t = (span p t).1 ++ (span p t).2 /\ forallb p (span p t).1 = true.
Proof.
  induction t as [|c t [IH1 IH2]]; [done|]. cbn. destruct (p c) eqn:E; [|done].
  destruct (span p t) as [a b]. cbn in *. rewrite E. by subst.
Qed.

Lemma replace_three_skip s t : replace_three (length s) (s ++ t) = replace_three 0 t.
Proof. induction s as [|c s IH]; [by destruct t|done]. Qed.

Lemma replace_three_token k t :
  k <> [] -> after_token (k ++ t) = Some t -> replace_three 0 (k ++ t) = 93 :: replace_three 0 t.
Proof.
  intros Hk H. destruct k as [|c k]; [done|]. cbn [app] in H |- *. cbn [replace_three]. rewrite H. f_equal.
  rewrite length_app. replace (length k + length t - length t)%nat with (length k) by lia.
  apply replace_three_skip.
Qed.

Lemma replace_three_other c t : after_token (c :: t) = None -> replace_three 0 (c :: t) = c :: replace_three 0 t.
Proof. intros H. cbn [replace_three]. by rewrite H. Qed.

(** A token that is not a word. *)
Lemma after_token_no_word c t :
  c <> 116 -> c <> 102 -> c <> 110 ->
  after_token (c :: t) =
  if decide (c = 34) then
    match (span string_unit t).2 with d :: t'' => if decide (d = 34) then Some t'' else None | [] => None end
  else if decide (c = 45) then after_digits t
  else after_digits (c :: t).
Proof.
  intros H1 H2 H3. unfold after_token.
  change (starts_with (c :: t) "true") with ((116 =? c) && starts_with t "rue").
  change (starts_with (c :: t) "false") with ((102 =? c) && starts_with t "alse").
  change (starts_with (c :: t) "null") with ((110 =? c) && starts_with t "ull").
  by rewrite !(proj2 (Z.eqb_neq _ c)) by congruence.
Qed.

(** A unit that starts no token. *)
Definition inert (c : Z) : bool :=
  negb (bool_decide (c ∈ js "`-tfn")) && negb (is_digit c).

Lemma inert_no_token c t : inert c = true -> after_token (c :: t) = None.
Proof.
  unfold inert. rewrite andb_true_iff, !negb_true_iff, bool_decide_eq_false. intros [Hc Hd].
  cbn in Hc. rewrite !not_elem_of_cons in Hc. destruct Hc as (H1 & H2 & H3 & H4 & H5 & _).
  rewrite after_token_no_word, !decide_False by done. unfold after_digits. cbn [span]. by rewrite Hd.
Qed.

Lemma string_token s t :
  forallb string_unit s = true -> after_token (34 :: s ++ 34 :: t) = Some t.
Proof.
  intros Hs.
  by rewrite after_token_no_word, decide_True, token_span_app.
Qed.

Lemma digits_token ds f t :
  forallb is_digit ds = true -> ds <> [] -> delimited t ->
  f = [] \/ (exists fs, f = 46 :: fs /\ forallb is_digit fs = true) ->
  after_digits (ds ++ f ++ t) = Some t.
Proof.
  intros Hds Hne Ht Hf.
  assert (Hh : match t with c :: _ => is_digit c = false | [] => True end).
  { destruct t as [|c t]; [done|]. by destruct (delimited_head _ _ _ Ht eq_refl). }
  assert (He : after_exponent t = t).
  { destruct t as [|c t]; [done|]. destruct (delimited_head _ _ _ Ht eq_refl) as (_ & _ & He & _).
    cbn. by rewrite bool_decide_false. }
  unfold after_digits. destruct Hf as [->|(fs & -> & Hfs)].
  - cbn [app]. rewrite token_span_app by done. destruct ds; [done|].
    assert (Hf : after_fraction t = t); [|by rewrite Hf, He].
    destruct t as [|c t]; [done|]. destruct (delimited_head _ _ _ Ht eq_refl) as (_ & H & _).
    cbn. by rewrite decide_False.
  - rewrite token_span_app by done. destruct ds; [done|].
    change (Some (after_exponent (span is_digit (fs ++ t)).2) = Some t). rewrite token_span_app by done. cbn [snd]. by rewrite He.
Qed.

Lemma number_token x t : delimited t -> after_token (num_string x ++ t) = Some t.
Proof.
  intros Ht. rewrite num_string_parts. set (n := _ / _). assert (Hn : 0 <= n) by (apply Z.div_pos; lia).
  set (f := match scale x with O => [] | S _ => _ end).
  assert (Hf : f = [] \/ exists fs, f = 46 :: fs /\ forallb is_digit fs = true).
  { subst f. destruct (scale x) as [|s]; [by left|right]. eexists. split; [done|].
    refine (proj1 (pad_digits_digits (S s) _ [] _ eq_refl)). apply Z.mod_pos_bound, Z.pow_pos_nonneg; lia. }
  pose proof (digits_token (dec n) f t (dec_digits n Hn) (dec_nonempty n Hn) Ht Hf) as H.
  rewrite <- !app_assoc. pose proof (dec_digits n Hn) as Hd. pose proof (dec_nonempty n Hn) as Hne.
  destruct (dec n) as [|c ds]; [done|]. cbn in Hd. apply andb_true_iff in Hd as [Hc _].
  assert (Hk : c <> 34 /\ c <> 45 /\ c <> 116 /\ c <> 102 /\ c <> 110) by (unfold is_digit in Hc; lia).
  destruct Hk as (H1 & H2 & H3 & H4 & H5). case_match; [done|].
  cbn [app] in H |- *. by rewrite after_token_no_word, !decide_False.
Qed.

(** ** What the written texts become

    [reduce] is what the second and third expressions make of a text. *)
Definition reduce (t : jstr) : jstr := replace_three 0 (replace_two t).

Lemma reduce_inert c t : inert c = true -> c <> 92 -> reduce (c :: t) = c :: reduce t.
Proof. intros H Hc. unfold reduce. rewrite replace_two_other by done. by apply replace_three_other, inert_no_token. Qed.

Lemma reduce_inerts s t : forallb (fun c => inert c && negb (c =? 92)) s = true -> reduce (s ++ t) = s ++ reduce t.
Proof.
  induction s as [|c s IH]; [done|]. cbn [forallb app]. rewrite !andb_true_iff, negb_true_iff, Z.eqb_neq. intros [[H1 H2] H].
  by rewrite reduce_inert, IH.
Qed.

Lemma reduce_ws w t : all_ws w -> reduce (w ++ t) = w ++ reduce t.
Proof.
  intros Hw. apply reduce_inerts. unfold all_ws in Hw. rewrite forallb_forall in Hw |- *. intros c Hc.
  specialize (Hw c Hc). unfold json_ws in Hw. rewrite bool_decide_eq_true, !elem_of_cons, elem_of_nil in Hw.
  repeat destruct Hw as [->|Hw]; done.
Qed.

Lemma reduce_quote s t : wf_jstr s -> reduce (quote s ++ t) = 93 :: reduce t.
Proof.
  intros Hs. rewrite read_quote by done. unfold reduce. rewrite replace_two_other, replace_two_escaped by done.
  set (m := map _ s). change (34 :: m ++ 34 :: replace_two t) with ([34] ++ m ++ [34] ++ replace_two t).
  rewrite !(app_assoc _ _ (replace_two t)), (app_assoc [34] m [34]). apply replace_three_token; [by destruct m|].
  rewrite <- !app_assoc. apply string_token. subst m.
  apply forallb_forall. intros c Hc. apply in_map_iff in Hc as (u & <- & Hu). apply list_elem_of_In in Hu.
  unfold wf_jstr in Hs. rewrite Forall_forall in Hs. specialize (Hs u Hu).
  destruct (in_ranges rx_escapable u) eqn:E; [done|]. apply unescapable in E as (? & ? & ?); [|apply Hs].
  unfold string_unit. rewrite bool_decide_false; [done|]. rewrite !not_elem_of_cons.
  split_and!; try lia. apply not_elem_of_nil.
Qed.

Lemma delimited_replace_two t : delimited t -> delimited (replace_two t).
Proof.
  destruct t as [|c t]; [done|]. intros H. rewrite replace_two_other; [done|]. cbn in H. intros ->. by revert H; by_decide || set_solver.
Qed.

Lemma reduce_token k t :
  k <> [] -> 92 ∉ k -> (forall r, delimited r -> after_token (k ++ r) = Some r) -> delimited t ->
  reduce (k ++ t) = 93 :: reduce t.
Proof.
  intros Hk Hn H Ht. unfold reduce. rewrite replace_two_app by done.
  apply replace_three_token; [done|]. by apply H, delimited_replace_two.
Qed.

Lemma num_string_units x : Forall (fun c => c = 45 \/ c = 46 \/ is_digit c = true) (num_string x).
Proof.
  rewrite num_string_parts. set (n := _ / _). assert (Hn : 0 <= n) by (apply Z.div_pos; lia).
  assert (Hd : forall ds, forallb is_digit ds = true -> Forall (fun c => c = 45 \/ c = 46 \/ is_digit c = true) ds).
  { intros ds H. rewrite forallb_forall in H. apply Forall_forall. intros c Hc. right. right. by apply H, list_elem_of_In. }
  apply Forall_app. split; [case_match; repeat constructor|]. apply Forall_app. split; [by apply Hd, dec_digits|].
  case_match; [constructor|]. apply Forall_app. split; [by constructor; [right; left|]|]. apply Hd.
  refine (proj1 (pad_digits_digits _ _ [] _ eq_refl)). apply Z.mod_pos_bound, Z.pow_pos_nonneg; lia.
Qed.

(** ** The fourth expression *)

Definition opener (c : Z) : bool := is_space c || (c =? 91).

Definition stops (s : jstr) : Prop := match s with c :: _ => opener c = false | [] => False end.

(** The brackets at the start of a text are none, or end before some space. *)
Lemma after_brackets_opens o s best :
  forallb opener o = true -> stops s ->
  (forallb is_space o = true /\ after_brackets best (o ++ s) = best) \/
  exists o' w, o = o' ++ w /\ o' <> [] /\ forallb is_space w = true /\ after_brackets best (o ++ s) = w ++ s.
Proof.
  intros Ho Hs. revert best Ho. induction o as [|c o IH]; intros best Ho.
  - left. split; [done|]. destruct s as [|c s]; [done|]. cbn in Hs |- *. unfold opener in Hs.
    apply orb_false_iff in Hs as [-> H]. apply Z.eqb_neq in H. by rewrite decide_False.
  - cbn [forallb] in Ho. apply andb_true_iff in Ho as [Hc Ho]. cbn [app after_brackets].
    destruct (decide (c = 91)) as [->|Hne].
    + right. destruct (IH (o ++ s) Ho) as [[Hw ->]|(o' & w & -> & Hne & Hw & ->)].
      * by exists [91], o.
      * by exists (91 :: o'), w.
    + unfold opener in Hc. rewrite (proj2 (Z.eqb_neq c 91) Hne), orb_false_r in Hc. rewrite Hc.
      destruct (IH best Ho) as [[Hw ->]|(o' & w & -> & Hn & Hw & ->)].
      * left. cbn. by rewrite Hc.
      * right. by exists (c :: o'), w.
Qed.

Lemma replace_four_skip s t : replace_four_rest (length s) (s ++ t) = replace_four_rest 0 t.
Proof. induction s as [|c s IH]; [by destruct t|done]. Qed.

Lemma replace_four_other c t : c ∉ js ":," -> replace_four_rest 0 (c :: t) = c :: replace_four_rest 0 t.
Proof. intros H. cbn [replace_four_rest]. by rewrite bool_decide_false. Qed.

(** Text in which no bracket is left, whatever follows. *)
Definition clean (s : jstr) : Prop :=
  forall r, exists u, replace_four_rest 0 (s ++ r) = u ++ replace_four_rest 0 r /\ forallb rx_one_unit u = true.

(** Text that is clean but for the brackets it starts with. *)
Definition opens (t : jstr) : Prop :=
  exists o s, t = o ++ s /\ forallb opener o = true /\ stops s /\ clean s.

Lemma clean_nil : clean [].
Proof. intros r. by exists []. Qed.

Lemma clean_app s t : clean s -> clean t -> clean (s ++ t).
Proof.
  intros Hs Ht r. rewrite <- app_assoc. destruct (Hs (t ++ r)) as (u & -> & Hu), (Ht r) as (v & -> & Hv).
  exists (u ++ v). by rewrite <- app_assoc, forallb_app, Hu, Hv.
Qed.

Lemma clean_unit c : rx_one_unit c = true -> c ∉ js ":," -> clean [c].
Proof. intros H Hc r. exists [c]. cbn [app forallb]. by rewrite replace_four_other, H. Qed.

Lemma clean_space w : forallb is_space w = true -> clean w.
Proof.
  induction w as [|c w IH]; [intros _; apply clean_nil|]. cbn [forallb]. intros [Hc Hw]%andb_true_iff.
  apply (clean_app [c]); [|by apply IH]. apply clean_unit; [unfold rx_one_unit; by rewrite Hc, orb_true_r|].
  intros H. cbn in H. rewrite !elem_of_cons, elem_of_nil in H. by destruct H as [->|[->|[]]].
Qed.

(** After a colon or a comma brackets are dropped. *)
Lemma clean_sep c t : c ∈ js ":," -> opens t -> clean (c :: t).
Proof.
  intros Hc (o & s & -> & Ho & Hs & Hcl) r. cbn [app replace_four_rest]. rewrite bool_decide_true by done.
  rewrite <- app_assoc. assert (Hs' : stops (s ++ r)) by (by destruct s).
  destruct (after_brackets_opens o (s ++ r) (o ++ s ++ r) Ho Hs') as [[Hw ->]|(o' & w & -> & Hne & Hw & ->)].
  - rewrite Nat.ltb_irrefl. cbn [andb]. destruct (clean_app o s (clean_space o Hw) Hcl r) as (u & Hu & H1).
    rewrite <- app_assoc in Hu. exists (c :: u). cbn [app forallb]. rewrite Hu, H1, andb_true_r. split; [done|].
    cbn in Hc. rewrite !elem_of_cons, elem_of_nil in Hc. by destruct Hc as [->|[->|[]]].
  - rewrite <- !app_assoc, (length_app o'). rewrite (proj2 (Nat.ltb_lt _ _)) by (destruct o'; cbn; [done|lia]).
    cbn [andb]. replace (length o' + length (w ++ s ++ r) - length (w ++ s ++ r))%nat with (length o') by lia.
    rewrite replace_four_skip. destruct (clean_app w s (clean_space w Hw) Hcl r) as (u & Hu & H1).
    rewrite <- app_assoc in Hu. by exists u.
Qed.

Lemma opens_clean c t : opener c = false -> clean (c :: t) -> opens (c :: t).
Proof. intros Hc Ht. by exists [], (c :: t). Qed.

Lemma opens_cons c t : opener c = true -> opens t -> opens (c :: t).
Proof. intros Hc (o & s & -> & Ho & H). exists (c :: o), s. cbn. by rewrite Hc, Ho. Qed.

Lemma opens_space w t : forallb is_space w = true -> opens t -> opens (w ++ t).
Proof.
  intros Hw Ht. induction w as [|c w IH]; [done|]. cbn in Hw. apply andb_true_iff in Hw as [Hc Hw].
  apply opens_cons; [unfold opener; by rewrite Hc|by apply IH].
Qed.

Lemma opens_app t t' : opens t -> clean t' -> opens (t ++ t').
Proof.
  intros (o & s & -> & Ho & Hs & Hc) Ht. exists o, (s ++ t'). rewrite app_assoc. split_and!; [done..| |by apply clean_app].
  by destruct s.
Qed.

Lemma replace_four_opens t : opens t -> forallb rx_one_unit (replace_four t) = true.
Proof.
  intros (o & s & -> & Ho & Hs & Hc). unfold replace_four.
  assert (exists w, forallb is_space w = true /\ after_brackets (o ++ s) (o ++ s) = w ++ s) as (w & Hw & ->).
  { destruct (after_brackets_opens o s (o ++ s) Ho Hs) as [[Hw H]|(o' & w & _ & _ & Hw & H)]; eauto. }
  destruct (clean_app w s (clean_space w Hw) Hc []) as (u & Hu & H). rewrite app_nil_r in Hu. rewrite Hu.
  by rewrite app_nil_r.
Qed.

(** ** Written texts are accepted *)

(** The text becomes [sk], before whatever may follow; for members [sk] is clean. *)
Definition reduces (member : bool) (t : jstr) : Prop :=
  exists sk, opens sk /\ (member = true -> clean sk) /\ forall r, delimited r -> reduce (t ++ r) = sk ++ reduce r.

Lemma ws_space w : all_ws w -> forallb is_space w = true.
Proof.
  unfold all_ws. rewrite !forallb_forall. intros H c Hc. specialize (H c Hc). unfold json_ws in H.
  rewrite bool_decide_eq_true, !elem_of_cons, elem_of_nil in H. repeat destruct H as [->|H]; done.
Qed.

Lemma clean_closing : clean [93].
Proof. apply clean_unit; [done|by_decide]. Qed.

Lemma opens_value : opens [93].
Proof. apply opens_clean; [done|apply clean_closing]. Qed.

Lemma reduces_leaf t : (forall r, delimited r -> reduce (t ++ r) = 93 :: reduce r) -> reduces false t.
Proof. intros H. exists [93]. split_and!; [apply opens_value|done|done]. Qed.

Lemma reduces_join b w ts :
  all_ws w -> ts <> [] -> Forall (reduces b) ts -> reduces b (join (44 :: w) ts).
Proof.
  intros Hw. induction ts as [|t ts IH]; [done|]. intros _ [Ht Hts]%Forall_cons.
  destruct ts as [|t' ts]; [done|]. destruct IH as (sk' & Ho' & Hc' & Hr'); [done..|].
  destruct Ht as (sk & Ho & Hc & Hr). pose proof (opens_space w sk' (ws_space w Hw) Ho') as How.
  exists (sk ++ 44 :: w ++ sk'). split_and!.
  - apply opens_app; [done|]. apply clean_sep; [by_decide|done].
  - intros Hb. apply clean_app; [by apply Hc|]. apply clean_sep; [by_decide|done].
  - intros r Hd. change (join (44 :: w) (t :: t' :: ts)) with (t ++ (44 :: w) ++ join (44 :: w) (t' :: ts)).
    rewrite <- !app_assoc. cbn [app]. rewrite Hr by (cbn; set_solver).
    rewrite reduce_inert by done. rewrite <- !app_assoc, reduce_ws by done. by rewrite Hr'.
Qed.

(** A clean bracket unit, as those around members. *)
Lemma reduce_bracket c t : c ∈ js "[]{}" -> reduce (c :: t) = c :: reduce t.
Proof.
  intros H. cbn in H. rewrite !elem_of_cons, elem_of_nil in H.
  repeat destruct H as [->|H]; try done; by apply reduce_inert.
Qed.

Lemma reduces_brackets c c' b gap mind ts :
  (c, c', b) = (91, 93, false) \/ (c, c', b) = (123, 125, true) -> all_ws gap -> all_ws mind ->
  Forall (reduces b) ts -> reduces false (wrap [c] [c'] gap mind ts).
Proof.
  intros Hb Hg Hm Hts.
  assert (Hcc : c ∈ js "[]{}" /\ c' ∈ js "[]{}" /\ delimited [c'] /\ clean [c']).
  { destruct Hb as [[= -> -> ->]|[= -> -> ->]]; split_and!; try by_decide; apply clean_unit; by_decide. }
  destruct Hcc as (Hc & Hc' & Hd & Hcl).
  assert (Hopen : forall sk, opens sk -> (b = true -> clean sk) -> opens (c :: sk)).
  { intros sk Ho Hsk. destruct Hb as [[= -> -> ->]|[= -> -> ->]]; [by apply opens_cons|].
    apply opens_clean; [done|]. apply (clean_app [123]); [|by apply Hsk]. apply clean_unit; by_decide. }
  destruct (decide (ts = [])) as [->|Hne].
  { exists [c; c']. split_and!; [|done|].
    - destruct Hb as [[= -> -> ->]|[= -> -> ->]]; [apply opens_cons, opens_value; done|].
      apply opens_clean; [done|]. apply (clean_app [123] [125]); apply clean_unit; by_decide.
    - intros r _. cbn [wrap app]. by rewrite !reduce_bracket. }
  rewrite wrap_parts by done. set (w := line_break gap gap). set (w' := line_break gap mind).
  assert (Hw : all_ws w) by (by apply line_break_ws). assert (Hw' : all_ws w') by (by apply line_break_ws).
  destruct (reduces_join b w ts Hw Hne Hts) as (sk & Ho & Hsk & Hr).
  exists (c :: w ++ sk ++ w' ++ [c']). split_and!; [|done|].
  - rewrite !app_assoc. assert (Hend : clean (w' ++ [c'])) by (by apply clean_app; [apply clean_space, ws_space|]).
    rewrite <- (app_assoc _ w'). apply (opens_app (c :: w ++ sk)); [|done]. apply Hopen.
    + apply opens_space; [by apply ws_space|done].
    + intros E. apply clean_app; [by apply clean_space, ws_space|by apply Hsk].
  - intros r _. cbn [app]. rewrite reduce_bracket by done. f_equal. rewrite <- !app_assoc, reduce_ws by done. f_equal.
    rewrite Hr by (apply delimited_ws; [done|]; destruct Hb as [[= -> -> ->]|[= -> -> ->]]; by_decide). f_equal.
    rewrite reduce_ws by done. f_equal. cbn [app]. by apply reduce_bracket.
Qed.

Lemma reduces_member b k c t :
  wf_jstr k -> all_ws c -> reduces b t -> reduces true (quote k ++ 58 :: c ++ t).
Proof.
  intros Hk Hc (sk & Ho & _ & Hr).
  assert (Hcl : clean (93 :: 58 :: c ++ sk)).
  { apply (clean_app [93]); [apply clean_closing|]. apply clean_sep; [by_decide|]. by apply opens_space; [apply ws_space|]. }
  exists (93 :: 58 :: c ++ sk). split_and!; [by apply opens_clean|done|].
  intros r Hd. rewrite <- app_assoc. rewrite reduce_quote by done. cbn [app].
  rewrite reduce_inert by done. rewrite <- !app_assoc, reduce_ws by done. by rewrite Hr.
Qed.

Section Accepted.
Context (indent : jstr) (Hindent : all_ws indent).

Definition accepted (v : value) : Prop :=
  forall gap t, all_ws gap -> str None indent gap v = Some t -> reduces false t.

Lemma accepted_leaf v :
  json_data v -> match v with VArr _ | VObj _ => False | _ => True end -> accepted v.
Proof.
  intros Hv Hl gap t _ Ht. apply reduces_leaf. intros r Hr.
  destruct v as [| |[]|x| |s|l|o]; try done; injection Ht as <-;
    try (apply reduce_token; [done|by_decide|done|done]).
  - apply reduce_token; [|..|done].
    + by destruct (num_string_start x) as (c & t & -> & _).
    + intros Hin. pose proof (num_string_units x) as H. rewrite Forall_forall in H.
      by destruct (H 92 Hin) as [?|[?|?]].
    + intros r'. apply number_token.
  - inversion Hv. by apply reduce_quote.
Qed.

Lemma accepted_data v : json_data v -> accepted v.
Proof.
  induction v as [| | | | | |l IH|o IH] using value_ind'; intros Hv; try (by apply accepted_leaf);
    intros gap t Hg Ht; cbn [str] in Ht; injection Ht as <-; set (g := gap ++ indent);
    assert (Hg' : all_ws g) by (by apply all_ws_app); rewrite Forall_forall in IH.
  - inversion Hv as [| | | | | |? Hl|]; subst. rewrite Forall_forall in Hl. apply (reduces_brackets 91 93 false); [by left|done..|].
    apply Forall_forall. intros t Hin. apply list_elem_of_fmap in Hin as (x & -> & Hin).
    destruct (defined x) eqn:Hd.
    + destruct (str_defined None indent g x Hd) as (t & E & Ht). rewrite E.
      replace (or_null (Some t)) with t by (by destruct Ht as (c & t' & -> & _)).
      by apply (IH x Hin (Hl x Hin) g).
    + assert (x = VUndef) as -> by (by destruct x). apply reduces_leaf. intros r Hr.
      apply reduce_token; [done|by_decide|done|done].
  - inversion Hv as [| | | | | | |? Hd Hk Hl]; subst. apply (reduces_brackets 123 125 true); [by right|done..|].
    rewrite member_items_texts. apply Forall_forall. intros t Hin.
    apply list_elem_of_fmap in Hin as (tx & -> & Hin). unfold member_items in Hin.
    apply list_elem_of_In, in_flat_map in Hin as ([k v] & Hin & Ht).
    apply list_elem_of_In in Hin. rewrite entries_perm in Hin. cbn in Ht.
    destruct (str None indent g v) as [t|] eqn:Es; [|done]. destruct Ht as [<-|[]]. cbn [fst].
    rewrite Forall_forall in Hl. rewrite Forall_forall in Hk. apply (reduces_member false).
    + apply Hk. unfold keys_of. apply list_elem_of_fmap. by exists (k, v).
    + apply after_colon_ws.
    + by apply (IH (k, v) Hin (Hl (k, v) Hin) g).
Qed.

End Accepted.

Lemma str_safe indent v t :
  all_ws indent -> json_data v -> str None indent [] v = Some t -> json_safe t = true.
Proof.
  intros Hi Hv Ht. destruct (accepted_data indent Hi v Hv [] t eq_refl Ht) as (sk & Ho & _ & Hr).
  unfold json_safe. specialize (Hr [] I). rewrite !app_nil_r in Hr. fold (reduce t). rewrite Hr.
  by apply replace_four_opens.
Qed.

(** ** Written texts hold no dangerous units *)

Definition harmless (t : jstr) : Prop := Forall (fun u => in_ranges rx_dangerous u = false) t.

Lemma harmless_small t : Forall (fun u => 0 < u < 173) t -> harmless t.
Proof.
  intros H. eapply Forall_impl; [exact H|]. cbn beta. intros u Hu. unfold in_ranges, rx_dangerous. cbn [existsb].
  rewrite !orb_false_iff, !andb_false_iff, !Z.leb_gt. split_and!; lia || done.
Qed.

Lemma dangerous_escapable u : in_ranges rx_dangerous u = true -> in_ranges rx_escapable u = true.
Proof.
  unfold in_ranges, rx_dangerous, rx_escapable. cbn [existsb].
  rewrite !orb_true_iff, !andb_true_iff, !Z.leb_le. lia.
Qed.

Lemma harmless_escaped s : harmless (escaped s).
Proof.
  induction s as [|u s IH]; [constructor|]. cbn [escaped flat_map]. apply Forall_app. split; [|exact IH].
  destruct (in_ranges rx_escapable u) eqn:E.
  - unfold substitute. destruct (get meta [u]) as [c|] eqn:Em.
    + apply get_In in Em. unfold meta in Em. rewrite !elem_of_cons, elem_of_nil in Em.
      repeat destruct Em as [[= -> ->]|Em]; [apply harmless_small; by_decide..|done].
    + assert (H : forallb (fun u => forallb (fun c => negb (in_ranges rx_dangerous c)) (unicode_escape u))
          (range_units rx_escapable) = true) by (by vm_compute).
      rewrite forallb_forall in H. specialize (H u). rewrite <- list_elem_of_In, forallb_forall in H.
      apply Forall_forall. intros c Hc. apply negb_true_iff, H; [by apply in_ranges_units|by apply list_elem_of_In].
  - repeat constructor. destruct (in_ranges rx_dangerous u) eqn:Ed; [|done]. apply dangerous_escapable in Ed. congruence.
Qed.

Lemma harmless_quote s : harmless (quote s).
Proof.
  rewrite quote_escaped. apply Forall_cons. split; [done|]. apply Forall_app. split; [apply harmless_escaped|by repeat constructor].
Qed.

Lemma harmless_join sep ts : harmless sep -> Forall harmless ts -> harmless (join sep ts).
Proof.
  intros Hs. induction ts as [|t ts IH]; [constructor|]. intros [Ht Hts]%Forall_cons.
  destruct ts as [|t' ts]; [done|]. apply Forall_app. split; [done|]. apply Forall_app. split; [done|by apply IH].
Qed.

Lemma harmless_ws w : all_ws w -> harmless w.
Proof.
  intros Hw. apply harmless_small, Forall_forall. intros c Hc. unfold all_ws in Hw. rewrite forallb_forall in Hw.
  apply list_elem_of_In in Hc. specialize (Hw c Hc). unfold json_ws in Hw.
  rewrite bool_decide_eq_true, !elem_of_cons, elem_of_nil in Hw. lia.
Qed.

Lemma harmless_unit c : 0 < c < 173 -> harmless [c].
Proof. intros H. apply harmless_small. by apply List.Forall_cons. Qed.

Lemma harmless_wrap c c' gap mind ts :
  0 < c < 173 -> 0 < c' < 173 -> all_ws gap -> all_ws mind -> Forall harmless ts -> harmless (wrap [c] [c'] gap mind ts).
Proof.
  intros Hc Hc' Hg Hm Hts. destruct (decide (ts = [])) as [->|Hne].
  { by apply (Forall_app_2 _ [c] [c']); apply harmless_unit. }
  rewrite wrap_parts by done. set (w := line_break gap gap).
  assert (Hw : harmless w) by (by apply harmless_ws, line_break_ws).
  change (harmless ([c] ++ w ++ join (44 :: w) ts ++ line_break gap mind ++ [c'])).
  repeat (apply Forall_app; split); try (by apply harmless_unit); [done| |].
  - apply harmless_join; [|done]. apply Forall_cons. by split.
  - by apply harmless_ws, line_break_ws.
Qed.

Lemma str_harmless indent v :
  all_ws indent -> forall gap t, all_ws gap -> str None indent gap v = Some t -> harmless t.
Proof.
  intros Hi. induction v as [| |b|x| |s|l IH|o IH] using value_ind'; intros gap t Hg Ht; cbn [str] in Ht;
    [done|injection Ht as <-; try rewrite Forall_forall in IH..].
  - apply harmless_small; by_decide.
  - apply harmless_small; destruct b; by_decide.
  - apply harmless_small. eapply Forall_impl; [apply num_string_units|]. cbn beta. unfold is_digit. intros c Hc. lia.
  - apply harmless_small; by_decide.
  - apply harmless_quote.
  - assert (Hg' : all_ws (gap ++ indent)) by (by apply all_ws_app).
    apply harmless_wrap; [done..|]. apply Forall_forall. intros t Hin.
    apply list_elem_of_fmap in Hin as (x & -> & Hin). destruct (str None indent _ x) as [t|] eqn:E.
    + destruct t; [by apply harmless_small; by_decide|by eapply IH].
    + apply harmless_small; by_decide.
  - assert (Hg' : all_ws (gap ++ indent)) by (by apply all_ws_app).
    apply harmless_wrap; [done..|]. rewrite member_items_texts. apply Forall_forall. intros t Hin.
    apply list_elem_of_fmap in Hin as (tx & -> & Hin). unfold member_items in Hin.
    apply list_elem_of_In, in_flat_map in Hin as ([k v] & Hin & Ht).
    apply list_elem_of_In in Hin. rewrite entries_perm in Hin. cbn in Ht.
    destruct (str None indent _ v) as [t|] eqn:Es; [|done]. destruct Ht as [<-|[]]. cbn [fst].
    apply Forall_app. split; [apply harmless_quote|]. apply Forall_cons. split; [done|]. apply Forall_app.
    split; [apply harmless_ws, after_colon_ws|by apply (IH (k, v) Hin (gap ++ indent))].
Qed.

Lemma escape_harmless t : harmless t -> escape_dangerous t = t.
Proof.
  intros H. unfold escape_dangerous. replace (existsb _ t) with false; [done|]. symmetry.
  induction H as [|c t Hc _ IH]; [done|]. cbn [existsb]. by rewrite Hc.
Qed.

(** ** What passes the check *)

Lemma after_brackets_suffix o t :
  forallb opener o = true ->
  exists o', forallb opener o' = true /\ o ++ t = o' ++ after_brackets (o ++ t) t.
Proof.
  revert o. induction t as [|c t IH]; intros o Ho; cbn [after_brackets]; [by exists []|].
  destruct (decide (c = 91)) as [->|Hne].
  - destruct (IH [] eq_refl) as (o' & Ho' & E). exists (o ++ 91 :: o').
    rewrite forallb_app. cbn [forallb app] in *. rewrite Ho, Ho'. split; [done|]. rewrite <- app_assoc. cbn. by rewrite <- E.
  - destruct (is_space c) eqn:Hc; [|by exists []].
    replace (o ++ c :: t) with ((o ++ [c]) ++ t) by (by rewrite <- app_assoc). apply IH.
    rewrite forallb_app, Ho. cbn. unfold opener. by rewrite Hc.
Qed.

(** Units the fourth expression may drop, or leave to the first. *)
Definition good (c : Z) : bool := rx_one_unit c || (c =? 91).

Lemma opener_good o : forallb opener o = true -> forallb good o = true.
Proof.
  rewrite !forallb_forall. intros H c Hc. specialize (H c Hc). unfold opener in H. unfold good, rx_one_unit.
  destruct (is_space c); [by rewrite orb_true_r|]. cbn in H. by rewrite H, orb_true_r.
Qed.

Lemma replace_four_rest_good t :
  forallb rx_one_unit (replace_four_rest 0 t) = true -> forallb good t = true.
Proof.
  induction t as [t IH] using (induction_ltof1 _ length). unfold ltof in IH. destruct t as [|c t]; [done|].
  cbn [replace_four_rest]. destruct (after_brackets_suffix [] t eq_refl) as (o & Ho & E). cbn [app] in E.
  set (r := after_brackets t t) in *. case_match_goal.
  - apply andb_true_iff in Heqb as [Hc _]. intros H. apply bool_decide_eq_true in Hc.
    rewrite E, length_app in H. replace (length o + length r - length r)%nat with (length o) in H by lia.
    rewrite replace_four_skip in H. apply IH in H; [|rewrite E; cbn; rewrite length_app; lia].
    cbn [forallb]. rewrite E, forallb_app, H, (opener_good o) by done. cbn in Hc.
    rewrite !elem_of_cons, elem_of_nil in Hc. by destruct Hc as [->|[->|[]]].
  - cbn [forallb]. unfold good at 1. intros [-> H]%andb_true_iff. cbn. apply IH; [cbn; lia|done].
Qed.

Lemma json_safe_good t : json_safe t = true -> forallb good (reduce t) = true.
Proof.
  unfold json_safe. fold (reduce t). generalize (reduce t). clear t. intros t H. unfold replace_four in H.
  destruct (after_brackets_suffix [] t eq_refl) as (o & Ho & E). cbn [app] in E.
  apply replace_four_rest_good in H. by rewrite E, forallb_app, opener_good, H.
Qed.

(** Units of words and numerals. *)
Definition token_unit (c : Z) : Prop := is_digit c = true \/ c ∈ js "truefalsn+-.E".

Definition is_token (k : jstr) : Prop :=
  k <> [] /\ head k <> Some 34 /\ after_token k = Some [] /\ Forall token_unit k.

Lemma digits_units ds : forallb is_digit ds = true -> Forall token_unit ds.
Proof. rewrite forallb_forall. intros H. apply Forall_forall. intros c Hc. left. by apply H, list_elem_of_In. Qed.

Lemma after_fraction_parts t :
  exists f, t = f ++ after_fraction t /\ (f = [] \/ exists fs, f = 46 :: fs /\ forallb is_digit fs = true).
Proof.
  destruct t as [|c t]; [by exists []; split; [|left]|]. cbn. case_decide as Hc; [|by exists []; split; [|left]].
  subst. destruct (span_parts is_digit t) as [H1 H2]. exists (46 :: (span is_digit t).1). cbn. rewrite <- H1.
  split; [done|right]. by eexists.
Qed.

Lemma after_exponent_parts t :
  exists e, t = e ++ after_exponent t /\ after_exponent e = [] /\ Forall token_unit e /\
  match e with c :: _ => c = 101 \/ c = 69 | [] => True end.
Proof.
  assert (Hnil : exists e, t = e ++ t /\ after_exponent e = [] /\ Forall token_unit e /\
    match e with c :: _ => c = 101 \/ c = 69 | [] => True end) by (by exists []).
  destruct t as [|c t]; [done|]. cbn. case_bool_decide as Hc; [|done].
  destruct (span is_digit (after_sign t)) as [[|d ds] r] eqn:E; [done|]. clear Hnil.
  destruct (span_parts is_digit (after_sign t)) as [H1 H2]. rewrite E in H1, H2. cbn [fst snd] in H1, H2.
  assert (Hs : exists sg, t = sg ++ after_sign t /\ Forall token_unit sg /\
    after_sign (sg ++ d :: ds) = d :: ds).
  { assert (Hd : after_sign (d :: ds) = d :: ds).
    { cbn [forallb] in H2. apply andb_true_iff in H2 as [H2 _]. cbn. rewrite bool_decide_false; [done|].
      rewrite !elem_of_cons, elem_of_nil. by intros [->|[->|[]]]. }
    destruct t as [|s t]; [done|]. cbn. case_bool_decide as Hs; [|by exists []].
    exists [s]. split; [done|]. split; [|cbn; by rewrite bool_decide_true]. apply List.Forall_cons; [|constructor]. right. cbn in Hs.
    rewrite !elem_of_cons, elem_of_nil in Hs. destruct Hs as [->|[->|[]]]; by_decide. }
  destruct Hs as (sg & Hs & Hu & Ha). exists (c :: sg ++ d :: ds). cbn in Hc. rewrite !elem_of_cons, elem_of_nil in Hc.
  split_and!.
  - cbn. f_equal. rewrite <- app_assoc. cbn in H1 |- *. by rewrite <- H1.
  - cbn [app after_exponent]. rewrite bool_decide_true by (destruct Hc as [->|[->|[]]]; by_decide). rewrite Ha.
    pose proof (token_span_app is_digit (d :: ds) [] H2 I) as Hsp. rewrite app_nil_r in Hsp. by rewrite Hsp.
  - apply Forall_cons. split; [right; destruct Hc as [->|[->|[]]]; by_decide|].
    apply Forall_app. split; [done|by apply digits_units].
  - destruct Hc as [->|[->|[]]]; [by left|by right].
Qed.

Lemma after_digits_parts t r :
  after_digits t = Some r ->
  exists k, t = k ++ r /\ after_digits k = Some [] /\ Forall token_unit k /\
  match k with c :: _ => is_digit c = true | [] => False end.
Proof.
  unfold after_digits at 1. destruct (span_parts is_digit t) as [E1 Hds].
  destruct (span is_digit t) as [[|d ds] t1] eqn:Es; [done|]. cbn [fst snd] in E1, Hds. intros [= Hr].
  destruct (after_fraction_parts t1) as (f & Ef & Hf).
  destruct (after_exponent_parts (after_fraction t1)) as (e & Ee & Hx & Hu & He). rewrite Hr in Ee.
  assert (Hne : match e with c :: _ => is_digit c = false | [] => True end).
  { destruct e as [|c e]; [done|]. by destruct He as [->| ->]. }
  exists ((d :: ds) ++ f ++ e). split_and!.
  - rewrite <- !app_assoc, <- Ee, <- Ef. by rewrite E1.
  - unfold after_digits. destruct Hf as [->|(fs & -> & Hfs)].
    + rewrite (app_nil_l e), (token_span_app is_digit (d :: ds) e) by done.
      assert (Hf : after_fraction e = e); [|by rewrite Hf, Hx].
      destruct e as [|c e]; [done|]. cbn. rewrite decide_False; [done|]. by destruct He as [->| ->].
    + rewrite (token_span_app is_digit (d :: ds)) by done.
      change (Some (after_exponent (span is_digit (fs ++ e)).2) = Some []). rewrite token_span_app by done. cbn [snd].
      by rewrite Hx.
  - apply Forall_app. split; [by apply digits_units|]. apply Forall_app. split; [|done].
    destruct Hf as [->|(fs & -> & Hfs)]; [done|]. apply Forall_cons. split; [right; by_decide|by apply digits_units].
  - cbn [forallb] in Hds. by apply andb_true_iff in Hds as [Hd _].
Qed.

Lemma after_token_parts c t r :
  c <> 34 -> after_token (c :: t) = Some r -> exists k, c :: t = k ++ r /\ is_token k.
Proof.
  intros Hc. unfold after_token at 1.
  assert (Hword : forall w, starts_with (c :: t) w = true -> after_token w = Some [] -> w <> [] ->
    head w <> Some 34 -> Forall token_unit w -> Some (drop (length w) (c :: t)) = Some r ->
    exists k, c :: t = k ++ r /\ is_token k).
  { intros w Hs H1 H2 H3 H4 [= <-]. exists w. apply starts_with_spec in Hs as [t' E]. rewrite E.
    by rewrite drop_app_length. }
  destruct (starts_with (c :: t) "true") eqn:E1; [intros H; eapply (Hword "true"); done || by_decide|].
  destruct (starts_with (c :: t) "false") eqn:E2; [intros H; eapply (Hword "false"); done || by_decide|].
  destruct (starts_with (c :: t) "null") eqn:E3; [intros H; eapply (Hword "null"); done || by_decide|].
  clear Hword. rewrite decide_False by done. destruct (decide (c = 45)) as [->|Hm]; intros H.
  - apply after_digits_parts in H as (k & -> & Hk & Hu & _). exists (45 :: k). split; [done|].
    split_and!; [done|done| |apply List.Forall_cons; [right; by_decide|done]].
    by rewrite after_token_no_word, decide_False, decide_True.
  - apply after_digits_parts in H as (k & E & Hk & Hu & Hd). exists k. split; [done|].
    destruct k as [|d k]; [done|]. injection E as <- _. split_and!; [done|cbn; congruence| |done].
    unfold is_digit in Hd. rewrite after_token_no_word, !decide_False by (done || lia). done.
Qed.

Lemma token_unit_units c : token_unit c -> c <> 34 /\ c <> 64 /\ c <> 92.
Proof.
  intros [H|H]; [unfold is_digit in H; lia|]. cbn in H. rewrite !elem_of_cons, elem_of_nil in H.
  repeat destruct H as [->|H]; done.
Qed.

Lemma emptied_token k t : Forall token_unit k -> emptied false (k ++ t) = k ++ emptied false t.
Proof.
  induction 1 as [|c k Hc _ IH]; [done|]. cbn [app emptied]. rewrite decide_False by (by apply token_unit_units).
  by rewrite IH.
Qed.

(** Past a string token: where the text goes on. *)
Lemma string_emptied t r :
  (span string_unit (replace_two t)).2 = 34 :: r ->
  exists t', (length t' < S (length t))%nat /\ replace_two t' = r /\ emptied true t = 34 :: emptied false t'.
Proof.
  revert r. induction t as [t IH] using (induction_ltof1 _ length). unfold ltof in IH. intros r.
  assert (Hnext : forall n t', (S n <= length t)%nat -> length t' = (length t - S n)%nat ->
    (span string_unit (replace_two t')).2 = 34 :: r -> emptied true t = emptied true t' ->
    exists t2, (length t2 < S (length t))%nat /\ replace_two t2 = r /\ emptied true t = 34 :: emptied false t2).
  { intros n t' Hn Hl Ht' ->. destruct (IH t' ltac:(lia) r Ht') as (t2 & H1 & H2 & H3). exists t2. split; [lia|done]. }
  destruct t as [|c t]; [done|]. destruct (decide (c = 92)) as [->|Hc].
  - assert (Hbad : forall x, (span string_unit (92 :: x)).2 = 34 :: r -> False) by done.
    assert (H64 : forall x, (span string_unit (64 :: x)).2 = (span string_unit x).2).
    { intros x. cbn. by destruct (span string_unit x). }
    cbn [replace_two]. rewrite decide_True by done. destruct t as [|d t]; [intros H; by apply Hbad in H|].
    destruct (bool_decide (d ∈ _)).
    { rewrite H64. intros H. apply (Hnext 1%nat t); cbn [length]; [lia|lia|done|done]. }
    destruct (decide (d = 117)) as [->|]; [|intros H; by apply Hbad in H].
    destruct t as [|h1 [|h2 [|h3 [|h4 t]]]]; try (intros H; by apply Hbad in H).
    destruct (is_hex h1 && is_hex h2 && is_hex h3 && is_hex h4) eqn:Hh; [|intros H; by apply Hbad in H].
    rewrite H64. intros H. apply (Hnext 5%nat t); cbn [length]; [lia|lia|done|].
    assert (Hhex : forall h, is_hex h = true -> h <> 34 /\ h <> 92).
    { intros h Hx. split; intros ->; done. }
    rewrite !andb_true_iff in Hh. destruct Hh as [[[A B] C] D].
    apply Hhex in A as [??], B as [??], C as [??], D as [??]. cbn [emptied].
    rewrite (decide_False (P := 92 = 34)), (decide_True (P := 92 = 92)) by done. by rewrite !decide_False.
  - rewrite replace_two_other by done. destruct (decide (c = 34)) as [->|Hq].
    { intros [= <-]. exists t. split; [cbn; lia|]. split; [done|]. cbn [emptied]. by rewrite decide_True. }
    cbn [span]. destruct (string_unit c) eqn:Eu; [|intros [= ? _]; congruence].
    intros H. apply (Hnext 0%nat t); cbn [length]; [lia|lia| |].
    + by destruct (span string_unit (replace_two t)).
    + cbn [emptied]. by rewrite !decide_False.
Qed.

(** An accepted text is program text of this kind once its strings are emptied. *)
Lemma reduce_code t : forallb good (reduce t) = true -> code_text (emptied false t).
Proof.
  induction t as [t IH] using (induction_ltof1 _ length). unfold ltof in IH. unfold reduce in *.
  destruct t as [|c t]; [intros _; constructor|]. destruct (decide (c = 92)) as [->|Hc].
  { assert (exists d m, replace_two (92 :: t) = d :: m /\ (d = 64 \/ d = 92)) as (d & m & -> & Hd).
    { cbn [replace_two]. rewrite decide_True by done.
      repeat case_match; eexists _, _; (split; [done|]); (by left) || (by right). }
    rewrite replace_three_other by (apply inert_no_token; by destruct Hd as [-> | ->]).
    cbn [forallb]. by destruct Hd as [-> | ->]. }
  rewrite replace_two_other by done. cbn [replace_three].
  destruct (after_token (c :: replace_two t)) as [r|] eqn:E; cbn [emptied].
  - destruct (decide (c = 34)) as [->|Hq].
    + rewrite after_token_no_word, decide_True in E by done.
      destruct (span string_unit (replace_two t)).2 as [|d r'] eqn:Es; [done|].
      destruct (decide (d = 34)) as [->|]; [|done]. injection E as ->.
      destruct (string_emptied t r Es) as (t' & Hl & Hr & ->). intros H. apply code_string, IH; [cbn; lia|].
      rewrite Hr. destruct (span_parts string_unit (replace_two t)) as [Ep _]. rewrite Es in Ep.
      set (p := (span string_unit (replace_two t)).1) in Ep. clearbody p.
      rewrite Ep in H. rewrite (app_assoc p [34] r : p ++ 34 :: r = (p ++ [34]) ++ r) in H.
      rewrite length_app in H. replace (length (p ++ [34%Z]) + length r - length r)%nat with (length (p ++ [34])) in H by lia.
      rewrite replace_three_skip in H. cbn [forallb] in H. by apply andb_true_iff in H as [_ H].
    + destruct (after_token_parts c (replace_two t) r Hq E) as (k & Ek & Hk).
      assert (Hu : Forall (fun c => c <> 64 /\ c <> 92) k).
      { eapply Forall_impl; [apply Hk|]. intros u Hu. by apply token_unit_units in Hu as (_ & ? & ?). }
      destruct (replace_two_prefix k (c :: t) r) as (t' & Et & Hr); [by rewrite replace_two_other|done|].
      destruct k as [|d k]; [by destruct Hk|]. injection Et as <- ->. injection Ek as Ek.
      intros H. rewrite Ek, length_app in H.
      replace (length k + length r - length r)%nat with (length k) in H by lia.
      rewrite replace_three_skip in H. cbn [forallb] in H. apply andb_true_iff in H as [_ H].
      destruct Hk as (Hk1 & Hk2 & Hk3 & Hk4). rewrite (emptied_token k t') by (by inversion Hk4).
      apply (code_token (c :: k)); [done..|]. apply IH; [cbn; rewrite length_app; lia|]. by rewrite Hr.
  - intros H. cbn [forallb] in H. apply andb_true_iff in H as [Hg H].
    destruct (decide (c = 34)) as [->|Hq]; [done|]. apply code_unit; [|apply IH; [cbn; lia|done]].
    unfold good in Hg. apply orb_true_iff in Hg as [?|Hg]; [by left|]. right. by apply Z.eqb_eq.
Qed.

(** No unit that could call, assign, index, separate statements or start a name
    other than the three words. *)
Definition forbidden : jstr := "()=;'<>&|!?*/%^~$_@#\" ++ [96].

Lemma is_token_allowed k : Forall token_unit k -> Forall (fun c => c ∉ forbidden) k.
Proof.
  intros H. eapply Forall_impl; [exact H|]. cbn beta. intros c [Hc|Hc] Hf; apply list_elem_of_In in Hf.
  - unfold is_digit in Hc. assert (Hd : forallb (fun u => negb (is_digit u)) forbidden = true) by done.
    rewrite forallb_forall in Hd. specialize (Hd c Hf). unfold is_digit in Hd. by rewrite Hc in Hd.
  - assert (Hd : forallb (fun u => negb (bool_decide (u ∈ js "truefalsn+-.E"))) forbidden = true) by by_compute.
    rewrite forallb_forall in Hd. specialize (Hd c Hf). by rewrite bool_decide_true in Hd.
Qed.

Lemma code_text_allowed t : code_text t -> Forall (fun c => c ∉ forbidden) t.
Proof.
  induction 1 as [|c t Hc _ IH|t _ IH|k t Hne Hh Hk _ IH].
  - constructor.
  - constructor; [|done]. intros Hf. apply list_elem_of_In in Hf.
    assert (Hd : forallb (fun u => negb (rx_one_unit u || (u =? 91))) forbidden = true) by by_compute.
    rewrite forallb_forall in Hd. specialize (Hd c Hf). destruct Hc as [Hc| ->]; [by rewrite Hc in Hd|done].
  - repeat (constructor; [by_decide|]). done.
  - apply Forall_app. split; [|done]. destruct k as [|c k]; [done|].
    destruct (after_token_parts c k [] ltac:(cbn in Hh; congruence) Hk) as (k' & -> & _ & _ & _ & Hu).
    rewrite app_nil_r. by apply is_token_allowed.
Qed.

(** No member of this name anywhere, which a program would take for the
    prototype of the object. *)
Inductive no_proto : value -> Prop :=
  | np_leaf v : match v with VArr _ | VObj _ => False | _ => True end -> no_proto v
  | np_arr l : Forall no_proto l -> no_proto (VArr l)
  | np_obj o : js "__proto__" ∉ keys_of o -> Forall (fun kv => no_proto kv.2) o -> no_proto (VObj o).

Lemma no_proto_norm v : no_proto v -> no_proto (json_norm v).
Proof.
  induction v as [| | | | | |l IH|o IH] using value_ind'; intros Hv; try (by apply np_leaf);
    rewrite Forall_forall in IH; cbn [json_norm].
  - inversion Hv as [? Hx|? Hl|]; subst; [done|]. rewrite Forall_forall in Hl. apply np_arr, Forall_forall. intros x Hin.
    apply list_elem_of_fmap in Hin as (y & -> & Hin). destruct (defined y); [by apply IH, Hl|by apply np_leaf].
  - inversion Hv as [? Hx| |? Hk Hl]; subst; [done|]. rewrite Forall_forall in Hl.
    rewrite (entries_map (fun _ => json_norm)). apply np_obj.
    + intros Hin. apply Hk. apply list_elem_of_fmap in Hin as (kv & -> & Hin).
      apply list_elem_of_filter in Hin as [_ Hin]. apply list_elem_of_fmap in Hin as (kv' & -> & Hin).
      rewrite entries_perm in Hin. apply list_elem_of_fmap. by exists kv'.
    + apply Forall_forall. intros kv Hin. apply list_elem_of_filter in Hin as [_ Hin].
      apply list_elem_of_fmap in Hin as (kv' & -> & Hin). rewrite entries_perm in Hin. by apply IH, Hl.
Qed.

(** ** The theorems *)



(** An evaluation that knows JSON. *)
Definition json_eval (p : jstr) : res value :=
  match json_value (take (length p - 2) (drop 1 p)) with Some v => Ok v | None => Throw SyntaxError end.

Lemma json_eval_spec t v : json_value t = Some v -> json_eval ("(" ++ t ++ ")") = Ok v.
Proof.
  intros Ht. unfold json_eval. cbn [app drop]. rewrite !length_app.
  replace (take _ _) with t; [by rewrite Ht|]. change (drop 1 (js "(" ++ t ++ js ")")) with (t ++ js ")").
  cbn [length js]. replace (1 + (length t + 1) - 2)%nat with (length t + 0)%nat by lia.
  by rewrite take_app_add, app_nil_r.
Qed.

Definition stored : value :=
  VObj [(js "b", VArr [VNull; VUndef; VNum (Num (-25) 1); VBool true]); (js "a`", VStr (js "(x)" ++ [10; 0x2028]));
        (js "u", VUndef); (js "o", VObj [])].


(** ** Examples *)

Definition sample : value :=
  VObj [(js "a", VArr [VInt 1; VNull; VUndef; VNum (Num (-25) 1)]); (js "q`", VStr (js "x\" ++ [10; 7; 0x2028]));
        (js "none", VUndef); (js "2", VObj []); (js "1", VBool true)].

Example stringify_sample :
  stringify sample VUndef VUndef =
  Ok (Some (js "{`1`:true,`2`:{},`a`:[1,null,null,-2.5],`q\``:`x\\\n\u0007\u2028`}")).
Proof. by_compute. Qed.

Example stringify_indented :
  stringify (VObj [(js "a", VArr [VInt 1; VObj []])]) VUndef (VInt 2) =
  Ok (Some (js "{" ++ [10] ++ "  `a`: [" ++ [10] ++ "    1," ++ [10] ++ "    {}" ++ [10] ++ "  ]" ++ [10] ++ "}")).
Proof. by_compute. Qed.

Example stringify_selected :
  stringify sample (VArr [VStr "2"; VInt 1; VStr "none"; VStr "toString"; VStr "__proto__"]) VUndef =
  Ok (Some (js "{`2`:{`__proto__`:{`__proto__`:null}},`__proto__`:{`__proto__`:null}}")).
Proof. by_compute. Qed.

Example stringify_bad_replacer : stringify sample (VStr "a") VUndef = Throw (JsError "JSON.stringify").
Proof. by_compute. Qed.

Example safe_sample : json_safe "{`1` :true,`q\``: [ [`x(\\\n\u0007\u2028`, -2.5e+3]]}" = true.
Proof. by_compute. Qed.

Example call_unsafe : json_safe "{`a`:alert(1)}" = false.
Proof. by_compute. Qed.

Example assignment_unsafe : json_safe "[a=1]" = false.
Proof. by_compute. Qed.
