(* ===== verification/Columns.v ===== *)
(** global.js: the columns of the listings, per page and group. *)
From S2P Require Import Prelude JsString JsObject.

(** [[key, label, shown by default]] *)
Record column := mk_column { col_key : jstr; col_label : jstr; col_default : bool }.

Definition col (key label : string) (d : bool) : column := mk_column key label d.

Notation columns := (obj (obj (list column))) (only parsing).

(** global.js: all columns *)
Definition ALL_COLUMNS : columns :=
  [(js "exchanges",
     [(js "Overview", [col "type" "Type" true;
        col "features" "Features (with policy)" true;
        col "features_no_policy" "Features (no policy)" false;
        col "policy" "Policy" false]);
      (js "Message rates", [col "rate-in" "rate in" true;
        col "rate-out" "rate out" true])]);
   (js "queues",
     [(js "Overview", [col "type" "Type" true;
        col "features" "Features (with policy)" true;
        col "features_no_policy" "Features (no policy)" false;
        col "policy" "Policy" false;
        col "consumers" "Consumer count" false;
        col "consumer_capacity" "Consumer capacity" false;
        col "state" "State" true]);
      (js "Messages", [col "msgs-ready" "Ready" true;
        col "msgs-unacked" "Unacknowledged" true;
        col "msgs-ram" "In memory" false;
        col "msgs-persistent" "Persistent" false;
        col "msgs-total" "Total" true]);
      (js "Message bytes", [col "msg-bytes-ready" "Ready" false;
        col "msg-bytes-unacked" "Unacknowledged" false;
        col "msg-bytes-ram" "In memory" false;
        col "msg-bytes-persistent" "Persistent" false;
        col "msg-bytes-total" "Total" false]);
      (js "Message rates", [col "rate-incoming" "incoming" true;
        col "rate-deliver" "deliver / get" true;
        col "rate-redeliver" "redelivered" false;
        col "rate-ack" "ack" true])]);
   (js "channels",
     [(js "Overview", [col "user" "User name" true;
        col "mode" "Mode" true;
        col "state" "State" true]);
      (js "Details", [col "msgs-unconfirmed" "Unconfirmed" true;
        col "consumer-count" "Consumer count" false;
        col "prefetch" "Prefetch" true;
        col "msgs-unacked" "Unacked" true]);
      (js "Transactions", [col "msgs-uncommitted" "Msgs uncommitted" false;
        col "acks-uncommitted" "Acks uncommitted" false]);
      (js "Message rates", [col "rate-publish" "publish" true;
        col "rate-confirm" "confirm" true;
        col "rate-unroutable-drop" "unroutable (drop)" true;
        col "rate-unroutable-return" "unroutable (return)" false;
        col "rate-deliver" "deliver / get" true;
        col "rate-redeliver" "redelivered" false;
        col "rate-ack" "ack" true])]);
   (js "connections",
     [(js "Overview", [col "container_id" "Container ID" true;
        col "user" "User name" true;
        col "state" "State" true]);
      (js "Details", [col "ssl" "TLS" true;
        col "ssl_info" "TLS details" false;
        col "protocol" "Protocol" true;
        col "channels" "Channels" true;
        col "channel_max" "Channel max" false;
        col "frame_max" "Frame max" false;
        col "auth_mechanism" "SASL auth mechanism" false;
        col "client" "Client" false]);
      (js "Network", [col "from_client" "From client" true;
        col "to_client" "To client" true;
        col "heartbeat" "Heartbeat" false;
        col "connected_at" "Connected at" false])]);
   (js "vhosts",
     [(js "Overview", [col "default-queue-type" "Default queue type" false;
        col "cluster-state" "Cluster state" false;
        col "description" "Description" false;
        col "tags" "Tags" false]);
      (js "Messages", [col "msgs-ready" "Ready" true;
        col "msgs-unacked" "Unacknowledged" true;
        col "msgs-total" "Total" true]);
      (js "Network", [col "from_client" "From client" true;
        col "to_client" "To client" true]);
      (js "Message rates", [col "rate-publish" "publish" true;
        col "rate-deliver" "deliver / get" true])]);
   (js "overview",
     [(js "Statistics", [col "file_descriptors" "File descriptors" true;
        col "erlang_processes" "Erlang processes" true;
        col "memory" "Memory" true;
        col "disk_space" "Disk space" true]);
      (js "General", [col "uptime" "Uptime" true;
        col "cores" "Cores" true;
        col "info" "Info" true;
        col "reset_stats" "Reset stats" true])])].

(** global.js: the columns kept when statistics are disabled *)
Definition DISABLED_STATS_COLUMNS : columns :=
  [(js "exchanges",
     [(js "Overview", [col "type" "Type" true;
        col "features" "Features (with policy)" true;
        col "features_no_policy" "Features (no policy)" false;
        col "policy" "Policy" false])]);
   (js "queues",
     [(js "Overview", [col "type" "Type" true;
        col "features" "Features (with policy)" true;
        col "features_no_policy" "Features (no policy)" false;
        col "policy" "Policy" false;
        col "state" "State" true]);
      (js "Messages", [col "msgs-ready" "Ready" true;
        col "msgs-unacked" "Unacknowledged" true;
        col "msgs-ram" "In memory" false;
        col "msgs-persistent" "Persistent" false;
        col "msgs-total" "Total" true])]);
   (js "connections",
     [(js "Overview", [col "container_id" "Container ID" true;
        col "user" "User name" true]);
      (js "Details", [col "ssl" "TLS" true;
        col "ssl_info" "TLS details" false;
        col "protocol" "Protocol" true;
        col "channel_max" "Channel max" false;
        col "frame_max" "Frame max" false;
        col "auth_mechanism" "SASL auth mechanism" false;
        col "client" "Client" false]);
      (js "Network", [col "from_client" "From client" false;
        col "to_client" "To client" false;
        col "heartbeat" "Heartbeat" false;
        col "connected_at" "Connected at" false])]);
   (js "vhosts",
     [(js "Overview", [col "cluster-state" "Cluster state" false])])].
