(* ===== verification/Prefs.v ===== *)
(** prefs.js: preferences in local storage or in the cookie "m", and the
    login credentials kept there.

    The page's cookie jar and the clock of its time zone belong to the
    browser: they are the classes [CookieJar] and [Clock]. *)
From S2P Require Import Prelude JsString JsNum Base64 Uri JsObject Columns.

(** ** The browser *)

(** What the page relies on of [document.cookie]. Reading gives the pairs
    [name=value] of the unexpired cookies joined by ["; "]; an assignment
    [name=value; expires=e; path=/] sets or replaces one cookie ([None]: an
    expiry date that is not a date, so a session cookie). *)
Class CookieJar (J : Type) := {
  jar_pairs : J -> Z -> list (jstr * jstr);
  jar_set : J -> Z -> jstr -> jstr -> option Z -> J;
}.

Definition cookie_pair (p : jstr * jstr) : jstr := p.1 ++ "=" ++ p.2.

Definition document_cookie `{CookieJar J} (j : J) (now : Z) : jstr :=
  join "; " (map cookie_pair (jar_pairs j now)).

(** Characters a cookie's name and value cannot hold. *)
Definition cookie_name_ok (s : jstr) : Prop :=
  59 ∉ s /\ 61 ∉ s /\ Forall (fun c => is_space c = false) s.
Definition cookie_value_ok (s : jstr) : Prop :=
  wf_jstr s /\ 59 ∉ s /\ Forall (fun c => is_space c = false) s.

Class CookieJarLaws (J : Type) `{CookieJar J} := {
  jar_ok : forall j t n v, (n, v) ∈ jar_pairs j t -> cookie_name_ok n /\ cookie_value_ok v;
  jar_get_set : forall j t n v e t',
    cookie_name_ok n -> cookie_value_ok v -> t <= t' ->
    get (jar_pairs (jar_set j t n v e) t') n =
    match e with
    | Some e => if decide (t' < e) then Some v else None
    | None => Some v
    end;
}.

(** Local wall-clock arithmetic: [d.setHours(d.getHours() + h)] and
    [d.setMinutes(d.getMinutes() + m)] on a time in milliseconds. *)
Class Clock := {
  add_hours : Z -> Z -> Z;
  add_minutes : Z -> Z -> Z;
}.

(** ** Keys *)

Definition CREDENTIALS : jstr := "credentials".
Definition AUTH_SCHEME : jstr := "auth-scheme".
Definition LOGGED_IN : jstr := "loggedIn".
Definition LOGIN_SESSION_TIMEOUT : jstr := "login_session_timeout".
Definition AUTH_RESOURCE : jstr := "auth_resource".
Definition BASIC_AUTH_SCHEME : jstr := "Basic".
Definition BEARER_AUTH_SCHEME : jstr := "Bearer".

(** String.prototype.hashCode: for the empty string the source names a
    variable that does not exist. *)
Definition hash_step (hash char : Z) : Z :=
  let hash := 31 * hash + char in band hash hash.

Definition hashCode (s : jstr) : res Z :=
  if decide (length s = 0)%nat then Throw (ReferenceError "code")
  else Ok (foldl hash_step 0 s).

(** short_key *)
Definition short_key (k : jstr) : res jstr :=
  h ← hashCode k; Ok (to_string 16 (Z.abs (shr (shl h 16) 16))).

(** section_pref *)
Definition section_pref (template name : jstr) : jstr :=
  "visible|" ++ template ++ "|" ++ name.

(** ** Cookies *)

(** One entry of parse_cookie: [kv = item.split(':')], the second part
    [undefined] when there is no colon. *)
Definition parse_item (dict : obj jstr) (item : jstr) : obj jstr :=
  let kv := split_on 58 item in
  put dict (default [] (kv !! 0%nat)) (unescape (default (js "undefined") (kv !! 1%nat))).

Definition parse_cookie_string (c : jstr) : obj jstr :=
  let items := if decide (length c = 0)%nat then [] else split_on 124 c in
  foldl parse_item [] items.

(** The loop of get_cookie over the parts of [document.cookie]; [None] is
    undefined, for a part without an equals sign. *)
Fixpoint find_cookie (key : jstr) (cookies : list jstr) : option jstr :=
  match cookies with
  | [] => Some []
  | c :: cookies =>
      let kv := split_on 61 (trim c) in
      if decide (kv !! 0%nat = Some key) then kv !! 1%nat else find_cookie key cookies
  end.

(** The text written by store_cookie_with_expiration for a dictionary. *)
Definition encode_dict (dict : obj jstr) : jstr :=
  join "|" (map (fun kv => kv.1 ++ ":" ++ escape kv.2) (entries dict)).

(** toUTCString has a resolution of a second. *)
Definition utc_seconds (t : Z) : Z := t - t mod 1000.

(** ** Defaults *)

(** default_column_pref: the default of a column, ["false"] when unknown. *)
Fixpoint find_column (key : jstr) (groups : obj (list column)) : option bool :=
  match groups with
  | [] => None
  | (_, options) :: groups =>
      match find (fun c => bool_decide (col_key c = key)) options with
      | Some c => Some (col_default c)
      | None => find_column key groups
      end
  end.

Definition bool_string (b : bool) : jstr := if b then "true" else "false".

(** [COLUMNS] is undefined until setup_global_vars has run. *)
Definition default_column_pref (COLUMNS : option columns) (key0 : jstr) : res jstr :=
  let ix := index_of key0 "-" in
  let mode := substring key0 0 ix in
  let key := substring_from key0 (ix + 1) in
  match COLUMNS with
  | None => Throw TypeError
  | Some cols =>
      Ok (match find_column key (default [] (get cols mode)) with
          | Some b => bool_string b
          | None => "false"
          end)
  end.

(** default_pref: [None] is null. *)
Definition default_pref (COLUMNS : option columns) (k : jstr) : res (option jstr) :=
  if decide (substring k 0 11 = "chart-size-") then Ok (Some (js "small"))
  else if decide (substring k 0 10 = "rate-mode-") then Ok (Some (js "chart"))
  else if decide (substring k 0 11 = "chart-line-") then Ok (Some (js "true"))
  else if decide (k = "truncate") then Ok (Some (js "100"))
  else if decide (k = "chart-range") then Ok (Some (js "60|5"))
  else if decide (k = "oauth-return-to") then Ok (Some [])
  else if decide (substring k 0 7 = "column-") then
    Some <$> default_column_pref COLUMNS (substring_from k 7)
  else Ok None.

(** ** The page *)

Record page (J : Type) := mk_page {
  local_storage : option (gmap jstr jstr);   (* None: not available *)
  jar : J;
  now : Z;
  COLUMNS : option columns;
}.
Arguments mk_page {J} _ _ _ _.
Arguments local_storage {J} _.
Arguments jar {J} _.
Arguments now {J} _.
Arguments COLUMNS {J} _.

Definition set_local {J : Type} (l : gmap jstr jstr) (p : page J) : page J :=
  mk_page (Some l) (jar p) (now p) (COLUMNS p).

Definition set_jar {J : Type} (j : J) (p : page J) : page J :=
  mk_page (local_storage p) j (now p) (COLUMNS p).

(** The names under which preferences are stored. *)
Definition rabbit (k : jstr) : jstr := "rabbitmq." ++ k.

Definition no_local_storage : exn :=
  Thrown "Local Storage not available. RabbitMQ requires localStorage".

Section Handlers.
Context {J : Type} {CJ : CookieJar J} {CK : Clock}.
Notation H := (M (page J)).

(** store_local_pref *)
Definition store_local_pref (k v : jstr) : H unit := fun p =>
  match local_storage p with
  | Some l => (Ok tt, set_local (<[rabbit k := v]> l) p)
  | None => (Throw no_local_storage, p)
  end.

(** clear_local_pref *)
Definition clear_local_pref (k : jstr) : H unit := fun p =>
  match local_storage p with
  | Some l => (Ok tt, set_local (delete (rabbit k) l) p)
  | None => (Ok tt, p)
  end.

(** get_local_pref: [None] is null. *)
Definition get_local_pref (k : jstr) : H (option jstr) := fun p =>
  match local_storage p with
  | Some l => (Ok (l !! rabbit k), p)
  | None => (Throw no_local_storage, p)
  end.

(** get_cookie *)
Definition get_cookie (key : jstr) : H (option jstr) :=
  gets (fun p => find_cookie key (split_on 59 (document_cookie (jar p) (now p)))).

(** parse_cookie: [c.length] of an undefined cookie value is an error. *)
Definition parse_cookie : H (obj jstr) :=
  c ← get_cookie "m";
  match c with
  | Some c => mret (parse_cookie_string c)
  | None => throw TypeError
  end.

(** store_cookie_with_expiration: [None] stands for an invalid date. *)
Definition store_cookie_with_expiration (dict : obj jstr) (expiration : option Z) : H unit :=
  modify (fun p =>
    set_jar (jar_set (jar p) (now p) "m" (encode_dict dict) (utc_seconds <$> expiration)) p).

(** default_hard_session_timeout *)
Definition default_hard_session_timeout : H Z := gets (fun p => add_hours (now p) 8).

(** store_cookie *)
Definition store_cookie (dict : obj jstr) : H unit :=
  k ← lift (short_key LOGIN_SESSION_TIMEOUT);
  date ← match get dict k with
         | Some t => gets (fun p => add_minutes (now p) <$> parse_int10 t)
         | None => d ← default_hard_session_timeout; mret (Some d)
         end;
  store_cookie_with_expiration dict date.

(** store_cookie_value *)
Definition store_cookie_value (k v : jstr) : H unit :=
  d ← parse_cookie; sk ← lift (short_key k); store_cookie (put d sk v).

(** store_cookie_value_with_expiration *)
Definition store_cookie_value_with_expiration (k v : jstr) (expiration : Z) : H unit :=
  d ← parse_cookie; sk ← lift (short_key k);
  store_cookie_with_expiration (put d sk v) (Some expiration).

(** clear_cookie_value *)
Definition clear_cookie_value (k : jstr) : H unit :=
  d ← parse_cookie; sk ← lift (short_key k); store_cookie (del d sk).

(** default_pref on the page's columns. *)
Definition page_default (k : jstr) : H (option jstr) := fun p => (default_pref (COLUMNS p) k, p).

(** get_cookie_value *)
Definition get_cookie_value (k : jstr) : H (option jstr) :=
  d ← parse_cookie; sk ← lift (short_key k);
  match get d sk with Some r => mret (Some r) | None => page_default k end.

(** store_pref *)
Definition store_pref (k v : jstr) : H unit := fun p =>
  match local_storage p with
  | Some _ => store_local_pref k v p
  | None => store_cookie_value k v p
  end.

(** clear_pref *)
Definition clear_pref (k : jstr) : H unit := fun p =>
  match local_storage p with
  | Some _ => clear_local_pref k p
  | None => clear_cookie_value k p
  end.

(** get_pref(k, defaultValue) *)
Definition get_pref_or (k : jstr) (defaultValue : option jstr) : H (option jstr) :=
  val ← (fun p => match local_storage p with
                  | Some l => (Ok (l !! rabbit k), p)
                  | None => (d ← parse_cookie; sk ← lift (short_key k); mret (get d sk)) p
                  end);
  match val with
  | Some v => mret (Some v)
  | None => match defaultValue with Some v => mret (Some v) | None => page_default k end
  end.

Definition get_pref (k : jstr) : H (option jstr) := get_pref_or k None.

(** show_column *)
Definition show_column (mode column : jstr) : H bool :=
  v ← get_pref ("column-" ++ mode ++ "-" ++ column); mret (bool_decide (v = Some (js "true"))).

(** ** Credentials *)

Definition set_auth_resource (resource : jstr) : H unit := store_local_pref AUTH_RESOURCE resource.

Definition has_auth_resource : H bool :=
  r ← get_local_pref AUTH_RESOURCE; mret (bool_decide (is_Some r)).

Definition get_auth_resource : H (option jstr) := get_local_pref AUTH_RESOURCE.

Definition get_auth_credentials : H (option jstr) := get_local_pref CREDENTIALS.
Definition get_auth_scheme : H (option jstr) := get_local_pref AUTH_SCHEME.

(** has_auth_credentials: [None] is an undefined scheme, which matches any. *)
Definition has_auth_credentials (auth_scheme : option jstr) : H bool :=
  c ← get_local_pref CREDENTIALS;
  authenticated ←
    match c with
    | None => mret false
    | Some _ =>
        s ← get_local_pref AUTH_SCHEME;
        match s with
        | None => mret false
        | Some _ => v ← get_cookie_value LOGGED_IN; mret (bool_decide (is_Some v))
        end
    end;
  if negb authenticated then mret false
  else match auth_scheme with
       | None => mret true
       | Some a => s ← get_auth_scheme; mret (bool_decide (s = Some a))
       end.

Definition clear_auth : H unit :=
  clear_local_pref CREDENTIALS ;;;
  clear_local_pref AUTH_SCHEME ;;;
  clear_cookie_value LOGIN_SESSION_TIMEOUT ;;;
  clear_cookie_value LOGGED_IN ;;;
  clear_local_pref AUTH_RESOURCE.

Definition set_auth (auth_scheme credentials : jstr) (validUntil : Z) : H unit :=
  clear_local_pref CREDENTIALS ;;;
  clear_local_pref AUTH_SCHEME ;;;
  store_local_pref CREDENTIALS credentials ;;;
  store_local_pref AUTH_SCHEME auth_scheme ;;;
  store_cookie_value_with_expiration LOGGED_IN "true" validUntil.

Definition set_basic_auth (username password : jstr) : H unit :=
  c ← lift (b64_encode_utf8 (username ++ ":" ++ password));
  t ← default_hard_session_timeout;
  set_auth "Basic" c t.

Definition set_token_auth (token : jstr) : H unit :=
  t ← default_hard_session_timeout; set_auth "Bearer" token t.

(** ["" + x] of a value that may be null. *)
Definition null_string (v : option jstr) : jstr := default (js "null") v.

Definition authorization_header : H (option jstr) :=
  b ← has_auth_credentials None;
  if (b : bool) then
    s ← get_auth_scheme; c ← get_auth_credentials;
    mret (Some (null_string s ++ " " ++ null_string c))
  else mret None.

(** update_login_session_timeout, in minutes. *)
Definition update_login_session_timeout (login_session_timeout : Z) : H unit :=
  v ← get_cookie_value LOGIN_SESSION_TIMEOUT;
  stop ← match v with
         | Some _ => mret true
         | None => b ← has_auth_credentials None; mret (negb b)
         end;
  if (stop : bool) then skip
  else
    date ← gets (fun p => add_minutes (now p) login_session_timeout);
    store_cookie_value LOGIN_SESSION_TIMEOUT (dec login_session_timeout) ;;;
    store_cookie_value_with_expiration LOGGED_IN "true" date.

End Handlers.
