(* ===== verification/PrefsFacts.v ===== *)
(** Properties of prefs.js: the cookie "m" is a dictionary that survives a
    round trip through the browser, and the credentials follow login and
    logout. *)
From S2P Require Import Prelude JsString JsNum Base64 Uri JsObject Columns Prefs.

(** ** Units of the cookie's text *)

Definition content_unit (c : Z) : Prop :=
  is_code_unit c /\ c <> 59 /\ c <> 61 /\ is_space c = false.

Definition key_unit (c : Z) : Prop := content_unit c /\ c <> 58 /\ c <> 124.

Definition key_ok (k : jstr) : Prop := Forall key_unit k.

(** The dictionaries the cookie can hold. *)
Definition dict_ok (d : obj jstr) : Prop :=
  NoDup (keys_of d) /\ Forall (fun kv => key_ok kv.1 /\ wf_jstr kv.2) d.

#[global] Instance content_unit_dec c : Decision (content_unit c).
Proof. unfold content_unit. apply _. Defined.

#[global] Instance key_unit_dec c : Decision (key_unit c).
Proof. unfold key_unit. apply _. Defined.

(** Every printable character escape writes is a key unit, but for [:] and [|]
    which it never writes. *)
Lemma escape_safe_key c : escape_safe c = true -> key_unit c.
Proof.
  intros Hs. assert (Hc : 0 <= c < 128).
  { revert Hs. unfold escape_safe, is_alnum, is_digit, is_upper, is_lower.
    rewrite !orb_true_iff, !andb_true_iff, !Z.leb_le, bool_decide_eq_true.
    rewrite !elem_of_cons, elem_of_nil. lia. }
  revert c Hc Hs. apply (Forall_range (fun c => escape_safe c = true -> key_unit c)). by_decide.
Qed.

Lemma hex_digit_key d : 0 <= d < 16 -> key_unit (hex_digit d).
Proof. revert d. apply (Forall_range (fun d => key_unit (hex_digit d))). by_decide. Qed.

Lemma digit_unit_key d : 0 <= d < 16 -> key_unit (digit_unit d).
Proof. revert d. apply (Forall_range (fun d => key_unit (digit_unit d))). by_decide. Qed.

Lemma escape_unit_key c : is_code_unit c -> Forall key_unit (escape_unit c).
Proof.
  unfold is_code_unit. intros Hc. unfold escape_unit, pct_byte.
  assert (H37 : key_unit 37) by by_decide. assert (H117 : key_unit 117) by by_decide.
  destruct (escape_safe c) eqn:E; [by repeat constructor; apply escape_safe_key|].
  destruct (Z.ltb_spec c 256); repeat constructor; try done; apply hex_digit_key; lia_div.
Qed.

Lemma escape_key s : wf_jstr s -> key_ok (escape s).
Proof.
  induction 1 as [|c s Hc _ IH]; [constructor|]. cbn. apply Forall_app.
  split; [by apply escape_unit_key | done].
Qed.

Lemma digits_key fuel n acc : 0 <= n -> key_ok acc -> key_ok (digits fuel 16 n acc).
Proof.
  revert n acc. induction fuel as [|fuel IH]; intros n acc Hn Hacc; [done|].
  cbn [digits]. assert (key_ok (digit_unit (n mod 16) :: acc)).
  { constructor; [|done]. apply digit_unit_key. lia_div. }
  case_match_goal; [done|]. apply IH; [lia_div | done].
Qed.

Lemma short_key_ok k sk : short_key k = Ok sk -> key_ok sk.
Proof.
  unfold short_key. rewrite res_bind_ok. intros (h & _ & [= <-]).
  unfold to_string. rewrite (proj2 (Z.ltb_ge _ _)) by lia. apply digits_key; [lia | constructor].
Qed.

(** ** parse_cookie undoes encode_dict *)

Lemma key_ok_free c k : key_ok k -> ~ key_unit c -> c ∉ k.
Proof. unfold key_ok. rewrite Forall_forall. naive_solver. Qed.

Lemma item_split k v :
  key_ok k -> wf_jstr v -> split_on 58 (k ++ ":" ++ escape v) = [k; escape v].
Proof.
  intros Hk Hv. change (k ++ ":" ++ escape v) with (k ++ 58 :: escape v).
  rewrite split_on_app_sep by (apply key_ok_free; [done|]; by unfold key_unit; naive_solver).
  rewrite split_on_free; [done|]. apply key_ok_free; [by apply escape_key|].
  by unfold key_unit; naive_solver.
Qed.

Lemma parse_item_encoded d k v :
  key_ok k -> wf_jstr v -> parse_item d (k ++ ":" ++ escape v) = put d k v.
Proof.
  intros Hk Hv. unfold parse_item. rewrite item_split by done. cbn.
  by rewrite unescape_escape_all.
Qed.

Lemma foldl_put_app {A} (o : obj A) : forall (acc : obj A),
  NoDup (keys_of (acc ++ o)) -> foldl (fun d kv => put d kv.1 kv.2) acc o = acc ++ o.
Proof.
  induction o as [|[k v] o IH]; intros acc Hd; [by rewrite app_nil_r|]. cbn.
  rewrite put_fresh.
  - rewrite IH; by rewrite <- app_assoc.
  - unfold keys_of in *. rewrite fmap_app in Hd. apply NoDup_app in Hd as (_ & Hd & _).
    intros Hin. apply (Hd k Hin). left.
Qed.

Lemma foldl_parse_items d : forall acc,
  Forall (fun kv => key_ok kv.1 /\ wf_jstr kv.2) d ->
  foldl parse_item acc (map (fun kv => kv.1 ++ ":" ++ escape kv.2) d) =
  foldl (fun d kv => put d kv.1 kv.2) acc d.
Proof.
  induction d as [|[k v] d IH]; intros acc Hd; [done|].
  inversion Hd as [|? ? [Hk Hv] Hd']; subst. cbn [map foldl fst snd].
  rewrite parse_item_encoded by done. by apply IH.
Qed.

Lemma dict_ok_entries d : dict_ok d -> dict_ok (entries d).
Proof.
  intros [Hn Hf]. split; [by apply NoDup_entries|]. by rewrite entries_perm.
Qed.

Lemma parse_encode_dict d : dict_ok d -> parse_cookie_string (encode_dict d) = entries d.
Proof.
  intros Hd. apply dict_ok_entries in Hd as [Hn Hf]. unfold parse_cookie_string, encode_dict.
  revert Hn Hf. generalize (entries d) as e. intros e Hn Hf.
  destruct e as [|kv e]; [done|].
  set (f := fun kv : jstr * jstr => kv.1 ++ ":" ++ escape kv.2).
  rewrite decide_False.
  - rewrite split_join; [|done|].
    + unfold f. rewrite foldl_parse_items by done. by rewrite foldl_put_app.
    + apply Forall_forall. intros x Hx. apply list_elem_of_fmap in Hx as (kv' & -> & Hin).
      rewrite Forall_forall in Hf. destruct (Hf _ Hin) as [Hk Hv]. unfold f.
      rewrite !not_elem_of_app. repeat split; [apply key_ok_free; [done|] | by_decide |
        apply key_ok_free; [by apply escape_key|]]; by unfold key_unit; naive_solver.
  - unfold f. destruct e; cbn [map join]; rewrite !length_app; cbn; lia.
Qed.

Lemma get_parse_encode d k : dict_ok d -> get (parse_cookie_string (encode_dict d)) k = get d k.
Proof. intros Hd. rewrite parse_encode_dict by done. apply get_entries, Hd. Qed.

(** ** Reading the cookie back *)

Lemma trim_start_free s : Forall (fun c => is_space c = false) s -> trim_start s = s.
Proof. destruct 1 as [|c s Hc]; cbn; [done|]. by rewrite Hc. Qed.

Lemma trim_free s : Forall (fun c => is_space c = false) s -> trim s = s.
Proof.
  intros Hs. unfold trim. rewrite (trim_start_free s) by done.
  rewrite trim_start_free; [apply rev_involutive|]. by apply Forall_rev.
Qed.

Lemma trim_space s : Forall (fun c => is_space c = false) s -> trim (32 :: s) = s.
Proof. intros Hs. rewrite <- (trim_free s Hs) at 2. unfold trim. done. Qed.

Lemma pair_free p :
  cookie_name_ok p.1 -> cookie_value_ok p.2 ->
  59 ∉ cookie_pair p /\ Forall (fun c => is_space c = false) (cookie_pair p) /\
  split_on 61 (cookie_pair p) = p.1 :: split_on 61 p.2.
Proof.
  intros (H1 & H2 & H3) (_ & H4 & H5). unfold cookie_pair.
  change (js "=") with [61]. repeat split.
  - rewrite !not_elem_of_app, list_elem_of_singleton. naive_solver lia.
  - rewrite !Forall_app. repeat split; try done. by repeat constructor.
  - by apply split_on_app_sep.
Qed.

Definition pairs_ok (ps : list (jstr * jstr)) : Prop :=
  Forall (fun p => cookie_name_ok p.1 /\ cookie_value_ok p.2) ps.

(** What find_cookie sees of a value: the text before its first [=]. *)
Definition first_part (v : jstr) : option jstr := split_on 61 v !! 0%nat.

Definition part_of (key : jstr) (ps : list (jstr * jstr)) : option jstr :=
  match get ps key with Some v => first_part v | None => Some [] end.

Lemma find_cookie_parts key ps :
  pairs_ok ps -> find_cookie key (map (fun p => 32 :: cookie_pair p) ps) = part_of key ps.
Proof.
  unfold part_of. induction 1 as [|[n v] ps [Hn Hv] _ IH]; [done|].
  destruct (pair_free (n, v) Hn Hv) as (_ & Hsp & Hsplit).
  cbn [map find_cookie get]. rewrite trim_space, Hsplit by done. cbn [fst lookup list_lookup].
  destruct (decide (n = key)) as [->|Hne]; [by rewrite decide_True|].
  rewrite decide_False by congruence. done.
Qed.

Lemma find_cookie_document key ps :
  pairs_ok ps -> key <> [] ->
  find_cookie key (split_on 59 (join "; " (map cookie_pair ps))) = part_of key ps.
Proof.
  intros Hps Hkey. destruct ps as [|[n v] ps].
  { cbn. by rewrite decide_False by congruence. }
  inversion Hps as [|? ? [Hn Hv] Hps']; subst. change (js "; ") with [59; 32].
  cbn [map]. rewrite split_join2; [|constructor|done].
  - rewrite map_map. destruct (pair_free (n, v) Hn Hv) as (_ & Hsp & Hsplit).
    cbn [find_cookie]. rewrite trim_free, Hsplit by done. unfold part_of. cbn [get].
    cbn [fst lookup list_lookup].
    destruct (decide (n = key)) as [->|Hne]; [by rewrite decide_True|].
    rewrite decide_False by congruence. by apply find_cookie_parts.
  - by apply (pair_free (n, v)).
  - apply Forall_map. eapply Forall_impl; [exact Hps'|]. cbn. intros p [Hp1 Hp2].
    by apply pair_free.
Qed.

(** ** Every content the browser can hold parses to a dictionary *)

Lemma hex_val_range c v : hex_val c = Some v -> 0 <= v < 16.
Proof.
  unfold hex_val, is_digit.
  destruct (Z.leb_spec 48 c), (Z.leb_spec c 57), (Z.leb_spec 65 c), (Z.leb_spec c 70),
    (Z.leb_spec 97 c), (Z.leb_spec c 102); cbn; intros [=]; lia.
Qed.

Lemma hex2_range a b v : hex2 a b = Some v -> 0 <= v < 256.
Proof.
  unfold hex2. intros (x & Hx & (y & Hy & [= <-])%bind_Some)%bind_Some.
  apply hex_val_range in Hx, Hy. lia.
Qed.

Lemma hex4_range a b c d v : hex4 a b c d = Some v -> 0 <= v < 65536.
Proof.
  unfold hex4. intros (x & Hx & (y & Hy & [= <-])%bind_Some)%bind_Some.
  apply hex2_range in Hx, Hy. lia.
Qed.

Lemma unescape_wf s : wf_jstr s -> wf_jstr (unescape s).
Proof.
  unfold wf_jstr, is_code_unit.
  induction s as [s IH] using (induction_ltof1 _ length). intros Hs.
  destruct s as [|c s1]; [constructor|]. inversion Hs as [|? ? Hc Hs1]; subst.
  assert (IH1 : Forall (fun c => 0 <= c < 65536) (unescape s1))
    by (apply IH; [unfold ltof; cbn; lia | done]).
  cbn [unescape]. destruct (decide (c = 37)) as [->|Hne]; [|by constructor].
  destruct s1 as [|u [|a s3]]; try by constructor.
  inversion Hs1 as [|? ? _ Hs2]; subst. inversion Hs2 as [|? ? _ Hs3]; subst.
  assert (IH3 : Forall (fun c => 0 <= c < 65536) (unescape s3))
    by (apply IH; [unfold ltof; cbn; lia | done]).
  assert (Htwo : Forall (fun c => 0 <= c < 65536)
    match hex2 u a with Some v => v :: unescape s3 | None => 37 :: unescape (u :: a :: s3) end).
  { destruct (hex2 u a) eqn:E; [apply hex2_range in E|]; constructor; (done || lia). }
  destruct s3 as [|b [|e [|d s6]]]; try exact Htwo.
  case_match_goal; [|exact Htwo].
  assert (IH6 : Forall (fun c => 0 <= c < 65536) (unescape s6)).
  { apply IH; [unfold ltof; cbn; lia|]. by do 3 (apply Forall_cons in Hs3 as [_ Hs3]). }
  constructor; [|done].
  match goal with H : (if decide _ then _ else _) = Some _ |- _ =>
    case_decide; [|done]; apply hex4_range in H; lia end.
Qed.

Lemma undefined_wf : wf_jstr "undefined".
Proof. by_decide. Qed.

Lemma parse_item_ok d item :
  dict_ok d -> 124 ∉ item -> Forall content_unit item -> dict_ok (parse_item d item).
Proof.
  intros [Hn Hf] Hbar Hc. unfold parse_item.
  pose proof (split_on_pieces content_unit 58 item Hc) as Hp.
  pose proof (split_on_pieces (fun c => c <> 124) 58 item) as Hq.
  assert (Hbar' : Forall (fun c => c <> 124) item)
    by (apply Forall_forall; intros x Hx ->; done).
  specialize (Hq Hbar'). destruct (split_on 58 item) as [|k ws] eqn:E;
    [by apply split_on_nonempty in E|].
  inversion Hp as [|? ? [Hk1 Hk2] Hws]; subst. inversion Hq as [|? ? [_ Hk3] _]; subst.
  assert (Hk : key_ok k).
  { apply Forall_forall. intros c Hin. rewrite Forall_forall in Hk2, Hk3.
    split; [by apply Hk2|]. split; [congruence|by apply Hk3]. }
  cbn [lookup list_lookup default from_option]. set (w := default _ _).
  assert (Hw : wf_jstr (unescape w)).
  { apply unescape_wf. unfold w. destruct ws as [|w' ws]; [apply undefined_wf|].
    inversion Hws as [|? ? [_ Hw'] _]; subst. eapply Forall_impl; [exact Hw'|].
    by intros c [Hcu _]. }
  split; [by apply NoDup_put|]. clear -Hf Hk Hw. induction Hf as [|[k1 v1] o H Ho IH]; cbn.
  - by repeat constructor.
  - destruct H as [H1 H2]. case_decide; subst; by constructor.
Qed.

Lemma parse_cookie_string_ok c : Forall content_unit c -> dict_ok (parse_cookie_string c).
Proof.
  intros Hc. unfold parse_cookie_string. case_decide; [split; constructor|].
  pose proof (split_on_pieces content_unit 124 c Hc) as Hp.
  assert (H0 : dict_ok []) by (split; constructor). revert H0.
  generalize (@nil (jstr * jstr)) as d. induction Hp as [|x xs [Hx1 Hx2] _ IH]; [done|].
  intros d Hd. cbn [foldl]. apply IH. by apply parse_item_ok.
Qed.

(** ** The cookie dictionary of a page *)

Definition cookie_text (ps : list (jstr * jstr)) : jstr := default [] (part_of "m" ps).

Definition cookie_dict `{CookieJar J} (p : page J) : obj jstr :=
  parse_cookie_string (cookie_text (jar_pairs (jar p) (now p))).

(** The page at a later time. *)
Definition at_time {J : Type} (t : Z) (p : page J) : page J :=
  mk_page (local_storage p) (jar p) t (COLUMNS p).

(** Before the expiry of a cookie; a session cookie never expires. *)
Definition live (e : option Z) (t : Z) : Prop :=
  match e with Some e => t < e | None => True end.

#[global] Instance live_dec e t : Decision (live e t).
Proof. destruct e; cbn; apply _. Defined.

(** The short keys of the session timeout and of the login mark. *)
Definition TIMEOUT_KEY : jstr := "2c1e".
Definition LOGGED_KEY : jstr := "59b9".

(** The expiry store_cookie gives to a dictionary. *)
Definition expiry `{Clock} (d : obj jstr) (now : Z) : option Z :=
  utc_seconds <$> match get d TIMEOUT_KEY with
                  | Some t => add_minutes now <$> parse_int10 t
                  | None => Some (add_hours now 8)
                  end.

Lemma first_part_some v : exists w ws, split_on 61 v = w :: ws /\ first_part v = Some w.
Proof.
  unfold first_part. destruct (split_on 61 v) eqn:E; [by apply split_on_nonempty in E|]. eauto.
Qed.

Lemma cookie_name_m : cookie_name_ok "m".
Proof. by_decide. Qed.

Lemma short_key_timeout : short_key LOGIN_SESSION_TIMEOUT = Ok TIMEOUT_KEY.
Proof. by_compute. Qed.

Lemma short_key_logged : short_key LOGGED_IN = Ok LOGGED_KEY.
Proof. by_compute. Qed.

Lemma encode_dict_content d : dict_ok d -> Forall content_unit (encode_dict d).
Proof.
  intros Hd. apply dict_ok_entries in Hd as [_ Hf]. unfold encode_dict.
  assert (Hx : Forall (fun x => Forall content_unit x)
    (map (fun kv : jstr * jstr => kv.1 ++ ":" ++ escape kv.2) (entries d))).
  { apply Forall_map. eapply Forall_impl; [exact Hf|]. intros [k v] [Hk Hv]. cbn [fst snd].
    assert (Hi : forall s, key_ok s -> Forall content_unit s)
      by (intros s Hs; eapply Forall_impl; [exact Hs|]; by intros c [Hc _]).
    rewrite !Forall_app. repeat split; [by apply Hi | by_decide | by apply Hi, escape_key]. }
  revert Hx. generalize (map (fun kv : jstr * jstr => kv.1 ++ ":" ++ escape kv.2) (entries d)).
  intros xs. induction 1 as [|x xs Hx _ IH]; [constructor|]. destruct xs as [|y xs]; [done|].
  change (join "|" (x :: y :: xs)) with (x ++ js "|" ++ join "|" (y :: xs)).
  rewrite !Forall_app. repeat split; [done | by_decide | done].
Qed.

Lemma content_value_ok s : Forall content_unit s -> cookie_value_ok s /\ 61 ∉ s.
Proof.
  intros Hs. assert (Hf : forall c, ~ content_unit c -> c ∉ s).
  { intros c Hc Hin. rewrite Forall_forall in Hs. by apply Hc, Hs. }
  split; [split_and!|].
  - eapply Forall_impl; [exact Hs|]. by intros c [? _].
  - apply Hf. unfold content_unit. naive_solver.
  - eapply Forall_impl; [exact Hs|]. by intros c (_ & _ & _ & ?).
  - apply Hf. unfold content_unit. naive_solver.
Qed.

Section Facts.
Context {J : Type} {CJ : CookieJar J} {CL : CookieJarLaws J} {CK : Clock}.
Implicit Types (p : page J) (k v sk : jstr) (d : obj jstr).

Lemma jar_pairs_ok p : pairs_ok (jar_pairs (jar p) (now p)).
Proof. apply Forall_forall. intros [n v] Hin. by eapply jar_ok. Qed.

(** parse_cookie never fails: the laws of the jar leave no part of
    [document.cookie] without an equals sign under the name "m". *)
Lemma parse_cookie_run p : parse_cookie p = (Ok (cookie_dict p), p).
Proof.
  unfold parse_cookie, get_cookie, gets, mbind, M_bind, document_cookie.
  rewrite find_cookie_document by (apply jar_pairs_ok || done).
  unfold cookie_dict, cookie_text, part_of. destruct (get (jar_pairs (jar p) (now p)) "m") as [v|]; [|done].
  destruct (first_part_some v) as (w & ws & _ & ->). done.
Qed.

Lemma cookie_dict_ok p : dict_ok (cookie_dict p).
Proof.
  unfold cookie_dict. apply parse_cookie_string_ok. unfold cookie_text, part_of.
  destruct (get _ _) as [v|] eqn:E; [|constructor]. apply get_In in E.
  pose proof (jar_pairs_ok p) as Hok. unfold pairs_ok in Hok. rewrite Forall_forall in Hok.
  destruct (Hok _ E) as [_ (Hwf & H59 & Hsp)]. cbn [snd] in *.
  destruct (first_part_some v) as (w & ws & Hw & ->). cbn.
  assert (Hall : Forall (fun c => is_code_unit c /\ c <> 59 /\ is_space c = false) v).
  { unfold wf_jstr in Hwf. rewrite Forall_forall in Hwf, Hsp. apply Forall_forall.
    intros c Hc. split_and!; [by apply Hwf | by intros -> | by apply Hsp]. }
  apply (split_on_pieces _ 61) in Hall. rewrite Hw in Hall.
  inversion Hall as [|? ? [H61 Hc] _]; subst. rewrite Forall_forall in Hc. apply Forall_forall.
  intros c Hin. destruct (Hc c Hin) as (? & ? & ?). split_and!; try done. by intros ->.
Qed.

(** Writing a dictionary and reading it at a later time. *)
Lemma store_cookie_exp_run p d e :
  dict_ok d ->
  exists p', store_cookie_with_expiration d e p = (Ok tt, p') /\
    local_storage p' = local_storage p /\ now p' = now p /\ COLUMNS p' = COLUMNS p /\
    forall t, now p <= t -> forall k, get (cookie_dict (at_time t p')) k =
      if decide (live (utc_seconds <$> e) t) then get d k else None.
Proof.
  intros Hd. eexists. split; [reflexivity|]. split_and!; try done.
  intros t Ht k. unfold cookie_dict. cbn [jar now at_time set_jar].
  destruct (content_value_ok (encode_dict d) (encode_dict_content d Hd)) as [Hv H61].
  assert (Hg : get (jar_pairs (jar_set (jar p) (now p) "m" (encode_dict d)
      (utc_seconds <$> e)) t) "m" =
    if decide (live (utc_seconds <$> e) t) then Some (encode_dict d) else None).
  { rewrite jar_get_set by (done || apply cookie_name_m). destruct e as [e|]; [|done].
    cbn. by repeat case_decide. }
  unfold cookie_text, part_of. rewrite Hg. case_decide; [|done].
  unfold first_part. rewrite split_on_free by done. cbn. by apply get_parse_encode.
Qed.

Lemma store_cookie_run p d :
  dict_ok d ->
  exists p', store_cookie d p = (Ok tt, p') /\
    local_storage p' = local_storage p /\ now p' = now p /\ COLUMNS p' = COLUMNS p /\
    forall t, now p <= t -> forall k, get (cookie_dict (at_time t p')) k =
      if decide (live (expiry d (now p)) t) then get d k else None.
Proof.
  intros Hd. unfold store_cookie, mbind, M_bind, lift. rewrite short_key_timeout. unfold expiry.
  destruct (get d TIMEOUT_KEY); apply store_cookie_exp_run; done.
Qed.

Lemma dict_ok_put d k v : dict_ok d -> key_ok k -> wf_jstr v -> dict_ok (put d k v).
Proof.
  intros [Hn Hf] Hk Hv. split; [by apply NoDup_put|]. clear Hn.
  induction Hf as [|[k1 v1] o H Ho IH]; cbn; [by repeat constructor|].
  destruct H as [H1 H2]. case_decide; subst; by constructor.
Qed.

Lemma dict_ok_del d k : dict_ok d -> dict_ok (del d k).
Proof.
  intros [Hn Hf]. split; [by apply NoDup_del|]. unfold del. rewrite Forall_forall in Hf.
  apply Forall_forall. intros x [_ Hx]%list_elem_of_filter. by apply Hf.
Qed.

Lemma get_cookie_value_run p k sk :
  short_key k = Ok sk ->
  get_cookie_value k p =
  (match get (cookie_dict p) sk with
   | Some r => Ok (Some r)
   | None => default_pref (COLUMNS p) k
   end, p).
Proof.
  intros Hk. unfold get_cookie_value, mbind, M_bind, lift. rewrite parse_cookie_run, Hk.
  by destruct (get (cookie_dict p) sk).
Qed.

Lemma store_cookie_value_run p k v sk :
  wf_jstr v -> short_key k = Ok sk ->
  exists p', store_cookie_value k v p = (Ok tt, p') /\
    local_storage p' = local_storage p /\ now p' = now p /\ COLUMNS p' = COLUMNS p /\
    forall t, now p <= t -> forall k, get (cookie_dict (at_time t p')) k =
      if decide (live (expiry (put (cookie_dict p) sk v) (now p)) t) then get (put (cookie_dict p) sk v) k else None.
Proof.
  intros Hv Hk. unfold store_cookie_value. unfold mbind at 1 2, M_bind at 1 2, lift at 1.
  rewrite parse_cookie_run, Hk. apply store_cookie_run.
  apply dict_ok_put; [apply cookie_dict_ok | by eapply short_key_ok | done].
Qed.

Lemma store_value_exp_run p k v sk e :
  wf_jstr v -> short_key k = Ok sk ->
  exists p', store_cookie_value_with_expiration k v e p = (Ok tt, p') /\
    local_storage p' = local_storage p /\ now p' = now p /\ COLUMNS p' = COLUMNS p /\
    forall t, now p <= t -> forall k, get (cookie_dict (at_time t p')) k =
      if decide (t < utc_seconds e) then get (put (cookie_dict p) sk v) k else None.
Proof.
  intros Hv Hk. unfold store_cookie_value_with_expiration.
  unfold mbind, M_bind, lift. rewrite parse_cookie_run, Hk.
  edestruct (store_cookie_exp_run p (put (cookie_dict p) sk v) (Some e)) as (p' & Hrun & Hl & Hn & Hc & Hd).
  { apply dict_ok_put; [apply cookie_dict_ok | by eapply short_key_ok | done]. }
  exists p'. split_and!; try done.
Qed.

Lemma clear_cookie_value_run p k sk :
  short_key k = Ok sk ->
  exists p', clear_cookie_value k p = (Ok tt, p') /\
    local_storage p' = local_storage p /\ now p' = now p /\ COLUMNS p' = COLUMNS p /\
    forall t, now p <= t -> forall k, get (cookie_dict (at_time t p')) k =
      if decide (live (expiry (del (cookie_dict p) sk) (now p)) t) then get (del (cookie_dict p) sk) k else None.
Proof.
  intros Hk. unfold clear_cookie_value. unfold mbind at 1 2, M_bind at 1 2, lift at 1.
  rewrite parse_cookie_run, Hk. apply store_cookie_run, dict_ok_del, cookie_dict_ok.
Qed.

(** A value stored in the cookie is read back at any time before the
    cookie expires, and the preferences with another short key keep their
    values; storing never fails. *)
Theorem store_cookie_value_reads p k v sk :
  wf_jstr v -> short_key k = Ok sk ->
  exists p', store_cookie_value k v p = (Ok tt, p') /\
    local_storage p' = local_storage p /\
    forall t, now p <= t -> live (expiry (put (cookie_dict p) sk v) (now p)) t ->
      (get_cookie_value k (at_time t p')).1 = Ok (Some v) /\
      forall k' sk', short_key k' = Ok sk' -> sk' <> sk ->
        (get_cookie_value k' (at_time t p')).1 = (get_cookie_value k' p).1.
Proof.
  intros Hv Hk. destruct (store_cookie_value_run p k v sk Hv Hk) as (p' & Hrun & Hl & Hn & Hc & Hd).
  exists p'. split_and!; try done. intros t Ht Hlive. specialize (Hd t Ht). split.
  - rewrite (get_cookie_value_run _ _ _ Hk), Hd, decide_True by done. by rewrite get_put.
  - intros k' sk' Hk' Hne. rewrite !(get_cookie_value_run _ _ _ Hk'), Hd, decide_True by done.
    rewrite get_put_ne by done. cbn. by rewrite Hc.
Qed.

(** A stored preference is read back, in local storage for ever and in the
    cookie until it expires, and clearing it gives its default again. *)
Theorem store_pref_get_pref p k v sk :
  wf_jstr v -> short_key k = Ok sk ->
  exists p', store_pref k v p = (Ok tt, p') /\
    (forall t, now p <= t ->
      (is_Some (local_storage p) \/ live (expiry (put (cookie_dict p) sk v) (now p)) t) ->
      (get_pref k (at_time t p')).1 = Ok (Some v)) /\
    exists p'', clear_pref k p' = (Ok tt, p'') /\
      forall t, now p <= t ->
        (is_Some (local_storage p) \/ live (expiry (del (cookie_dict p') sk) (now p)) t) ->
        (get_pref k (at_time t p'')).1 = default_pref (COLUMNS p) k.
Proof.
  intros Hv Hk. unfold store_pref, clear_pref, get_pref, get_pref_or.
  destruct (local_storage p) as [l|] eqn:El.
  - unfold store_local_pref. rewrite El. eexists. split; [reflexivity|]. split.
    { intros t _ _. unfold mbind, M_bind. cbn [local_storage at_time set_local].
      by rewrite lookup_insert_eq. }
    cbn [local_storage set_local]. unfold clear_local_pref. cbn [local_storage set_local].
    eexists. split; [reflexivity|]. intros t _ _. unfold mbind, M_bind.
    cbn [local_storage at_time set_local]. by rewrite lookup_delete_eq.
  - destruct (store_cookie_value_run p k v sk Hv Hk) as (p' & Hrun & Hl & Hn & Hc & Hd).
    exists p'. split; [done|]. rewrite El in Hl. rewrite <- Hn. split.
    + intros t Ht [[? [=]]|Hlive]. unfold mbind, M_bind, lift. cbn [local_storage at_time].
      rewrite Hl, parse_cookie_run, Hk. cbn. rewrite Hn in *. by rewrite (Hd t Ht), decide_True, get_put.
    + rewrite Hl. destruct (clear_cookie_value_run p' k sk Hk) as (p2 & Hrun2 & Hl2 & Hn2 & Hc2 & Hd2).
      exists p2. split; [done|]. intros t Ht [[? [=]]|Hlive].
      unfold mbind, M_bind, lift. cbn [local_storage at_time]. rewrite Hl2, Hl, parse_cookie_run, Hk.
      cbn. rewrite (Hd2 t Ht), decide_True, get_del by done. cbn. by rewrite Hc2, Hc.
Qed.

(** ** Login and logout *)

Lemma default_logged C : default_pref C LOGGED_IN = Ok None.
Proof. by_compute. Qed.

Lemma default_timeout C : default_pref C LOGIN_SESSION_TIMEOUT = Ok None.
Proof. by_compute. Qed.

(** What has_auth_credentials reads, as a function of the state. *)
Definition logged_in (l : gmap jstr jstr) (d : obj jstr) (scheme : option jstr) : bool :=
  match l !! rabbit CREDENTIALS, l !! rabbit AUTH_SCHEME, get d LOGGED_KEY with
  | Some _, Some s, Some _ => match scheme with Some a => bool_decide (s = a) | None => true end
  | _, _, _ => false
  end.

Lemma has_auth_run p l scheme :
  local_storage p = Some l ->
  has_auth_credentials scheme p = (Ok (logged_in l (cookie_dict p) scheme), p).
Proof.
  intros El. unfold has_auth_credentials, logged_in, get_auth_scheme, get_local_pref.
  unfold mbind, M_bind, mret, M_ret. rewrite El. destruct (l !! rabbit CREDENTIALS); [|done].
  cbv beta iota. rewrite El. destruct (l !! rabbit AUTH_SCHEME) as [s|] eqn:Es; [|done].
  rewrite (get_cookie_value_run _ _ _ short_key_logged), default_logged.
  destruct (get (cookie_dict p) LOGGED_KEY); cbv beta iota; [|done].
  rewrite (bool_decide_eq_true_2 (is_Some _)) by done. cbn [negb]. cbv beta iota.
  destruct scheme; [|done]. rewrite El. cbv beta iota. rewrite Es. f_equal. f_equal.
  apply bool_decide_ext. naive_solver.
Qed.

Lemma authorization_header_run p l :
  local_storage p = Some l ->
  authorization_header p =
  (Ok (if logged_in l (cookie_dict p) None
       then Some (null_string (l !! rabbit AUTH_SCHEME) ++ " " ++
                  null_string (l !! rabbit CREDENTIALS))
       else None), p).
Proof.
  intros El. unfold authorization_header, mbind, M_bind, mret, M_ret.
  rewrite (has_auth_run p l) by done. destruct (logged_in _ _ _); [|done].
  unfold get_auth_scheme, get_auth_credentials, get_local_pref. rewrite El.
  cbv beta iota. by rewrite El.
Qed.

Lemma set_auth_run p l scheme credentials validUntil :
  local_storage p = Some l ->
  exists p', set_auth scheme credentials validUntil p = (Ok tt, p') /\
    local_storage p' = Some (<[rabbit AUTH_SCHEME := scheme]> (<[rabbit CREDENTIALS := credentials]>
      (delete (rabbit AUTH_SCHEME) (delete (rabbit CREDENTIALS) l)))) /\
    now p' = now p /\ COLUMNS p' = COLUMNS p /\
    forall t, now p <= t -> get (cookie_dict (at_time t p')) LOGGED_KEY =
      if decide (t < utc_seconds validUntil) then Some (js "true") else None.
Proof.
  intros El. unfold set_auth, mbind, M_bind, clear_local_pref, store_local_pref.
  rewrite El. cbn [local_storage set_local].
  match goal with |- exists p', store_cookie_value_with_expiration _ _ _ ?q = _ /\ _ =>
    destruct (store_value_exp_run q LOGGED_IN "true" LOGGED_KEY validUntil) as
      (p' & Hrun & Hl & Hn & Hc & Hd) end; [by_decide | apply short_key_logged |].
  exists p'. rewrite Hl, Hn, Hc. split_and!; try done. intros t Ht. rewrite Hd by done.
  case_decide; [by rewrite get_put | done].
Qed.

Lemma rabbit_ne k k' : k <> k' -> rabbit k <> rabbit k'.
Proof. unfold rabbit. intros Hne [= He]. by apply Hne. Qed.

(** C14: a login with a user name and a password that UTF-8 can encode makes the
    page send, until the session expires, the header "Basic" followed by the
    base64 text of the octets of "user:password", and no header afterwards;
    names that cannot be encoded throw and leave the page as it was. *)
Theorem set_basic_auth_header p l user password :
  local_storage p = Some l -> wf_jstr user -> wf_jstr password ->
  match utf8_of (user ++ ":" ++ password) with
  | Some bs => exists p', set_basic_auth user password p = (Ok tt, p') /\
      forall t, now p <= t ->
        (authorization_header (at_time t p')).1 =
        Ok (if decide (t < utc_seconds (add_hours (now p) 8))
            then Some ("Basic " ++ Base64.rfc_encode bs) else None)
  | None => set_basic_auth user password p = (Throw URIError, p)
  end.
Proof.
  intros El Hu Hp. assert (Hwf : wf_jstr (user ++ ":" ++ password)).
  { unfold wf_jstr in *. rewrite !Forall_app. split_and!; [done | by_decide | done]. }
  unfold set_basic_auth, mbind, M_bind, lift. rewrite b64_encode_utf8_spec by done.
  destruct (utf8_of _) as [bs|]; [|done].
  destruct (set_auth_run p l "Basic" (Base64.rfc_encode bs) (add_hours (now p) 8) El)
    as (p' & Hrun & Hl & _ & _ & Hd).
  exists p'. split; [done|]. intros t Ht. rewrite (authorization_header_run (at_time t p') _ Hl). cbn [fst].
  unfold logged_in. rewrite Hd by done. clear Hrun Hd.
  rewrite lookup_insert_eq, lookup_insert_ne, lookup_insert_eq by by apply rabbit_ne.
  by case_decide.
Qed.

(** The local storage without the credentials. *)
Definition without_auth (l : gmap jstr jstr) : gmap jstr jstr :=
  delete (rabbit AUTH_RESOURCE) (delete (rabbit AUTH_SCHEME) (delete (rabbit CREDENTIALS) l)).

Lemma clear_auth_run p l :
  local_storage p = Some l ->
  exists p', clear_auth p = (Ok tt, p') /\ local_storage p' = Some (without_auth l) /\
    now p' = now p /\ COLUMNS p' = COLUMNS p /\
    forall t, now p <= t -> get (cookie_dict (at_time t p')) LOGGED_KEY = None.
Proof.
  intros El. unfold clear_auth, mbind, M_bind. unfold clear_local_pref at 1 2. rewrite El.
  cbn [local_storage set_local].
  match goal with |- context [clear_cookie_value LOGIN_SESSION_TIMEOUT ?q] => set (p0 := q) end.
  destruct (clear_cookie_value_run p0 _ _ short_key_timeout) as (p1 & Hr1 & Hl1 & Hn1 & Hc1 & _).
  rewrite Hr1.
  destruct (clear_cookie_value_run p1 _ _ short_key_logged) as (p2 & Hr2 & Hl2 & Hn2 & Hc2 & Hd2).
  rewrite Hr2. rewrite Hl1 in Hl2. unfold clear_local_pref. rewrite Hl2.
  cbn [local_storage set_local p0]. eexists. split; [reflexivity|]. split; [done|].
  cbn [now COLUMNS set_local]. rewrite Hn2, Hn1, Hc2, Hc1. split; [done|]. split; [done|].
  intros t Ht. assert (Ht1 : now p1 <= t) by (rewrite Hn1; exact Ht).
  change (get (cookie_dict (at_time t p2)) LOGGED_KEY = None).
  rewrite (Hd2 t Ht1). case_decide; [by rewrite get_del | done].
Qed.

(** Without the session marker no credentials count. *)
Lemma logged_in_unmarked l d scheme : get d LOGGED_KEY = None -> logged_in l d scheme = false.
Proof. intros Hd. unfold logged_in. rewrite Hd. by repeat case_match. Qed.


(** The session timeout is set once per login: the first call records the
    minutes and moves the end of the session to that many minutes from now, any
    call before it ends changes nothing. *)
Theorem update_login_session_timeout_once p l n m t :
  local_storage p = Some l -> logged_in l (cookie_dict p) None = true ->
  get (cookie_dict p) TIMEOUT_KEY = None -> 0 <= n ->
  now p < utc_seconds (add_minutes (now p) n) ->
  now p <= t < utc_seconds (add_minutes (now p) n) ->
  exists p', update_login_session_timeout n p = (Ok tt, p') /\
    (get_cookie_value LOGIN_SESSION_TIMEOUT (at_time t p')).1 = Ok (Some (dec n)) /\
    (has_auth_credentials None (at_time t p')).1 = Ok true /\
    update_login_session_timeout m (at_time t p') = (Ok tt, at_time t p').
Proof.
  intros El Hlog Hnone Hn Hlive Ht.
  unfold update_login_session_timeout at 1. unfold mbind, M_bind, gets.
  rewrite (get_cookie_value_run _ _ _ short_key_timeout), Hnone, default_timeout.
  rewrite (has_auth_run p l) by done. rewrite Hlog. cbn [negb]. cbv beta iota.
  assert (Hdec : wf_jstr (dec n)) by (apply dec_wf; lia).
  destruct (store_cookie_value_run p _ (dec n) _ Hdec short_key_timeout)
    as (p1 & Hr1 & Hl1 & Hn1 & Hc1 & Hd1).
  unfold mret, M_ret. cbv beta iota. rewrite Hr1. cbv beta iota.
  destruct (store_value_exp_run p1 LOGGED_IN "true" LOGGED_KEY (add_minutes (now p) n))
    as (p2 & Hr2 & Hl2 & Hn2 & Hc2 & Hd2); [by_decide | apply short_key_logged |].
  assert (Hd1' : forall k, get (cookie_dict p1) k = get (put (cookie_dict p) TIMEOUT_KEY (dec n)) k).
  { intros k. assert (E : at_time (now p) p1 = p1) by (destruct p1; cbn in *; by subst).
    specialize (Hd1 (now p) ltac:(lia) k). rewrite E in Hd1. rewrite Hd1, decide_True; [done|].
    unfold expiry. rewrite get_put, parse_int10_dec by lia. exact Hlive. }
  assert (Hd2' : forall k, get (cookie_dict (at_time t p2)) k =
      get (put (put (cookie_dict p) TIMEOUT_KEY (dec n)) LOGGED_KEY (js "true")) k).
  { intros k. rewrite Hd2, decide_True by lia. destruct (decide (LOGGED_KEY = k)) as [<-|Hne].
    - by rewrite !get_put.
    - by rewrite !(get_put_ne _ LOGGED_KEY) by done. }
  assert (Hto : get (cookie_dict (at_time t p2)) TIMEOUT_KEY = Some (dec n))
    by by rewrite Hd2', get_put_ne, get_put.
  exists p2. split; [done|]. split_and!.
  - by rewrite (get_cookie_value_run _ _ _ short_key_timeout), Hto.
  - assert (Hl : local_storage (at_time t p2) = Some l) by (cbn; congruence).
    rewrite (has_auth_run _ l) by done. cbn [fst]. f_equal. revert Hlog. unfold logged_in.
    rewrite Hd2', get_put. repeat case_match; naive_solver.
  - unfold update_login_session_timeout, mbind, M_bind.
    by rewrite (get_cookie_value_run _ _ _ short_key_timeout), Hto.
Qed.

End Facts.

(** ** A browser for which the laws hold *)

Module Browser.

#[global] Instance name_ok_dec s : Decision (cookie_name_ok s).
Proof. unfold cookie_name_ok. apply _. Defined.

#[global] Instance value_ok_dec s : Decision (cookie_value_ok s).
Proof. unfold cookie_value_ok, wf_jstr. apply _. Defined.

(** Cookies with their expiry; only well-formed cookies are shown. *)
Notation cookies := (list (jstr * (jstr * option Z))).

Definition shown (t : Z) (c : jstr * (jstr * option Z)) : Prop :=
  cookie_name_ok c.1 /\ cookie_value_ok c.2.1 /\ live c.2.2 t.

#[global] Instance shown_dec t c : Decision (shown t c).
Proof. unfold shown. apply _. Defined.

Definition pairs (j : cookies) (t : Z) : list (jstr * jstr) :=
  map (fun c => (c.1, c.2.1)) (filter (shown t) j).

Definition set_cookie (j : cookies) (t : Z) (n v : jstr) (e : option Z) : cookies :=
  (n, (v, e)) :: filter (fun c => c.1 <> n) j.

#[global] Instance browser_jar : CookieJar cookies := {
  jar_pairs := pairs;
  jar_set := set_cookie;
}.

Lemma pairs_ok_shown (j : cookies) t n v :
  (n, v) ∈ pairs j t -> cookie_name_ok n /\ cookie_value_ok v.
Proof.
  unfold pairs. intros (c & [= -> ->] & [(H1 & H2 & _) _]%list_elem_of_filter)%list_elem_of_fmap.
  done.
Qed.

Lemma pairs_absent (j : cookies) t n : get (pairs (filter (fun c => c.1 <> n) j) t) n = None.
Proof.
  apply get_None. unfold keys_of, pairs. intros (q & -> & Hq)%list_elem_of_fmap.
  apply list_elem_of_fmap in Hq as (c & -> & Hc). cbn in Hc.
  apply list_elem_of_filter in Hc as [_ Hc]. by apply list_elem_of_filter in Hc as [? _].
Qed.

#[global] Instance browser_laws : CookieJarLaws cookies.
Proof.
  split; [intros j t n v; apply pairs_ok_shown|].
  intros j t n v e t' Hn Hv _. cbn [jar_pairs jar_set browser_jar]. unfold set_cookie, pairs.
  rewrite filter_cons. destruct (decide (shown t' (n, (v, e)))) as [(_ & _ & Hl)|Hns].
  - cbn. rewrite decide_True by done. destruct e; [|done]. cbn in Hl. by rewrite decide_True.
  - fold (pairs (filter (fun c => c.1 <> n) j) t'). rewrite pairs_absent.
    destruct e as [e|]; [|by destruct Hns]. rewrite decide_False; [done|]. intros Hl. by destruct Hns.
Qed.

(** A zone without daylight saving. *)
#[global] Instance utc : Clock := {
  add_hours := fun t h => t + h * 3600000;
  add_minutes := fun t m => t + m * 60000;
}.

(** A page just after it was opened, with a preference of another tab. *)
Definition page0 : page cookies :=
  mk_page (Some {[rabbit "truncate" := js "50"]}) [(js "m", (js "59b9:true|2c1e:30", Some 99000))]
    5000 None.

Definition page1 : page cookies := mk_page None [] 5000 None.

End Browser.
Import Browser.

Lemma store_cookie_value_reads_witness :
  exists p', store_cookie_value "theme" "dark" page0 = (Ok tt, p') /\
    (get_cookie_value "theme" (at_time 6000 p')).1 = Ok (Some (js "dark")) /\
    (get_cookie_value LOGGED_IN (at_time 6000 p')).1 = Ok (Some (js "true")).
Proof.
  assert (Hwf : wf_jstr "dark") by by_decide.
  assert (Hk : short_key "theme" = Ok (js "75c9")) by by_compute.
  destruct (store_cookie_value_reads page0 "theme" "dark" (js "75c9") Hwf Hk) as (p' & Hr & _ & H).
  exists p'. split; [exact Hr|]. destruct (H 6000) as [H1 H2]; [by_compute | by vm_compute |].
  split; [exact H1|].
  rewrite (H2 LOGGED_IN LOGGED_KEY); [by vm_compute | by vm_compute | by vm_compute].
Defined.

Lemma store_pref_get_pref_witness :
  exists p', store_pref "chart-range" "600|5" page1 = (Ok tt, p') /\
    (get_pref "chart-range" (at_time 6000 p')).1 = Ok (Some (js "600|5")) /\
    exists p'', clear_pref "chart-range" p' = (Ok tt, p'') /\
      (get_pref "chart-range" (at_time 6000 p'')).1 = Ok (Some (js "60|5")).
Proof.
  assert (Hwf : wf_jstr "600|5") by by_decide.
  destruct (short_key "chart-range") as [sk|] eqn:Hk; [|by vm_compute in Hk].
  destruct (store_pref_get_pref page1 "chart-range" "600|5" sk Hwf Hk)
    as (p' & Hr & Hget & p'' & Hr2 & Hget2).
  assert (Ek : Ok sk = short_key "chart-range") by done. vm_compute in Ek. injection Ek as ->.
  assert (Ep : p' = (store_pref "chart-range" "600|5" page1).2) by by rewrite Hr.
  exists p'. split; [exact Hr|]. split; [apply Hget; [by_compute | right; by vm_compute]|].
  exists p''. split; [exact Hr2|].
  rewrite (Hget2 6000); [by vm_compute | by_compute | right; rewrite Ep; by vm_compute].
Defined.

Lemma set_basic_auth_header_witness :
  exists p', set_basic_auth "guest" "guest" page0 = (Ok tt, p') /\
    (authorization_header (at_time 6000 p')).1 = Ok (Some (js "Basic Z3Vlc3Q6Z3Vlc3Q=")) /\
    (authorization_header (at_time 99000000 p')).1 = Ok None.
Proof.
  assert (Hu : wf_jstr "guest") by by_decide.
  destruct (set_basic_auth_header page0 _ "guest" "guest" eq_refl Hu Hu) as (p' & Hr & H).
  exists p'. split; [exact Hr|]. split.
  - rewrite (H 6000); [by vm_compute | by_compute].
  - rewrite (H 99000000); [by vm_compute | by_compute].
Defined.


(** A user logged in, with no session timeout yet. *)
Definition page3 : page cookies :=
  (set_basic_auth "guest" "guest" (mk_page (Some ∅) [] 5000 None)).2.

Lemma update_login_session_timeout_once_witness :
  exists p', update_login_session_timeout 30 page3 = (Ok tt, p') /\
    update_login_session_timeout 60 (at_time 65000 p') = (Ok tt, at_time 65000 p').
Proof.
  set (l := default ∅ (local_storage page3)).
  assert (El : local_storage page3 = Some l) by by_decide.
  assert (Hlog : logged_in l (cookie_dict page3) None = true) by (vm_compute; reflexivity).
  assert (Hto : get (cookie_dict page3) TIMEOUT_KEY = None) by by vm_compute.
  assert (Hn : now page3 < utc_seconds (add_minutes (now page3) 30)) by by vm_compute.
  assert (Ht : now page3 <= 65000 < utc_seconds (add_minutes (now page3) 30))
    by (split; [by vm_compute | by vm_compute]).
  destruct (update_login_session_timeout_once page3 l 30 60 65000 El Hlog Hto ltac:(lia) Hn Ht)
    as (p' & Hr & _ & _ & H).
  exists p'. by split.
Defined.
