(* ===== verification/Escape.v ===== *)
(** formatters.js: escaping text for HTML, wrapping and shortening it, and the
    grammar of the markup the formatters may produce. *)
From S2P Require Import Prelude JsString JsNum Uri JsObject JsValue.

(** ** Escaping *)

Definition UNKNOWN_REPR : jstr := "<span class=`unknown`>?</span>".

(** fmt_escape_html0 *)
Definition fmt_escape_html0 (txt : value) : jstr :=
  match txt with
  | VNull | VUndef => []
  | _ =>
      replace_unit 34 "&quot;"
        (replace_unit 62 "&gt;" (replace_unit 60 "&lt;" (replace_unit 38 "&amp;" (to_str txt))))
  end.

(** fmt_escape_html *)
Definition fmt_escape_html (txt : value) : jstr := replace_unit 10 "<br/>" (fmt_escape_html0 txt).

(** fmt_escape_html_one_line *)
Definition fmt_escape_html_one_line (txt : value) : jstr := replace_unit 10 [] (fmt_escape_html0 txt).

(** fmt_escape_feature *)
Definition fmt_escape_feature (txt : value) : value :=
  match txt with
  | VBool false => VUndef
  | _ => VStr (replace_unit 10 "<br/>" (fmt_escape_html0 txt))
  end.

(** fmt_string(str, unknown): [None] is an absent second argument. *)
Definition fmt_string (str : value) (unknown : option jstr) : jstr :=
  let unknown := default UNKNOWN_REPR unknown in
  if nullish str then unknown else fmt_escape_html (VStr (to_str str)).

(** fmt_boolean *)
Definition fmt_boolean (b : value) (unknown : option jstr) : jstr :=
  let unknown := default UNKNOWN_REPR unknown in
  if nullish b then unknown else if truthy b then "&#9679;" else "&#9675;".

(** fmt_time *)
Definition fmt_time (t : value) (suffix : jstr) : jstr :=
  match t with VUndef => [] | _ => to_str t ++ suffix end.

(** fmt_node *)
Definition fmt_node (node_host : value) : jstr := fmt_string node_host None.

(** fmt_trunc(str, max_length): [None] is an absent second argument, larger
    than no length. *)
Definition fmt_trunc (str : jstr) (max_length : option Z) : jstr :=
  match max_length with
  | Some m =>
      if Z.of_nat (length str) >? m then
        "<abbr class=`normal` title=`" ++ fmt_escape_html (VStr str) ++ "`>" ++
        fmt_escape_html (VStr (substring str 0 m)) ++ "...</abbr>"
      else fmt_escape_html (VStr str)
  | None => fmt_escape_html (VStr str)
  end.

(** ** Stripping tags *)

(** The dot of a regular expression does not match a line terminator; the
    pattern of fmt_strip_tags adds the newline to what it may cross. *)
Definition tag_unit (c : Z) : bool := negb (bool_decide (c ∈ [13; 8232; 8233])).

(** What follows the first [>] that can be reached. *)
Fixpoint tag_end (s : jstr) : option jstr :=
  match s with
  | [] => None
  | c :: s => if decide (c = 62) then Some s else if tag_unit c then tag_end s else None
  end.

Fixpoint strip_loop (fuel : nat) (s : jstr) : jstr :=
  match fuel, s with
  | S fuel, c :: s' =>
      if decide (c = 60) then
        match tag_end s' with
        | Some rest => strip_loop fuel rest
        | None => c :: strip_loop fuel s'
        end
      else c :: strip_loop fuel s'
  | _, _ => []
  end.

(** fmt_strip_tags *)
Definition fmt_strip_tags (txt : value) : jstr :=
  match txt with
  | VNull | VUndef => []
  | _ => strip_loop (length (to_str txt)) (to_str txt)
  end.

(** ** Wrapping *)

Definition WRAP : Z := 120.

(** The loop of fmt_maybe_wrap. *)
Fixpoint wrap_loop (fuel : nat) (txt res : jstr) : jstr :=
  match fuel with
  | O => res
  | S fuel =>
      if decide (txt = []) then res
      else
        let i := index_of txt [10] in
        if decide (i = -1 \/ WRAP < i) then
          let i := Z.min WRAP (Z.of_nat (length txt)) in
          wrap_loop fuel (substring_from txt i) (res ++ substring txt 0 i ++ [10])
        else wrap_loop fuel (substring_from txt (i + 1)) (res ++ substring txt 0 (i + 1))
  end.

(** fmt_maybe_wrap *)
Definition fmt_maybe_wrap (txt encoding : jstr) : jstr :=
  if decide (encoding = "string") then fmt_escape_html (VStr txt)
  else fmt_escape_html (VStr (wrap_loop (length txt) txt [])).

(** ** What a browser shows of escaped text: the reference definition *)

Definition entity (s : jstr) : option (Z * jstr) :=
  if starts_with s "&amp;" then Some (38, drop 5 s)
  else if starts_with s "&lt;" then Some (60, drop 4 s)
  else if starts_with s "&gt;" then Some (62, drop 4 s)
  else if starts_with s "&quot;" then Some (34, drop 6 s)
  else if starts_with s "<br/>" then Some (10, drop 5 s)
  else None.

Fixpoint shown_loop (fuel : nat) (s : jstr) : jstr :=
  match fuel, s with
  | S fuel, c :: s' =>
      match entity s with
      | Some (d, rest) => d :: shown_loop fuel rest
      | None => c :: shown_loop fuel s'
      end
  | _, _ => []
  end.

Definition shown (s : jstr) : jstr := shown_loop (length s) s.

(** ** Escaping, unit by unit *)

Definition escape_html_unit (c : Z) : jstr :=
  if decide (c = 38) then "&amp;"
  else if decide (c = 60) then "&lt;"
  else if decide (c = 62) then "&gt;"
  else if decide (c = 34) then "&quot;"
  else if decide (c = 10) then "<br/>"
  else [c].

Lemma fmt_escape_html_units s : fmt_escape_html (VStr s) = flat_map escape_html_unit s.
Proof.
  unfold fmt_escape_html, fmt_escape_html0. cbn [to_str].
  induction s as [|c s IH]; [done|]. cbn [replace_unit flat_map].
  rewrite !replace_unit_app, IH. f_equal. unfold escape_html_unit.
  destruct (decide (c = 38)) as [->|]; [done|]. destruct (decide (c = 60)) as [->|]; [done|].
  destruct (decide (c = 62)) as [->|]; [done|]. destruct (decide (c = 34)) as [->|]; [done|].
  destruct (decide (c = 10)) as [->|]; [done|].
  cbn. by repeat (rewrite decide_False by done; cbn).
Qed.

Lemma fmt_escape_html_str v :
  nullish v = false -> fmt_escape_html v = fmt_escape_html (VStr (to_str v)).
Proof. by destruct v. Qed.

(** ** The grammar of generated markup *)

(** A tag with its attributes. *)
Definition tag_text (name : jstr) (attrs : list (jstr * jstr)) : jstr :=
  "<" ++ name ++ flat_map (fun a => " " ++ a.1 ++ "=`" ++ a.2 ++ "`") attrs ++ ">".

(** A tag the formatters write: its name is one of [names], its attributes are
    among [attributes], and no attribute value can close its quotes. *)
Definition names : list jstr :=
  [js "br/"; js "abbr"; js "/abbr"; js "a"; js "/a"; js "table"; js "/table"; js "tr"; js "/tr";
   js "th"; js "/th"; js "td"; js "/td"; js "sub"; js "/sub"; js "span"; js "/span"; js "div";
   js "/div"; js "b"; js "/b"; js "acronym"; js "/acronym"; js "ul"; js "/ul"; js "li"; js "/li";
   js "p"; js "/p"].

Definition attributes : list jstr := [js "class"; js "title"; js "href"; js "id"].

Definition good_attr (a : jstr * jstr) : Prop := a.1 ∈ attributes /\ 34 ∉ a.2.

Inductive html : jstr -> Prop :=
  | html_nil : html []
  | html_text c s : c <> 60 -> c <> 62 -> html s -> html (c :: s)
  | html_tag name attrs s :
      name ∈ names -> Forall good_attr attrs -> html s -> html (tag_text name attrs ++ s).

Lemma html_app s t : html s -> html t -> html (s ++ t).
Proof.
  induction 1 as [|c s H1 H2 _ IH|name attrs s H1 H2 _ IH]; intros Ht; [done| |].
  - cbn. apply html_text; auto.
  - rewrite <- app_assoc. apply html_tag; auto.
Qed.

Lemma html_plain s : Forall (fun c => c <> 60 /\ c <> 62) s -> html s.
Proof. induction 1 as [|c s [H1 H2] _ IH]; by constructor. Qed.

Lemma html_one name attrs : name ∈ names -> Forall good_attr attrs -> html (tag_text name attrs).
Proof. intros H1 H2. rewrite <- (app_nil_r (tag_text name attrs)). apply html_tag; [done..|constructor]. Qed.

Lemma html_join sep xs : html sep -> Forall html xs -> html (join sep xs).
Proof.
  intros Hs. induction 1 as [|x xs Hx Hxs IH]; [constructor|]. destruct xs as [|y xs]; [done|].
  change (join sep (x :: y :: xs)) with (x ++ sep ++ join sep (y :: xs)).
  by repeat apply html_app.
Qed.

Lemma br_tag : js "<br/>" = tag_text "br/" [].
Proof. done. Qed.

Lemma names_dec name : bool_decide (name ∈ names) = true -> name ∈ names.
Proof. apply bool_decide_eq_true. Qed.

Lemma html_br s : html s -> html (js "<br/>" ++ s).
Proof. intros Hs. rewrite br_tag. apply html_tag; [by apply names_dec | apply List.Forall_nil | done]. Qed.

(** Escaped text is markup, whatever the text, and cannot close an attribute. *)
Lemma fmt_escape_html_html v : html (fmt_escape_html v).
Proof.
  destruct (nullish v) eqn:E; [destruct v; (done || constructor)|].
  rewrite fmt_escape_html_str, fmt_escape_html_units by done.
  induction (to_str v) as [|c s IH]; [constructor|]. cbn. apply html_app; [|done].
  unfold escape_html_unit.
  repeat case_decide; try (by apply html_plain; by_decide); [apply (html_br []); constructor|].
  apply html_plain. by repeat constructor.
Qed.

Lemma fmt_escape_html_quote v : 34 ∉ fmt_escape_html v.
Proof.
  destruct (nullish v) eqn:E; [destruct v; (done || apply not_elem_of_nil)|].
  rewrite fmt_escape_html_str, fmt_escape_html_units by done.
  induction (to_str v) as [|c s IH]; [apply not_elem_of_nil|]. cbn. rewrite not_elem_of_app.
  split; [|done]. unfold escape_html_unit. repeat case_decide; try by_decide.
  rewrite list_elem_of_singleton. congruence.
Qed.

(** ** Showing escaped text *)

Lemma entity_unit c s :
  entity (escape_html_unit c ++ s) =
  if decide (escape_html_unit c = [c]) then entity (c :: s) else Some (c, s).
Proof.
  unfold escape_html_unit. repeat case_decide; subst; try done.
  all: cbn; f_equal; by rewrite ?drop_0.
Qed.

Lemma starts_with_head_ne c s d p : d <> c -> starts_with (c :: s) (d :: p) = false.
Proof. intros Hne. cbn [starts_with]. by rewrite (proj2 (Z.eqb_neq d c) Hne). Qed.

Lemma entity_other c s : escape_html_unit c = [c] -> entity (c :: s) = None.
Proof.
  intros Hc. assert (Hne : 38 <> c /\ 60 <> c).
  { unfold escape_html_unit in Hc. repeat case_decide; subst; by try done. }
  destruct Hne as [H1 H2]. unfold entity. cbn [js code_unit].
  change (js "&amp;") with (38 :: js "amp;"). change (js "&lt;") with (38 :: js "lt;").
  change (js "&gt;") with (38 :: js "gt;"). change (js "&quot;") with (38 :: js "quot;").
  change (js "<br/>") with (60 :: js "br/>"). by rewrite !starts_with_head_ne by done.
Qed.

Lemma escape_html_unit_nonempty c : (0 < length (escape_html_unit c))%nat.
Proof. unfold escape_html_unit. repeat case_decide; cbn; lia. Qed.

Lemma shown_loop_escaped s : forall fuel,
  (length (flat_map escape_html_unit s) <= fuel)%nat ->
  shown_loop fuel (flat_map escape_html_unit s) = s.
Proof.
  induction s as [|c s IH]; intros fuel Hf; [by destruct fuel|]. cbn [flat_map] in *.
  rewrite length_app in Hf. pose proof (escape_html_unit_nonempty c).
  destruct fuel as [|fuel]; [lia|].
  destruct (escape_html_unit c) as [|d ds] eqn:E; [cbn in *; lia|]. cbn [app shown_loop].
  change (d :: ds ++ flat_map escape_html_unit s) with ((d :: ds) ++ flat_map escape_html_unit s).
  rewrite <- E, entity_unit. case_decide as Hd.
  - rewrite entity_other by done. assert (d = c /\ ds = []) as [-> ->] by (split; congruence).
    cbn. rewrite IH; [done|]. cbn in Hf. lia.
  - rewrite IH; [done|]. cbn in Hf. lia.
Qed.

(** What a browser shows for escaped text is the text itself, with its line
    breaks; so no two texts are shown alike, and escaping has lost nothing. *)
Theorem shown_fmt_escape_html v :
  nullish v = false -> shown (fmt_escape_html v) = to_str v.
Proof.
  intros Hv. rewrite fmt_escape_html_str, fmt_escape_html_units by done.
  unfold shown. by rewrite shown_loop_escaped.
Qed.

Lemma shown_fmt_escape_html_witness :
  nullish (VStr "<b>`A & B`</b>") = false /\
  shown (fmt_escape_html (VStr "<b>`A & B`</b>")) = js "<b>`A & B`</b>".
Proof. split; [reflexivity | exact (shown_fmt_escape_html (VStr "<b>`A & B`</b>") eq_refl)]. Defined.

(** ** Stripping *)

(** No tag can be found in the text. *)
Definition no_tag (s : jstr) : Prop := forall a b, s = a ++ 60 :: b -> tag_end b = None.

Lemma tag_end_length s rest : tag_end s = Some rest -> (length rest < length s)%nat.
Proof.
  induction s as [|c s IH]; [done|]. cbn. case_decide; [intros [= ->]; lia|].
  destruct (tag_unit c); [|done]. intros Hr. specialize (IH Hr). lia.
Qed.

Lemma tag_end_strip fuel s : tag_end s = None -> tag_end (strip_loop fuel s) = None.
Proof.
  revert s. induction fuel as [|fuel IH]; intros s Hs; [done|]. destruct s as [|c s]; [done|].
  cbn [tag_end] in Hs. case_decide as H62; [done|]. cbn [strip_loop].
  destruct (decide (c = 60)) as [->|H60].
  - assert (Hs' : tag_end s = None) by exact Hs. rewrite Hs'. change (tag_end (strip_loop fuel s) = None). auto.
  - cbn [tag_end]. rewrite decide_False by done. destruct (tag_unit c); auto.
Qed.

Lemma strip_loop_no_tag fuel s : (length s <= fuel)%nat -> no_tag (strip_loop fuel s).
Proof.
  revert s. induction fuel as [|fuel IH]; intros s Hf.
  { intros [|? ?] ? H; done. }
  destruct s as [|c s]; [intros [|? ?] ? H; done|]. cbn [length] in Hf. cbn [strip_loop].
  assert (Hkeep : (c = 60 -> tag_end s = None) -> no_tag (c :: strip_loop fuel s)).
  { intros Hc [|a0 a] b H; injection H as H1 H2.
    - rewrite <- H2. apply tag_end_strip, Hc. congruence.
    - apply (IH s ltac:(lia) a b H2). }
  destruct (decide (c = 60)) as [Hc|Hc]; [|apply Hkeep; intros; congruence].
  destruct (tag_end s) as [rest|] eqn:E; [|by apply Hkeep].
  apply IH. apply tag_end_length in E. lia.
Qed.

Lemma strip_loop_id fuel s : (length s <= fuel)%nat -> no_tag s -> strip_loop fuel s = s.
Proof.
  revert s. induction fuel as [|fuel IH]; intros s Hf Hs; [destruct s; [done | cbn in Hf; lia]|].
  destruct s as [|c s]; [done|]. cbn [length strip_loop] in *.
  assert (Hn : no_tag s) by (intros a b ->; by apply (Hs (c :: a) b)).
  rewrite IH by (lia || done). case_decide; [|done]. subst. by rewrite (Hs [] s).
Qed.

(** What fmt_strip_tags returns holds no tag at all, so that stripping it
    again changes nothing. *)
Theorem fmt_strip_tags_no_tag v :
  no_tag (fmt_strip_tags v) /\ fmt_strip_tags (VStr (fmt_strip_tags v)) = fmt_strip_tags v.
Proof.
  assert (H : no_tag (fmt_strip_tags v)).
  { destruct v; try by apply strip_loop_no_tag. all: intros [|? ?] ? H; done. }
  split; [done|]. unfold fmt_strip_tags at 1. cbn [to_str]. by apply strip_loop_id.
Qed.

(** ** Wrapping *)

Definition short_line (l : jstr) : Prop := 10 ∉ l /\ Z.of_nat (length l) <= WRAP.

Lemma filter_free (l : jstr) : 10 ∉ l -> filter (fun c => c <> 10) l = l.
Proof.
  induction l as [|c l IH]; [done|]. rewrite not_elem_of_cons. intros [Hc Hl].
  rewrite filter_cons, decide_True by congruence. by rewrite IH.
Qed.

Lemma wrap_step txt n :
  short_line (take n txt) -> (n <= length txt)%nat ->
  filter (fun c => c <> 10) txt = take n txt ++ filter (fun c => c <> 10) (drop n txt).
Proof.
  intros [H _] _. rewrite <- (take_drop n txt) at 1. by rewrite filter_app, filter_free.
Qed.

Lemma wrap_loop_lines fuel : forall txt res, (length txt <= fuel)%nat ->
  exists ls, wrap_loop fuel txt res = res ++ flat_map (fun l => l ++ [10]) ls /\
    Forall short_line ls /\ concat ls = filter (fun c => c <> 10) txt.
Proof.
  induction fuel as [|fuel IH]; intros txt res Hf.
  { exists []. destruct txt; [|cbn in Hf; lia]. by rewrite app_nil_r. }
  cbn [wrap_loop]. destruct (decide (txt = [])) as [->|Hne].
  { exists []. by rewrite app_nil_r. }
  assert (Hpos : (0 < length txt)%nat) by (destruct txt; [done | cbn; lia]).
  pose proof (index_of_range txt [10]) as Hr.
  destruct (decide (index_of txt [10] = -1 \/ WRAP < index_of txt [10])) as [Hi|Hi].
  - set (i := Z.min WRAP (Z.of_nat (length txt))).
    assert (Hb : 0 < i <= Z.of_nat (length txt)) by (unfold i, WRAP; lia).
    rewrite substring_prefix, substring_from_drop by lia.
    edestruct (IH (drop (Z.to_nat i) txt)) as (ls & -> & Hs & Hc); [rewrite length_drop; lia|].
    assert (Hl : short_line (take (Z.to_nat i) txt)).
    { split; [|rewrite length_take; unfold i; lia]. destruct Hi as [Hi|Hi].
      - apply index_of_single_none in Hi. rewrite <- (take_drop (Z.to_nat i) txt) in Hi.
        by apply not_elem_of_app in Hi as [Hi _].
      - apply index_of_single_take. unfold i. lia. }
    exists (take (Z.to_nat i) txt :: ls). split_and!.
    + cbn. by rewrite <- !app_assoc.
    + by constructor.
    + cbn. rewrite Hc. symmetry. apply wrap_step; [done | lia].
  - set (i := index_of txt [10]) in *. assert (Hb : 0 <= i <= WRAP) by lia.
    assert (Hat : txt !! Z.to_nat i = Some 10) by (apply index_of_single_lookup; unfold i in *; lia).
    pose proof (lookup_lt_Some _ _ _ Hat) as Hlt. pose proof (take_S_r _ _ _ Hat) as Ht.
    rewrite substring_prefix, substring_from_drop by lia.
    replace (Z.to_nat (i + 1)) with (S (Z.to_nat i)) by lia.
    edestruct (IH (drop (S (Z.to_nat i)) txt)) as (ls & -> & Hs & Hc); [rewrite length_drop; lia|].
    assert (Hl : short_line (take (Z.to_nat i) txt)).
    { split; [apply index_of_single_take; unfold i; lia | rewrite length_take; lia]. }
    exists (take (Z.to_nat i) txt :: ls). split_and!.
    + cbn [flat_map]. by rewrite Ht, <- !app_assoc.
    + by constructor.
    + cbn [concat]. rewrite Hc, (wrap_step txt (Z.to_nat i)) by (done || lia). f_equal.
      by rewrite (drop_S _ _ _ Hat), filter_cons, decide_False by naive_solver.
Qed.

(** Fmt_maybe_wrap ends, and what it escapes for a payload that is not a
    string is the payload cut into lines of at most 120 characters: nothing but
    line breaks is added or lost. *)
Theorem fmt_maybe_wrap_lines txt encoding :
  exists ls,
    fmt_maybe_wrap txt encoding =
      (if decide (encoding = js "string") then fmt_escape_html (VStr txt)
       else fmt_escape_html (VStr (flat_map (fun l => l ++ [10]) ls))) /\
    Forall short_line ls /\ concat ls = filter (fun c => c <> 10) txt.
Proof.
  destruct (wrap_loop_lines (length txt) txt [] ltac:(done)) as (ls & Hw & Hs & Hc).
  exists ls. split_and!; try done. unfold fmt_maybe_wrap. by rewrite Hw.
Qed.
