(* ===== verification/Format.v ===== *)
(** formatters.js: AMQP values and tables, features of queues and exchanges,
    states, URIs and links. *)
From S2P Require Import Prelude JsString JsNum Uri JsObject JsValue Escape.

(** ** Known arguments (global.js) *)

Record arg := mk_arg { short : jstr; arg_type : jstr }.

Definition KNOWN_ARGS : obj arg := [
  (js "alternate-exchange", mk_arg "AE" "string");
  (js "x-message-ttl", mk_arg "TTL" "int");
  (js "x-expires", mk_arg "Exp" "int");
  (js "x-max-length", mk_arg "Lim" "int");
  (js "x-max-length-bytes", mk_arg "Lim B" "int");
  (js "x-delivery-limit", mk_arg "DlL" "int");
  (js "x-overflow", mk_arg "Ovfl" "string");
  (js "x-dead-letter-exchange", mk_arg "DLX" "string");
  (js "x-dead-letter-routing-key", mk_arg "DLK" "string");
  (js "x-queue-master-locator", mk_arg "ML" "string");
  (js "x-queue-leader-locator", mk_arg "LL" "string");
  (js "x-max-priority", mk_arg "Pri" "int");
  (js "x-single-active-consumer", mk_arg "SAC" "boolean");
  (js "x-consumer-disconnected-timeout", mk_arg "CDT" "int");
  (js "x-delayed-retry-type", mk_arg "DRT" "string");
  (js "x-delayed-retry-min", mk_arg "DRm" "int");
  (js "x-delayed-retry-max", mk_arg "DRM" "int")].

Definition IMPLICIT_ARGS : obj arg := [
  (js "durable", mk_arg "D" "boolean");
  (js "auto-delete", mk_arg "AD" "boolean");
  (js "internal", mk_arg "I" "boolean");
  (js "exclusive", mk_arg "Excl" "boolean");
  (js "messages delayed", mk_arg "DM" "int");
  (js "delayed retry", mk_arg "DR" "string")].

(** [for (var k in IMPLICIT_ARGS) ALL_ARGS[k] = ...; for (var k in KNOWN_ARGS) ...] *)
Definition copy_args (o from : obj arg) : obj arg :=
  foldl (fun o kv => put o kv.1 kv.2) o (entries from).
Definition ALL_ARGS : obj arg := copy_args (copy_args [] IMPLICIT_ARGS) KNOWN_ARGS.

(** ** AMQP values *)

(** [typeof v] of what is neither an array, an object nor a string. *)
Definition typeof (v : value) : jstr :=
  match v with
  | VUndef => "undefined"
  | VBool _ => "boolean"
  | VNum _ | VNaN => "number"
  | VStr _ => "string"
  | VNull | VArr _ | VObj _ => "object"
  end.

(** The rows of fmt_table_body, given the formatted values. *)
Definition table_rows (cells : obj jstr) (x : jstr) : jstr :=
  flat_map (fun kv => "<tr><th>" ++ fmt_escape_html (VStr kv.1) ++ x ++ "</th>" ++
                      "<td>" ++ kv.2 ++ "</td>") (entries cells).

(** fmt_amqp_value, with fmt_table_short and fmt_table_body for nested tables. *)
Fixpoint fmt_amqp_value (val : value) : jstr :=
  match val with
  | VArr l => join "<br/>" (map fmt_amqp_value l)
  | VObj o =>
      "<table class=`mini`>" ++
      table_rows (map (fun kv => (kv.1, fmt_amqp_value kv.2)) o) ":" ++ "</table>"
  | VStr s => "<abbr class=`type` title=`string`>" ++ fmt_escape_html (VStr s) ++ "</abbr>"
  | _ => "<abbr class=`type` title=`" ++ typeof val ++ "`>" ++ to_str val ++ "</abbr>"
  end.

Definition fmt_table_body (table : obj value) (x : jstr) : jstr :=
  table_rows (map (fun kv => (kv.1, fmt_amqp_value kv.2)) table) x.

Definition fmt_table_short (table : obj value) : jstr :=
  "<table class=`mini`>" ++ fmt_table_body table ":" ++ "</table>".

Definition fmt_table_long (table : obj value) : jstr :=
  "<table class=`facts`>" ++ fmt_table_body table [] ++ "</table>".

(** The entries of fmt_table_flat, given the formatted values. *)
Definition flat_entries (cells : obj value) : jstr :=
  join ", " (map (fun kv => fmt_escape_html (VStr kv.1) ++ ": " ++ to_str kv.2) (entries cells)).

(** fmt_amqp_value_flat returns a number, a boolean or null as it is. *)
Fixpoint fmt_amqp_value_flat (val : value) : value :=
  match val with
  | VArr l => VStr ("[" ++ to_str (VArr (map fmt_amqp_value_flat l)) ++ "]")
  | VObj o => VStr ("(" ++ flat_entries (map (fun kv => (kv.1, fmt_amqp_value_flat kv.2)) o) ++ ")")
  | VStr s => VStr (fmt_escape_html (VStr s))
  | _ => val
  end.

Definition fmt_table_flat (table : obj value) : jstr :=
  flat_entries (map (fun kv => (kv.1, fmt_amqp_value_flat kv.2)) table).

(** ** Features *)

(** [res[k] = v] of a primitive: assigning [__proto__] has no effect. *)
Definition assign (o : obj value) (k : jstr) (v : value) : obj value :=
  if decide (k = "__proto__") then o else put o k v.

Definition as_obj (v : value) : obj value := match v with VObj o => o | _ => [] end.

(** One argument of args_to_features. *)
Definition add_argument (res : obj value) (kv : jstr * value) : obj value :=
  let '(k, v) := kv in
  if has_in KNOWN_ARGS k then assign res k (fmt_escape_feature v)
  else
    let args := as_obj (prop res "arguments") in
    put res "arguments"
      (VObj (assign args (fmt_escape_html (VStr k)) (VStr (fmt_escape_html v)))).

Definition put_if (b : bool) (k : jstr) (v : value) (res : obj value) : obj value :=
  if b then put res k v else res.

(** args_to_features *)
Definition args_to_features (o : obj value) : obj value :=
  let res := foldl add_argument [] (for_in (prop o "arguments")) in
  let res := put_if (truthy (prop o "exclusive")) "exclusive" (VBool true) res in
  let res := put_if (truthy (prop o "durable")) "durable" (VBool true) res in
  let res := put_if (negb (nullish (prop o "delayed_retry"))) "delayed retry"
               (if eq_word (prop o "delayed_retry") "disabled" then VStr "not enabled"
                else prop o "delayed_retry") res in
  let res := put_if (truthy (prop o "auto_delete")) "auto-delete" (VBool true) res in
  let res := put_if (negb (nullish (prop o "internal")) && truthy (prop o "internal"))
               "internal" (VBool true) res in
  put_if (truthy (prop o "storage_version")) "queue storage version" (prop o "storage_version") res.

(** fmt_features *)
Definition fmt_features (o : obj value) : jstr := fmt_table_short (args_to_features o).

(** ** States *)

(** fmt_state: the explanation [[]] is absent. *)
Definition fmt_state (colour text explanation : jstr) : jstr :=
  let key := if decide (explanation = []) then text
             else "<abbr class=`normal` title=`" ++ explanation ++ "`>" ++ text ++ "</abbr>" in
  "<div class=`colour-key status-key-" ++ colour ++ "`></div>" ++ key.

(** The chain of conditions of fmt_object_state on a state. *)
Definition state_look (state terminated_by : value) : jstr * jstr :=
  if eq_word state "blocked" then (js "red", js "Resource alarm: connection blocked.")
  else if eq_word state "blocking" then
    (js "yellow", js "Resource alarm: connection will block on publish.")
  else if eq_word state "flow" then
    (js "yellow", js "Publishing rate recently throttled by server.")
  else if eq_word state "terminated" then
    (js "yellow", "The queue is being deleted" ++
       (if truthy terminated_by then " by `" ++ to_str terminated_by ++ "`" else []) ++ ".")
  else if eq_word state "down" then
    (js "red", js "The queue is located on a cluster node or nodes that are down.")
  else if eq_word state "crashed" then
    (js "red", js "The queue has crashed repeatedly and been unable to restart.")
  else if eq_word state "stopped" then
    (js "red", js "The queue process was stopped by the vhost supervisor.")
  else if eq_word state "minority" then
    (js "yellow", js "The queue does not have sufficient online members to make progress")
  else if eq_word state "timeout" then
    (js "yellow", js "The queue leader did not respond to its status request ")
  else (js "green", []).

(** fmt_object_state *)
Definition fmt_object_state (o : obj value) : jstr :=
  let state := prop o "state" in
  if nullish state then []
  else match prop o "idle_since" with
       | VUndef =>
           let '(colour, explanation) := state_look state (prop o "terminated_by") in
           fmt_state colour (to_str state) explanation
       | idle_since => fmt_state "grey" "idle" ("Idle since " ++ to_str idle_since)
       end.

(** The counters of fmt_vhost_state over the nodes. *)
Definition vhost_step (acc : list jstr * Z) (kv : jstr * value) : list jstr * Z :=
  let '(down, ok) := acc in
  if eq_word kv.2 "stopped" || eq_word kv.2 "nodedown" then (down ++ [kv.1], ok)
  else if eq_word kv.2 "running" then (down, ok + 1)
  else acc.

(** fmt_vhost_state *)
Definition fmt_vhost_state (vhost : obj value) : jstr :=
  let '(down_nodes, ok_count) := foldl vhost_step ([], 0) (for_in (prop vhost "cluster_state")) in
  if decide (down_nodes = []) then fmt_state "green" "running" []
  else if ok_count =? 0 then fmt_state "red" "stopped" "Vhost supervisor is not running."
  else fmt_state "yellow" "partial"
         ("Vhost supervisor is stopped on some cluster nodes: " ++ join ", " down_nodes).

(** fmt_activity_status: the first underscore becomes a space. *)
Fixpoint replace_first (c : Z) (r s : jstr) : jstr :=
  match s with
  | [] => []
  | d :: s' => if decide (d = c) then r ++ s' else d :: replace_first c r s'
  end.

Definition fmt_activity_status (o : option jstr) (unknown : option jstr) : jstr :=
  match o with
  | None => default UNKNOWN_REPR unknown
  | Some s => replace_first 95 " " s
  end.

(** fmt_channel_mode *)
Definition fmt_channel_mode (ch : obj value) : jstr :=
  if truthy (prop ch "transactional") then "<abbr title=`Transactional`>T</abbr>"
  else if truthy (prop ch "confirm") then "<abbr title=`Confirm`>C</abbr>"
  else [].

(** fmt_deprecation_phase: undefined for a phase that is not listed. *)
Definition DEPRECATION_PHASES : list (jstr * jstr) := [
  (js "permitted_by_default", js "Permitted by default");
  (js "denied_by_default", js "Denied by default");
  (js "disconnect", js "Disconnect");
  (js "removed", js "Removed")].

Definition fmt_deprecation_phase (phase : jstr) (deprecation_phases : list (jstr * jstr))
  : option jstr := get deprecation_phases phase.
