(* ===== verification/Links.v ===== *)
(** formatters.js: names shown to the user (shortened, with their extra white
    space made visible, with the filter highlighted), links to pages, and URIs
    with their credentials masked. *)
From S2P Require Import Prelude JsString JsNum Uri JsObject JsValue Escape Format.

(** Lower case depends on the Unicode tables of the language; on ASCII it is
    what one expects. *)
Class LowerCase := { to_lower : jstr -> jstr }.

Definition lower_ascii (c : Z) : Z := if is_upper c then c + 32 else c.

Class LowerCaseLaws `{LowerCase} := {
  to_lower_ascii : forall s, Forall (fun c => 0 <= c < 128) s -> to_lower s = map lower_ascii s;
}.

(** A compiled regular expression: the text of its first match. *)
Definition regexp : Type := jstr -> option jstr.

(** The globals the formatters read. *)
Record globals := mk_globals {
  current_filter : jstr;
  current_filter_regex : option regexp;
  current_filter_regex_on : bool;
  vhosts_interesting : bool;
  exchange_types : list jstr;       (* the names *)
  current_sort : option jstr;
  current_sort_reverse : bool;
}.

(** ** Short names *)

Definition line_end (c : Z) : bool := bool_decide (c ∈ [10; 13; 8232; 8233]).

(** What the dots of a pattern anchored at the start can cross. *)
Fixpoint first_line (s : jstr) : jstr :=
  match s with
  | c :: s' => if line_end c then [] else c :: first_line s'
  | [] => []
  end.

(** The occurrences of [p], as what precedes and what follows, leftmost first;
    a greedy pattern takes the last one that lets the rest match. *)
Fixpoint occurrences (p s : jstr) : list (jstr * jstr) :=
  (if starts_with s p then [([], drop (length p) s)] else []) ++
  match s with
  | [] => []
  | c :: s' => map (fun o => (c :: o.1, o.2)) (occurrences p s')
  end.

Definition last_occurrence (p s : jstr) : option (jstr * jstr) := last (occurrences p s).

(** short_conn: what precedes the last arrow of the first line. *)
Definition short_conn (name : jstr) : jstr :=
  match last_occurrence "->" (first_line name) with
  | Some (before, _) => before
  | None => name
  end.

(** What short_chan captures of the text after the arrow: the last opening
    parenthesis that follows a space, up to the last closing one. *)
Definition last_group (s : jstr) : option jstr :=
  head (omap (fun o => match last_occurrence ")" o.2 with
                       | Some (inside, _) => Some (" (" ++ inside ++ ")")
                       | None => None
                       end) (rev (occurrences " (" s))).

(** short_chan: the last arrow that leaves such a group after it. *)
Definition short_chan (name : jstr) : jstr :=
  default name (head (omap (fun o => app o.1 <$> last_group o.2)
                           (rev (occurrences "->" (first_line name))))).

(** ** White space made visible *)

Definition TAB_HIGHLIGHTER : Z := 8594.
Definition WHITESPACE_HIGHLIGHTER : Z := 9141.

Fixpoint leading_spaces (s : jstr) : nat :=
  match s with c :: s' => if is_space c then S (leading_spaces s') else 0 | [] => 0 end.

(** The two patterns: the units they match, and the input without them. *)
Inductive ws_regex := TrailingSpace | LeadingSpace.

Definition ws_match (regex : ws_regex) (input : jstr) : nat * jstr :=
  match regex with
  | TrailingSpace =>
      let n := leading_spaces (rev input) in (n, take (length input - n) input)
  | LeadingSpace => let n := leading_spaces input in (n, drop n input)
  end.

(** replace_char_sequence_individually *)
Definition replace_char_sequence_individually (input : jstr) (regex : ws_regex) (replacement : Z)
  (combine : jstr -> jstr -> jstr) : jstr :=
  let '(n, stripped) := ws_match regex input in
  if decide (n = 0)%nat then input else combine (replicate n replacement) stripped.

Definition replace_leading_chars (input : jstr) (regex : ws_regex) (replacement : Z) : jstr :=
  replace_char_sequence_individually input regex replacement (fun patch stripped => patch ++ stripped).

Definition replace_trailing_chars (input : jstr) (regex : ws_regex) (replacement : Z) : jstr :=
  replace_char_sequence_individually input regex replacement (fun patch stripped => stripped ++ patch).

(** highlight_extra_whitespace *)
Definition highlight_extra_whitespace (str : jstr) : jstr :=
  foldl (fun acc '(f, regex, replacement) => f acc regex replacement)
    (replace_unit 9 [TAB_HIGHLIGHTER] str)
    [(replace_trailing_chars, TrailingSpace, WHITESPACE_HIGHLIGHTER);
     (replace_leading_chars, LeadingSpace, WHITESPACE_HIGHLIGHTER)].

(** ** Links *)

Section Links.
Context {LC : LowerCase} (G : globals).

(** fmt_highlight_filter *)
Definition fmt_highlight_filter (text : jstr) : jstr :=
  if decide (current_filter G = []) then fmt_escape_html (VStr text)
  else
    let text_to_match :=
      match current_filter_regex G with
      | Some exec => default (to_lower (current_filter G)) (exec (to_lower text))
      | None => to_lower (current_filter G)
      end in
    let ix := index_of (to_lower text) text_to_match in
    let l := Z.of_nat (length text_to_match) in
    if decide (ix = -1) then fmt_escape_html (VStr text)
    else
      fmt_escape_html (VStr (substring text 0 ix)) ++ "<span class=`filter-highlight`>" ++
      fmt_escape_html (VStr (substring text ix (ix + l))) ++ "</span>" ++
      fmt_escape_html (VStr (substring_from text (ix + l))).

Definition internal_purpose (args : obj value) : value := prop args "x-internal-purpose".

(** _link_to: the arguments [[]] for an absent table. *)
Definition link_to (name url : jstr) (highlight : bool) (args : obj value) : jstr :=
  let title :=
    if nullish (internal_purpose args) then []
    else "This is used internally by the " ++ fmt_escape_html (internal_purpose args) ++ " mechanism." in
  "<a href=`" ++ url ++ "`" ++
  (if decide (title = []) then [] else " title=`" ++ title ++ "`") ++ ">" ++
  (if highlight then fmt_highlight_filter name else fmt_escape_html (VStr name)) ++ "</a>".

(** link_conn(name, desc) *)
Definition link_conn (name : jstr) (desc : option jstr) : res jstr :=
  e ← esc name;
  Ok (match desc with
      | None => link_to (short_conn name) ("#/connections/" ++ e) true []
      | Some desc => link_to desc ("#/connections/" ++ e) false []
      end).

Definition link_channel (name : jstr) : res jstr :=
  e ← esc name; Ok (link_to (short_chan name) ("#/channels/" ++ e) true []).

Definition fmt_exchange0 (name : jstr) : jstr :=
  if decide (name = []) then "(AMQP default)" else name.

Definition fmt_exchange (name : jstr) : jstr := fmt_escape_html (VStr (fmt_exchange0 name)).

Definition fmt_exchange_url (name : jstr) : jstr :=
  if decide (name = []) then "amq.default" else fmt_escape_html (VStr name).

Definition link_exchange (vhost name : jstr) (args : obj value) : res jstr :=
  v ← esc vhost;
  n ← (if decide (name = []) then Ok (js "amq.default") else esc name);
  Ok (link_to (fmt_exchange0 (highlight_extra_whitespace name)) ("#/exchanges/" ++ v ++ "/" ++ n)
        true args).

Definition link_queue (vhost name : jstr) (args : obj value) : res jstr :=
  v ← esc vhost; n ← esc name;
  Ok (link_to (highlight_extra_whitespace name) ("#/queues/" ++ v ++ "/" ++ n) true args).

Definition link_vhost (name : jstr) : res jstr :=
  n ← esc name; Ok (link_to name ("#/vhosts/" ++ n) true []).

Definition link_user (name : jstr) : res jstr :=
  n ← esc name; Ok (link_to name ("#/users/" ++ n) true []).

(** link_node: the name is already markup when it is linked. *)
Definition link_node (name : jstr) : res jstr :=
  n ← esc name; Ok (link_to (fmt_node (VStr name)) ("#/nodes/" ++ n) true []).

Definition link_policy (vhost name : jstr) : res jstr :=
  v ← esc vhost; n ← esc name; Ok (link_to name ("#/policies/" ++ v ++ "/" ++ n) true []).

(** What CONSUMER_OWNER_FORMATTERS reads of a consumer. *)
Record consumer := mk_consumer {
  consumer_tag : jstr;
  connection_name : jstr;
  channel_name : jstr;
}.

Record owner_formatter := mk_owner {
  order : Z;
  formatter : consumer -> res (option jstr);
}.

Definition CONSUMER_OWNER_FORMATTERS : list owner_formatter := [
  mk_owner 10 (fun c =>
    if starts_with (consumer_tag c) "stream.subid-"
    then Some <$> link_conn (connection_name c) None else Ok None);
  mk_owner 100 (fun c => Some <$> link_channel (channel_name c))].

(** link_consumer_owner: the first formatter that answers. *)
Fixpoint first_owner (fs : list owner_formatter) (c : consumer) : res (option jstr) :=
  match fs with
  | [] => Ok None
  | f :: fs => r ← formatter f c;
               match r with Some s => Ok (Some s) | None => first_owner fs c end
  end.

Definition link_consumer_owner (c : consumer) : res (option jstr) :=
  first_owner CONSUMER_OWNER_FORMATTERS c.

(** fmt_policy_short, fmt_op_policy_short *)
Definition fmt_policy_short (o : obj value) : res jstr :=
  let policy := prop o "policy" in
  if nullish policy || eq_empty policy then Ok []
  else
    l ← link_policy (to_str (prop o "vhost")) (to_str policy);
    Ok ("<abbr class=`policy` title=`Policy: " ++ fmt_escape_html policy ++ "`>" ++ l ++ "</abbr> ").

Definition fmt_op_policy_short (o : obj value) : jstr :=
  let policy := prop o "operator_policy" in
  if nullish policy || eq_empty policy then []
  else "<abbr class=`policy` title=`Operator policy: " ++ fmt_escape_html policy ++ "`>" ++
       fmt_escape_html policy ++ "</abbr> ".

(** fmt_features_short *)
Definition feature_mark (features : obj value) (kv : jstr * arg) : jstr :=
  let f := prop features kv.1 in
  if nullish f then []
  else "<abbr title=`" ++ kv.1 ++ ": " ++ fmt_string f None ++ "`>" ++ short kv.2 ++ "</abbr> ".

Definition fmt_features_short (o : obj value) : res jstr :=
  let features := args_to_features o in
  excl ← (let owner := prop o "owner_pid_details" in
          if nullish owner then Ok []
          else
            name ← field owner "name";
            l ← link_conn (to_str name) (Some (js "Excl"));
            Ok ("<acronym title=`Exclusive queue: click for owning connection`>" ++ l ++
                "</acronym> "));
  let marks := flat_map (feature_mark features) (entries ALL_ARGS) in
  let args := prop features "arguments" in
  Ok (excl ++ marks ++
      (if truthy args then "<abbr title=`" ++ fmt_table_flat (as_obj args) ++ "`>Args</abbr> "
       else [])).

(** fmt_maybe_vhost, fmt_exchange_type *)
Definition fmt_maybe_vhost (name : jstr) : jstr :=
  if vhosts_interesting G
  then " in virtual host <b>" ++ fmt_escape_html (VStr name) ++ "</b>" else [].

Definition fmt_exchange_type (type : jstr) : jstr :=
  if bool_decide (type ∈ exchange_types G) then fmt_escape_html (VStr type)
  else "<div class=`status-red`><abbr title=`Exchange type not found. Publishing to this exchange will fail.`>" ++
       fmt_escape_html (VStr type) ++ "</abbr></div>".

(** fmt_sort *)
Definition fmt_sort (display sort : jstr) : jstr :=
  let prefix :=
    if decide (current_sort G = Some sort) then
      "<span class=`arrow`>" ++ (if current_sort_reverse G then "&#9661; " else "&#9651; ") ++ "</span>"
    else [] in
  "<a class=`sort` sort=`" ++ sort ++ "`>" ++ prefix ++ display ++ "</a>".

(** fmt_resource, fmt_resource_link *)
Definition fmt_resource (kind name virtual_host : jstr) : jstr :=
  kind ++ " '" ++ name ++ "' in vhost '" ++ virtual_host ++ "'".

Definition fmt_resource_link (kind name virtual_host : jstr) : res (option jstr) :=
  if decide (kind = "queue") then
    l ← link_queue virtual_host name []; v ← link_vhost virtual_host;
    Ok (Some (kind ++ " '" ++ l ++ "' in vhost '" ++ v ++ "'"))
  else if decide (kind = "exchange") then
    l ← link_exchange virtual_host name []; v ← link_vhost virtual_host;
    Ok (Some (kind ++ " '" ++ l ++ "' in vhost '" ++ v ++ "'"))
  else Ok None.

End Links.

(** ** URIs *)

(** fmt_shortened_uri *)
Fixpoint fmt_shortened_uri (uri : value) : jstr :=
  let one (uri : value) :=
    let uri := fmt_escape_html uri in
    let q := index_of uri "?" in
    if decide (q = -1) then uri
    else "<abbr title=`" ++ uri ++ "`>" ++ substring uri 0 q ++ "?...</abbr>" in
  match uri with
  | VNull => []
  | VArr l => flat_map (fun u => fmt_shortened_uri u ++ "<br/>") l
  | VObj o =>
      flat_map (fun kv => kv.2 ++ "<br/>") (entries (map (fun kv => (kv.1, fmt_shortened_uri kv.2)) o))
  | _ => one uri
  end.

(** The units of a scheme: the pattern's [+-.] is the range from + to the dot. *)
Definition scheme_unit (c : Z) : bool := is_alnum c || ((43 <=? c) && (c <=? 46)).

Fixpoint span_scheme (s : jstr) : jstr * jstr :=
  match s with
  | c :: s' => if scheme_unit c then let '(a, b) := span_scheme s' in (c :: a, b) else ([], s)
  | [] => ([], [])
  end.

(** The last colon that has an at sign after it on the line, and what follows
    the last at sign. *)
Definition userinfo (line : jstr) : option (jstr * jstr) :=
  head (omap (fun o => match last_occurrence "@" o.2 with
                       | Some (_, rest) => Some (o.1, rest)
                       | None => None
                       end) (rev (occurrences ":" line))).

(** The replacement of fmt_uri_with_credentials: scheme, colon and slashes, the
    user, and the rest up to the at sign redacted. *)
Definition mask_password (uri : jstr) : jstr :=
  let '(scheme, rest) := span_scheme uri in
  if bool_decide (scheme <> []) && starts_with rest "://" then
    let body := drop 3 rest in
    let line := first_line body in
    match userinfo line with
    | Some (user, after) =>
        scheme ++ "://" ++ user ++ ":[redacted]@" ++ after ++ drop (length line) body
    | None => uri
    end
  else uri.

(** fmt_uri_with_credentials *)
Fixpoint fmt_uri_with_credentials (uri : value) : value :=
  match uri with
  | VNull => VArr []
  | VArr l => VArr (map fmt_uri_with_credentials l)
  | VObj o => VArr (map snd (entries (map (fun kv => (kv.1, fmt_uri_with_credentials kv.2)) o)))
  | VStr s => VStr (mask_password s)
  | _ => VStr UNKNOWN_REPR
  end.

(** fmt_client_name *)
Definition fmt_client_name (product platform version client_id : option jstr) : jstr :=
  let res := join " / "
    (match product with Some p => [fmt_trunc p (Some 120)] | None => [] end ++
     match platform with Some p => [fmt_trunc p (Some 120)] | None => [] end) in
  res ++
  match version with Some v => "<sub>" ++ fmt_trunc v None ++ "</sub>" | None => [] end ++
  match client_id with Some c => "<sub>" ++ fmt_trunc c (Some 120) ++ "</sub>" | None => [] end.

(** fmt_permissions: records of strings. *)
Definition fmt_permissions (name : jstr) (permissions : list (obj jstr)) (lookup show warning : jstr)
  : jstr :=
  let res := omap (fun p => if decide (get p lookup = Some name)
                            then Some (fmt_escape_html (from_option VStr VUndef (get p show)))
                            else None) permissions in
  if decide (res = []) then warning else join ", " res.

(** alt_rows *)
Definition alt_rows (i : Z) (args : obj value) : jstr :=
  let css := (if i mod 2 =? 0 then js "alt1" else js "alt2") ::
             (if nullish (prop args "x-internal-purpose") then [] else [js "internal-purpose"]) in
  " class=`" ++ join " " css ++ "`".

Example short_chan_ok : short_chan "127.0.0.1:5 -> 127.0.0.1:5672 (1)" = js "127.0.0.1:5  (1)".
Proof. by_compute. Qed.

Example mask_ok : mask_password "amqp://u:p@h/%2f" = js "amqp://u:[redacted]@h/%2f".
Proof. by_compute. Qed.
