(* ===== verification/Access.v ===== *)
(** Access control and navigation (global.js, main.js): the tags of the user,
    what they grant, and the tabs and menus that are shown. *)
From S2P Require Import Prelude JsString JsNum Uri JsObject JsValue Escape Format Links.

(** ** User tags *)

(** One turn of expand_user_tags, with the fall-through of its switch. *)
Definition expand_tag (tag : jstr) : list jstr :=
  tag ::
  if decide (tag = "administrator") then [js "monitoring"; js "policymaker"; js "management"]
  else if decide (tag = "monitoring") then [js "management"]
  else if decide (tag = "policymaker") then [js "management"]
  else [].

(** expand_user_tags *)
Fixpoint expand_user_tags (tags : list jstr) : list jstr :=
  match tags with
  | [] => []
  | tag :: tags => expand_tag tag ++ expand_user_tags tags
  end.

(** ** The model shared by the access and display controls *)

Record application := mk_application { app_name : jstr; version : jstr }.

(** What is read of a node: its applications. *)
Record node := mk_node { applications : list application }.

(** The object [ui_data_model], which the controls keep a reference to. *)
Record ui_data := mk_ui_data { vhosts : list jstr; nodes : list node }.

(** AccessControl: the expanded tags and whether [ui_data_model] is set. *)
Record access := mk_access { ac_tags : option (list jstr); has_model : bool }.

(** DisplayControl *)
Record display_control := mk_display {
  show_nodes : bool;
  show_vhosts : bool;
  rabbitmqVersions : bool;
}.

Definition new_access : access := mk_access None false.
Definition new_display : display_control := mk_display false false false.

(** ac.update(user, ui_data_model) *)
Definition ac_update (tags : list jstr) (a : access) : access :=
  mk_access (Some (expand_user_tags tags)) true.

Definition has_tag (tag : jstr) (a : access) : bool :=
  match ac_tags a with Some tags => bool_decide (tag ∈ tags) | None => false end.

Definition isMonitoringUser (a : access) : bool := has_tag "monitoring" a.
Definition isAdministratorUser (a : access) : bool := has_tag "administrator" a.
Definition isPolicyMakerUser (a : access) : bool := has_tag "policymaker" a.

Definition canAccessVhosts (m : ui_data) (a : access) : bool :=
  if has_model a then (0 <? length (vhosts m))%nat else false.

Definition canListNodes (m : ui_data) (a : access) : bool :=
  if has_model a then isMonitoringUser a && (1 <? length (nodes m))%nat else false.

(** fmt_rabbit_version (formatters.js) *)
Fixpoint fmt_rabbit_version (apps : list application) : jstr :=
  match apps with
  | [] => "unknown"
  | a :: apps => if decide (app_name a = "rabbit") then version a else fmt_rabbit_version apps
  end.

(** One turn of the loop over the nodes: the last known version, and whether
    two versions were seen. *)
Definition version_step (acc : jstr * bool) (n : node) : jstr * bool :=
  let '(v, mixed) := acc in
  let v1 := fmt_rabbit_version (applications n) in
  if decide (v1 = "unknown") then acc
  else (v1, if decide (v <> [] /\ v <> v1) then true else mixed).

(** display.update(overview, ui_data_model) *)
Definition display_update (m : ui_data) (a : access) : display_control :=
  mk_display (canListNodes m a && (1 <? length (nodes m))%nat) (canAccessVhosts m a)
    (foldl version_step ([], false) (nodes m)).2.

(** ** Navigation *)

(** An entry of NAVIGATION: [[href, tag]] or [[href, tag, needs]], with an
    object of entries in place of the address for a menu. *)
Inductive tab :=
  | Page (href tag : jstr) (needs_vhosts : option bool)
  | Menu (items : list (jstr * tab)) (tag : jstr) (needs_vhosts : option bool).

Definition tab_tag (t : tab) : jstr := match t with Page _ tag _ | Menu _ tag _ => tag end.
Definition tab_needs (t : tab) : option bool := match t with Page _ _ n | Menu _ _ n => n end.

Definition NAVIGATION : list (jstr * tab) := [
  (js "Overview", Page "#/" "management" None);
  (js "Connections", Page "#/connections" "management" (Some true));
  (js "Channels", Page "#/channels" "management" (Some true));
  (js "Exchanges", Page "#/exchanges" "management" (Some true));
  (js "Queues and Streams", Page "#/queues" "management" (Some true));
  (js "Admin", Menu [
     (js "Users", Page "#/users" "administrator" None);
     (js "Virtual Hosts", Page "#/vhosts" "administrator" None);
     (js "Feature Flags", Page "#/feature-flags" "administrator" None);
     (js "Deprecated Features", Page "#/deprecated-features" "administrator" None);
     (js "Policies", Page "#/policies" "management" None);
     (js "Limits", Page "#/limits" "management" None);
     (js "Cluster", Page "#/cluster-name" "administrator" None)] "management" (Some true))].

(** What the navigation reads of the page. *)
Record nav_state := mk_nav {
  user_tags : option (list jstr);
  can_access_vhosts : bool;
  current_highlight : jstr;
}.

Definition leaf (t : tab) : bool := match t with Page _ _ _ => true | Menu _ _ _ => false end.

Section Navigation.
Context {LC : LowerCase} (ns : nav_state).

(** show(pair) *)
Definition show (t : tab) : bool :=
  let hasUserTag := match user_tags ns with
                    | Some tags => bool_decide (tab_tag t ∈ tags)
                    | None => false
                    end in
  match tab_needs t with
  | Some true => hasUserTag && can_access_vhosts ns
  | _ => hasUserTag
  end.

(** first_showable_child: [None] is undefined, for a menu without items. *)
Definition first_showable_child (items : list (jstr * tab)) : option tab :=
  let ts := map snd items in
  match find show ts with Some t => Some t | None => head ts end.

(** The loop of update_navigation that walks down to a page. *)
Fixpoint walk_down (fuel : nat) (path : tab) : option (res (jstr * tab)) :=
  match path, fuel with
  | Page href _ _, _ => Some (Ok (href, path))
  | Menu _ _ _, O => None
  | Menu items _ _, S fuel =>
      match first_showable_child items with
      | Some t => walk_down fuel t
      | None => Some (Throw TypeError)
      end
  end.

(** contains_current_highlight: on a menu it also visits the tag, a string,
    and compares the highlight with its first character. *)
Fixpoint contains_current_highlight (t : tab) : bool :=
  match t with
  | Page href _ _ => bool_decide (current_highlight ns = href)
  | Menu items tag _ =>
      existsb (fun kv => contains_current_highlight kv.2) items ||
      match tag with c :: _ => bool_decide (current_highlight ns = [c]) | [] => false end
  end.

(** navigation_tab_id *)
Definition navigation_tab_id (value : jstr) : jstr :=
  flat_map (fun c => if is_space c then js "-" else [c]) (to_lower value).

(** obj_to_ul *)
Fixpoint menu_item (k : jstr) (t : tab) : jstr :=
  if show t then
    "<li>" ++
    match t with
    | Page href _ _ =>
        "<a href=`" ++ href ++ "`" ++
        (if decide (current_highlight ns = href) then js " class=`selected`" else []) ++ ">" ++ k ++ "</a>"
    | Menu items _ _ => "<ul>" ++ flat_map (fun kv => menu_item kv.1 kv.2) items ++ "</ul>"
    end ++ "</li>"
  else [].

Definition obj_to_ul (items : list (jstr * tab)) : jstr :=
  "<ul>" ++ flat_map (fun kv => menu_item kv.1 kv.2) items ++ "</ul>".

(** A tab of the first level that is shown: its name, its address and whether
    it is selected. *)
Definition tab_li (name href : jstr) (selected : bool) : jstr :=
  "<li id=`" ++ navigation_tab_id name ++ "`><a href=`" ++ href ++ "`" ++
  (if selected then js " class=`selected`" else []) ++ ">" ++ name ++ "</a></li>".

(** The menu to descend into after a tab. *)
Definition descend_into (descend : option (list (jstr * tab))) (val : tab) :=
  match val with
  | Menu items _ (Some true) =>
      if contains_current_highlight val && can_access_vhosts ns then Some items else descend
  | _ => descend
  end.

(** One turn of the loop of update_navigation. *)
Definition nav_entry (k : jstr) (val : tab) (path : tab) (href : jstr) : option (jstr * jstr * bool) :=
  if show path &&
     match tab_needs val with None => true | Some b => b && can_access_vhosts ns end
  then Some (k, href, contains_current_highlight val) else None.

Fixpoint nav_loop (fuel : nat) (tabs : list (jstr * tab))
  (l1 : list (jstr * jstr * bool)) (descend : option (list (jstr * tab)))
  : option (res (list (jstr * jstr * bool) * option (list (jstr * tab)))) :=
  match tabs with
  | [] => Some (Ok (l1, descend))
  | (k, val) :: tabs =>
      match walk_down fuel val with
      | None => None
      | Some (Throw e) => Some (Throw e)
      | Some (Ok (href, path)) =>
          nav_loop fuel tabs (l1 ++ option_list (nav_entry k val path href)) (descend_into descend val)
      end
  end.

(** update_navigation: the contents of "tabs" and of "rhs", and whether the
    main part leaves room for the menu. *)
Definition update_navigation (fuel : nat) (navigation : list (jstr * tab))
  : option (res (jstr * jstr * bool)) :=
  match nav_loop fuel navigation [] None with
  | None => None
  | Some (Throw e) => Some (Throw e)
  | Some (Ok (l1, descend)) =>
      Some (Ok (flat_map (fun '(k, href, selected) => tab_li k href selected) l1,
                match descend with Some items => obj_to_ul items | None => [] end,
                bool_decide (is_Some descend)))
  end.

End Navigation.

(** ** Reference: what a tag grants *)

Inductive implies : jstr -> jstr -> Prop :=
  | implies_refl t : implies t t
  | implies_admin t :
      t ∈ [js "monitoring"; js "policymaker"; js "management"] -> implies "administrator" t
  | implies_monitoring : implies "monitoring" "management"
  | implies_policymaker : implies "policymaker" "management".

(** A page below a tab, with what it asks for. *)
Inductive page_in (href tag : jstr) (needs : option bool) : tab -> Prop :=
  | page_here : page_in href tag needs (Page href tag needs)
  | page_below k t items tag' needs' :
      (k, t) ∈ items -> page_in href tag needs t -> page_in href tag needs (Menu items tag' needs').

(** The user may see a page: the tag is one of the user's, and there is a
    virtual host where one is needed. *)
Definition granted (ns : nav_state) (tag : jstr) (needs : option bool) : Prop :=
  (exists tags, user_tags ns = Some tags /\ tag ∈ tags) /\
  (needs = Some true -> can_access_vhosts ns = true).

(** The part of a menu that is shown, and its rendering, which asks nothing. *)
Fixpoint prune (ns : nav_state) (t : tab) : option tab :=
  if show ns t then
    Some (match t with
          | Page _ _ _ => t
          | Menu items tag needs =>
              Menu (omap (fun kv => pair kv.1 <$> prune ns kv.2) items) tag needs
          end)
  else None.

Definition prune_items (ns : nav_state) (items : list (jstr * tab)) : list (jstr * tab) :=
  omap (fun kv => pair kv.1 <$> prune ns kv.2) items.

Fixpoint render_item (highlight k : jstr) (t : tab) : jstr :=
  "<li>" ++
  match t with
  | Page href _ _ =>
      "<a href=`" ++ href ++ "`" ++
      (if decide (highlight = href) then js " class=`selected`" else []) ++ ">" ++ k ++ "</a>"
  | Menu items _ _ => "<ul>" ++ flat_map (fun kv => render_item highlight kv.1 kv.2) items ++ "</ul>"
  end ++ "</li>".

(** ** Lemmas *)

Lemma expand_tag_spec s t : t ∈ expand_tag s <-> implies s t.
Proof.
  unfold expand_tag. rewrite elem_of_cons. split.
  - intros [->|H]; [constructor|]. repeat case_decide; subst; [by constructor| | |].
    + apply list_elem_of_singleton in H as ->. constructor.
    + apply list_elem_of_singleton in H as ->. constructor.
    + by apply elem_of_nil in H.
  - destruct 1 as [t|t Ht| |]; [by left| | |]; right; [exact Ht | by_decide | by_decide].
Qed.

Lemma expand_user_tags_in tags t : t ∈ expand_user_tags tags <-> exists s, s ∈ tags /\ implies s t.
Proof.
  induction tags as [|s tags IH]; cbn [expand_user_tags].
  - split; [by intros ?%elem_of_nil | by intros (s & ?%elem_of_nil & _)].
  - rewrite elem_of_app, expand_tag_spec, IH. split.
    + intros [H|(s' & H1 & H2)]; [exists s | exists s']; split; try done; by constructor.
    + intros (s' & [->|H1]%elem_of_cons & H2); [by left | right; eauto].
Qed.

Lemma show_granted ns t : show ns t = true <-> granted ns (tab_tag t) (tab_needs t).
Proof.
  unfold show, granted. destruct (user_tags ns) as [tags|].
  - destruct (tab_needs t) as [[]|]; rewrite ?andb_true_iff, bool_decide_eq_true; naive_solver.
  - destruct (tab_needs t) as [[]|]; naive_solver.
Qed.


Section NavigationFacts.
Context {LC : LowerCase} (ns : nav_state).

Lemma first_showable_in items t :
  first_showable_child ns items = Some t -> exists k, (k, t) ∈ items.
Proof.
  unfold first_showable_child. intros H. assert (Hin : t ∈ map snd items).
  { destruct (find (show ns) (map snd items)) as [t'|] eqn:E.
    - injection H as ->. apply find_some in E as [E _]. by apply list_elem_of_In.
    - destruct (map snd items); [done|]. injection H as ->. left. }
  apply list_elem_of_fmap in Hin as ([k t'] & -> & Hin). eauto.
Qed.

Lemma walk_down_page fuel : forall t href path,
  walk_down ns fuel t = Some (Ok (href, path)) ->
  exists tag needs, path = Page href tag needs /\ page_in href tag needs t.
Proof.
  induction fuel as [|fuel IH]; intros [h tag needs|items tag needs] href path; cbn; try done.
  1,2: intros [= <- <-]; eexists _, _; split; [done | constructor].
  destruct (first_showable_child ns items) as [t|] eqn:E; [|done].
  intros (tag' & needs' & -> & Hp)%IH. apply first_showable_in in E as [k Hk].
  eexists _, _. split; [done|]. by econstructor.
Qed.

Lemma nav_loop_entries fuel tabs : forall l1 d l1' d',
  nav_loop ns fuel tabs l1 d = Some (Ok (l1', d')) ->
  forall e, e ∈ l1' -> e ∈ l1 \/
    exists val path href, (e.1.1, val) ∈ tabs /\ walk_down ns fuel val = Some (Ok (href, path)) /\
      nav_entry ns e.1.1 val path href = Some e.
Proof.
  induction tabs as [|[k val] tabs IH]; intros l1 d l1' d' H e He; cbn in H.
  { injection H as -> ->. by left. }
  destruct (walk_down ns fuel val) as [[[href path]|]|] eqn:E; try done.
  destruct (IH _ _ _ _ H e He) as [Hin|(val' & path' & href' & Hv & Hw & Hn)].
  - apply elem_of_app in Hin as [Hin|Hin]; [by left|]. right.
    destruct (nav_entry ns k val path href) as [e'|] eqn:En; [|by apply elem_of_nil in Hin].
    apply list_elem_of_singleton in Hin as ->.
    assert (Hk : e'.1.1 = k) by (unfold nav_entry in En; case_match; by simplify_eq).
    exists val, path, href. rewrite Hk. split_and!; [left | done | done].
  - right. exists val', path', href'. split_and!; [by right | done | done].
Qed.

Lemma nav_entry_granted k val path href e :
  nav_entry ns k val path href = Some e ->
  e = (k, href, contains_current_highlight ns val) /\
  granted ns (tab_tag path) (tab_needs path) /\
  (is_Some (tab_needs val) -> can_access_vhosts ns = true).
Proof.
  unfold nav_entry. destruct (show ns path) eqn:Es; [|done]. apply show_granted in Es.
  cbn [andb]. destruct (tab_needs val) as [b|].
  - destruct b, (can_access_vhosts ns) eqn:Ec; cbn; try done. by intros [= <-].
  - intros [= <-]. split_and!; [done | done |]. by intros [? [=]].
Qed.

Lemma prune_granted t t' :
  prune ns t = Some t' -> forall href tag needs, page_in href tag needs t' -> granted ns tag needs.
Proof.
  revert t t'. fix IH 1. intros [h tg nd|items tg nd] t'; cbn [prune].
  - destruct (show ns (Page h tg nd)) eqn:Es; [|done]. intros [= <-] href tag needs Hp.
    inversion Hp; subst. by apply show_granted in Es.
  - destruct (show ns (Menu items tg nd)); [|done]. intros [= <-] href tag needs Hp.
    inversion Hp as [|k t items' tg' nd' Hin Hp']; subst. clear Hp.
    induction items as [|[k1 t1] items IHi]; [by apply elem_of_nil in Hin|].
    cbn in Hin. destruct (prune ns t1) as [t1'|] eqn:E1; cbn in Hin; [|by apply IHi].
    apply elem_of_cons in Hin as [[= -> ->]|Hin]; [|by apply IHi]. by eapply (IH t1).
Qed.

Lemma menu_item_prune k t :
  menu_item ns k t =
  match prune ns t with Some t' => render_item (current_highlight ns) k t' | None => [] end.
Proof.
  revert k t. fix IH 2. intros k [h tg nd|items tg nd]; cbn [menu_item prune].
  - by destruct (show ns (Page h tg nd)).
  - destruct (show ns (Menu items tg nd)); [|done]. cbn [render_item].
    assert (E : flat_map (fun kv => menu_item ns kv.1 kv.2) items =
      flat_map (fun kv => render_item (current_highlight ns) kv.1 kv.2)
        (omap (fun kv => pair kv.1 <$> prune ns kv.2) items)).
    { induction items as [|[k1 t1] items IHi]; [done|]. cbn [flat_map fst snd].
      rewrite IHi, (IH k1 t1). cbn. by destruct (prune ns t1). }
    by rewrite E.
Qed.

Lemma menu_items_prune items :
  flat_map (fun kv => menu_item ns kv.1 kv.2) items =
  flat_map (fun kv => render_item (current_highlight ns) kv.1 kv.2) (prune_items ns items).
Proof.
  unfold prune_items. induction items as [|[k1 t1] items IHi]; [done|]. cbn [flat_map fst snd].
  rewrite IHi, menu_item_prune. cbn. by destruct (prune ns t1).
Qed.

(** C16: a tab of the first level is shown only with the address of a page below
    it that the user's tags grant, and a tab that needs virtual hosts only when
    there are some; the menu on the right is the rendering of the part of its
    tab that the user's tags grant, and of nothing else. *)
Theorem navigation_authorised fuel navigation l1 descend :
  nav_loop ns fuel navigation [] None = Some (Ok (l1, descend)) ->
  (forall k href selected, (k, href, selected) ∈ l1 ->
     exists val tag needs, (k, val) ∈ navigation /\ page_in href tag needs val /\
       granted ns tag needs /\ (is_Some (tab_needs val) -> can_access_vhosts ns = true)) /\
  (forall items, descend = Some items ->
     obj_to_ul ns items =
       "<ul>" ++ flat_map (fun kv => render_item (current_highlight ns) kv.1 kv.2)
                   (prune_items ns items) ++ "</ul>" /\
     forall k t href tag needs,
       (k, t) ∈ prune_items ns items -> page_in href tag needs t -> granted ns tag needs).
Proof.
  intros H. split.
  - intros k href selected Hin. destruct (nav_loop_entries _ _ _ _ _ _ H _ Hin)
      as [?%elem_of_nil|(val & path & href' & Hv & Hw & Hn)]; [done|].
    apply nav_entry_granted in Hn as ([= -> _] & Hg & Hc).
    apply walk_down_page in Hw as (tag & needs & -> & Hp). exists val, tag, needs. done.
  - intros items _. split.
    + unfold obj_to_ul. by rewrite menu_items_prune.
    + intros k t href tag needs Hin Hp. unfold prune_items in Hin.
      apply list_elem_of_omap in Hin as ([k1 t1] & _ & Hpr). cbn in Hpr.
      destruct (prune ns t1) as [t1'|] eqn:E; [|done]. injection Hpr as <- <-.
      by eapply prune_granted.
Qed.

End NavigationFacts.

(** Expand_user_tags gives exactly the tags of the user and what they imply:
    administrators monitor, make policies and manage, the other two manage. *)
Theorem expand_user_tags_spec tags t :
  t ∈ expand_user_tags tags <-> exists s, s ∈ tags /\ implies s t.
Proof. apply expand_user_tags_in. Qed.

(** The tabs of the first level by role. *)
Definition expected_tabs (administrator management vhosts : bool) : list (jstr * jstr) :=
  (if management then [(js "Overview", js "#/")] else []) ++
  (if management && vhosts then
     [(js "Connections", js "#/connections"); (js "Channels", js "#/channels");
      (js "Exchanges", js "#/exchanges"); (js "Queues and Streams", js "#/queues")]
   else []) ++
  (if management && vhosts then
     [(js "Admin", if administrator then js "#/users" else js "#/policies")]
   else []).

Section Tabs.
Context {LC : LowerCase} (ns : nav_state) (tags : list jstr).
Hypothesis Htags : user_tags ns = Some (expand_user_tags tags).

Definition holds (t : jstr) : bool := bool_decide (t ∈ expand_user_tags tags).

Lemma show_holds t :
  show ns t = holds (tab_tag t) && match tab_needs t with Some true => can_access_vhosts ns | _ => true end.
Proof. unfold show, holds. rewrite Htags. destruct (tab_needs t) as [[]|]; by rewrite ?andb_true_r. Qed.

Lemma implies_administrator s : implies s "administrator" -> s = js "administrator".
Proof.
  intros Hi. remember (js "administrator") as a eqn:Ea. by destruct Hi.
Qed.

Lemma administrator_manages : holds "administrator" = true -> holds "management" = true.
Proof.
  unfold holds. rewrite !bool_decide_eq_true, !expand_user_tags_in. intros (s & Hs & Hi).
  apply implies_administrator in Hi as ->. exists (js "administrator").
  split; [done | apply implies_admin; by_decide].
Qed.

Lemma walk_page fuel href tag needs :
  walk_down ns fuel (Page href tag needs) = Some (Ok (href, Page href tag needs)).
Proof. by destruct fuel. Qed.

Definition admin_items : list (jstr * tab) :=
  match NAVIGATION !! 5%nat with Some (_, Menu items _ _) => items | _ => [] end.

Lemma walk_admin fuel tag needs :
  walk_down ns (S fuel) (Menu admin_items tag needs) =
  Some (Ok (if holds "administrator" then (js "#/users", Page "#/users" "administrator" None)
            else if holds "management" then (js "#/policies", Page "#/policies" "management" None)
            else (js "#/users", Page "#/users" "administrator" None))).
Proof.
  cbn [walk_down admin_items NAVIGATION lookup list_lookup]. unfold first_showable_child.
  cbn [map snd find head]. rewrite !show_holds. cbn [tab_tag tab_needs]. rewrite !andb_true_r.
  destruct (holds "administrator"); [by rewrite walk_page|].
  by destruct (holds "management"); rewrite walk_page.
Qed.

(** With the navigation of the program every user sees the tabs of his role:
    the overview for those who manage, the lists and the administration only
    where there is a virtual host, and the administration opens on the users
    for administrators and on the policies for the others. The loop ends, with
    one step down into a menu, and never meets an undefined entry. *)
Theorem navigation_tabs fuel :
  (0 < fuel)%nat ->
  exists l1 descend, nav_loop ns fuel NAVIGATION [] None = Some (Ok (l1, descend)) /\
    map fst l1 = expected_tabs (holds "administrator") (holds "management") (can_access_vhosts ns).
Proof.
  intros Hf. destruct fuel as [|fuel]; [lia|]. pose proof administrator_manages as Ha.
  unfold NAVIGATION. fold admin_items. cbn [nav_loop]. rewrite !walk_page.
  change (Menu _ _ _) with (Menu admin_items (js "management") (Some true)).
  rewrite walk_admin. unfold nav_entry. rewrite !show_holds. cbn [tab_tag tab_needs].
  destruct (holds "administrator") eqn:E1, (holds "management") eqn:E2;
    try (by specialize (Ha eq_refl)); destruct (can_access_vhosts ns);
    rewrite ?show_holds; cbn [tab_tag tab_needs]; rewrite ?E1, ?E2;
    eexists _, _; (split; [reflexivity|]); reflexivity.
Qed.

End Tabs.

(** ** The controls *)

(** The versions of the nodes that run the broker. *)
Definition known_versions (ns : list node) : list jstr :=
  filter (fun v => v <> js "unknown") (map (fun n => fmt_rabbit_version (applications n)) ns).

Lemma version_loop ns : forall v b,
  Forall (fun v => v <> []) (known_versions ns) -> v <> [] ->
  (foldl version_step (v, b) ns).2 = true <-> b = true \/ exists x, x ∈ known_versions ns /\ x <> v.
Proof.
  induction ns as [|n ns IH]; intros v b Hne Hv; cbn [foldl].
  { cbn. split; [by left | intros [?|(x & ?%elem_of_nil & _)]; done]. }
  unfold known_versions in *. cbn [map] in *. rewrite filter_cons in Hne |- *.
  unfold version_step at 2. set (v1 := fmt_rabbit_version (applications n)) in *.
  destruct (decide (v1 <> js "unknown")) as [Hk|Hk].
  - rewrite decide_False by done. inversion Hne as [|? ? Hv1 Hne']; subst. rewrite IH by done.
    destruct (decide (v <> [] /\ v <> v1)) as [[_ Hd]|Hd].
    + split; [intros _; right; exists v1; split; [left | done] | by left].
    + assert (v = v1) as -> by (destruct (decide (v = v1)); [done | by destruct Hd]).
      split; (intros [?|(x & Hx & Hxv)]; [by left | right; exists x; split; [|done]]).
      * by right.
      * by apply elem_of_cons in Hx as [->|Hx].
  - rewrite decide_True by (destruct (decide (v1 = js "unknown")); [done | by destruct Hk]).
    by apply IH.
Qed.

(** After [ac.update] and [display.update] the controls say what the model
    says: the roles are the tags and what they imply, and the versions of the
    cluster are mixed exactly when two nodes run different known versions. *)
Theorem controls_spec tags m a :
  Forall (fun v => v <> []) (known_versions (nodes m)) ->
  let ac := ac_update tags a in
  (isAdministratorUser ac = true <-> js "administrator" ∈ tags) /\
  (isMonitoringUser ac = true <-> js "monitoring" ∈ tags \/ js "administrator" ∈ tags) /\
  (isPolicyMakerUser ac = true <-> js "policymaker" ∈ tags \/ js "administrator" ∈ tags) /\
  (canAccessVhosts m ac = true <-> vhosts m <> []) /\
  (rabbitmqVersions (display_update m ac) = true <->
   exists v w, v ∈ known_versions (nodes m) /\ w ∈ known_versions (nodes m) /\ v <> w).
Proof.
  intros Hne ac.
  assert (Htag : forall t, has_tag t ac = true <-> exists s, s ∈ tags /\ implies s t).
  { intros t. unfold ac, has_tag. cbn [ac_update ac_tags]. by rewrite bool_decide_eq_true, expand_user_tags_in. }
  unfold isAdministratorUser, isMonitoringUser, isPolicyMakerUser. rewrite !Htag. split_and!.
  - split; [intros (s & Hs & ->%implies_administrator); done | intros Hin; eexists; split; [done|constructor]].
  - split.
    + intros (s & Hs & Hi). remember (js "monitoring") as t eqn:Et.
      destruct Hi as [t|t Ht| |]; [by left | by right | done | done].
    + intros [Hin|Hin]; eexists; (split; [done|]); [constructor | apply implies_admin; by_decide].
  - split.
    + intros (s & Hs & Hi). remember (js "policymaker") as t eqn:Et.
      destruct Hi as [t|t Ht| |]; [by left | by right | done | done].
    + intros [Hin|Hin]; eexists; (split; [done|]); [constructor | apply implies_admin; by_decide].
  - unfold canAccessVhosts, ac. cbn [has_model ac_update]. by destruct (vhosts m).
  - cbn [display_update rabbitmqVersions]. revert Hne. generalize (nodes m) as l. clear.
    induction l as [|n l IH]; intros Hne.
    { split; [done | by intros (v & w & ?%elem_of_nil & _)]. }
    unfold known_versions in *. cbn [map foldl] in *. rewrite filter_cons in Hne |- *.
    unfold version_step at 2. set (v1 := fmt_rabbit_version (applications n)) in *.
    destruct (decide (v1 <> js "unknown")) as [Hk|Hk].
    + rewrite decide_False, (decide_False (P := [] <> [] /\ _)) by naive_solver.
      inversion Hne as [|? ? Hv1 Hne']; subst. rewrite version_loop by done. split.
      * intros [[=]|(x & Hx & Hd)]. exists x, v1. split_and!; [by right | by left | done].
      * intros (v & w & Hv & Hw & Hd). right. rewrite elem_of_cons in Hv, Hw.
        destruct Hv as [->|Hv], Hw as [->|Hw]; [done | exists w; naive_solver | exists v; naive_solver |].
        destruct (decide (v = v1)) as [->|]; [exists w | exists v]; split; done || congruence.
    + rewrite decide_True by (destruct (decide (v1 = js "unknown")); [done | by destruct Hk]).
      by apply IH.
Qed.

(** ** Concrete users *)

Definition as_user (tags : list jstr) (vhosts : bool) (highlight : jstr) : nav_state :=
  mk_nav (Some (expand_user_tags tags)) vhosts highlight.

Lemma navigation_authorised_witness :
  let ns := as_user [js "management"] true "#/" in
  exists l1, nav_loop ns 1 NAVIGATION [] None = Some (Ok (l1, None)) /\
    (js "Admin", js "#/policies", false) ∈ l1 /\
    exists val tag needs, (js "Admin", val) ∈ NAVIGATION /\ page_in "#/policies" tag needs val /\
      granted ns tag needs.
Proof.
  destruct (nav_loop (as_user [js "management"] true "#/") 1 NAVIGATION [] None) as [[[l1 [d|]]|e]|] eqn:E;
    [by vm_compute in E | | by vm_compute in E..].
  exists l1. split; [exact E|].
  destruct (navigation_authorised (as_user [js "management"] true "#/") 1 NAVIGATION l1 None E) as [H _].
  assert (Hin : (js "Admin", js "#/policies", false) ∈ l1).
  { assert (Some (Ok (l1, None)) = nav_loop (as_user [js "management"] true "#/") 1 NAVIGATION [] None) as E' by done.
    vm_compute in E'. injection E' as ->. by_decide. }
  split; [exact Hin|]. destruct (H _ _ _ Hin) as (val & tag & needs & H1 & H2 & H3 & _).
  by exists val, tag, needs.
Defined.

Lemma navigation_tabs_witness :
  exists l1 descend,
    nav_loop (as_user [js "management"] true "#/") 1 NAVIGATION [] None = Some (Ok (l1, descend)) /\
    map fst l1 = expected_tabs false true true.
Proof.
  exact (navigation_tabs (as_user [js "management"] true "#/") [js "management"] eq_refl 1
    ltac:(lia)).
Defined.

Definition two_nodes : ui_data :=
  mk_ui_data [js "/"] [mk_node [mk_application "rabbit" "4.0.1"]; mk_node [mk_application "rabbit" "4.1.0"]].

Lemma controls_spec_witness :
  rabbitmqVersions (display_update two_nodes (ac_update [js "administrator"] new_access)) = true.
Proof.
  assert (H : Forall (fun v => v <> []) (known_versions (nodes two_nodes))) by by_decide.
  destruct (controls_spec [js "administrator"] two_nodes new_access H) as (_ & _ & _ & _ & Hv).
  apply Hv. exists (js "4.0.1"), (js "4.1.0"). split_and!; [by_decide | by_decide | by_compute].
Defined.
