(* ===== verification/QueueTypes.v ===== *)
(** Queue types (global.js, main.js): what each type of queue is called, which
    actions it allows and which templates present it. *)
From S2P Require Import Prelude JsString JsNum Uri JsObject JsValue.

Record queue_type := mk_queue_type {
  label : jstr;
  params : obj value;
  policy_apply_to : option jstr;
  action_get_message : bool;
  action_purge : bool;
  tmpl : obj jstr;
}.

Definition default_queue_type : queue_type := mk_queue_type "Default" [] (Some (js "classic_queues")) true true [
  (js "arguments", js "classic-queue-arguments");
  (js "user_policy_arguments", js "classic-queue-user-policy-arguments");
  (js "operator_policy_arguments", js "classic-queue-operator-policy-arguments");
  (js "list", js "classic-queue-list");
  (js "stats", js "classic-queue-stats");
  (js "node_details", js "classic-queue-node-details");
  (js "get_message", js "classic-queue-get-message")].

Definition classic_queue_type : queue_type := mk_queue_type "Classic" [] (Some (js "classic_queues")) true true [
  (js "arguments", js "classic-queue-arguments");
  (js "user_policy_arguments", js "classic-queue-user-policy-arguments");
  (js "operator_policy_arguments", js "classic-queue-operator-policy-arguments");
  (js "list", js "classic-queue-list");
  (js "stats", js "classic-queue-stats");
  (js "node_details", js "classic-queue-node-details");
  (js "get_message", js "classic-queue-get-message")].

Definition quorum_queue_type : queue_type :=
  mk_queue_type "Quorum" [(js "durable", VBool true); (js "auto_delete", VBool false)]
    (Some (js "quorum_queues")) true true [
  (js "arguments", js "quorum-queue-arguments");
  (js "user_policy_arguments", js "quorum-queue-user-policy-arguments");
  (js "operator_policy_arguments", js "quorum-queue-operator-policy-arguments");
  (js "list", js "quorum-queue-list");
  (js "stats", js "quorum-queue-stats");
  (js "node_details", js "quorum-queue-node-details");
  (js "get_message", js "classic-queue-get-message")].

Definition stream_queue_type : queue_type :=
  mk_queue_type "Stream" [(js "durable", VBool true); (js "auto_delete", VBool false)]
    (Some (js "streams")) false false [
  (js "arguments", js "stream-queue-arguments");
  (js "user_policy_arguments", js "stream-queue-user-policy-arguments");
  (js "operator_policy_arguments", js "stream-queue-operator-policy-arguments");
  (js "list", js "stream-queue-list");
  (js "stats", js "stream-queue-stats");
  (js "node_details", js "stream-queue-node-details")].

Definition mqtt_qos0_queue_type : queue_type := mk_queue_type "MQTT QoS0" [] None false false [
  (js "list", js "classic-queue-list");
  (js "stats", js "classic-queue-stats");
  (js "node_details", js "classic-queue-node-details")].

(** The properties of the function QUEUE_TYPE. *)
Definition QUEUE_TYPES : obj queue_type := [
  (js "default", default_queue_type);
  (js "classic", classic_queue_type);
  (js "quorum", quorum_queue_type);
  (js "stream", stream_queue_type);
  (js "rabbit_mqtt_qos0_queue", mqtt_qos0_queue_type)].

(** get_queue_type, on [queue.type]. *)
Definition get_queue_type (type : value) : jstr :=
  match type with
  | VStr s => if decide (s ∈ [js "classic"; js "quorum"; js "stream"]) then s else "default"
  | _ => "default"
  end.

(** QUEUE_TYPE(queue) *)
Definition QUEUE_TYPE (type : value) : option queue_type := get QUEUE_TYPES (get_queue_type type).

Definition is_quorum (type : value) : bool := bool_decide (get_queue_type type = "quorum").
Definition is_stream (type : value) : bool := bool_decide (get_queue_type type = "stream").
Definition is_classic (type : value) : bool := bool_decide (get_queue_type type = "classic").
Definition is_internal (queue : obj value) : value := prop queue "internal".

(** A type offers every view of a queue, and a template for reading messages
    exactly when reading is allowed. *)
Definition complete (qt : queue_type) : Prop :=
  is_Some (get (tmpl qt) "list") /\ is_Some (get (tmpl qt) "stats") /\
  is_Some (get (tmpl qt) "node_details") /\
  action_get_message qt = bool_decide (is_Some (get (tmpl qt) "get_message")).

#[global] Instance complete_dec qt : Decision (complete qt).
Proof. unfold complete. apply _. Defined.

Lemma get_queue_type_cases type :
  get_queue_type type ∈ [js "default"; js "classic"; js "quorum"; js "stream"].
Proof.
  unfold get_queue_type. destruct type; try by_decide.
  destruct (decide (s ∈ [js "classic"; js "quorum"; js "stream"])); [by right | by left].
Qed.

(** Every queue of the broker, whatever its type, is presented by a complete
    type. *)
Lemma queue_type_total type : exists qt, QUEUE_TYPE type = Some qt /\ complete qt.
Proof.
  unfold QUEUE_TYPE. pose proof (get_queue_type_cases type) as Hk.
  revert Hk. generalize (get_queue_type type) as k. intros k.
  rewrite !elem_of_cons, elem_of_nil.
  intros [->|[->|[->|[->|[]]]]]; (eexists; split; [by vm_compute | by_decide]).
Qed.

(** QUEUE_TYPE never presents a queue as an MQTT QoS 0 queue: get_queue_type
    maps its type to the default one, so its entry is not used. *)
Lemma mqtt_entry_unused type : QUEUE_TYPE type <> Some mqtt_qos0_queue_type.
Proof.
  unfold QUEUE_TYPE. pose proof (get_queue_type_cases type) as Hk.
  revert Hk. generalize (get_queue_type type) as k. intros k.
  rewrite !elem_of_cons, elem_of_nil. intros [->|[->|[->|[->|[]]]]]; by vm_compute.
Qed.
