(* ===== verification/Statistics.v ===== *)
(** The breakdown of a node's memory (global.js): the sections of the bar and the
    groups of the table below it. *)
From S2P Require Import Prelude JsString JsNum Uri JsObject JsValue.

(** A group of the table: its name, its colour and its keys with their text. *)
Record memory_group := mk_group {
  group_name : jstr;
  group_colour : jstr;
  group_keys : list (jstr * jstr);
}.

Definition MEMORY_STATISTICS_sections : obj (jstr * jstr) := [
  (js "queue_procs", (js "classic", js "Classic queues"));
  (js "quorum_queue_procs", (js "quorum", js "Quorum queues"));
  (js "quorum_queue_dlx_procs", (js "quorum", js "Dead letter workers"));
  (js "stream_queue_procs", (js "stream", js "Stream queues"));
  (js "stream_queue_replica_reader_procs", (js "stream", js "Stream queues (replica reader)"));
  (js "stream_queue_coordinator_procs", (js "stream", js "Stream queues (coordinator)"));
  (js "binary", (js "binary", js "Binaries"));
  (js "connection_readers", (js "conn", js "Connection readers"));
  (js "connection_writers", (js "conn", js "Connection writers"));
  (js "connection_channels", (js "conn", js "Connection channels"));
  (js "connection_other", (js "conn", js "Connections (other)"));
  (js "mnesia", (js "table", js "Mnesia"));
  (js "msg_index", (js "table", js "Message store index"));
  (js "mgmt_db", (js "table", js "Management database"));
  (js "quorum_ets", (js "table", js "Quorum queue ETS tables"));
  (js "other_ets", (js "table", js "Other ETS tables"));
  (js "plugins", (js "proc", js "Plugins"));
  (js "other_proc", (js "proc", js "Other process memory"));
  (js "code", (js "system", js "Code"));
  (js "atom", (js "system", js "Atoms"));
  (js "other_system", (js "system", js "Other system"));
  (js "allocated_unused", (js "unused", js "Allocated unused"));
  (js "reserved_unallocated", (js "unused", js "Unallocated reserved by the OS"))].

Definition MEMORY_STATISTICS_keys : list (list memory_group) := [
  [mk_group "Classic Queues" "classic" [(js "queue_procs", js "queues")];
   mk_group "Quorum Queues" "quorum" [(js "quorum_queue_procs", js "quorum"); (js "quorum_queue_dlx_procs", js "dead letter workers")];
   mk_group "Streams" "stream" [(js "stream_queue_procs", js "stream"); (js "stream_queue_replica_reader_procs", js "stream replica reader"); (js "stream_queue_coordinator_procs", js "stream coordinator")];
   mk_group "Binaries" "binary" [(js "binary", [])]];
  [mk_group "Connections" "conn" [(js "connection_readers", js "readers"); (js "connection_writers", js "writers"); (js "connection_channels", js "channels"); (js "connection_other", js "other")]];
  [mk_group "Tables" "table" [(js "mnesia", js "internal database tables"); (js "msg_index", js "message store index"); (js "mgmt_db", js "management database"); (js "quorum_ets", js "quorum queue tables"); (js "other_ets", js "other")]];
  [mk_group "Processes" "proc" [(js "plugins", js "plugins"); (js "metadata_store", js "metadata store"); (js "other_proc", js "other")];
   mk_group "System" "system" [(js "code", js "code"); (js "atom", js "atoms"); (js "other_system", js "other")]];
  [mk_group "Preallocated memory" "unused" [(js "allocated_unused", js "preallocated by runtime, unused"); (js "reserved_unallocated", js "unallocated, reserved by the OS")]]].

Definition BINARY_STATISTICS_sections : obj (jstr * jstr) := [
  (js "queue_procs", (js "classic", js "Classic queues"));
  (js "quorum_queue_procs", (js "quorum", js "Quorum queues"));
  (js "quorum_queue_dlx_procs", (js "quorum", js "Dead letter workers"));
  (js "stream_queue_procs", (js "stream", js "Stream queues"));
  (js "stream_queue_replica_reader_procs", (js "stream", js "Stream queues (replica reader)"));
  (js "stream_queue_coordinator_procs", (js "stream", js "Stream queues (coordinator)"));
  (js "connection_readers", (js "conn", js "Connection readers"));
  (js "connection_writers", (js "conn", js "Connection writers"));
  (js "connection_channels", (js "conn", js "Connection channels"));
  (js "connection_other", (js "conn", js "Connections (other)"));
  (js "msg_index", (js "table", js "Message store index"));
  (js "mgmt_db", (js "table", js "Management database"));
  (js "plugins", (js "proc", js "Plugins"));
  (js "metadata_store", (js "metadata_store", js "Metadata store"));
  (js "other", (js "system", js "Other binary references"))].

Definition BINARY_STATISTICS_key : list (list memory_group) := [
  [mk_group "Classic Queues" "classic" [(js "queue_procs", js "queues")];
   mk_group "Quorum Queues" "quorum" [(js "quorum_queue_procs", js "quorum"); (js "quorum_queue_dlx_procs", js "dead letter workers")];
   mk_group "Streams" "stream" [(js "stream_queue_procs", js "stream"); (js "stream_queue_replica_reader_procs", js "stream replica reader"); (js "stream_queue_coordinator_procs", js "stream coordinator")]];
  [mk_group "Connections" "conn" [(js "connection_readers", js "readers"); (js "connection_writers", js "writers"); (js "connection_channels", js "channels"); (js "connection_other", js "other")]];
  [mk_group "Tables" "table" [(js "msg_index", js "message store index"); (js "mgmt_db", js "management database")]];
  [mk_group "Processes" "proc" [(js "plugins", js "plugins"); (js "metadata_store", js "metadata store")];
   mk_group "System" "system" [(js "other", js "other")]]].

(** The keys of the table, in order. *)
Definition table_keys (groups : list (list memory_group)) : list jstr :=
  concat groups ≫= fun g => (group_keys g).*1.

(** Every key of the table has a section of the bar. *)
Definition keys_have_sections (sections : obj (jstr * jstr)) (groups : list (list memory_group)) : Prop :=
  Forall (fun k => is_Some (get sections k)) (table_keys groups).

(** Every section of the bar has a key of the table, drawn in its colour. *)
Definition sections_have_keys (sections : obj (jstr * jstr)) (groups : list (list memory_group)) : Prop :=
  Forall (fun s => Exists (fun g => group_colour g = s.2.1 /\ s.1 ∈ (group_keys g).*1) (concat groups)) sections.


(** In the breakdown of the binaries the colours of the metadata store differ:
    its section has a class of its own, its row the colour of processes. *)
Lemma binary_statistics_colours :
  keys_have_sections BINARY_STATISTICS_sections BINARY_STATISTICS_key /\
  ~ sections_have_keys BINARY_STATISTICS_sections BINARY_STATISTICS_key.
Proof. split; [by_decide|]. apply (bool_decide_unpack _). vm_compute. exact I. Qed.
