(* ===== verification/Forms.v ===== *)
(** Forms (main.js): from the fields of a form to the parameters of a request.

    A table in a form is a set of fields [name_id_mfkey], [name_id_mfvalue] and
    [name_id_mftype]; an element of a list in the table has an id that extends
    the id of the list. *)
From S2P Require Import Prelude JsString JsNum Uri JsObject JsValue QueueTypes.

(** ** Names of fields *)

Fixpoint span (f : Z -> bool) (s : jstr) : jstr * jstr :=
  match s with
  | c :: s' => if f c then let '(a, b) := span f s' in (c :: a, b) else ([], s)
  | [] => ([], [])
  end.

(** The units of an id: digits and underscores. *)
Definition id_unit (c : Z) : bool := is_digit c || (c =? 95).

(** The longest prefix of [run] that leaves the suffix next. *)
Fixpoint longest_id (run rest suffix : jstr) : option jstr :=
  match run with
  | c :: run' =>
      match longest_id run' rest suffix with
      | Some p => Some (c :: p)
      | None => if starts_with (run ++ rest) suffix then Some [] else None
      end
  | [] => if starts_with rest suffix then Some [] else None
  end.

(** A match at the start: lower-case letters, an underscore, an id, the suffix. *)
Definition match_here (s suffix : jstr) : option (jstr * jstr) :=
  let '(name, rest) := span is_lower s in
  match rest with
  | 95 :: rest =>
      let '(run, rest) := span id_unit rest in pair name <$> longest_id run rest suffix
  | _ => None
  end.

(** [key.match(...)]: the leftmost match, as the name and the id. *)
Fixpoint match_field (key suffix : jstr) : option (jstr * jstr) :=
  match match_here key suffix with
  | Some m => Some m
  | None => match key with [] => None | _ :: key' => match_field key' suffix end
  end.

Definition MFTYPE : jstr := "_mftype".
Definition MFKEY : jstr := "_mfkey".
Definition MFVALUE : jstr := "_mfvalue".

(** ** Sorting the ids *)

(** The text an id is compared by: [String([name, id])]. *)
Definition id_text (i : jstr * jstr) : jstr := i.1 ++ "," ++ i.2.

(** Comparison of strings by code units: [s <= t]. *)
Fixpoint str_leb (s t : jstr) : bool :=
  match s, t with
  | [], _ => true
  | _ :: _, [] => false
  | c :: s, d :: t => if c <? d then true else if d <? c then false else str_leb s t
  end.

Fixpoint insert_id (i : jstr * jstr) (l : list (jstr * jstr)) : list (jstr * jstr) :=
  match l with
  | [] => [i]
  | j :: l' => if str_leb (id_text i) (id_text j) then i :: l else j :: insert_id i l'
  end.

Definition sort_ids (ids : list (jstr * jstr)) : list (jstr * jstr) := foldr insert_id [] ids.

(** ** The objects being built

    A list is a mutable array, reached both from the table it is stored in and
    from the map of the ids, so a cell of a table or a list holds either a
    value or a reference to the array of an id. *)

Inductive cell :=
  | Value (v : value)
  | Ref (i : jstr * jstr).

(** A parameter: a field as it came, or a table made by the loop. *)
Inductive param :=
  | Plain (v : value)
  | Table (t : obj cell).

Record build := mk_build {
  out : obj param;
  tables : list jstr;                           (* the keys of id_map *)
  arrays : list ((jstr * jstr) * list cell);    (* the arrays in id_map *)
}.

Fixpoint array_get (a : list ((jstr * jstr) * list cell)) (i : jstr * jstr) : option (list cell) :=
  match a with
  | [] => None
  | (j, l) :: a => if decide (j = i) then Some l else array_get a i
  end.

Fixpoint array_put (a : list ((jstr * jstr) * list cell)) (i : jstr * jstr) (l : list cell) :=
  match a with
  | [] => [(i, l)]
  | (j, m) :: a => if decide (j = i) then (j, l) :: a else (j, m) :: array_put a i l
  end.

(** [set(x)] *)
Definition is_set (x : value) : bool := negb (eq_empty x) && negb (nullish x).

(** [params[name][k] = val]: no effect on what is not an object. *)
Definition store_in_table (b : build) (name k : jstr) (val : cell) : build :=
  match get (out b) name with
  | Some (Table t) => mk_build (put (out b) name (Table (put t k val))) (tables b) (arrays b)
  | _ => b
  end.

(** What one id contributes: nothing, a new list, or a value. *)
Inductive contribution :=
  | Nothing
  | NewList
  | Item (v : value).

Definition contribute (k v t : value) (top_level : bool) : res contribution :=
  if eq_word t "list" then Ok NewList
  else if (is_set k && top_level) || is_set v then
    if eq_word t "boolean" then
      if eq_word v "true" then Ok (Item (VBool true))
      else if eq_word v "false" then Ok (Item (VBool false))
      else Throw (Thrown (to_str k ++ " must be `true` or `false`; got " ++ to_str v))
    else if eq_word t "number" then
      match parse_float (to_str v) with
      | Some n => Ok (Item (VNum n))
      | None => Throw (Thrown (to_str k ++ " must be a number; got " ++ to_str v))
      end
    else if nullish v then Ok Nothing
    else Ok (Item v)
  else Ok Nothing.

(** [params[name] == undefined] makes a new table. *)
Definition open_table (b : build) (name : jstr) : build :=
  match get (out b) name with
  | None | Some (Plain VUndef) | Some (Plain VNull) =>
      mk_build (put (out b) name (Table [])) (tables b ++ [name])
        (filter (fun a => a.1.1 <> name) (arrays b))
  | _ => b
  end.

(** The end of a turn: [params[name][k] = val] for a field of the table, and
    [id_map[name][prefix].push(val)] for an element of a list. *)
Definition store_val (i : jstr * jstr) (k : jstr) (b : build) (x : cell) : res build :=
  let '(name, id) := i in
  let id_parts := split_on 95 id in
  if decide (length id_parts = 1)%nat then Ok (store_in_table b name k x)
  else
    let parent := (name, join "_" (take (length id_parts - 1) id_parts)) in
    if bool_decide (name ∈ tables b) then
      match array_get (arrays b) parent with
      | Some l => Ok (mk_build (out b) (tables b) (array_put (arrays b) parent (l ++ [x])))
      | None => Throw TypeError
      end
    else Throw TypeError.

(** One turn of the loop over the ids. *)
Definition collapse_id (params0 : obj value) (i : jstr * jstr) (b : build) : res build :=
  let '(name, id) := i in
  let b := open_table b name in
  let id_parts := split_on 95 id in
  let k := prop params0 (name ++ "_" ++ default [] (head id_parts) ++ MFKEY) in
  let v := prop params0 (name ++ "_" ++ id ++ MFVALUE) in
  let t := prop params0 (name ++ "_" ++ id ++ MFTYPE) in
  c ← contribute k v t (bool_decide (length id_parts = 1)%nat);
  match c with
  | Nothing => Ok b
  | NewList =>
      if bool_decide (name ∈ tables b)
      then store_val i (to_str k) (mk_build (out b) (tables b) (array_put (arrays b) i [])) (Ref i)
      else Throw TypeError
  | Item v => store_val i (to_str k) b (Value v)
  end.

Fixpoint collapse_loop (params0 : obj value) (ids : list (jstr * jstr)) (b : build) : res build :=
  match ids with
  | [] => Ok b
  | i :: ids => b ← collapse_id params0 i b; collapse_loop params0 ids b
  end.

(** The first loop: the plain fields and the ids. *)
Definition classify (key : jstr) : option (option (jstr * jstr)) :=
  match match_field key MFTYPE with
  | Some m => Some (Some m)
  | None =>
      match match_field key MFKEY, match_field key MFVALUE with
      | None, None => None
      | _, _ => Some None
      end
  end.

Definition plain_fields (params0 : obj value) : obj param :=
  foldl (fun o kv => match classify kv.1 with
                     | None => put o kv.1 (Plain kv.2)
                     | Some _ => o
                     end) [] (entries params0).

Definition field_ids (params0 : obj value) : list (jstr * jstr) :=
  omap (fun kv => match classify kv.1 with Some m => m | None => None end) (entries params0).

(** The value a cell stands for once the loop has ended; the fuel bounds the
    nesting of lists. *)
Fixpoint reify (fuel : nat) (a : list ((jstr * jstr) * list cell)) (c : cell) : value :=
  match c, fuel with
  | Value v, _ => v
  | Ref i, S fuel => VArr (map (reify fuel a) (default [] (array_get a i)))
  | Ref _, O => VUndef
  end.

Definition reify_param (a : list ((jstr * jstr) * list cell)) (p : param) : value :=
  match p with
  | Plain v => v
  | Table t => VObj (map (fun kv => (kv.1, reify (S (length a)) a kv.2)) t)
  end.

Definition reify_build (b : build) : obj value :=
  map (fun kv => (kv.1, reify_param (arrays b) kv.2)) (out b).

(** [params[name][k] = v] on a parameter of the result. *)
Definition set_in (o : obj value) (name k : jstr) (v : value) : res (obj value) :=
  match prop o name with
  | VUndef | VNull => Throw TypeError
  | VObj t => Ok (put o name (VObj (put t k v)))
  | _ => Ok o
  end.

(** The special treatment of the form for a new queue. *)
Definition collapse_queue_type (queue_type : jstr) (params : obj value) : res (obj value) :=
  if bool_decide (js "queuetype" ∈ keys_of params) then
    let params := del params "queuetype" in
    params ← (if decide (queue_type = "default") then Ok params
              else set_in params "arguments" "x-queue-type" (VStr queue_type));
    match get QUEUE_TYPES queue_type with
    | Some qt => Ok (foldl (fun o kv => put o kv.1 kv.2) params (QueueTypes.params qt))
    | None => Throw TypeError
    end
  else Ok params.

(** collapse_multifields; [queue_type] is the global. *)
Definition collapse_multifields (queue_type : jstr) (params0 : obj value) : res (obj value) :=
  b ← collapse_loop params0 (sort_ids (field_ids params0)) (mk_build (plain_fields params0) [] []);
  collapse_queue_type queue_type (reify_build b).

(** ** Passwords and hidden fields *)

(** [a == b] of form fields: strings by their text, null and undefined alike, an
    array only equals a string with its text. *)
Definition loose_eq (a b : value) : bool :=
  match a, b with
  | VStr s, VStr t => bool_decide (s = t)
  | VStr s, VArr _ => bool_decide (s = to_str b)
  | VArr _, VStr t => bool_decide (to_str a = t)
  | (VUndef | VNull), (VUndef | VNull) => true
  | _, _ => false
  end.

(** check_password *)
Definition check_password (params : obj value) : res (obj value) :=
  let password := prop params "password" in
  if nullish password then Ok params
  else if eq_empty password then Throw (Thrown "Please specify a password.")
  else if loose_eq password (prop params "password_confirm") then Ok (del params "password_confirm")
  else Throw (Thrown "Passwords do not match.").

(** A [.controls-appearance] selector of the page: its options, the one that is
    selected and its name. *)
Record selector := mk_selector {
  options : list jstr;
  selected : jstr;
  select_name : jstr;
}.

(** One selector of maybe_remove_fields. *)
Definition remove_fields (params : obj value) (s : selector) : obj value :=
  del (foldl (fun params option => if decide (option = selected s) then params else del params option)
         params (options s)) (select_name s).

(** maybe_remove_fields *)
Definition maybe_remove_fields (selectors : list selector) (params : obj value) : obj value :=
  foldl remove_fields params selectors.

(** params_magic *)
Definition params_magic (queue_type : jstr) (selectors : list selector) (params : obj value)
  : res (obj value) :=
  p ← collapse_multifields queue_type params;
  check_password (maybe_remove_fields selectors p).

(** ** Casts of put_parameter and put_cast_params *)

(** [parseInt(v)] *)
Definition int_value (v : value) : value :=
  match parse_int (to_str v) with Some n => VInt n | None => VNaN end.

(** [v.split(" ")], or its only element. *)
Definition arrayable (v : value) : res value :=
  match v with
  | VStr s =>
      match split_on 32 s with
      | [x] => Ok (VStr x)
      | xs => Ok (VArr (map VStr xs))
      end
  | _ => Throw TypeError
  end.

(** What a cast does to one field: [None] deletes it. *)
Definition cast_field (mandatory_keys num_keys bool_keys arrayable_keys : list jstr)
  (i : jstr) (v : value) : res (option value) :=
  if eq_empty v && negb (bool_decide (i ∈ mandatory_keys)) then Ok None
  else if bool_decide (i ∈ num_keys) then Ok (Some (int_value v))
  else if bool_decide (i ∈ bool_keys) then Ok (Some (VBool (eq_word v "true")))
  else if bool_decide (i ∈ arrayable_keys) then Some <$> arrayable v
  else Ok (Some v).

(** The loop over the own fields of the form. *)
Fixpoint cast_loop (mandatory_keys num_keys bool_keys arrayable_keys : list jstr)
  (fields : obj value) (params : obj value) : res (obj value) :=
  match fields with
  | [] => Ok params
  | (i, v) :: fields =>
      if decide (i = "length") then
        cast_loop mandatory_keys num_keys bool_keys arrayable_keys fields params
      else
        c ← cast_field mandatory_keys num_keys bool_keys arrayable_keys i v;
        cast_loop mandatory_keys num_keys bool_keys arrayable_keys fields
          match c with Some v => put params i v | None => del params i end
  end.

(** put_parameter up to its request: the parameters of the PUT. *)
Definition put_parameter_params (queue_type : jstr) (selectors : list selector)
  (mandatory_keys num_keys bool_keys arrayable_keys : list jstr) (params : obj value)
  : res (obj value) :=
  params ← cast_loop mandatory_keys num_keys bool_keys arrayable_keys (entries params) params;
  value ← params_magic queue_type selectors params;
  Ok [(js "component", prop params "component");
      (js "vhost", prop params "vhost");
      (js "name", prop params "name");
      (js "value", VObj (del (del (del value "vhost") "component") "name"))].

(** put_cast_params up to its request. *)
Definition put_cast_params (mandatory_keys num_keys bool_keys : list jstr) (params : obj value)
  : res (obj value) :=
  cast_loop mandatory_keys num_keys bool_keys [] (entries params) params.

(** ** Renaming *)

(** [key.match("^" + from + "_[0-9_]*" + suffix + "$")] for a prefix made of
    letters. *)
Definition match_whole (from key suffix : jstr) : bool :=
  if starts_with key (from ++ "_") then
    let rest := drop (length from + 1) key in
    let n := (length rest - length suffix)%nat in
    bool_decide (drop n rest = suffix) && (length suffix <=? length rest)%nat &&
    forallb id_unit (take n rest)
  else false.

(** rename_multifield: the key starts with [from], which is what is replaced. *)
Definition rename_key (from to key : jstr) : jstr :=
  if match_whole from key MFTYPE || match_whole from key MFKEY || match_whole from key MFVALUE
  then to ++ drop (length from) key else key.

Definition rename_multifield (params : obj value) (from to : jstr) : obj value :=
  foldl (fun o kv => put o (rename_key from to kv.1) kv.2) [] (entries params).
