(* ===== verification/FormsFacts.v ===== *)
(** Properties of the forms: the order in which the fields of a table are taken
    makes every list exist before its elements, and plain fields pass through. *)
From Stdlib Require Import Sorting.Sorted.
From S2P Require Import Prelude JsString JsNum Uri JsObject JsValue QueueTypes Forms.

(** ** The order of strings *)

Lemma str_leb_total s t : str_leb s t = true \/ str_leb t s = true.
Proof.
  revert t. induction s as [|c s IH]; intros [|d t]; cbn; [by left..|by right|].
  destruct (Z.ltb_spec c d), (Z.ltb_spec d c); try lia; auto.
Qed.

Lemma str_leb_trans s t u : str_leb s t = true -> str_leb t u = true -> str_leb s u = true.
Proof.
  revert t u. induction s as [|c s IH]; intros [|d t] [|e u]; cbn; try done.
  destruct (Z.ltb_spec c d), (Z.ltb_spec d c), (Z.ltb_spec d e), (Z.ltb_spec e d),
    (Z.ltb_spec c e), (Z.ltb_spec e c); try lia; try done. apply IH.
Qed.

Lemma str_leb_extension s c t : str_leb (s ++ c :: t) s = false.
Proof. induction s as [|d s IH]; [done|]. cbn. by rewrite Z.ltb_irrefl. Qed.

Definition id_le (i j : jstr * jstr) : Prop := str_leb (id_text i) (id_text j) = true.

Lemma insert_id_perm i l : insert_id i l ≡ₚ i :: l.
Proof. induction l as [|j l IH]; [done|]. cbn. case_match; [done|]. rewrite IH. apply Permutation_swap. Qed.

Lemma sort_ids_perm l : sort_ids l ≡ₚ l.
Proof. induction l as [|i l IH]; [done|]. cbn. by rewrite insert_id_perm, IH. Qed.

Lemma insert_id_sorted i l : StronglySorted id_le l -> StronglySorted id_le (insert_id i l).
Proof.
  induction 1 as [|j l Hs IH Hall]; [by repeat constructor|]. cbn.
  destruct (str_leb (id_text i) (id_text j)) eqn:E.
  - constructor; [by constructor|]. constructor; [done|]. eapply Forall_impl; [exact Hall|].
    intros k Hk. by eapply str_leb_trans.
  - constructor; [done|]. rewrite insert_id_perm. constructor; [|done].
    destruct (str_leb_total (id_text i) (id_text j)); [congruence | done].
Qed.

Lemma sort_ids_sorted l : StronglySorted id_le (sort_ids l).
Proof. induction l as [|i l IH]; [constructor|]. by apply insert_id_sorted. Qed.

(** The id of the list an element belongs to. *)
Definition parent_id (i : jstr * jstr) : jstr * jstr :=
  let parts := split_on 95 i.2 in (i.1, join "_" (take (length parts - 1) parts)).

Definition nested (i : jstr * jstr) : Prop := (1 < length (split_on 95 i.2))%nat.

Lemma parent_text i : nested i -> exists t, id_text i = id_text (parent_id i) ++ 95 :: t.
Proof.
  destruct i as [name id]. unfold nested, id_text, parent_id. cbn [fst snd]. intros Hn.
  pose proof (join_split 95 id) as Hj.
  destruct (split_on 95 id) as [|x xs _] using rev_ind; [cbn in Hn; lia|].
  rewrite length_app in Hn |- *. cbn [length] in Hn |- *. exists x.
  replace (length xs + 1 - 1)%nat with (length xs) by lia. rewrite take_app_length.
  change (js "_") with [95]. rewrite <- Hj at 1. rewrite join_snoc by (destruct xs; [cbn in Hn; lia | done]).
  by rewrite <- !app_assoc.
Qed.

(** In the sorted order a list comes before its elements. *)
Lemma parent_first pre i post ids :
  sort_ids ids = pre ++ i :: post -> nested i -> parent_id i ∈ ids -> parent_id i ∈ pre.
Proof.
  intros Hl Hn Hin. rewrite <- sort_ids_perm, Hl, elem_of_app in Hin.
  destruct Hin as [Hin|Hin]; [done|]. exfalso. destruct (parent_text i Hn) as [t Ht].
  assert (Hle : id_le i (parent_id i)).
  { apply elem_of_cons in Hin as [Heq|Hin].
    - unfold id_le. rewrite Heq. by destruct (str_leb_total (id_text i) (id_text i)).
    - pose proof (sort_ids_sorted ids) as Hs. rewrite Hl in Hs. clear -Hs Hin.
      induction pre as [|j pre IH]; cbn in Hs; inversion Hs as [|? ? Hs' Hall]; subst; [|auto].
      rewrite Forall_forall in Hall. by apply Hall. }
  unfold id_le in Hle. by rewrite Ht, str_leb_extension in Hle.
Qed.

(** ** The loop *)

(** A form the page can produce: no plain field has the name of a table, and an
    element with an extended id belongs to a list. *)
Definition form_ok (params0 : obj value) : Prop :=
  forall i, i ∈ field_ids params0 ->
    get (plain_fields params0) i.1 = None /\
    (nested i -> parent_id i ∈ field_ids params0 /\
       eq_word (prop params0 ((parent_id i).1 ++ "_" ++ (parent_id i).2 ++ MFTYPE)) "list" = true).

Definition is_list (params0 : obj value) (i : jstr * jstr) : bool :=
  eq_word (prop params0 (i.1 ++ "_" ++ i.2 ++ MFTYPE)) "list".

(** What holds when the ids of [done] have been taken. *)
Record loop_inv (params0 : obj value) (done : list (jstr * jstr)) (b : build) : Prop := {
  inv_tables : forall name, name ∈ tables b -> exists t, get (out b) name = Some (Table t);
  inv_done : forall i, i ∈ done -> i.1 ∈ tables b;
  inv_arrays : forall i, i ∈ done -> is_list params0 i = true -> is_Some (array_get (arrays b) i);
  inv_plain : forall k v, get (plain_fields params0) k = Some (Plain v) -> nullish v = false ->
    get (out b) k = Some (Plain v);
  inv_none : forall name, get (plain_fields params0) name = None -> name ∉ tables b ->
    get (out b) name = None;
  inv_names : forall name, name ∈ tables b -> exists i, i ∈ field_ids params0 /\ i.1 = name;
}.

Lemma array_get_put a i l j :
  array_get (array_put a i l) j = if decide (i = j) then Some l else array_get a j.
Proof.
  induction a as [|[k m] a IH]; cbn; [by case_decide|].
  destruct (decide (k = i)) as [->|]; cbn; repeat case_decide; congruence.
Qed.

Lemma array_get_filter a name j :
  j.1 <> name -> array_get (filter (fun a => a.1.1 <> name) a) j = array_get a j.
Proof.
  intros Hj. induction a as [|[k m] a IH]; [done|]. rewrite filter_cons. cbn.
  case_decide as Hk; cbn; [by rewrite IH|]. rewrite IH. case_decide; [|done]. by subst.
Qed.

Lemma open_table_inv params0 done b name :
  loop_inv params0 done b -> get (plain_fields params0) name = None ->
  (exists i, i ∈ field_ids params0 /\ i.1 = name) ->
  let b' := open_table b name in
  loop_inv params0 done b' /\ name ∈ tables b'.
Proof.
  intros [H1 H2 H3 H4 H5 H6] Hp Hex b'. unfold b', open_table.
  destruct (decide (name ∈ tables b)) as [Hin|Hin].
  - destruct (H1 name Hin) as [t Ht]. rewrite Ht. done.
  - rewrite (H5 name) by done. split; [|cbn; apply elem_of_app; right; by apply list_elem_of_singleton].
    split; cbn [out tables arrays].
    + intros n [Hn|Hn%list_elem_of_singleton]%elem_of_app; [|subst; rewrite get_put; eauto].
      rewrite get_put_ne; [auto | congruence].
    + intros i Hi. apply elem_of_app. left. auto.
    + intros i Hi Hl. rewrite array_get_filter; [auto|]. intros <-. by apply Hin, H2.
    + intros k v Hk Hv. rewrite get_put_ne; [auto|]. intros ->. congruence.
    + intros n Hn Hnt. apply not_elem_of_app in Hnt as [Hnt Hne].
      rewrite get_put_ne; [auto|]. intros ->. by apply Hne, list_elem_of_singleton.
    + intros n [Hn|Hn%list_elem_of_singleton]%elem_of_app; [auto | by subst].
Qed.

Lemma store_in_table_inv params0 done b name k x :
  loop_inv params0 done b -> name ∈ tables b -> loop_inv params0 done (store_in_table b name k x).
Proof.
  intros [H1 H2 H3 H4 H5 H6] Hin. unfold store_in_table. destruct (H1 name Hin) as [t Ht]. rewrite Ht.
  split; cbn [out tables arrays]; try done.
  - intros n Hn. destruct (decide (name = n)) as [<-|Hne]; [rewrite get_put; eauto|].
    rewrite get_put_ne by done. auto.
  - intros k' v Hk Hv. rewrite get_put_ne; [auto|]. intros <-. specialize (H4 _ _ Hk Hv). congruence.
  - intros n Hn Hnt. rewrite get_put_ne; [auto|]. by intros <-.
Qed.

Lemma array_put_inv params0 done b i l :
  loop_inv params0 done b -> loop_inv params0 done (mk_build (out b) (tables b) (array_put (arrays b) i l)).
Proof.
  intros [H1 H2 H3 H4 H5 H6]. split; cbn [out tables arrays]; try done.
  intros j Hj Hl. rewrite array_get_put. case_decide; [eauto | auto].
Qed.

(** The parent of an id has been taken before it. *)
Definition ready (params0 : obj value) (done : list (jstr * jstr)) (i : jstr * jstr) : Prop :=
  nested i -> parent_id i ∈ done /\ is_list params0 (parent_id i) = true.

Lemma take_id params0 taken b i :
  loop_inv params0 taken b -> i.1 ∈ tables b ->
  (is_list params0 i = true -> is_Some (array_get (arrays b) i)) ->
  loop_inv params0 (i :: taken) b.
Proof.
  intros [H1 H2 H3 H4 H5 H6] Hn Ha. split; try done.
  - intros j [->|Hj]%elem_of_cons; auto.
  - intros j [->|Hj]%elem_of_cons; auto.
Qed.

Lemma store_in_table_same b name k x :
  tables (store_in_table b name k x) = tables b /\ arrays (store_in_table b name k x) = arrays b.
Proof. unfold store_in_table. by destruct (get (out b) name) as [[]|]. Qed.

Lemma store_val_inv params0 taken b i k x :
  loop_inv params0 taken b -> i.1 ∈ tables b -> ready params0 taken i ->
  (is_list params0 i = true -> is_Some (array_get (arrays b) i)) ->
  exists b', store_val i k b x = Ok b' /\ loop_inv params0 (i :: taken) b'.
Proof.
  destruct i as [name id]. cbn [fst]. intros Hi Hn Hr Ha. unfold store_val.
  destruct (decide (length (split_on 95 id) = 1)%nat) as [Htop|Htop].
  - eexists. split; [done|]. destruct (store_in_table_same b name k x) as [Et Ea].
    apply take_id; [by apply store_in_table_inv | by rewrite Et | by rewrite Ea].
  - rewrite bool_decide_eq_true_2 by done.
    assert (Hnest : nested (name, id)).
    { unfold nested. cbn [snd]. pose proof (split_on_nonempty 95 id) as Hne.
      destruct (split_on 95 id) as [|? []]; [done | done | cbn; lia]. }
    destruct (Hr Hnest) as [Hd Hl].
    destruct (inv_arrays _ _ _ Hi _ Hd Hl) as [l Harr].
    change (parent_id (name, id)) with
      (name, join "_" (take (length (split_on 95 id) - 1) (split_on 95 id))) in Harr.
    rewrite Harr. eexists. split; [done|]. apply take_id; [by apply array_put_inv | done |].
    intros Hl'. cbn [arrays]. rewrite array_get_put. case_decide; [eauto | auto].
Qed.

Lemma contribute_error k v t top e : contribute k v t top = Throw e -> exists m, e = Thrown m.
Proof. unfold contribute. repeat case_match; intros [= <-]; eauto. Qed.

Lemma collapse_id_inv params0 taken b i :
  loop_inv params0 taken b -> get (plain_fields params0) i.1 = None -> i ∈ field_ids params0 ->
  ready params0 taken i ->
  match collapse_id params0 i b with
  | Ok b' => loop_inv params0 (i :: taken) b'
  | Throw e => exists m, e = Thrown m
  end.
Proof.
  destruct i as [name id]. intros Hinv Hp Hi Hr.
  destruct (open_table_inv params0 taken b name Hinv Hp (ex_intro _ (name, id) (conj Hi eq_refl))) as [Hinv' Hin].
  unfold collapse_id. set (b1 := open_table b name) in *. clearbody b1. clear Hinv b.
  destruct (contribute _ _ _ _) as [c|e] eqn:Ec; cbn [mbind res_bind]; [|by eapply contribute_error].
  assert (Hlist : is_list params0 (name, id) = true -> c = NewList).
  { unfold is_list, contribute in *. cbn [fst snd]. intros Hl. rewrite Hl in Ec. congruence. }
  destruct c as [| |v].
  - apply take_id; [done..|]. by intros ?%Hlist.
  - rewrite bool_decide_eq_true_2 by done.
    edestruct store_val_inv as (b' & -> & Hb'); [by apply array_put_inv | done | done | | exact Hb'].
    intros _. cbn [arrays]. rewrite array_get_put, decide_True by done. eauto.
  - edestruct store_val_inv as (b' & -> & Hb'); [done | done | done | | exact Hb']. by intros ?%Hlist.
Qed.

Lemma collapse_loop_inv params0 pre ids b :
  form_ok params0 -> sort_ids (field_ids params0) = pre ++ ids ->
  loop_inv params0 (rev pre) b ->
  match collapse_loop params0 ids b with
  | Ok b' => loop_inv params0 (rev (pre ++ ids)) b'
  | Throw e => exists m, e = Thrown m
  end.
Proof.
  intros Hok. revert pre b. induction ids as [|i ids IH]; intros pre b Hsort Hinv; cbn [collapse_loop].
  { by rewrite app_nil_r. }
  assert (Hi : i ∈ field_ids params0).
  { rewrite <- sort_ids_perm, Hsort. apply elem_of_app. right. left. }
  destruct (Hok i Hi) as [Hp Hn].
  assert (Hready : ready params0 (rev pre) i).
  { intros Hnest. destruct (Hn Hnest) as [Hin Hl]. split; [|done].
    apply list_elem_of_In, in_rev. rewrite rev_involutive. apply list_elem_of_In.
    by eapply parent_first. }
  pose proof (collapse_id_inv params0 (rev pre) b i Hinv Hp Hi Hready) as Hstep.
  destruct (collapse_id params0 i b) as [b'|e]; cbn [mbind res_bind]; [|done].
  rewrite (cons_middle i pre ids) in Hsort |- *. rewrite app_assoc in Hsort |- *.
  apply IH; [done|]. by rewrite rev_unit.
Qed.

Lemma start_inv params0 : loop_inv params0 [] (mk_build (plain_fields params0) [] []).
Proof.
  split; cbn; try done.
  - by intros ? ?%elem_of_nil.
  - by intros ? ?%elem_of_nil.
  - by intros ? ?%elem_of_nil.
  - by intros ? ?%elem_of_nil.
Qed.

Lemma get_reify a o k : get (map (fun kv => (kv.1, reify_param a kv.2)) o) k = reify_param a <$> get o k.
Proof. induction o as [|[k1 p] o IH]; [done|]. cbn. by case_decide. Qed.

Lemma plain_fields_get params0 k v :
  NoDup (keys_of params0) -> classify k = None -> get params0 k = Some v ->
  get (plain_fields params0) k = Some (Plain v).
Proof.
  intros Hn Hc Hg. rewrite <- get_entries in Hg by done. apply NoDup_entries in Hn. revert Hn Hg.
  unfold plain_fields. generalize (entries params0) as e.
  assert (Hgen : forall (e : obj value) (o : obj param), NoDup (keys_of e) ->
    (get e k = Some v \/ (k ∉ keys_of e /\ get o k = Some (Plain v))) ->
    get (foldl (fun o kv => match classify kv.1 with None => put o kv.1 (Plain kv.2) | Some _ => o end) o e) k
      = Some (Plain v)).
  { induction e as [|[k1 v1] e IH]; intros o Hn Hg; [by destruct Hg as [?|[_ ?]]|].
    unfold keys_of in *. cbn in Hn, Hg |- *. apply NoDup_cons in Hn as [Hk1 Hn]. apply IH; [done|].
    destruct (decide (k1 = k)) as [->|Hne].
    - right. split; [done|]. rewrite Hc. destruct Hg as [[= ->]|[Hk _]]; [by rewrite get_put|].
      exfalso. apply Hk. left.
    - destruct Hg as [?|[Hk Ho]]; [by left|]. right. split; [by apply not_elem_of_cons in Hk as [_ ?]|].
      destruct (classify k1); [done|]. by rewrite get_put_ne. }
  intros e Hn Hg. apply Hgen; auto.
Qed.

Lemma plain_fields_keys params0 k : k ∉ keys_of params0 -> get (plain_fields params0) k = None.
Proof.
  intros Hk. assert (Hk' : k ∉ keys_of (entries params0)).
  { unfold keys_of in *. by rewrite entries_perm. }
  revert Hk'. unfold plain_fields. generalize (entries params0) as e. clear.
  assert (H : forall e (o : obj param), get o k = None -> k ∉ keys_of e ->
    get (foldl (fun o (kv : jstr * value) =>
      match classify kv.1 with None => put o kv.1 (Plain kv.2) | Some _ => o end) o e) k = None).
  { unfold keys_of. induction e as [|[k1 v1] e IH]; intros o Ho; [done|]. cbn.
    rewrite not_elem_of_cons. intros [Hne Hk]. apply IH; [|done].
    destruct (classify k1); [done|]. by rewrite get_put_ne. }
  intros e He. by apply H.
Qed.

(** A form the page can produce is always turned into parameters or refused
    with a message for the user (a boolean or a number that is not one), never
    by a TypeError: the ids are taken in an order in which every list exists
    before its elements, however deep they are nested. And the plain fields
    come through unchanged. *)
Theorem collapse_multifields_ok queue_type params0 :
  form_ok params0 -> NoDup (keys_of params0) -> js "queuetype" ∉ keys_of params0 ->
  (forall i, i ∈ field_ids params0 -> i.1 <> js "queuetype") ->
  match collapse_multifields queue_type params0 with
  | Ok params => forall k v, classify k = None -> get params0 k = Some v -> nullish v = false ->
                   get params k = Some v
  | Throw e => exists m, e = Thrown m
  end.
Proof.
  intros Hok Hn Hq Hqi. unfold collapse_multifields.
  pose proof (collapse_loop_inv params0 [] _ _ Hok eq_refl (start_inv params0)) as H.
  destruct (collapse_loop params0 _ _) as [b|e]; cbn [mbind res_bind]; [|done].
  unfold collapse_queue_type. rewrite bool_decide_eq_false_2.
  - intros k v Hc Hg Hv. unfold reify_build. rewrite get_reify.
    by rewrite (inv_plain _ _ _ H k v (plain_fields_get params0 k v Hn Hc Hg) Hv).
  - apply get_None. unfold reify_build. rewrite get_reify.
    rewrite (inv_none _ _ _ H); [done | by apply plain_fields_keys|].
    intros Hin. destruct (inv_names _ _ _ H _ Hin) as (i & Hi & He). by apply (Hqi i Hi).
Qed.

(** ** A form with nested lists *)

Definition list_form : obj value := [
  (js "name", VStr "q1");
  (js "arguments_1_mfkey", VStr "x-list"); (js "arguments_1_mftype", VStr "list");
  (js "arguments_1_1_mfvalue", VStr "a"); (js "arguments_1_1_mftype", VStr "string");
  (js "arguments_1_2_mftype", VStr "list");
  (js "arguments_1_2_1_mfvalue", VStr "7"); (js "arguments_1_2_1_mftype", VStr "number")].

Lemma list_form_ids :
  field_ids list_form = [(js "arguments", js "1"); (js "arguments", js "1_1");
                         (js "arguments", js "1_2"); (js "arguments", js "1_2_1")].
Proof. by vm_compute. Qed.

Lemma collapse_multifields_ok_witness :
  collapse_multifields "default" list_form =
    Ok [(js "name", VStr "q1");
        (js "arguments", VObj [(js "x-list", VArr [VStr "a"; VArr [VInt 7]])])] /\
  match collapse_multifields "default" list_form with
  | Ok params => forall k v, classify k = None -> get list_form k = Some v -> nullish v = false ->
                   get params k = Some v
  | Throw e => exists m, e = Thrown m
  end.
Proof.
  split; [by vm_compute|]. apply (collapse_multifields_ok "default" list_form).
  - intros i Hi. rewrite list_form_ids in Hi. rewrite !elem_of_cons, elem_of_nil in Hi.
    destruct Hi as [->|[->|[->|[->|[]]]]]; (split; [by vm_compute|]); unfold nested; intros Hn;
      try (vm_compute in Hn; lia); (split; [rewrite list_form_ids; by_decide | by vm_compute]).
  - by_decide.
  - by_decide.
  - intros i Hi. rewrite list_form_ids in Hi. rewrite !elem_of_cons, elem_of_nil in Hi.
    by destruct Hi as [->|[->|[->|[->|[]]]]].
Defined.

(** The ids are sorted as texts, so the tenth element of a list comes before
    the second: a list of ten elements or more changes its order. *)
Definition ten_form : obj value :=
  (js "arguments_1_mfkey", VStr "l") :: (js "arguments_1_mftype", VStr "list") ::
  (seqZ 1 10 ≫= fun n =>
     [("arguments_1_" ++ dec n ++ "_mfvalue", VStr (dec n));
      ("arguments_1_" ++ dec n ++ "_mftype", VStr "string")]).

Lemma ten_elements_reordered :
  collapse_multifields "default" ten_form =
  Ok [(js "arguments", VObj [(js "l", VArr (map (fun n => VStr (dec n)) [1; 10; 2; 3; 4; 5; 6; 7; 8; 9]))])].
Proof. by vm_compute. Qed.

(** ** Passwords *)

(** A new password is sent only when it was typed twice alike and is not
    empty; the confirmation is never sent; parameters without a password pass
    through. *)
Theorem check_password_spec params :
  match prop params "password" with
  | VUndef | VNull => check_password params = Ok params
  | VStr p =>
      check_password params =
      if decide (p = []) then Throw (Thrown "Please specify a password.")
      else match prop params "password_confirm" with
           | VStr q => if decide (p = q) then Ok (del params "password_confirm")
                       else Throw (Thrown "Passwords do not match.")
           | VArr l => if decide (p = to_str (VArr l)) then Ok (del params "password_confirm")
                       else Throw (Thrown "Passwords do not match.")
           | _ => Throw (Thrown "Passwords do not match.")
           end
  | _ => forall params', check_password params = Ok params' -> params' = del params "password_confirm"
  end.
Proof.
  unfold check_password. set (password := prop params "password").
  destruct password as [| | | | |p| |]; cbn [nullish eq_empty loose_eq]; try done;
    try (intros params'; repeat case_match; by intros [= <-]).
  rewrite <- decide_bool_decide. destruct (decide (p = [])); [done|].
  destruct (prop params "password_confirm"); try done; unfold loose_eq;
    by rewrite <- decide_bool_decide; case_decide.
Qed.
