(* ===== verification/FormValues.v ===== *)
(** What a form becomes: the tables that the loop of collapse_multifields builds
    with shared arrays, against a definition that follows the nesting of the
    ids. *)
From S2P Require Import Prelude JsString JsNum Uri JsObject JsValue QueueTypes Forms FormsFacts.

(** ** What the inputs of a form show *)

Section Shown.
Context (params0 : obj value).

(** The key, as a property name, and the contribution of an id. *)
Definition key_of (i : jstr * jstr) : jstr :=
  to_str (prop params0 (i.1 ++ "_" ++ default [] (head (split_on 95 i.2)) ++ MFKEY)).

Definition contribution_of (i : jstr * jstr) : res contribution :=
  contribute (prop params0 (i.1 ++ "_" ++ default [] (head (split_on 95 i.2)) ++ MFKEY))
    (prop params0 (i.1 ++ "_" ++ i.2 ++ MFVALUE)) (prop params0 (i.1 ++ "_" ++ i.2 ++ MFTYPE))
    (bool_decide (length (split_on 95 i.2) = 1)%nat).

(** The ids that have a value. *)
Definition contributes (i : jstr * jstr) : bool :=
  match contribution_of i with Ok (NewList | Item _) => true | _ => false end.

(** The elements of a list, and the rows of a table, that have a value. *)
Definition element_of (i j : jstr * jstr) : bool :=
  bool_decide (1 < length (split_on 95 j.2))%nat && bool_decide (parent_id j = i) && contributes j.

Definition row_of (name : jstr) (j : jstr * jstr) : bool :=
  bool_decide (j.1 = name) && bool_decide (length (split_on 95 j.2) = 1)%nat && contributes j.

(** The value an id shows: its own, or the list of its elements in order. *)
Inductive shows (ids : list (jstr * jstr)) : jstr * jstr -> value -> Prop :=
  | shows_item i v : contribution_of i = Ok (Item v) -> shows ids i v
  | shows_list i vs :
      contribution_of i = Ok NewList ->
      Forall2 (shows ids) (filter (fun j => element_of i j = true) ids) vs ->
      shows ids i (VArr vs).

(** The table of a name: its rows in order, the later of two with one key counts. *)
Definition shows_table (ids : list (jstr * jstr)) (name : jstr) (t : obj value) : Prop :=
  exists kvs,
    Forall2 (fun i kv => kv.1 = key_of i /\ shows ids i kv.2) (filter (fun i => row_of name i = true) ids) kvs /\
    t = foldl (fun t kv => put t kv.1 kv.2) [] kvs.

(** ** The state of the loop *)

Definition id_cell (i : jstr * jstr) : cell :=
  match contribution_of i with Ok (Item v) => Value v | _ => Ref i end.

Definition lists (i : jstr * jstr) : bool :=
  match contribution_of i with Ok NewList => true | _ => false end.

Definition cells_of (done : list (jstr * jstr)) (name : jstr) : obj cell :=
  foldl (fun t i => put t (key_of i) (id_cell i)) [] (filter (fun i => row_of name i = true) done).

Definition elements_of (done : list (jstr * jstr)) (i : jstr * jstr) : list cell :=
  map id_cell (filter (fun j => element_of i j = true) done).

(** What holds when the ids of [done] have been taken, in this order, and those of
    [ks] have an array. *)
Record value_inv (done ks : list (jstr * jstr)) (b : build) : Prop := {
  v_tables : forall name, name ∈ tables b -> get (out b) name = Some (Table (cells_of done name));
  v_names : forall i, i ∈ done -> i.1 ∈ tables b;
  v_none : forall name, get (plain_fields params0) name = None -> name ∉ tables b -> get (out b) name = None;
  v_arrays : forall i l, array_get (arrays b) i = Some l -> l = elements_of done i;
  v_lists : map fst (arrays b) = ks;
}.

Lemma array_get_In a i : i ∈ map fst a <-> is_Some (array_get a i).
Proof.
  induction a as [|[j l] a IH]; cbn; [by split; [intros ?%elem_of_nil|intros [? ?]]|].
  rewrite elem_of_cons. case_decide as Hj; [split; eauto|]. rewrite <- IH. split; [intros [->|]|]; naive_solver.
Qed.

Lemma array_put_keys a i l :
  map fst (array_put a i l) = if decide (i ∈ map fst a) then map fst a else map fst a ++ [i].
Proof.
  induction a as [|[j m] a IH]; [by cbn|]. cbn [array_put map fst]. destruct (decide (j = i)) as [->|Hne].
  - rewrite decide_True by left. done.
  - cbn [map fst]. rewrite IH. repeat case_decide; try done.
    + exfalso. rewrite elem_of_cons in *. tauto.
    + exfalso. rewrite elem_of_cons in *. naive_solver.
Qed.

Lemma filter_snoc {A} (f : A -> bool) l x :
  filter (fun y => f y = true) (l ++ [x]) = filter (fun y => f y = true) l ++ (if f x then [x] else []).
Proof. rewrite filter_app, filter_cons, filter_nil. by destruct (f x). Qed.

Lemma cells_of_snoc done i name :
  cells_of (done ++ [i]) name =
  if row_of name i then put (cells_of done name) (key_of i) (id_cell i) else cells_of done name.
Proof. unfold cells_of. rewrite filter_snoc, foldl_app. by destruct (row_of name i). Qed.

Lemma elements_of_snoc done i j :
  elements_of (done ++ [i]) j = elements_of done j ++ (if element_of j i then [id_cell i] else []).
Proof. unfold elements_of. rewrite filter_snoc, map_app. by destruct (element_of j i). Qed.

Lemma cells_of_fresh done name : (forall i, i ∈ done -> i.1 <> name) -> cells_of done name = [].
Proof.
  intros H. unfold cells_of. replace (filter _ done) with (@nil (jstr * jstr)); [done|]. symmetry.
  induction done as [|i done IH]; [done|]. rewrite filter_cons, decide_False.
  - apply IH. intros j Hj. apply H. by right.
  - unfold row_of. rewrite bool_decide_eq_false_2 by (apply H; left). done.
Qed.

Lemma elements_of_fresh done i : (forall j, j ∈ done -> nested j -> parent_id j <> i) -> elements_of done i = [].
Proof.
  intros H. unfold elements_of. replace (filter _ done) with (@nil (jstr * jstr)); [done|]. symmetry.
  induction done as [|j done IH]; [done|]. rewrite filter_cons, decide_False.
  - apply IH. intros k Hk. apply H. by right.
  - unfold element_of. case_bool_decide as Hn; [|done].
    rewrite bool_decide_eq_false_2 by (apply H; [left|done]). done.
Qed.

(** A table is opened for the first id of its name. *)
Lemma open_table_value done ks b name :
  value_inv done ks b -> ks ⊆ done -> get (plain_fields params0) name = None ->
  value_inv done ks (open_table b name) /\ name ∈ tables (open_table b name).
Proof.
  intros Hv Hks Hp. destruct (decide (name ∈ tables b)) as [Hin|Hin].
  { unfold open_table. rewrite (v_tables _ _ _ Hv name Hin). done. }
  assert (Hno : forall i, i ∈ done -> i.1 <> name) by (intros i Hi <-; by apply Hin, (v_names _ _ _ Hv)).
  unfold open_table. rewrite (v_none _ _ _ Hv name Hp Hin). destruct Hv as [H1 H2 H3 H4 H5].
  split; [|cbn; apply elem_of_app; right; by apply list_elem_of_singleton].
  replace (filter (fun a => a.1.1 <> name) (arrays b)) with (arrays b).
  - split; cbn [out tables arrays]; try done.
    + intros n [Hn|Hn%list_elem_of_singleton]%elem_of_app; [rewrite get_put_ne; [auto|congruence]|].
      subst n. rewrite get_put. by rewrite cells_of_fresh.
    + intros i Hi. apply elem_of_app. left. auto.
    + intros n Hn Hnt. apply not_elem_of_app in Hnt as [Hnt Hne].
      rewrite get_put_ne; [auto|]. intros ->. by apply Hne, list_elem_of_singleton.
  - assert (Hall : Forall (fun a : (jstr * jstr) * list cell => a.1.1 <> name) (arrays b)).
    { apply Forall_forall. intros a Ha. apply Hno, Hks. rewrite <- H5. by apply (list_elem_of_fmap_2 fst). }
    clear -Hall. induction Hall as [|a l Ha _ IH]; [done|]. rewrite filter_cons, decide_True by done. congruence.
Qed.

Lemma row_of_top n i : length (split_on 95 i.2) = 1%nat -> contributes i = true -> row_of n i = bool_decide (i.1 = n).
Proof. intros Ht Hc. unfold row_of. rewrite Hc, (bool_decide_eq_true_2 _ Ht). by destruct (bool_decide _). Qed.

Lemma row_of_nested n i : nested i -> row_of n i = false.
Proof.
  unfold nested, row_of. intros Hn. rewrite (bool_decide_eq_false_2 (length _ = 1%nat)) by lia.
  by rewrite andb_false_r.
Qed.

Lemma element_of_top p i : length (split_on 95 i.2) = 1%nat -> element_of p i = false.
Proof. intros Ht. unfold element_of. by rewrite bool_decide_eq_false_2 by lia. Qed.

Lemma element_of_nested p i : nested i -> contributes i = true -> element_of p i = bool_decide (parent_id i = p).
Proof.
  intros Hn Hc. unfold element_of. rewrite Hc, (bool_decide_eq_true_2 _ Hn). by destruct (bool_decide _).
Qed.

(** The end of a turn stores what the id shows. *)
Lemma store_val_value done ks b i :
  value_inv done ks b -> i.1 ∈ tables b -> contributes i = true -> (nested i -> parent_id i ∈ ks) ->
  exists b', store_val i (key_of i) b (id_cell i) = Ok b' /\ value_inv (done ++ [i]) ks b'.
Proof.
  intros Hv Hin Hc Hpar. destruct i as [name id]. unfold store_val. cbn [fst] in Hin.
  destruct (decide (length (split_on 95 id) = 1)%nat) as [Ht|Ht].
  - eexists. split; [done|]. unfold store_in_table. rewrite (v_tables _ _ _ Hv name Hin).
    destruct Hv as [H1 H2 H3 H4 H5]. split; cbn [out tables arrays]; try done.
    + intros n Hn. rewrite cells_of_snoc, row_of_top by done. cbn [fst]. case_bool_decide as Hd.
      * subst n. by rewrite get_put.
      * rewrite get_put_ne by done. auto.
    + intros j [Hj| ->%list_elem_of_singleton]%elem_of_app; auto.
    + intros n Hn Hnt. rewrite get_put_ne; [auto|]. by intros <-.
    + intros j l Hj. rewrite elements_of_snoc, element_of_top, app_nil_r by done. auto.
  - rewrite bool_decide_eq_true_2 by done. assert (Hn : nested (name, id)).
    { unfold nested. cbn [snd]. pose proof (split_on_nonempty 95 id). destruct (split_on 95 id) as [|? []]; cbn in *; done || lia. }
    specialize (Hpar Hn). rewrite <- (v_lists _ _ _ Hv) in Hpar. apply array_get_In in Hpar as Hget.
    destruct Hget as [l Hl]. change (name, join "_" (take (length (split_on 95 id) - 1) (split_on 95 id))) with (parent_id (name, id)).
    rewrite Hl. eexists. split; [done|]. destruct Hv as [H1 H2 H3 H4 H5]. split; cbn [out tables arrays]; try done.
    + intros n Hn'. rewrite cells_of_snoc, row_of_nested by done. auto.
    + intros j [Hj| ->%list_elem_of_singleton]%elem_of_app; auto.
    + intros j l'. rewrite array_get_put, elements_of_snoc, element_of_nested by done.
      case_bool_decide as Hd; case_decide; try done.
      * intros [= <-]. subst j. by rewrite (H4 _ _ Hl).
      * rewrite app_nil_r. auto.
    + rewrite array_put_keys. by rewrite decide_True.
Qed.

Lemma collapse_id_eq i b :
  collapse_id params0 i b =
  (c ← contribution_of i;
   match c with
   | Nothing => Ok (open_table b i.1)
   | NewList =>
       if bool_decide (i.1 ∈ tables (open_table b i.1))
       then store_val i (key_of i) (mk_build (out (open_table b i.1)) (tables (open_table b i.1))
              (array_put (arrays (open_table b i.1)) i [])) (Ref i)
       else Throw TypeError
   | Item v => store_val i (key_of i) (open_table b i.1) (Value v)
   end).
Proof. by destruct i. Qed.

(** An id that shows nothing changes nothing. *)
Lemma take_nothing done ks b i :
  value_inv done ks b -> i.1 ∈ tables b -> contributes i = false -> value_inv (done ++ [i]) ks b.
Proof.
  intros [H1 H2 H3 H4 H5] Hin Hc. split; try done.
  - intros n Hn. rewrite cells_of_snoc. unfold row_of. rewrite Hc, andb_false_r. auto.
  - intros j [Hj| ->%list_elem_of_singleton]%elem_of_app; auto.
  - intros j l Hj. rewrite elements_of_snoc. unfold element_of. rewrite Hc, andb_false_r, app_nil_r. auto.
Qed.

Definition list_ids (ids : list (jstr * jstr)) : list (jstr * jstr) := filter (fun i => lists i = true) ids.

Lemma list_ids_spec ids i : i ∈ list_ids ids <-> lists i = true /\ i ∈ ids.
Proof. apply (list_elem_of_filter (fun i => lists i = true)). Qed.

(** One turn of the loop. *)
Lemma collapse_id_value done b i :
  value_inv done (list_ids done) b -> get (plain_fields params0) i.1 = None -> i ∉ done ->
  (forall j, j ∈ done -> nested j -> parent_id j ∈ done) ->
  (nested i -> parent_id i ∈ done /\ lists (parent_id i) = true) ->
  match collapse_id params0 i b with
  | Ok b' => value_inv (done ++ [i]) (list_ids (done ++ [i])) b'
  | Throw e => contribution_of i = Throw e
  end.
Proof.
  intros Hv Hp Hi Hdone Hready.
  destruct (open_table_value done _ b i.1 Hv) as [Hv' Hin]; [by intros j [_ ?]%list_ids_spec|done|].
  rewrite collapse_id_eq. set (b1 := open_table b i.1) in *. clearbody b1. clear Hv b.
  assert (Hlists : list_ids (done ++ [i]) = list_ids done ++ (if lists i then [i] else [])) by apply filter_snoc.
  assert (Hpar : nested i -> parent_id i ∈ list_ids done) by (intros Hn; apply list_ids_spec; split; apply Hready; done).
  destruct (contribution_of i) as [c|e] eqn:Hc; cbn [mbind res_bind]; [|done].
  assert (Hl : lists i = match c with NewList => true | _ => false end) by (unfold lists; by rewrite Hc).
  assert (Hcon : contributes i = match c with Nothing => false | _ => true end) by (unfold contributes; by rewrite Hc).
  assert (Hcell : id_cell i = match c with Item v => Value v | _ => Ref i end) by (unfold id_cell; by rewrite Hc).
  rewrite Hlists, Hl. destruct c as [| |v].
  - rewrite app_nil_r. by apply take_nothing.
  - rewrite bool_decide_eq_true_2 by done. rewrite <- Hcell.
    edestruct (store_val_value done (list_ids done ++ [i])) as (b' & -> & Hb'); [|done|done| |exact Hb'].
    + destruct Hv' as [H1 H2 H3 H4 H5]. split; cbn [out tables arrays]; try done.
      * intros j l. rewrite array_get_put. case_decide as Hd; [|auto]. intros [= <-]. subst j.
        symmetry. apply elements_of_fresh. intros j Hj Hn <-. by apply Hi, Hdone.
      * rewrite array_put_keys, H5, decide_False; [done|]. by intros [_ ?]%list_ids_spec.
    + intros Hn. apply elem_of_app. left. auto.
  - rewrite app_nil_r, <- Hcell.
    edestruct (store_val_value done (list_ids done)) as (b' & -> & Hb'); [done..|exact Hb'].
Qed.

Lemma start_value : value_inv [] [] (mk_build (plain_fields params0) [] []).
Proof. split; cbn; try done; by intros ? ?%elem_of_nil. Qed.

(** In the order of the loop every id comes after its parent. *)
Lemma parents_first pre rest :
  form_ok params0 -> sort_ids (field_ids params0) = pre ++ rest ->
  forall j, j ∈ pre -> nested j -> parent_id j ∈ pre.
Proof.
  intros Hok Hs j Hj Hn. apply list_elem_of_split in Hj as (a & c & ->). rewrite <- app_assoc in Hs. cbn [app] in Hs.
  apply elem_of_app. left. apply (parent_first a j (c ++ rest) (field_ids params0)); [done|done|].
  apply Hok; [|done]. rewrite <- sort_ids_perm, Hs. apply elem_of_app. right; left.
Qed.

Lemma parent_lists i : form_ok params0 -> i ∈ field_ids params0 -> nested i -> lists (parent_id i) = true.
Proof.
  intros Hok Hi Hn. destruct (Hok i Hi) as [_ H]. destruct (H Hn) as [_ Hl].
  unfold lists, contribution_of, contribute. by rewrite Hl.
Qed.

(** The loop: either every id was taken, or one threw. *)
Lemma collapse_loop_value pre ids b :
  form_ok params0 -> NoDup (field_ids params0) -> sort_ids (field_ids params0) = pre ++ ids ->
  value_inv pre (list_ids pre) b ->
  match collapse_loop params0 ids b with
  | Ok b' => value_inv (pre ++ ids) (list_ids (pre ++ ids)) b'
  | Throw e => exists i, i ∈ field_ids params0 /\ contribution_of i = Throw e
  end.
Proof.
  intros Hok Hnd. revert pre b. induction ids as [|i ids IH]; intros pre b Hsort Hv; cbn [collapse_loop].
  { by rewrite app_nil_r. }
  assert (Hi : i ∈ field_ids params0).
  { rewrite <- sort_ids_perm, Hsort. apply elem_of_app. right; left. }
  assert (Hnd' : NoDup (pre ++ i :: ids)) by (by rewrite <- Hsort, sort_ids_perm).
  destruct (Hok i Hi) as [Hp Hn]. pose proof (collapse_id_value pre b i Hv Hp) as Hstep.
  apply NoDup_app in Hnd' as (_ & Hd & _). specialize (Hstep (fun H => Hd i H (list_elem_of_here _ _))).
  specialize (Hstep (parents_first pre (i :: ids) Hok Hsort)).
  assert (nested i -> parent_id i ∈ pre /\ lists (parent_id i) = true) as Hready.
  { intros Hnest. split; [|by apply parent_lists]. apply (parent_first pre i ids (field_ids params0)); [done..|].
    by apply Hn. }
  specialize (Hstep Hready). destruct (collapse_id params0 i b) as [b'|e]; cbn [mbind res_bind]; [|eauto].
  rewrite (cons_middle i pre ids) in Hsort |- *. rewrite app_assoc in Hsort |- *. by apply IH.
Qed.

(** A loop that ends found no text to refuse. *)
Lemma collapse_loop_contributions ids b b' :
  collapse_loop params0 ids b = Ok b' -> Forall (fun i => exists c, contribution_of i = Ok c) ids.
Proof.
  revert b. induction ids as [|i ids IH]; intros b; cbn [collapse_loop]; [constructor|].
  rewrite collapse_id_eq. destruct (contribution_of i) as [c|e] eqn:Hc; [|done].
  intros (b1 & _ & H)%res_bind_ok. constructor; [eauto|]. by eapply IH.
Qed.

(** ** The values in the end *)

Lemma reify_value fuel a v : reify fuel a (Value v) = v.
Proof. by destruct fuel. Qed.

(** An array holds what its id shows; the fuel exceeds the nesting of the lists
    that come after it. *)
Lemma reify_shows ids b :
  value_inv ids (list_ids ids) b -> NoDup ids ->
  (forall pre j post, ids = pre ++ j :: post -> nested j -> parent_id j ∈ pre) ->
  forall fuel pre i post, ids = pre ++ i :: post -> lists i = true -> (length (list_ids post) < fuel)%nat ->
  shows ids i (reify fuel (arrays b) (Ref i)).
Proof.
  intros Hv Hnd Hpar. induction fuel as [|fuel IH]; intros pre i post Hids Hl Hfuel; [lia|].
  assert (Hi : i ∈ ids) by (rewrite Hids; apply elem_of_app; right; left).
  assert (is_Some (array_get (arrays b) i)) as [l Hget].
  { apply array_get_In. rewrite (v_lists _ _ _ Hv). by apply list_ids_spec. }
  cbn [reify]. rewrite Hget, (v_arrays _ _ _ Hv i l Hget).
  change (default [] (Some (elements_of ids i))) with (elements_of ids i). unfold elements_of.
  apply shows_list; [unfold lists in Hl; by destruct (contribution_of i) as [[]|]|].
  rewrite map_map. apply Forall2_fmap_r, Forall_Forall2_diag, Forall_forall. intros j Hj.
  change (shows ids j (reify fuel (arrays b) (id_cell j))).
  apply list_elem_of_filter in Hj as [He Hj]. unfold element_of in He.
  apply andb_true_iff in He as [[Hn%bool_decide_eq_true Hp%bool_decide_eq_true]%andb_true_iff Hc].
  unfold contributes in Hc. unfold id_cell. destruct (contribution_of j) as [[| |v]|] eqn:Hcj; try done.
  - assert (Hpost : j ∈ post).
    { rewrite Hids in Hj, Hnd. apply elem_of_app in Hj as [Hj|[->|Hj]%elem_of_cons]; [| |done]; exfalso.
      - apply list_elem_of_split in Hj as (p1 & p2 & ->). rewrite <- app_assoc in Hids. cbn [app] in Hids.
        pose proof (Hpar _ _ _ Hids Hn) as Hp1. rewrite Hp in Hp1. apply NoDup_app in Hnd as (_ & Hd & _).
        apply (Hd i); [|left]. apply elem_of_app. by left.
      - pose proof (Hpar _ _ _ Hids Hn) as Hp1. rewrite Hp in Hp1. apply NoDup_app in Hnd as (_ & Hd & _).
        apply (Hd i Hp1). left. }
    apply list_elem_of_split in Hpost as (p1 & p2 & ->).
    apply (IH (pre ++ i :: p1) j p2).
    + by rewrite Hids, <- app_assoc.
    + unfold lists. by rewrite Hcj.
    + unfold list_ids in *. rewrite filter_app, filter_cons, length_app in Hfuel.
      rewrite decide_True in Hfuel by (unfold lists; by rewrite Hcj). cbn [length] in Hfuel. lia.
  - rewrite reify_value. by constructor.
Qed.

Lemma map_put {A B} (f : A -> B) (o : obj A) k v :
  map (fun kv => (kv.1, f kv.2)) (put o k v) = put (map (fun kv => (kv.1, f kv.2)) o) k (f v).
Proof. induction o as [|[k' v'] o IH]; [done|]. cbn. case_decide; cbn; [done|]. by rewrite IH. Qed.

Lemma map_puts {X A B} (f : A -> B) (key : X -> jstr) (val : X -> A) l (o : obj A) :
  map (fun kv => (kv.1, f kv.2)) (foldl (fun t x => put t (key x) (val x)) o l) =
  foldl (fun t kv => put t kv.1 kv.2) (map (fun kv => (kv.1, f kv.2)) o) (map (fun x => (key x, f (val x))) l).
Proof. revert o. induction l as [|x l IH]; intros o; [done|]. cbn [foldl map fst snd]. by rewrite IH, map_put. Qed.

(** A table in the end. *)
Lemma reify_table ids b name :
  value_inv ids (list_ids ids) b -> NoDup ids ->
  (forall pre j post, ids = pre ++ j :: post -> nested j -> parent_id j ∈ pre) ->
  exists t, reify_param (arrays b) (Table (cells_of ids name)) = VObj t /\ shows_table ids name t.
Proof.
  intros Hv Hnd Hpar. eexists. split; [done|]. unfold cells_of. rewrite (map_puts _ key_of id_cell). cbn [map].
  eexists. split; [|done]. apply Forall2_fmap_r, Forall_Forall2_diag, Forall_forall. intros i Hi.
  apply list_elem_of_filter in Hi as [Hr Hi]. split; [done|].
  change (shows ids i (reify (S (length (arrays b))) (arrays b) (id_cell i))).
  unfold row_of in Hr. apply andb_true_iff in Hr as [_ Hc]. unfold contributes in Hc. unfold id_cell.
  destruct (contribution_of i) as [[| |v]|] eqn:Hci; try done; [|rewrite reify_value; by constructor].
  apply list_elem_of_split in Hi as (pre & post & ->). eapply reify_shows; [done..| |].
  - unfold lists. by rewrite Hci.
  - rewrite <- (length_map fst (arrays b)), (v_lists _ _ _ Hv). unfold list_ids.
    rewrite filter_app, length_app, filter_cons. case_decide; cbn [length]; lia.
Qed.

End Shown.


(** ** A form with nested lists *)


(** What a list shows is determined: a list of a text and a list of a number. *)
Example list_form_shows :
  shows list_form (sort_ids (field_ids list_form)) (js "arguments", js "1") (VArr [VStr "a"; VArr [VInt 7]]).
Proof.
  replace (sort_ids (field_ids list_form)) with (field_ids list_form) by (by vm_compute). rewrite list_form_ids.
  apply shows_list; [by vm_compute|].
  replace (filter _ _) with [(js "arguments", js "1_1"); (js "arguments", js "1_2")] by (by vm_compute).
  constructor; [apply shows_item; by vm_compute|]. constructor; [|constructor]. apply shows_list; [by vm_compute|].
  replace (filter _ _) with [(js "arguments", js "1_2_1")] by (by vm_compute).
  constructor; [apply shows_item; by vm_compute|constructor].
Qed.
