(* ===== verification/Multifields.v ===== *)
(** The multi-valued fields of a form (main.js): a field of tables or lists has
    rows of inputs, of which one is always left empty for the next value. After
    every key or choice the rows are brought into that shape again.

    An element of the document is identified by its id, which is made of the ids
    of the rows around it; a row is modelled with the elements inside it. *)
From S2P Require Import Prelude JsString JsNum Base64 Uri JsObject JsValue Forms.

(** ** Rows *)

(** A row: its number, the text of its key (used in a table), the chosen type,
    and either an input with a text or a field of its own. *)
Inductive row := Row (id : Z) (key type : jstr) (value : option jstr) (sub : list row).

Definition row_id (r : row) : Z := let '(Row id _ _ _ _) := r in id.
Definition row_key (r : row) : jstr := let '(Row _ key _ _ _) := r in key.
Definition row_type (r : row) : jstr := let '(Row _ _ type _ _) := r in type.
Definition row_value (r : row) : option jstr := let '(Row _ _ _ value _) := r in value.
Definition row_sub (r : row) : list row := let '(Row _ _ _ _ sub) := r in sub.

(** Induction with a hypothesis for the rows inside. *)
Section Induction.
Variable P : row -> Prop.
Hypothesis Hrow : forall id key type value sub, Forall P sub -> P (Row id key type value sub).

Fixpoint row_ind' (r : row) : P r :=
  match r with
  | Row id key type value sub =>
      Hrow id key type value sub
        ((fix go l : Forall P l :=
            match l with
            | [] => @List.Forall_nil _ P
            | r :: l => @List.Forall_cons _ P r l (row_ind' r) (go l)
            end) sub)
  end.
End Induction.

(** ** Bringing the rows into shape *)

(** The row appended for the next value: the inputs of multifield_input, empty,
    with the first type selected. *)
Definition new_row (id : Z) : row := Row id [] "string" (Some []) [].

(** The largest number of a row, 0 when there is none. *)
Definition largest_id (rows : list row) : Z := foldr (fun r n => Z.max (row_id r) n) 0 rows.

(** The end of update_multifield: a row is appended unless the last is empty. *)
Definition add_row (rows : list row) (res : list row * bool) : list row :=
  if res.2 then res.1 else res.1 ++ [new_row (largest_id rows + 1)].

(** One row, of a table or a list, the last or not: what becomes of it, and
    whether it is the empty row that was found. A row of type list has a field
    of its own instead of an input, and vice versa; an empty row is removed
    unless it is the last. *)
Fixpoint update_row (dict last : bool) (r : row) : list row * bool :=
  match r with
  | Row id key type value sub =>
      if decide (type = "list") then
        let inner :=
          match value with
          | Some _ => add_row [] ([], false)
          | None =>
              add_row sub ((fix go (rows : list row) : list row * bool :=
                match rows with
                | [] => ([], false)
                | r :: rows =>
                    let '(kept, found) := update_row false (bool_decide (rows = [])) r in
                    let '(rest, found') := go rows in
                    (kept ++ rest, found || found')
                end) sub)
          end in
        ([Row id key type None inner], false)
      else
        match value with
        | Some v =>
            let key' := if dict then key else [] in
            if decide (key' = [] /\ v = []) then if last then ([r], true) else ([], false)
            else ([r], false)
        | None => ([Row id key type (Some []) []], false)
        end
  end.

Fixpoint update_rows (dict : bool) (rows : list row) : list row * bool :=
  match rows with
  | [] => ([], false)
  | r :: rows =>
      let '(kept, found) := update_row dict (bool_decide (rows = [])) r in
      let '(rest, found') := update_rows dict rows in
      (kept ++ rest, found || found')
  end.

(** update_multifield *)
Definition update_multifield (dict : bool) (rows : list row) : list row := add_row rows (update_rows dict rows).

(** update_multifields, of the multi-valued fields of a page: all are tables. *)
Definition update_multifields (fields : list (jstr * list row)) : list (jstr * list row) :=
  map (fun f => (f.1, update_multifield true f.2)) fields.

(** The click on an argument that is offered: the last row gets its key, value
    and type. The last row has an input once the fields are in shape. *)
Definition fill_last (key value type : jstr) (rows : list row) : list row :=
  match rev rows with
  | Row id _ _ (Some _) sub :: others => rev others ++ [Row id key type (Some value) sub]
  | _ => rows
  end.

Definition argument_link (key value type : jstr) (rows : list row) : list row :=
  update_multifield true (fill_last key value type rows).

(** ** What is submitted *)

(** The markup of multifield_input. *)
Definition multifield_input (prefix suffix type : jstr) : jstr :=
  let name := prefix ++ "_mf" ++ suffix in
  if decide (type = "hidden") then
    "<input type=`hidden` id=`" ++ name ++ "` name=`" ++ name ++ "` value=`string`/>"
  else if decide (type = "text") then
    "<input type=`text` id=`" ++ name ++ "` name=`" ++ name ++ "` value=``/>"
  else if decide (type = "select") then
    "<select id=`" ++ name ++ "` name=`" ++ name ++ "`><option value=`string`>String</option>" ++
    "<option value=`number`>Number</option><option value=`boolean`>Boolean</option>" ++
    "<option value=`list`>List</option></select>"
  else "undefined".

(** The markup of a new row. *)
Definition row_markup (name : jstr) (id : Z) (dict string_only : bool) : jstr :=
  let prefix := name ++ "_" ++ dec id in
  let val_type := multifield_input prefix "value" "text" ++ " " ++
    multifield_input prefix "type" (if string_only then "hidden" else "select") in
  if dict then
    "<table class=`mf`><tr><td>" ++ multifield_input prefix "key" "text" ++
    "</td><td class=`equals`> = </td><td>" ++ val_type ++ "</td></tr></table>"
  else "<div class=`mf`>" ++ val_type ++ "</div>".

(** ** The shape of the rows *)

(** A row without a value. *)
Definition empty_row (dict : bool) (r : row) : bool :=
  bool_decide (row_type r <> "list" /\ row_value r = Some [] /\ (if dict then row_key r else []) = []).

(** Rows whose inputs agree with their types, at all depths. Only after a type
    was changed they do not, until the next update. *)
Inductive settled : row -> Prop :=
  | settled_input id key type v sub : type <> js "list" -> settled (Row id key type (Some v) sub)
  | settled_list id key sub : Forall settled sub -> settled (Row id key "list" None sub).

(** Rows in shape: the last is empty, no other is, at all depths. *)
Inductive in_shape : bool -> list row -> Prop :=
  | shape_rows dict front last :
      Forall (kept dict) front -> settled last -> empty_row dict last = true -> in_shape dict (front ++ [last])
with kept : bool -> row -> Prop :=
  | kept_input dict id key type v sub :
      type <> js "list" -> empty_row dict (Row id key type (Some v) sub) = false ->
      kept dict (Row id key type (Some v) sub)
  | kept_list dict id key sub : in_shape false sub -> kept dict (Row id key "list" None sub).

(** Rows with different numbers, at all depths. *)
Inductive distinct : list row -> Prop :=
  | distinct_rows rows :
      NoDup (map row_id rows) -> Forall (fun r => distinct (row_sub r)) rows -> distinct rows.

(** What rows stand for: the values of those that are not empty. *)
Inductive entry := Leaf (key type value : jstr) | Node (key : jstr) (elements : list entry).

Fixpoint row_entries (dict : bool) (r : row) : list entry :=
  match r with
  | Row id key type value sub =>
      match value with
      | Some v => if empty_row dict r then [] else [Leaf (if dict then key else []) type v]
      | None =>
          [Node (if dict then key else [])
             ((fix go (rows : list row) : list entry :=
                 match rows with [] => [] | r :: rows => row_entries false r ++ go rows end) sub)]
      end
  end.

Definition entries_of (dict : bool) (rows : list row) : list entry := flat_map (row_entries dict) rows.

(** ** Properties *)

Lemma row_entries_list dict id key type sub :
  row_entries dict (Row id key type None sub) = [Node (if dict then key else []) (entries_of false sub)].
Proof. done. Qed.

Lemma update_row_list dict last id key sub :
  update_row dict last (Row id key "list" None sub) =
  ([Row id key "list" None (update_multifield false sub)], false).
Proof.
  cbn [update_row]. rewrite decide_True by done. unfold update_multifield. do 4 f_equal.
  induction sub as [|r sub IH]; [done|]. cbn [update_rows]. by rewrite IH.
Qed.

Lemma empty_row_spec dict id key type v sub :
  type <> js "list" ->
  empty_row dict (Row id key type (Some v) sub) = bool_decide ((if dict then key else []) = [] /\ v = []).
Proof.
  intros Ht. apply bool_decide_ext. cbn. split.
  - intros (_ & [= ->] & Hk). done.
  - intros [Hk ->]. done.
Qed.

(** What becomes of a row that is settled. *)
Inductive row_result (dict last : bool) (r : row) : list row * bool -> Prop :=
  | result_last : last = true -> empty_row dict r = true -> row_result dict last r ([r], true)
  | result_removed : last = false -> empty_row dict r = true -> row_result dict last r ([], false)
  | result_kept r' :
      empty_row dict r = false -> kept dict r' -> settled r' -> row_id r' = row_id r ->
      row_entries dict r' = row_entries dict r -> (distinct (row_sub r) -> distinct (row_sub r')) ->
      row_result dict last r ([r'], false).

(** What becomes of rows that are settled. *)
Record rows_result (dict : bool) (rows : list row) (res : list row * bool) : Prop := {
  result_found : res.2 = true -> exists front last,
    res.1 = front ++ [last] /\ Forall (kept dict) front /\ settled last /\ empty_row dict last = true;
  result_not_found : res.2 = false -> Forall (kept dict) res.1;
  result_settled : Forall settled res.1;
  result_ids : sublist (map row_id res.1) (map row_id rows);
  result_entries : entries_of dict res.1 = entries_of dict rows;
  result_distinct : Forall (fun r => distinct (row_sub r)) rows -> Forall (fun r => distinct (row_sub r)) res.1;
}.

Lemma empty_row_entries dict r : settled r -> empty_row dict r = true -> row_entries dict r = [].
Proof.
  destruct 1 as [id key type v sub Ht|id key sub]; [intros He; cbn [row_entries]; by rewrite He|].
  unfold empty_row. cbn. intros He%bool_decide_eq_true. by destruct He as [[] _].
Qed.

Lemma update_rows_result dict rows :
  Forall (fun r => settled r -> forall dict last, row_result dict last r (update_row dict last r)) rows ->
  Forall settled rows -> rows_result dict rows (update_rows dict rows).
Proof.
  intros HP Hs. induction rows as [|r rows IH]; [by split|].
  apply Forall_cons in HP as [Hr HP]. apply Forall_cons in Hs as [Hsr Hs].
  specialize (Hr Hsr dict (bool_decide (rows = []))). destruct (IH HP Hs) as [Hf Hnf Hset Hid He Hd].
  cbn [update_rows]. destruct (update_rows dict rows) as [rest found']. cbn [fst snd] in *.
  destruct Hr as [Hlast Hempty | Hlast Hempty | r' Hempty Hk Hsr' Hid' He' Hd'].
  - apply bool_decide_eq_true in Hlast. subst rows. apply sublist_nil_r in Hid.
    apply fmap_nil_inv in Hid. subst rest. cbn [app orb].
    split; cbn [fst snd app]; try done; [| by apply Forall_singleton].
    intros _. exists [], r. by split_and!.
  - cbn [app orb]. split; cbn [fst snd]; [done..| | |].
    + cbn [map]. by apply sublist_cons.
    + unfold entries_of in *. cbn [flat_map]. by rewrite (empty_row_entries dict r).
    + intros [_ Hall]%Forall_cons. by apply Hd.
  - cbn [app orb]. split; cbn [fst snd].
    + intros H. destruct (Hf H) as (front & last & -> & Hfr & Hl). exists (r' :: front), last.
      split; [done|]. split; [by constructor|done].
    + intros H. constructor; [done|]. by apply Hnf.
    + by constructor.
    + cbn [map]. rewrite Hid'. by apply sublist_skip.
    + unfold entries_of in *. cbn [flat_map]. by rewrite He, He'.
    + intros [Hdr Hall]%Forall_cons. constructor; [by apply Hd'|by apply Hd].
Qed.

Lemma new_row_empty dict id : empty_row dict (new_row id) = true.
Proof. by destruct dict. Qed.

Lemma new_row_settled id : settled (new_row id).
Proof. by constructor. Qed.

Lemma largest_id_ge rows : Forall (fun r => row_id r <= largest_id rows) rows.
Proof.
  induction rows as [|r rows IH]; constructor; cbn [largest_id foldr]; [lia|].
  eapply Forall_impl; [exact IH|]. cbn. unfold largest_id. lia.
Qed.

(** A result that is completed with an empty row, if it has none. *)
Record shape_result (dict : bool) (rows rows' : list row) : Prop := {
  shape_ok : in_shape dict rows';
  shape_settled : Forall settled rows';
  shape_entries : entries_of dict rows' = entries_of dict rows;
  shape_distinct : distinct rows -> distinct rows';
}.

Lemma add_row_result dict rows res :
  rows_result dict rows res -> shape_result dict rows (add_row rows res).
Proof.
  intros [Hf Hnf Hset Hid He Hd]. unfold add_row. destruct res as [rows' []]; cbn [fst snd] in *.
  - destruct (Hf eq_refl) as (front & last & -> & Hfr & Hl). split; [|done|done|].
    + constructor; [done|apply Hl..].
    + inversion 1 as [rs Hn Hall]; subst. constructor; [by eapply sublist_NoDup|by apply Hd].
  - split.
    + constructor; [by apply Hnf|apply new_row_settled|apply new_row_empty].
    + apply Forall_app. split; [done|]. apply Forall_singleton, new_row_settled.
    + unfold entries_of in *. rewrite flat_map_app, He. cbn [flat_map].
      rewrite empty_row_entries by (apply new_row_settled || apply new_row_empty). by rewrite !app_nil_r.
    + inversion 1 as [rs Hn Hall]; subst. constructor.
      * rewrite map_app. apply NoDup_app. split; [by eapply sublist_NoDup|].
        split; [|apply NoDup_singleton]. intros i Hi Hnew%list_elem_of_singleton. cbn in Hnew. subst i.
        assert (largest_id rows + 1 ∈ map row_id rows) as Hin by (by eapply elem_of_sublist).
        apply list_elem_of_fmap in Hin as (r & Hr & Hin).
        pose proof (largest_id_ge rows) as Hge. rewrite Forall_forall in Hge. specialize (Hge r Hin). lia.
      * apply Forall_app. split; [by apply Hd|]. apply Forall_singleton. constructor; constructor.
Qed.

Lemma update_row_input dict last id key type v sub :
  type <> js "list" ->
  update_row dict last (Row id key type (Some v) sub) =
  if empty_row dict (Row id key type (Some v) sub)
  then if last then ([Row id key type (Some v) sub], true) else ([], false)
  else ([Row id key type (Some v) sub], false).
Proof.
  intros Ht. rewrite empty_row_spec by done. cbn [update_row]. rewrite decide_False by done.
  case_decide as H; [by rewrite bool_decide_true|by rewrite bool_decide_false].
Qed.

Lemma update_row_result r :
  settled r -> forall dict last, row_result dict last r (update_row dict last r).
Proof.
  induction r as [id key type value sub IH] using row_ind'. inversion 1 as [? ? ? v ? Ht|? ? ? Hsub]; subst;
    intros dict last.
  - rewrite update_row_input by done. destruct (empty_row _ _) eqn:He; [destruct last; by constructor|].
    apply result_kept with (r' := Row id key type (Some v) sub); try done; by constructor.
  - rewrite update_row_list.
    destruct (add_row_result false sub _ (update_rows_result false sub IH Hsub)) as [Hok Hset Hen Hdis].
    apply result_kept with (r' := Row id key "list" None (update_multifield false sub)); try done.
    + by constructor.
    + by constructor.
    + rewrite !row_entries_list. by rewrite <- Hen.
Qed.

(** Rows in shape stay as they are. *)
Lemma update_rows_shape dict rows :
  Forall (fun r => forall dict last, kept dict r -> update_row dict last r = ([r], false)) rows ->
  in_shape dict rows -> update_rows dict rows = (rows, true).
Proof.
  intros HP Hs. destruct Hs as [dict front last Hfr Hsl He]. apply Forall_app in HP as [HP _].
  induction front as [|r front IH].
  - cbn [app update_rows]. rewrite bool_decide_true by done.
    destruct (update_row_result last Hsl dict true) as [| |r' He']; [done..|congruence].
  - apply Forall_cons in HP as [Hr HP]. apply Forall_cons in Hfr as [Hk Hfr].
    cbn [app update_rows]. rewrite (Hr dict _ Hk), (IH HP Hfr). done.
Qed.

Lemma update_row_kept r dict last : kept dict r -> update_row dict last r = ([r], false).
Proof.
  revert dict last. induction r as [id key type value sub IH] using row_ind'. intros dict last Hk.
  inversion Hk as [? ? ? ? v ? Ht He|? ? ? ? Hs]; subst.
  - rewrite update_row_input by done. by rewrite He.
  - rewrite update_row_list. unfold update_multifield. by rewrite (update_rows_shape false sub).
Qed.

Lemma update_multifield_shape dict rows : in_shape dict rows -> update_multifield dict rows = rows.
Proof.
  intros Hs. unfold update_multifield. rewrite update_rows_shape; [done| |done].
  apply Forall_forall. intros r _ d l. apply update_row_kept.
Qed.

(** After an update the inputs agree with the types. *)
Lemma update_row_settles r : forall dict last, Forall settled (update_row dict last r).1.
Proof.
  induction r as [id key type value sub IH] using row_ind'. intros dict last.
  destruct (decide (type = "list")) as [->|Ht].
  - destruct value as [v|].
    + cbn [update_row]. rewrite decide_True by done. apply Forall_singleton. constructor.
      apply Forall_singleton, new_row_settled.
    + rewrite update_row_list. apply Forall_singleton. constructor. unfold update_multifield, add_row.
      assert (Forall settled (update_rows false sub).1) as Hs.
      { induction IH as [|r sub Hr _ IHs]; [constructor|]. cbn [update_rows].
        specialize (Hr false (bool_decide (sub = []))). destruct (update_row _ _ _), (update_rows _ _).
        by apply Forall_app. }
      destruct (update_rows false sub).2; [done|]. apply Forall_app. split; [done|].
      apply Forall_singleton, new_row_settled.
  - destruct value as [v|]; [rewrite update_row_input by done|].
    + destruct (empty_row _ _); [destruct last|]; repeat constructor; done.
    + cbn [update_row]. rewrite decide_False by done. by repeat constructor.
Qed.

Lemma update_multifield_settles dict rows : Forall settled (update_multifield dict rows).
Proof.
  unfold update_multifield, add_row. assert (Forall settled (update_rows dict rows).1) as Hs.
  { induction rows as [|r rows IH]; [constructor|]. cbn [update_rows].
    pose proof (update_row_settles r dict (bool_decide (rows = []))) as Hr.
    destruct (update_row _ _ _), (update_rows _ _). by apply Forall_app. }
  destruct (update_rows dict rows).2; [done|]. apply Forall_app. split; [done|].
  apply Forall_singleton, new_row_settled.
Qed.


(** ** Examples *)

Module MultifieldExamples.

(** A table with a list of two values; the second was just cleared. *)
Definition rows1 : list row := [
  Row 1 "x-max-length" "number" (Some (js "10")) [];
  Row 2 "x-list" "list" None
    [Row 1 [] "string" (Some (js "a")) []; Row 2 [] "string" (Some []) []; Row 3 [] "string" (Some (js "b")) []]].


(** A list that is made a text again is an empty row; where another row follows,
    the next update removes it. *)
Example emptied_row :
  let rows := [Row 1 [] "string" None [new_row 1]] in
  update_multifield false rows = [Row 1 [] "string" (Some []) []; new_row 2] /\
  update_multifield false (update_multifield false rows) = [new_row 2].
Proof. split; by vm_compute. Qed.

Example markup1 :
  row_markup "arguments" 2 false true =
  js "<div class=`mf`><input type=`text` id=`arguments_2_mfvalue` name=`arguments_2_mfvalue` value=``/> <input type=`hidden` id=`arguments_2_mftype` name=`arguments_2_mftype` value=`string`/></div>".
Proof. by vm_compute. Qed.

End MultifieldExamples.
