(* ===== verification/Requests.v ===== *)
(** The addresses of requests (main.js): templates filled with parameters, and
    the query strings of the pages. *)
From S2P Require Import Prelude JsString JsNum Base64 Uri JsObject JsValue Columns Prefs.

(** ** Path templates *)

(** A unit of a parameter's name: a letter or an underscore. *)
Definition name_unit (c : Z) : bool := is_upper c || is_lower c || (c =? 95).

(** The value of a parameter; the message when it is empty. *)
Definition fill (params : obj value) (name : jstr) : res jstr :=
  str ← esc (to_str (prop params name));
  if decide (str = []) then Throw (Thrown (name ++ " is required")) else Ok str.

(** fill_path_template: each colon and the name after it are replaced. The scan
    holds the name being read, when it is inside one. *)
Fixpoint fill_scan (params : obj value) (inside : option jstr) (t : jstr) : res jstr :=
  let close (inside : option jstr) (k : res jstr) : res jstr :=
    match inside with
    | Some name => v ← fill params name; r ← k; Ok (v ++ r)
    | None => k
    end in
  match t with
  | [] => close inside (Ok [])
  | c :: t =>
      match inside with
      | Some name =>
          if name_unit c then fill_scan params (Some (name ++ [c])) t
          else close inside (if c =? 58 then fill_scan params (Some []) t
                             else cons c <$> fill_scan params None t)
      | None => if c =? 58 then fill_scan params (Some []) t
                else cons c <$> fill_scan params None t
      end
  end.

Definition fill_path_template (template : jstr) (params : obj value) : res jstr :=
  fill_scan params None template.

(** ** Requests of a page *)

(** A request of a page: a path, or a path with options. *)
Inductive req :=
  | Path (path : jstr)
  | WithOptions (path : jstr) (options : obj value).

(** The globals apply_state reads. *)
Record query_state := mk_query {
  current_vhost : jstr;
  current_sort : option jstr;
  current_sort_reverse : bool;
}.

Definition path_of (r : req) : jstr := match r with Path p | WithOptions p _ => p end.
Definition options_of (r : req) : obj value := match r with Path _ => [] | WithOptions _ o => o end.

(** The virtual host goes before the query of a paginated path. *)
Definition add_vhost (vhost p : jstr) : res jstr :=
  v ← esc vhost;
  let indexPage := index_of p "?page=" in
  Ok (if indexPage >? -1
      then substring p 0 indexPage ++ "/" ++ v ++ substring_from p indexPage
      else p ++ "/" ++ v).

(** The prefix of the statistics of a range; [None] leaves the variable as the
    previous range left it. *)
Definition range_prefix (type : jstr) : option jstr :=
  if decide (substring type 0 8 = "lengths-") then Some (js "lengths")
  else if decide (substring type 0 10 = "msg-rates-") then Some (js "msg_rates")
  else if decide (substring type 0 11 = "data-rates-") then Some (js "data_rates")
  else if decide (type = "node-stats") then Some (js "node_stats")
  else None.

Definition int_string (s : option jstr) : jstr :=
  match s with
  | Some s => match parse_int s with Some n => dec n | None => "NaN" end
  | None => "NaN"
  end.

(** The loop over the ranges, with the variable [prefix] ([None]: undefined). *)
Fixpoint range_params (chart_range : jstr) (prefix : option jstr) (types : list jstr)
  : list jstr * option jstr :=
  match types with
  | [] => ([], prefix)
  | type :: types =>
      let range := split_on 124 chart_range in
      let prefix := match range_prefix type with Some p => Some p | None => prefix end in
      let name := default (js "undefined") prefix in
      let '(qs, prefix') := range_params chart_range prefix types in
      ((name ++ "_age=" ++ int_string (range !! 0%nat)) ::
       (name ++ "_incr=" ++ int_string (range !! 1%nat)) :: qs, prefix')
  end.

(** The options passed on as query parameters. *)
Fixpoint other_params (options : obj value) : res (list jstr) :=
  match options with
  | [] => Ok []
  | (key, v) :: options =>
      if decide (key ∈ [js "vhost"; js "sort"; js "ranges"]) then other_params options
      else if bool_decide (key = []) || nullish v then other_params options
      else
        k ← esc key; x ← esc (to_str v); rest ← other_params options;
        Ok ((k ++ "=" ++ x) :: rest)
  end.

(** The elements of [options["ranges"]], as strings. *)
Definition range_types (options : obj value) : list jstr :=
  match prop options "ranges" with
  | VArr l => map to_str l
  | _ => []
  end.

Definition add_query (req2 : jstr) (qs : list jstr) : jstr :=
  let qs := join "&" qs in
  req2 ++ (if decide (qs = []) then []
           else if index_of req2 "?page=" >? -1 then "&" ++ qs else "?" ++ qs).

(** One request of apply_state; [prefix] lives across the requests. *)
Definition apply_req (st : query_state) (chart_range : jstr) (prefix : option jstr) (r : req)
  : res (jstr * option jstr) :=
  let options := options_of r in
  req2 ← (if negb (nullish (prop options "vhost")) && bool_decide (current_vhost st <> [])
          then add_vhost (current_vhost st) (path_of r) else Ok (path_of r));
  let sort :=
    match current_sort st with
    | Some s =>
        if nullish (prop options "sort") then []
        else ["sort=" ++ s; "sort_reverse=" ++ bool_string (current_sort_reverse st)]
    | None => []
    end in
  let '(ranges, prefix) := range_params chart_range prefix (range_types options) in
  other ← other_params (entries options);
  Ok (add_query req2 (sort ++ ranges ++ other), prefix).

Fixpoint apply_loop (st : query_state) (chart_range : jstr) (prefix : option jstr)
  (reqs : obj req) (reqs2 : obj jstr) : res (obj jstr) :=
  match reqs with
  | [] => Ok reqs2
  | (k, r) :: reqs =>
      u ← apply_req st chart_range prefix r;
      apply_loop st chart_range u.2 reqs (put reqs2 k u.1)
  end.

(** apply_state *)
Definition apply_state (st : query_state) (chart_range : jstr) (reqs : obj req) : res (obj jstr) :=
  apply_loop st chart_range None (entries reqs) [].

(** ** Templates: what the parameters can change *)

(** The units a parameter contributes: never a slash, a question mark, a hash or
    an ampersand. *)
Definition path_unit (c : Z) : bool := uri_unreserved c || (c =? 37).

Lemma hex_digit_unit d : 0 <= d < 16 -> path_unit (hex_digit d) = true.
Proof. revert d. apply (Forall_range (fun d => path_unit (hex_digit d) = true)). by_decide. Qed.

Lemma pct_units bs : Forall Base64.is_byte bs -> Forall (fun c => path_unit c = true) (pct bs).
Proof.
  induction 1 as [|b bs Hb _ IH]; [constructor|]. cbn [pct flat_map]. unfold pct_byte. cbn [app].
  unfold Base64.is_byte in Hb. repeat constructor; [apply hex_digit_unit; lia_div..|done].
Qed.

Lemma esc_units s e : wf_jstr s -> esc s = Ok e -> Forall (fun c => path_unit c = true) e.
Proof.
  unfold esc. revert e. induction s as [s IH] using (induction_ltof1 _ length). intros e Hs.
  destruct s as [|c s1]; cbn [encodeURIComponent]; [intros [= <-]; constructor|].
  inversion Hs as [|? ? Hc Hs1]; subst. unfold is_code_unit in Hc.
  assert (Hf : forall p t, wf_jstr t -> ltof jstr length t (c :: s1) ->
    Forall (fun c => path_unit c = true) p -> app p <$> encodeURIComponent t = Ok e ->
    Forall (fun c => path_unit c = true) e).
  { intros p t Ht Hlt Hp. destruct (encodeURIComponent t) as [e'|] eqn:E; [|done]. intros [= <-].
    apply Forall_app. split; [done | by eapply IH]. }
  destruct (uri_unreserved c) eqn:Eu.
  { apply (Hf [c]); [done | unfold ltof; cbn; lia |]. repeat constructor. unfold path_unit. by rewrite Eu. }
  destruct (is_trail c); [done|]. destruct (is_lead c) eqn:El.
  - destruct s1 as [|d s2]; [done|]. destruct (is_trail d) eqn:Ed; [|done].
    inversion Hs1 as [|? ? _ Hs2]; subst.
    apply Hf; [done | unfold ltof; cbn; lia |]. apply pct_units, utf8_bytes.
    pose proof (code_point_range c d El Ed). lia.
  - apply Hf; [done | unfold ltof; cbn; lia |]. apply pct_units, utf8_bytes. lia.
Qed.

Lemma esc_empty s : esc s = Ok [] -> s = [].
Proof.
  unfold esc. destruct s as [|c s1]; [done|]. cbn [encodeURIComponent].
  assert (Hu : forall cp, pct (utf8 cp) <> []).
  { intros cp. unfold utf8. by repeat case_match. }
  assert (Happ : forall p (r : res jstr), p <> [] -> app p <$> r = Ok [] -> False).
  { intros [|x p] [e|] Hp; done. }
  destruct (uri_unreserved c); [by destruct (encodeURIComponent s1)|].
  destruct (is_trail c); [done|]. destruct (is_lead c).
  - destruct s1 as [|d s2]; [done|]. destruct (is_trail d); [|done].
    intros H. by apply Happ in H.
  - intros H. by apply Happ in H.
Qed.

(** The units that give an address its structure. *)
Definition structural (c : Z) : Prop := path_unit c = false.

#[global] Instance structural_dec c : Decision (structural c).
Proof. unfold structural. apply _. Defined.

Definition skeleton (s : jstr) : jstr := filter structural s.

Definition params_wf (params : obj value) : Prop := Forall (fun kv => wf_jstr (to_str kv.2)) params.

Lemma prop_wf params name : params_wf params -> wf_jstr (to_str (prop params name)).
Proof.
  intros Hwf. unfold prop. destruct (get params name) as [v|] eqn:E; [|by by_decide].
  apply get_In in E. unfold params_wf in Hwf. rewrite Forall_forall in Hwf. by apply (Hwf _ E).
Qed.

Lemma skeleton_units s : Forall (fun c => path_unit c = true) s -> skeleton s = [].
Proof.
  unfold skeleton. induction 1 as [|c s Hc _ IH]; [done|]. rewrite filter_cons, decide_False; [done|].
  unfold structural. congruence.
Qed.

Lemma skeleton_app s t : skeleton (s ++ t) = skeleton s ++ skeleton t.
Proof. apply filter_app. Qed.

Lemma name_unit_path c : name_unit c = true -> path_unit c = true /\ c <> 58.
Proof.
  unfold name_unit, path_unit, uri_unreserved, is_alnum. rewrite !orb_true_iff, Z.eqb_eq.
  intros [[H|H]|H].
  - split; [tauto|]. unfold is_upper in H. intros ->. done.
  - split; [tauto|]. unfold is_lower in H. intros ->. done.
  - subst. split; [left; right; by_decide | done].
Qed.

(** What is left of a template: its units but the colons and the names. *)
Definition template_skeleton (t : jstr) : jstr := filter (fun c => structural c /\ c <> 58) t.

Definition outcome (params : obj value) (expected : jstr) (r : res jstr) : Prop :=
  match r with
  | Ok path => skeleton path = expected
  | Throw (Thrown m) => exists name, m = name ++ " is required" /\ to_str (prop params name) = []
  | Throw e => e = URIError
  end.

Lemma outcome_fill params name expected r :
  params_wf params -> outcome params expected r ->
  outcome params expected (v ← fill params name; r' ← r; Ok (v ++ r')).
Proof.
  intros Hwf Hr. unfold fill. destruct (esc (to_str (prop params name))) as [str|e] eqn:E; cbn.
  - destruct (decide (str = [])) as [->|Hne]; cbn.
    + exists name. split; [done | by apply esc_empty].
    + destruct r as [path|e]; cbn; [|done]. rewrite skeleton_app, (skeleton_units str); [done|].
      eapply esc_units; [by apply prop_wf | done].
  - assert (e = URIError) as -> by (by eapply esc_error). done.
Qed.

Lemma fill_scan_outcome params t : params_wf params -> forall inside,
  outcome params (template_skeleton t) (fill_scan params inside t).
Proof.
  intros Hwf. induction t as [|c t IH]; intros inside; cbn [fill_scan].
  { destruct inside as [name|]; [|done]. change (Ok []) with (Ok (@nil Z)).
    by apply (outcome_fill params name [] (Ok [])). }
  assert (Hplain : c <> 58 -> outcome params (template_skeleton (c :: t)) (cons c <$> fill_scan params None t)).
  { intros Hc. specialize (IH None). unfold template_skeleton in *. rewrite filter_cons.
    destruct (fill_scan params None t) as [path|e]; cbn [fmap res_fmap outcome] in *; [|done].
    unfold skeleton in *. rewrite filter_cons, IH. by case_decide; case_decide; naive_solver. }
  assert (Hcolon : c = 58 -> outcome params (template_skeleton (c :: t)) (fill_scan params (Some []) t)).
  { intros ->. unfold template_skeleton. rewrite filter_cons, decide_False by naive_solver. apply IH. }
  assert (Hnext : outcome params (template_skeleton (c :: t))
    (if c =? 58 then fill_scan params (Some []) t else cons c <$> fill_scan params None t)).
  { destruct (Z.eqb_spec c 58); auto. }
  destruct inside as [name|]; [|exact Hnext].
  destruct (name_unit c) eqn:En; [|by apply outcome_fill].
  apply name_unit_path in En as [Hu Hc]. unfold template_skeleton. rewrite filter_cons, decide_False.
  - apply IH.
  - unfold structural. intros [? _]. congruence.
Qed.



(** Templates by their pieces. *)
Lemma fill_literal ps l t : 58 ∉ l -> fill_scan ps None (l ++ t) = (r ← fill_scan ps None t; Ok (l ++ r)).
Proof.
  induction l as [|c l IH]; [intros _; cbn [app]; by destruct (fill_scan ps None t)|]. rewrite not_elem_of_cons. intros [Hc Hl].
  cbn [app fill_scan]. rewrite (proj2 (Z.eqb_neq c 58)) by done. rewrite IH by done.
  by destruct (fill_scan ps None t).
Qed.

Lemma fill_named ps acc name t :
  forallb name_unit name = true -> fill_scan ps (Some acc) (name ++ t) = fill_scan ps (Some (acc ++ name)) t.
Proof.
  revert acc. induction name as [|c name IH]; intros acc; [by rewrite app_nil_r|].
  cbn [forallb app fill_scan]. rewrite andb_true_iff. intros [-> Hn]. rewrite IH by done. by rewrite <- app_assoc.
Qed.

Lemma fill_parameter ps name t :
  forallb name_unit name = true -> match t with [] => True | c :: _ => name_unit c = false /\ c <> 58 end ->
  fill_scan ps None (58 :: name ++ t) = (v ← fill ps name; r ← fill_scan ps None t; Ok (v ++ r)).
Proof.
  intros Hn Ht. cbn [fill_scan]. rewrite Z.eqb_refl, fill_named by done. cbn [app]. destruct t as [|c t]; [done|].
  destruct Ht as [Hc H58]. cbn [fill_scan]. by rewrite Hc, (proj2 (Z.eqb_neq c 58)) by done.
Qed.

Lemma fill_text ps name v :
  get ps name = Some (VStr v) ->
  fill ps name = (str ← esc v; if decide (str = []) then Throw (Thrown (name ++ " is required")) else Ok str).
Proof. intros Hg. unfold fill, prop. by rewrite Hg. Qed.

(** A parameter that is missing is not refused: its text is "undefined". *)
Lemma missing_parameter :
  fill_path_template "/users/:username" [] = Ok (js "/users/undefined").
Proof. by vm_compute. Qed.

(** A name of two dots is kept, and a browser resolves it as a dot segment. *)
Lemma dot_segment :
  fill_path_template "/queues/:vhost/:name" [(js "vhost", VStr ".."); (js "name", VStr "q")] =
  Ok (js "/queues/../q").
Proof. by vm_compute. Qed.
