(* ===== verification/ChartRanges.v ===== *)
(** The periods of the charts (global.js, main.js): which ranges the retention
    policies of the server allow, and the range kept for the page of queues. *)
From S2P Require Import Prelude JsString JsNum Base64 Uri JsObject JsValue Columns Prefs.

(** A range [seconds|step] and its description. *)
Definition chart_range : Type := jstr * jstr.

Definition default_ranges : list (Z * chart_range) := [
  (60, (js "60|5", js "Last minute"));
  (600, (js "600|5", js "Last ten minutes"));
  (3600, (js "3600|60", js "Last hour"));
  (28800, (js "28800|600", js "Last eight hours"));
  (86400, (js "86400|1800", js "Last day"))].

Fixpoint default_range (n : Z) (rs : list (Z * chart_range)) : option chart_range :=
  match rs with
  | [] => None
  | (m, r) :: rs => if m =? n then Some r else default_range n rs
  end.

(** CHART_RANGES, with its two types of ranges. *)
Record chart_ranges := mk_ranges { global : list chart_range; basic : list chart_range }.

Definition CHART_RANGES : chart_ranges := mk_ranges [] [].

(** ALL_CHART_RANGES after the first loop of setup_chart_ranges. *)
Definition ALL_CHART_RANGES : obj jstr :=
  foldl (fun o d => put o d.2.1 d.2.2) [] default_ranges.

(** One type of ranges in setup_chart_ranges: the ranges of the policy that are
    known are appended, and the last minute is put first when it is missing. *)
Definition setup_range_type (ranges : list chart_range) (policy : option (list Z)) : list chart_range :=
  match policy with
  | None => ranges
  | Some srp =>
      let ranges := ranges ++ omap (fun n => default_range n default_ranges) srp in
      if decide (60 ∈ srp) then ranges
      else match default_range 60 default_ranges with
           | Some last_minute => last_minute :: ranges
           | None => ranges
           end
  end.

(** setup_chart_ranges(srp): the policies of the two types, when they are there. *)
Definition setup_chart_ranges (srp_global srp_basic : option (list Z)) (r : chart_ranges) : chart_ranges :=
  mk_ranges (setup_range_type (global r) srp_global) (setup_range_type (basic r) srp_basic).

(** get_chart_range_type *)
Definition get_chart_range_type (arg : jstr) : jstr :=
  if decide (arg = "lengths-over") then "global"
  else if decide (arg = "msg-rates-over") then "global"
  else if decide (arg = "lengths-q") then "basic"
  else if decide (arg = "msg-rates-q") then "basic"
  else if decide (arg = "queues") then "basic"
  else if decide (arg = "queue-churn") then "basic"
  else if decide (arg = "channel-churn") then "basic"
  else if decide (arg = "connection-churn") then "basic"
  else "basic".

Definition ranges_of (r : chart_ranges) (range_type : jstr) : list chart_range :=
  if decide (range_type = "global") then global r else basic r.

(** The loop of ensure_queues_chart_range: whether the range is valid, and the
    last range seen before that ([None]: undefined). *)
Fixpoint find_range (range : option jstr) (periods : list chart_range) (fixup : option jstr)
  : bool * option jstr :=
  match periods with
  | [] => (false, fixup)
  | (val, _) :: periods =>
      if decide (range = Some val) then (true, fixup) else find_range range periods (Some val)
  end.

Section Handlers.
Context {J : Type} {CJ : CookieJar J} {CK : Clock}.

(** ensure_queues_chart_range; an undefined fix is stored as its text. *)
Definition ensure_queues_chart_range (r : chart_ranges) : M (page J) unit :=
  range ← get_pref "chart-range";
  let chart_periods := ranges_of r (get_chart_range_type "queues") in
  let '(valid_range, fixup_range) := find_range range chart_periods None in
  if valid_range then skip else store_pref "chart-range" (default (js "undefined") fixup_range).

End Handlers.

(** ** Properties *)

Lemma find_range_spec range periods : forall fixup,
  match find_range range periods fixup with
  | (true, _) => exists v d, range = Some v /\ (v, d) ∈ periods
  | (false, f) =>
      (forall v d, (v, d) ∈ periods -> range <> Some v) /\
      (f = fixup /\ periods = [] \/ exists v d, f = Some v /\ (v, d) ∈ periods)
  end.
Proof.
  induction periods as [|[v d] periods IH]; intros fixup; cbn [find_range].
  { split; [by intros ? ? ?%elem_of_nil | by left]. }
  destruct (decide (range = Some v)) as [->|Hne]; [exists v, d; split; [done|left]|].
  specialize (IH (Some v)). destruct (find_range range periods (Some v)) as [[] f].
  - destruct IH as (v' & d' & -> & Hin). exists v', d'. split; [done | by right].
  - destruct IH as [H1 H2]. split.
    + intros v' d' [[= -> ->]|Hin]%elem_of_cons; [done | by eapply H1].
    + right. destruct H2 as [[-> ->]|(v' & d' & -> & Hin)]; [exists v, d | exists v', d'];
        (split; [done|]); [left | by right].
Qed.

(** The ranges of a type are never empty once a policy for it was read. *)
Lemma setup_range_nonempty ranges srp : setup_range_type ranges (Some srp) <> [].
Proof.
  unfold setup_range_type. case_decide as H; [|done]. intros Hnil.
  apply app_eq_nil in Hnil as [_ Hnil]. apply list_elem_of_split in H as (a & b & ->).
  rewrite omap_app in Hnil. cbn in Hnil. by destruct (omap _ a).
Qed.

Section Facts.
Context {J : Type} {CJ : CookieJar J} {CK : Clock}.
Implicit Types (p : page J).

Lemma get_pref_local p l k :
  local_storage p = Some l ->
  get_pref k p = (match l !! rabbit k with Some v => Ok (Some v) | None => default_pref (COLUMNS p) k end, p).
Proof.
  intros El. unfold get_pref, get_pref_or, mbind, M_bind. rewrite El. by destruct (l !! rabbit k).
Qed.

Lemma store_pref_local p l k v :
  local_storage p = Some l -> store_pref k v p = (Ok tt, set_local (<[rabbit k := v]> l) p).
Proof. intros El. unfold store_pref, store_local_pref. by rewrite El. Qed.

(** Once the retention policies were read, the page of queues always finds
    a range that the server keeps: the one of the user when it is valid, which
    is then left alone, and otherwise the last valid one, which is stored. *)
Theorem ensure_queues_chart_range_valid p l srp_global srp r0 :
  local_storage p = Some l ->
  let r := setup_chart_ranges srp_global (Some srp) r0 in
  exists p' v d, ensure_queues_chart_range r p = (Ok tt, p') /\
    (get_pref "chart-range" p').1 = Ok (Some v) /\ (v, d) ∈ basic r /\
    (forall v0 d0, (get_pref "chart-range" p).1 = Ok (Some v0) -> (v0, d0) ∈ basic r -> p' = p).
Proof.
  intros El r. pose proof (setup_range_nonempty (basic r0) srp) as Hne.
  change (basic r <> []) in Hne. generalize dependent r. intros r Hne. clear srp_global srp r0.
  unfold ensure_queues_chart_range. unfold mbind at 1, M_bind at 1.
  rewrite (get_pref_local p l _ El).
  assert (Hcur : exists v0, (match l !! rabbit "chart-range" with
    | Some v => Ok (Some v) | None => default_pref (COLUMNS p) "chart-range" end) = Ok (Some v0)).
  { destruct (l !! rabbit "chart-range"); [eauto | exists (js "60|5"); by vm_compute]. }
  destruct Hcur as [v0 Hcur]. rewrite Hcur. change (ranges_of r _) with (basic r). cbn [fst].
  pose proof (find_range_spec (Some v0) (basic r) None) as Hf.
  destruct (find_range (Some v0) (basic r) None) as [[] f].
  - destruct Hf as (v & d & [= <-] & Hin). exists p, v0, d. rewrite (get_pref_local p l _ El), Hcur.
    split_and!; done.
  - destruct Hf as [Hno [[_ Hnil]|(v & d & -> & Hin)]]; [done|]. cbn [default from_option].
    eexists _, v, d. split; [by apply store_pref_local|].
    rewrite (get_pref_local _ (<[rabbit "chart-range" := v]> l)) by done. cbn [fst].
    rewrite lookup_insert_eq. split_and!; [done..|]. intros v1 d1 [= ->] Hin1. by destruct (Hno v1 d1).
Qed.

End Facts.
