(* ===== verification/Ejs.v ===== *)
(** Templates (ejs-1.0.js): the scanner, which splits a template into lines and
    lines into tokens, the compiler, which turns the tokens into the statements of a
    function, and the cache of the templates, which main.js fills (format). *)
From S2P Require Import Prelude JsString JsNum JsObject JsValue.

(** ** Splitting by an expression

    [matches s] is the length of what the expression matches at the head of [s]. *)

Section Split.
Variable matches : jstr -> option nat.

(** [regex.exec(s)]: the leftmost match, as its place and its length. *)
Fixpoint exec (s : jstr) : option (nat * nat) :=
  match matches s with
  | Some n => Some (0%nat, n)
  | None => match s with [] => None | _ :: s => '(i, n) ← exec s; Some (S i, n) end
  end.

(** rsplit: what is between the matches, and the matches; each turn takes a match
    off the text, so that its length is fuel enough. *)
Fixpoint rsplit_loop (fuel : nat) (s : jstr) : list jstr :=
  match fuel with
  | O => []
  | S fuel =>
      match exec s with
      | Some (first_idx, n) =>
          (if decide (first_idx = 0%nat) then [] else [take first_idx s]) ++
          take n (drop first_idx s) :: rsplit_loop fuel (drop (first_idx + n) s)
      | None => match s with [] => [] | _ => [s] end
      end
  end.

Definition rsplit (s : jstr) : list jstr := rsplit_loop (S (length s)) s.

End Split.

(** An expression that is a choice of words: the first one that is there. *)
Fixpoint one_of (words : list jstr) (s : jstr) : option nat :=
  match words with
  | [] => None
  | w :: words => if starts_with s w then Some (length w) else one_of words s
  end.

(** ** EJS.Scanner *)

(** The two kinds of brackets. *)
Inductive bracket := Angle | Square.

Definition left_ (b : bracket) : jstr := match b with Angle => js "<" | Square => js "[" end.
Definition right_ (b : bracket) : jstr := match b with Angle => js ">" | Square => js "]" end.

Definition left_delimiter (b : bracket) : jstr := left_ b ++ "%".
Definition right_delimiter (b : bracket) : jstr := "%" ++ right_ b.
Definition double_left (b : bracket) : jstr := left_ b ++ "%%".
Definition double_right (b : bracket) : jstr := "%%" ++ right_ b.
Definition left_equal (b : bracket) : jstr := left_ b ++ "%=".
Definition left_comment (b : bracket) : jstr := left_ b ++ "%#".

(** SplitRegexp: for angles the second choice gets its two signs twice. *)
Definition SplitRegexp (b : bracket) : list jstr :=
  [double_left b; (match b with Angle => "%%" ++ double_right b | Square => double_right b end);
   left_equal b; left_comment b; left_delimiter b; right_delimiter b ++ [10]; right_delimiter b; [10]].

Definition newline : list jstr := [[10]].

(** The tokens that scan hands to the compiler, line by line. *)
Definition scan (b : bracket) (source : jstr) : list jstr :=
  concat (map (rsplit (one_of (SplitRegexp b))) (rsplit (one_of newline) source)).

(** ** EJS.Compiler *)

(** A statement of the function: given as it is; or one that puts a text (at the end
    of a line, or before a tag) or the text of an expression into the output. *)
Inductive cmd :=
  | Statement (s : jstr)
  | PutLine (s : jstr)
  | Put (s : jstr)
  | Insert (e : jstr).

(** clean: what can stand between double quotes. *)
Definition clean (content : jstr) : jstr :=
  replace_unit 34 [92; 34] (replace_unit 10 [92; 110] (replace_unit 92 [92; 92] content)).

Definition put_cmd : jstr := "___ViewO.push(".

Definition cmd_text (c : cmd) : jstr :=
  match c with
  | Statement s => s
  | PutLine s => put_cmd ++ [34] ++ clean s ++ [34] ++ ");"
  | Put s => put_cmd ++ [34] ++ clean s ++ [34] ++ ")"
  | Insert e => put_cmd ++ "(EJS.Scanner.to_text(" ++ e ++ ")))"
  end.

(** EJS.Buffer: the lines that are over and the one that is filled. *)
Record buffer := mk_buffer { done_lines : list (list cmd); line : list cmd }.

Definition push (c : cmd) (b : buffer) : buffer := mk_buffer (done_lines b) (line b ++ [c]).
Definition cr (b : buffer) : buffer := mk_buffer (done_lines b ++ [line b]) [].

Definition line_text (l : list cmd) : jstr := join "; " (map cmd_text l).

(** The script, once the buffer is closed. *)
Definition script (b : buffer) : jstr :=
  concat (map (fun l => line_text l ++ [10]) (done_lines b)) ++ line_text (line b).

Definition commands (b : buffer) : list cmd := concat (done_lines b) ++ line b.

(** The kinds of tags, and the state of the compiler. *)
Inductive stag := Code | Equal | Comment.
Record compiler := mk_compiler { tag : option stag; content : jstr; buff : buffer }.

Definition add (s : jstr) (c : compiler) : compiler := mk_compiler (tag c) (content c ++ s) (buff c).

(** A tag begins: the text before it is put out. *)
Definition open_tag (t : stag) (c : compiler) : compiler :=
  mk_compiler (Some t) [] (match content c with [] => buff c | s => push (Put s) (buff c) end).

(** The end of a tag. *)
Definition close_tag (t : stag) (c : compiler) : compiler :=
  mk_compiler None []
    (match t with
     | Code =>
         if bool_decide (last (content c) = Some 10)
         then cr (push (Statement (removelast (content c))) (buff c))
         else push (Statement (content c)) (buff c)
     | Equal => push (Insert (content c)) (buff c)
     | Comment => buff c
     end).

(** The function given to scan. *)
Definition block (b : bracket) (c : compiler) (token : jstr) : compiler :=
  match tag c with
  | None =>
      if decide (token = [10]) then
        mk_compiler None [] (cr (push (PutLine (content c ++ [10])) (buff c)))
      else if decide (token = left_delimiter b) then open_tag Code c
      else if decide (token = left_equal b) then open_tag Equal c
      else if decide (token = left_comment b) then open_tag Comment c
      else if decide (token = double_left b) then add (left_delimiter b) c
      else add token c
  | Some t =>
      if decide (token = right_delimiter b) then close_tag t c
      else if decide (token = double_right b) then add (right_delimiter b) c
      else add token c
  end.

Definition pre_cmd : jstr := "var ___ViewO = [];".
Definition start : compiler := mk_compiler None [] (push (Statement pre_cmd) (mk_buffer [] [])).

(** The line ends of the source, as the compiler makes them. *)
Fixpoint line_ends (s : jstr) : jstr :=
  match s with
  | 13 :: 10 :: s => 10 :: line_ends s
  | 13 :: s => 10 :: line_ends s
  | c :: s => c :: line_ends s
  | [] => []
  end.

(** compile: the text that is left at the end is put out, even inside a tag. *)
Definition finish (c : compiler) : buffer :=
  match content c with [] => buff c | s => push (Put s) (buff c) end.

Definition compile (b : bracket) (source : jstr) : buffer :=
  finish (foldl (block b) start (scan b (line_ends source))).

Definition out (b : bracket) (source : jstr) : jstr := script (compile b source) ++ ";".

Example compiled :
  commands (compile Angle ("a`b<%= x %> c" ++ [10] ++ "<%# no %><%%d")) =
  [Statement pre_cmd; Put "a`b"; Insert " x "; PutLine (" c" ++ [10]); Put "<%d"].
Proof. by vm_compute. Qed.

(** In angles the end of a tag cannot be written inside it: the second choice of the
    expression is never found. *)
Example double_right_closes :
  commands (compile Angle "<%= a %%> b") = [Statement pre_cmd; Insert " a %"; Put " b"] /\
  commands (compile Square "[%= a %%] b %]") = [Statement pre_cmd; Insert " a %] b "].
Proof. split; by vm_compute. Qed.

Example compiled_text : out Angle ("a" ++ [10] ++ "<% if (x) { %>") =
  "var ___ViewO = [];; ___ViewO.push(`a\n`);" ++ [10] ++ " if (x) { ;".
Proof. by vm_compute. Qed.

(** ** Splitting loses nothing *)

Section SplitFacts.
Variable matches : jstr -> option nat.
Hypothesis Hm : forall s n, matches s = Some n -> (0 < n <= length s)%nat.

Lemma exec_some s i n : exec matches s = Some (i, n) ->
  matches (drop i s) = Some n /\ (i < length s)%nat /\ forall j, (j < i)%nat -> matches (drop j s) = None.
Proof using Hm.
  revert i. induction s as [|c s IH]; intros i; cbn [exec].
  - destruct (matches []) as [k|] eqn:E; [|done]. apply Hm in E. cbn in E. lia.
  - destruct (matches (c :: s)) as [k|] eqn:E.
    + intros [= <- <-]. split; [done|]. split; [cbn; lia|lia].
    + destruct (exec matches s) as [[i' n']|]; [|done]. intros [= <- <-].
      destruct (IH i' eq_refl) as (H1 & H2 & H3). split; [done|]. split; [cbn; lia|].
      intros [|j] Hj; [done|]. apply H3. lia.
Qed.

Lemma exec_none s : exec matches s = None -> forall j, matches (drop j s) = None.
Proof.
  induction s as [|c s IH]; cbn [exec]; intros H j.
  - rewrite drop_nil. revert H. by destruct (matches []).
  - destruct (matches (c :: s)) eqn:E; [done|]. destruct j as [|j]; [done|]. apply IH.
    by destruct (exec matches s) as [[]|].
Qed.

Lemma rsplit_loop_concat fuel s : (length s < fuel)%nat -> concat (rsplit_loop matches fuel s) = s.
Proof using Hm.
  revert s. induction fuel as [|fuel IH]; intros s Hf; [lia|]. cbn [rsplit_loop].
  destruct (exec matches s) as [[i n]|] eqn:E; [|destruct s as [|c s]; [done|apply app_nil_r]].
  apply exec_some in E as (E & Hi & _). apply Hm in E. rewrite length_drop in E.
  rewrite concat_app. cbn [concat]. rewrite IH by (rewrite length_drop; lia).
  rewrite <- drop_drop, take_drop.
  destruct (decide (i = 0%nat)) as [->|_]; [done|]. cbn [concat]. rewrite app_nil_r. apply take_drop.
Qed.

Lemma rsplit_concat s : concat (rsplit matches s) = s.
Proof using Hm. apply rsplit_loop_concat. lia. Qed.

(** ** Splitting and reading unit by unit *)

(** One reading of the text: a match at a time, and a unit where there is none. *)
Fixpoint lex {A} (f : A -> jstr -> A) (fuel : nat) (s : jstr) (a : A) : A :=
  match fuel, s with
  | S fuel, c :: s' =>
      match matches s with
      | Some n => lex f fuel (drop n s) (f a (take n s))
      | None => lex f fuel s' (f a [c])
      end
  | _, _ => a
  end.

Lemma lex_fuel {A} (f : A -> jstr -> A) fuel n s a :
  (length s <= fuel)%nat -> (length s <= n)%nat -> lex f fuel s a = lex f n s a.
Proof using Hm.
  revert s a n. induction fuel as [|fuel IH]; intros s a n Hf Hn.
  - destruct s; [by destruct n|]. cbn in Hf. lia.
  - destruct s as [|c s]; [by destruct n|]. destruct n as [|n]; [cbn in Hn; lia|]. cbn [lex].
    destruct (matches (c :: s)) as [k|] eqn:E; [apply Hm in E|]; apply IH; rewrite ?length_drop; cbn in *; lia.
Qed.

Definition lexed {A} (f : A -> jstr -> A) (s : jstr) (a : A) : A := lex f (length s) s a.

Lemma lexed_match {A} (f : A -> jstr -> A) s n a :
  matches s = Some n -> lexed f s a = lexed f (drop n s) (f a (take n s)).
Proof using Hm.
  intros E. pose proof (Hm _ _ E) as Hn. unfold lexed. destruct s as [|c s]; [cbn in Hn; lia|].
  cbn [length lex]. rewrite E. apply lex_fuel; rewrite length_drop; cbn in *; lia.
Qed.

Lemma lexed_unit {A} (f : A -> jstr -> A) c s a :
  matches (c :: s) = None -> lexed f (c :: s) a = lexed f s (f a [c]).
Proof. intros E. unfold lexed. cbn [length lex]. by rewrite E. Qed.

(** Where nothing matches the units are read one by one. *)
Lemma lexed_run {A} (f : A -> jstr -> A) r rest a :
  (forall j, (j < length r)%nat -> matches (drop j (r ++ rest)) = None) ->
  lexed f (r ++ rest) a = lexed f rest (foldl (fun a c => f a [c]) a r).
Proof.
  revert a. induction r as [|c r IH]; intros a H; [done|]. cbn [app foldl].
  rewrite lexed_unit by apply (H 0%nat ltac:(cbn; lia)). apply IH. intros j Hj. apply (H (S j)). cbn. lia.
Qed.

(** Tokens may be read unit by unit when those between the matches can. *)
Lemma foldl_rsplit {A} (f : A -> jstr -> A) s a :
  (forall a r rest, r <> [] -> (forall j, (j < length r)%nat -> matches (drop j (r ++ rest)) = None) ->
    f a r = foldl (fun a c => f a [c]) a r) ->
  foldl f a (rsplit matches s) = lexed f s a.
Proof using Hm.
  intros Hrun. unfold rsplit. assert (Hf : (length s < S (length s))%nat) by lia. revert Hf.
  generalize (S (length s)) as fuel. intros fuel. revert s a.
  induction fuel as [|fuel IH]; intros s a Hf; [lia|]. cbn [rsplit_loop].
  destruct (exec matches s) as [[i n]|] eqn:E.
  - apply exec_some in E as (E & Hi & Hno). pose proof (Hm _ _ E) as Hn. rewrite length_drop in Hn.
    transitivity (lexed f (take i s ++ drop i s) a); [|by rewrite take_drop]. rewrite lexed_run.
    2: { rewrite length_take. intros j Hj. rewrite take_drop. apply Hno. lia. }
    rewrite (lexed_match f (drop i s) n) by done. rewrite drop_drop, <- IH by (rewrite length_drop; lia).
    rewrite foldl_app. cbn [foldl]. f_equal. f_equal. destruct (decide (i = 0%nat)) as [->|H0]; [done|]. cbn [foldl].
    apply (Hrun a (take i s) (drop i s)).
    + intros He. apply (f_equal length) in He. rewrite length_take in He. cbn in He. lia.
    + rewrite length_take. intros j Hj. rewrite take_drop. apply Hno. lia.
  - pose proof (exec_none s E) as Hno. destruct s as [|c s]; [done|].
    cbn [foldl]. transitivity (lexed f ((c :: s) ++ []) a); [|by rewrite app_nil_r].
    rewrite lexed_run by (intros; by rewrite app_nil_r). apply (Hrun a (c :: s) []); [done|]. intros j _. by rewrite app_nil_r.
Qed.
End SplitFacts.

(** ** Words *)

Lemma one_of_some words s n :
  one_of words s = Some n -> exists w t, w ∈ words /\ s = w ++ t /\ n = length w.
Proof.
  induction words as [|w words IH]; cbn [one_of]; [done|]. destruct (starts_with s w) eqn:E.
  - intros [= <-]. apply starts_with_spec in E as [t ->]. exists w, t. split; [left|done].
  - intros H. destruct (IH H) as (w' & t & Hw & He). exists w', t. split; [by right|done].
Qed.

Lemma one_of_range words : [] ∉ words -> forall s n, one_of words s = Some n -> (0 < n <= length s)%nat.
Proof.
  intros Hne s n (w & t & Hw & -> & ->)%one_of_some. rewrite length_app. destruct w; [done|]. cbn. lia.
Qed.

Lemma one_of_hit words w t : w ∈ words -> one_of words (w ++ t) <> None.
Proof.
  induction words as [|w' words IH]; [by intros ?%elem_of_nil|]. intros [->|H]%elem_of_cons; cbn [one_of].
  - assert (starts_with (w' ++ t) w' = true) as -> by (apply starts_with_spec; by exists t). done.
  - destruct (starts_with _ w'); [done|auto].
Qed.

(** A word of one line is found before the end of the line or not at all. *)
Lemma starts_with_line r rest w : 10 ∉ w -> starts_with (r ++ 10 :: rest) w = starts_with r w.
Proof.
  revert r. induction w as [|d w IH]; intros r; [by destruct r|]. rewrite not_elem_of_cons. intros [Hd Hw].
  destruct r as [|c r]; cbn [app starts_with]; [by rewrite (proj2 (Z.eqb_neq d 10)) by congruence|]. by rewrite IH.
Qed.

Lemma starts_with_no_line r w : 10 ∈ w -> 10 ∉ r -> starts_with r w = false.
Proof.
  intros Hw Hr. apply not_true_iff_false. intros [t ->]%starts_with_spec. apply Hr, elem_of_app. by left.
Qed.

(** ** The compiler reads a template unit by unit

    The reference: at each place a token, if one begins there, and otherwise one
    unit; line ends are tokens. *)
Definition reference_tokens : list jstr :=
  [double_left Angle; js "%%%%>"; left_equal Angle; left_comment Angle; left_delimiter Angle;
   right_delimiter Angle; [10]].

Definition read_template {A} (f : A -> jstr -> A) (s : jstr) (a : A) : A := lexed (one_of reference_tokens) f s a.

Lemma reference_range s n : one_of reference_tokens s = Some n -> (0 < n <= length s)%nat.
Proof. apply one_of_range. by_decide. Qed.

Lemma token_range b s n : one_of (SplitRegexp b) s = Some n -> (0 < n <= length s)%nat.
Proof. apply one_of_range. destruct b; by_decide. Qed.

Lemma newline_range s n : one_of newline s = Some n -> (0 < n <= length s)%nat.
Proof. apply one_of_range. by_decide. Qed.

Lemma tokens_line r : 10 ∉ r -> one_of (SplitRegexp Angle) r = one_of reference_tokens r.
Proof.
  intros Hr. cbn [one_of SplitRegexp reference_tokens].
  rewrite (starts_with_no_line r (right_delimiter Angle ++ [10])) by (done || (apply elem_of_app; right; left)). done.
Qed.

Lemma reference_line r rest : r <> [] -> 10 ∉ r ->
  one_of reference_tokens (r ++ 10 :: rest) = one_of reference_tokens r.
Proof.
  intros Hne Hr. cbn [one_of reference_tokens].
  rewrite !(starts_with_line r rest) by by_decide. destruct r as [|c r]; [done|].
  apply not_elem_of_cons in Hr as [Hc _]. change ((c :: r) ++ 10 :: rest) with (c :: (r ++ 10 :: rest)).
  by rewrite !(starts_with_single 10 c), (proj2 (Z.eqb_neq 10 c)).
Qed.

Lemma read_line {A} (f : A -> jstr -> A) r rest a : 10 ∉ r ->
  read_template f (r ++ 10 :: rest) a = read_template f (10 :: rest) (lexed (one_of (SplitRegexp Angle)) f r a).
Proof.
  revert a. induction r as [r IH] using (induction_ltof1 _ length). intros a Hr. unfold ltof in IH.
  destruct r as [|c r]; [done|]. unfold read_template.
  destruct (one_of reference_tokens (c :: r)) as [n|] eqn:E.
  - pose proof (reference_range _ _ E) as Hn. rewrite (lexed_match _ reference_range f _ n) by by rewrite reference_line.
    rewrite (lexed_match _ (token_range Angle) f (c :: r) n) by by rewrite tokens_line.
    rewrite drop_app_le, take_app_le by lia. apply IH; [rewrite length_drop; cbn in *; lia|].
    intros H. apply Hr. rewrite <- (take_drop n (c :: r)). apply elem_of_app. by right.
  - change ((c :: r) ++ 10 :: rest) with (c :: (r ++ 10 :: rest)).
    rewrite (lexed_unit _ f c (r ++ _)) by (change (c :: (r ++ 10 :: rest)) with ((c :: r) ++ 10 :: rest); by rewrite reference_line).
    rewrite (lexed_unit _ f c r) by by rewrite tokens_line. apply IH; [cbn; lia|]. intros H. apply Hr. by right.
Qed.

Lemma newline_none c s : 10 <> c -> one_of newline (c :: s) = None.
Proof. intros Hc. cbn [one_of newline]. by rewrite (starts_with_single 10 c), (proj2 (Z.eqb_neq 10 c)). Qed.

Lemma exec_newline r rest : 10 ∉ r -> exec (one_of newline) (r ++ 10 :: rest) = Some (length r, 1%nat).
Proof.
  induction r as [|c r IH]; [done|]. rewrite not_elem_of_cons. intros [Hc Hr]. cbn [app exec].
  by rewrite newline_none, IH.
Qed.

Lemma exec_no_newline r : 10 ∉ r -> exec (one_of newline) r = None.
Proof.
  induction r as [|c r IH]; [done|]. rewrite not_elem_of_cons. intros [Hc Hr]. cbn [exec].
  by rewrite newline_none, IH.
Qed.

Lemma line_split (s : jstr) : 10 ∉ s \/ exists r rest, s = r ++ 10 :: rest /\ 10 ∉ r.
Proof.
  induction s as [|c s IH]; [left; apply not_elem_of_nil|]. destruct (decide (c = 10)) as [->|Hc].
  - right. exists [], s. split; [done|apply not_elem_of_nil].
  - destruct IH as [H|(r & rest & -> & H)]; [left|right; exists (c :: r), rest; split; [done|]];
      rewrite not_elem_of_cons; split; congruence.
Qed.

(** What the compiler is given, line by line and token by token, is what the
    reference reads, when the texts between the tokens can be read unit by unit. *)
Lemma scan_reads {A} (f : A -> jstr -> A) source a :
  (forall a r rest, r <> [] -> (forall j, (j < length r)%nat -> one_of (SplitRegexp Angle) (drop j (r ++ rest)) = None) ->
    f a r = foldl (fun a c => f a [c]) a r) ->
  foldl f a (scan Angle source) = read_template f source a.
Proof.
  intros Hrun. unfold scan, rsplit at 2.
  assert (Hf : (length source < S (length source))%nat) by lia. revert Hf.
  generalize (S (length source)) as fuel. intros fuel. revert source a.
  assert (Hline : forall r a, foldl f a (rsplit (one_of (SplitRegexp Angle)) r) = lexed (one_of (SplitRegexp Angle)) f r a).
  { intros r a. apply foldl_rsplit; [apply token_range|exact Hrun]. }
  assert (Hend : forall r a, 10 ∉ r -> lexed (one_of (SplitRegexp Angle)) f r a = read_template f r a).
  { intros r a Hr. pose proof (read_line f r [] a Hr) as H. clear Hrun Hline. revert a H.
    induction r as [r IH] using (induction_ltof1 _ length). intros a _. unfold ltof in IH. unfold read_template in *.
    destruct r as [|c r]; [done|]. destruct (one_of reference_tokens (c :: r)) as [n|] eqn:E.
    - pose proof (reference_range _ _ E) as Hn.
      rewrite (lexed_match _ reference_range f (c :: r) n) by done.
      rewrite (lexed_match _ (token_range Angle) f (c :: r) n) by by rewrite tokens_line.
      assert (Hd : 10 ∉ drop n (c :: r)).
      { intros H. apply Hr. rewrite <- (take_drop n (c :: r)). apply elem_of_app. by right. }
      apply IH; [rewrite length_drop; cbn in *; lia|done|by apply read_line].
    - rewrite (lexed_unit _ f c r) by by rewrite tokens_line. rewrite (lexed_unit _ f c r) by done.
      assert (Hd : 10 ∉ r) by (intros H; apply Hr; by right). apply IH; [cbn; lia|done|by apply read_line]. }
  induction fuel as [|fuel IH]; intros source a Hf; [lia|]. cbn [rsplit_loop].
  destruct (line_split source) as [Hno|(r & rest & -> & Hr)].
  - rewrite exec_no_newline by done. destruct source as [|c s]; [done|]. cbn [map concat]. rewrite app_nil_r, Hline.
    by apply Hend.
  - rewrite exec_newline by done. rewrite take_app_length, drop_app_length.
    rewrite <- drop_drop, drop_app_length. cbn [take drop].
    rewrite read_line by done. unfold read_template at 1.
    rewrite (lexed_match _ reference_range f (10 :: rest) 1) by done. cbn [take drop].
    fold (read_template f rest (f (lexed (one_of (SplitRegexp Angle)) f r a) [10])).
    rewrite length_app in Hf. cbn [length] in Hf. rewrite <- (IH rest) by lia.
    rewrite take_0, drop_0.
    assert (Hten : rsplit (one_of (SplitRegexp Angle)) [10] = [[10]]) by by vm_compute.
    rewrite map_app, concat_app, foldl_app. cbn [map concat]. rewrite Hten. cbn [app]. cbn [foldl].
    f_equal. f_equal. destruct (decide (length r = 0%nat)) as [H0|_].
    + apply nil_length_inv in H0 as ->. done.
    + cbn [map concat]. by rewrite app_nil_r, Hline.
Qed.

Lemma token_not_none w t : w ∈ SplitRegexp Angle -> one_of (SplitRegexp Angle) (w ++ t) = None -> False.
Proof. intros Hw. by apply one_of_hit. Qed.

(** A text with no token in it. *)
Lemma free_text r rest :
  (forall j, (j < length r)%nat -> one_of (SplitRegexp Angle) (drop j (r ++ rest)) = None) ->
  10 ∉ r /\ r ∉ [left_delimiter Angle; left_equal Angle; left_comment Angle; double_left Angle;
                 right_delimiter Angle; double_right Angle; [10]].
Proof.
  intros Hno. split.
  - intros (i & Hi)%list_elem_of_lookup_1. pose proof (lookup_lt_Some _ _ _ Hi) as Hl. specialize (Hno i Hl).
    rewrite drop_app_le in Hno by lia. rewrite (drop_S r 10 i Hi) in Hno.
    eapply (token_not_none [10]); [|exact Hno]. by_decide.
  - assert (Hat : forall w, r = w -> w <> [] -> w ∈ SplitRegexp Angle -> False).
    { intros w -> Hne Hw. eapply token_not_none; [exact Hw|]. apply (Hno 0%nat). destruct w; [done|cbn; lia]. }
    rewrite !not_elem_of_cons. split_and!; try apply not_elem_of_nil;
      intros He; try (apply (Hat _ He); [done|by_decide]).
    subst r. eapply (token_not_none (right_delimiter Angle)); [by_decide|]. apply (Hno 1%nat). cbn. lia.
Qed.

Lemma block_add token c :
  token ∉ [left_delimiter Angle; left_equal Angle; left_comment Angle; double_left Angle;
           right_delimiter Angle; double_right Angle; [10]] -> block Angle c token = add token c.
Proof.
  rewrite !not_elem_of_cons. intros (H1 & H2 & H3 & H4 & H5 & H6 & H7 & _).
  unfold block. by destruct (tag c); rewrite !decide_False by done.
Qed.

Lemma unit_add u c : u <> 10 -> block Angle c [u] = add [u] c.
Proof. intros Hu. apply block_add. rewrite !not_elem_of_cons. split_and!; try done; [congruence|apply not_elem_of_nil]. Qed.

Lemma add_units r c : 10 ∉ r -> foldl (fun c u => block Angle c [u]) c r = add r c.
Proof.
  revert c. induction r as [|u r IH]; intros c.
  - intros _. destruct c. unfold add. cbn. by rewrite app_nil_r.
  - rewrite not_elem_of_cons. intros [Hu Hr]. cbn [foldl]. rewrite IH by done. rewrite unit_add by congruence.
    unfold add. cbn. by rewrite <- app_assoc.
Qed.

(** The compiler is the reference reading with its own function. *)
Lemma compile_reads source :
  compile Angle source = finish (read_template (block Angle) (line_ends source) start).
Proof.
  unfold compile. f_equal. apply scan_reads. intros c r rest _ Hno.
  destruct (free_text r rest Hno) as [H10 Hr]. by rewrite block_add, add_units.
Qed.

(** ** What a template means *)

(** The tags of a template, and a template: texts with a tag after each, and the
    last text. *)
Inductive segment := Script (code : jstr) | Output (e : jstr) | Remark (s : jstr).
Definition template : Type := list (jstr * segment) * jstr.

Definition print_segment (g : segment) : jstr :=
  match g with
  | Script code => "<%" ++ code ++ "%>"
  | Output e => "<%=" ++ e ++ "%>"
  | Remark s => "<%#" ++ s ++ "%>"
  end.

Definition print_template (t : template) : jstr :=
  flat_map (fun p => p.1 ++ print_segment p.2) t.1 ++ t.2.

(** What the function does, in order: units that are put out, expressions whose
    texts are, and statements. *)
Inductive action := Char (u : Z) | Show (e : jstr) | Do (s : jstr).

Definition cmd_actions (c : cmd) : list action :=
  match c with
  | PutLine s | Put s => map Char s
  | Insert e => [Show e]
  | Statement s => [Do s]
  end.

Definition segment_actions (g : segment) : list action :=
  match g with
  | Script code => [Do (if decide (last code = Some 10) then removelast code else code)]
  | Output e => [Show e]
  | Remark _ => []
  end.

Definition template_actions (t : template) : list action :=
  flat_map (fun p => map Char p.1 ++ segment_actions p.2) t.1 ++ map Char t.2.

Definition actions (b : buffer) : list action := flat_map cmd_actions (commands b).

(** A text that opens no tag; a code that neither ends its tag nor holds another
    token, whose end cannot join the sign that ends the tag. *)
Definition no_pair (x y : Z) (s : jstr) : Prop := forall j t, drop j s <> x :: y :: t.
Definition text_ok (s : jstr) : Prop := no_pair 60 37 s /\ 13 ∉ s.
Definition code_ok (s : jstr) : Prop :=
  no_pair 60 37 s /\ no_pair 37 62 s /\ last s <> Some 60 /\ last s <> Some 37 /\ 13 ∉ s.
Definition segment_ok (g : segment) : Prop :=
  match g with
  | Script code => code_ok code /\ head code ∉ [None; Some 37; Some 61; Some 35]
  | Output e => code_ok e
  | Remark s => code_ok s
  end.
Definition template_ok (t : template) : Prop :=
  Forall (fun p => text_ok p.1 /\ segment_ok p.2) t.1 /\ text_ok t.2.

(** What was done so far, with the text that waits. *)
Definition acts (c : compiler) : list action := actions (buff c) ++ map Char (content c).

Lemma actions_push d b : actions (push d b) = actions b ++ cmd_actions d.
Proof.
  unfold actions, commands, push. cbn. rewrite app_assoc, flat_map_app. cbn. by rewrite app_nil_r.
Qed.

Lemma actions_cr b : actions (cr b) = actions b.
Proof. unfold actions, commands, cr. cbn. rewrite concat_app. cbn. by rewrite !app_nil_r. Qed.

Lemma acts_add s c : acts (add s c) = acts c ++ map Char s.
Proof. unfold acts, add. cbn. by rewrite map_app, app_assoc. Qed.

Lemma acts_open t c : acts (open_tag t c) = acts c.
Proof.
  unfold acts, open_tag. cbn. rewrite app_nil_r.
  destruct (content c) as [|u s]; [by rewrite app_nil_r|]. by rewrite actions_push.
Qed.

Lemma acts_close t e c : content c = [] ->
  acts (close_tag t (add e c)) =
  acts c ++ match t with
            | Code => [Do (if decide (last e = Some 10) then removelast e else e)]
            | Equal => [Show e]
            | Comment => []
            end.
Proof.
  intros Hc. unfold acts, close_tag, add. cbn. rewrite Hc, !app_nil_r. cbn [app].
  destruct t; [|by rewrite actions_push|by rewrite app_nil_r].
  destruct (decide (last e = Some 10)) as [He|He].
  - rewrite bool_decide_eq_true_2 by done. by rewrite actions_cr, actions_push.
  - rewrite bool_decide_eq_false_2 by done. by rewrite actions_push.
Qed.

Lemma no_pair_app x y w s : no_pair x y (w ++ s) -> no_pair x y s.
Proof. intros H j t. specialize (H (length w + j)%nat t). by rewrite <- drop_drop, drop_app_length in H. Qed.

(** A word without the sign that opens a tag lies in the text before it. *)
Lemma prefix_in_text (s rest w t : jstr) :
  s ++ rest = w ++ t -> 60 ∉ w -> (rest = [] \/ head rest = Some 60) -> exists s', s = w ++ s'.
Proof.
  revert s. induction w as [|u w IH]; intros s He Hw Hrest; [by exists s|].
  apply not_elem_of_cons in Hw as [Hu Hw]. destruct s as [|v s].
  - cbn in He. subst rest. destruct Hrest as [Hr|Hr]; [done|]. cbn in Hr. congruence.
  - injection He as -> He. destruct (IH s He Hw Hrest) as [s' ->]. by exists s'.
Qed.

Lemma read_text s rest c :
  tag c = None -> text_ok s -> (rest = [] \/ head rest = Some 60) ->
  exists c', read_template (block Angle) (s ++ rest) c = read_template (block Angle) rest c' /\
    tag c' = None /\ acts c' = acts c ++ map Char s.
Proof.
  revert c. induction s as [s IH] using (induction_ltof1 _ length). intros c Hc [Hs Hcr] Hrest. unfold ltof in IH.
  destruct s as [|u s].
  { exists c. split; [done|]. split; [done|]. by rewrite app_nil_r. }
  assert (Hstep : forall w s', u :: s = w ++ s' -> w <> [] -> forall c1, tag c1 = None -> acts c1 = acts c ++ map Char w ->
    read_template (block Angle) ((u :: s) ++ rest) c = read_template (block Angle) (s' ++ rest) c1 ->
    exists c', read_template (block Angle) ((u :: s) ++ rest) c = read_template (block Angle) rest c' /\
      tag c' = None /\ acts c' = acts c ++ map Char (u :: s)).
  { intros w s' He Hw c1 Hc1 Ha Hr. destruct (IH s') with (c := c1) as (c' & H1 & H2 & H3); try done.
    - apply (f_equal length) in He. rewrite length_app in He. destruct w; [done|]. cbn in *. lia.
    - split; [by eapply no_pair_app; rewrite <- He|]. intros H. apply Hcr. rewrite He. apply elem_of_app. by right.
    - exists c'. rewrite Hr, H1. split; [done|]. split; [done|]. by rewrite H3, Ha, He, map_app, app_assoc. }
  destruct (one_of reference_tokens ((u :: s) ++ rest)) as [n|] eqn:E.
  - pose proof E as E'. apply one_of_some in E' as (w & t & Hw & He & ->).
    assert (H60 : 60 ∉ w -> w <> [] -> exists s', u :: s = w ++ s') by (intros H _; by eapply prefix_in_text).
    assert (Hopen : forall t', (u :: s) ++ rest = 60 :: 37 :: t' -> False).
    { intros t' Heq. injection Heq as -> Heq. destruct s as [|v s]; cbn in Heq.
      - subst rest. destruct Hrest as [Hr|Hr]; [done|]. cbn in Hr. congruence.
      - injection Heq as -> _. by apply (Hs 0%nat s). }
    pose proof (lexed_match _ reference_range (block Angle) _ _ c E) as Hl.
    rewrite He, take_app_length, drop_app_length, <- He in Hl. fold (read_template (block Angle) ((u :: s) ++ rest) c) in Hl.
    assert (Hdone : 60 ∉ w -> w <> [] -> tag (block Angle c w) = None -> acts (block Angle c w) = acts c ++ map Char w ->
      exists c', read_template (block Angle) ((u :: s) ++ rest) c = read_template (block Angle) rest c' /\
        tag c' = None /\ acts c' = acts c ++ map Char (u :: s)).
    { intros Hf Hne Ht Ha. destruct (H60 Hf Hne) as [s' Hs']. apply (Hstep w s' Hs' Hne (block Angle c w) Ht Ha).
      rewrite Hl. f_equal. rewrite Hs' in He. rewrite <- app_assoc in He. by apply app_inv_head in He. }
    unfold reference_tokens in Hw. rewrite !elem_of_cons, elem_of_nil in Hw.
    destruct Hw as [->|[->|[->|[->|[->|[->|[->|[]]]]]]]]; try (exfalso; exact (Hopen _ He)).
    + apply Hdone; [by_decide|done| |]; unfold block; rewrite Hc; [done|]. by rewrite !decide_False, acts_add by done.
    + apply Hdone; [by_decide|done| |]; unfold block; rewrite Hc; [done|]. by rewrite !decide_False, acts_add by done.
    + apply Hdone; [by_decide|done| |]; unfold block; rewrite Hc; [done|]. rewrite decide_True by done.
      unfold acts. cbn [content buff map]. rewrite actions_cr, actions_push, app_nil_r. cbn [cmd_actions].
      by rewrite map_app, app_assoc.
  - assert (Hu : u <> 10).
    { intros ->. by apply (one_of_hit reference_tokens [10] (s ++ rest)) in E; [|by_decide]. }
    apply (Hstep [u] s eq_refl ltac:(done) (add [u] c)); [done|by rewrite acts_add|].
    change ((u :: s) ++ rest) with (u :: (s ++ rest)). unfold read_template. rewrite lexed_unit by done. by rewrite unit_add.
Qed.

Lemma no_pair_tail x y u s : no_pair x y (u :: s) -> no_pair x y s.
Proof. apply (no_pair_app x y [u]). Qed.

Lemma code_ok_tail u e : code_ok (u :: e) -> code_ok e.
Proof.
  intros (H1 & H2 & H3 & H4 & H5). split_and!; [by eapply no_pair_tail..| | |].
  - by destruct e.
  - by destruct e.
  - intros H. apply H5. by right.
Qed.

(** At the head of a code no token begins but a line end. *)
Lemma code_token u e rest n :
  code_ok (u :: e) -> one_of reference_tokens ((u :: e) ++ right_delimiter Angle ++ rest) = Some n -> u = 10 /\ n = 1%nat.
Proof.
  intros (H1 & H2 & H3 & H4 & _) (w & t & Hw & He & ->)%one_of_some.
  assert (Hopen : forall t', (u :: e) ++ right_delimiter Angle ++ rest = 60 :: 37 :: t' -> False).
  { intros t' Heq. injection Heq as -> Heq. destruct e as [|v e]; cbn in Heq; [by apply H3|].
    injection Heq as -> _. by apply (H1 0%nat e). }
  assert (Hclose : forall t', (u :: e) ++ right_delimiter Angle ++ rest = 37 :: 62 :: t' -> False).
  { intros t' Heq. injection Heq as -> Heq. destruct e as [|v e]; cbn in Heq; [by apply H4|].
    injection Heq as -> _. by apply (H2 0%nat e). }
  unfold reference_tokens in Hw. rewrite !elem_of_cons, elem_of_nil in Hw.
  destruct Hw as [->|[->|[->|[->|[->|[->|[->|[]]]]]]]]; try (exfalso; exact (Hopen _ He)); try (exfalso; exact (Hclose _ He)).
  - exfalso. change ((u :: e) ++ right_delimiter Angle ++ rest = 37 :: 37 :: 37 :: 37 :: 62 :: t) in He.
    destruct e as [|v1 [|v2 [|v3 [|v4 e]]]]; cbn in He; injection He; intros; subst; try discriminate;
      try (by apply H4). by apply (H2 3%nat e).
  - split; [|done]. by injection He.
Qed.

Lemma read_code t e rest c :
  tag c = Some t -> code_ok e ->
  read_template (block Angle) (e ++ right_delimiter Angle ++ rest) c =
  read_template (block Angle) rest (close_tag t (add e c)).
Proof.
  revert c. induction e as [|u e IH]; intros c Hc He.
  - assert (Ha : add [] c = c) by (destruct c; unfold add; cbn; by rewrite app_nil_r). rewrite Ha. cbn [app].
    unfold read_template.
    rewrite (lexed_match _ reference_range (block Angle) _ 2%nat) by done. unfold block at 2. rewrite Hc. done.
  - assert (Hadd : forall c, add e (add [u] c) = add (u :: e) c).
    { intros d. unfold add. cbn. by rewrite <- app_assoc. }
    assert (Hunit : block Angle c [u] = add [u] c).
    { unfold block. by rewrite Hc, !decide_False. }
    rewrite <- Hadd, <- (IH (add [u] c) Hc (code_ok_tail _ _ He)), <- Hunit. unfold read_template.
    destruct (one_of reference_tokens ((u :: e) ++ right_delimiter Angle ++ rest)) as [n|] eqn:E.
    + destruct (code_token u e rest n He E) as [-> ->].
      by rewrite (lexed_match _ reference_range (block Angle) _ 1%nat) by exact E.
    + by apply lexed_unit.
Qed.

(** A tag of the template. *)
Lemma read_segment g rest c :
  tag c = None -> segment_ok g ->
  exists c', read_template (block Angle) (print_segment g ++ rest) c = read_template (block Angle) rest c' /\
    tag c' = None /\ acts c' = acts c ++ segment_actions g.
Proof.
  intros Hc Hg.
  assert (Hopen : forall w t e, one_of reference_tokens (w ++ e ++ right_delimiter Angle ++ rest) = Some (length w) ->
    block Angle c w = open_tag t c -> code_ok e ->
    read_template (block Angle) ((w ++ e ++ right_delimiter Angle) ++ rest) c =
    read_template (block Angle) rest (close_tag t (add e (open_tag t c)))).
  { intros w t e E Hb He. rewrite <- !app_assoc. unfold read_template at 1.
    rewrite (lexed_match _ reference_range (block Angle) _ (length w) c E), take_app_length, drop_app_length, Hb.
    apply read_code; [done|exact He]. }
  destruct g as [code|e|r].
  - destruct Hg as [Hcode Hhead]. exists (close_tag Code (add code (open_tag Code c))). split; [|split; [done|]].
    + apply (Hopen (left_delimiter Angle) Code code); [|by unfold block; rewrite Hc|done].
      destruct code as [|u code]; [by destruct Hhead; left|]. rewrite !not_elem_of_cons in Hhead.
      destruct Hhead as (_ & H37 & H61 & H35 & _). cbn [head] in *.
      assert (u <> 37 /\ u <> 61 /\ u <> 35) as (N1 & N2 & N3) by (split_and!; congruence).
      change (one_of [[60; 37; 37]; [37; 37; 37; 37; 62]; [60; 37; 61]; [60; 37; 35]; [60; 37]; [37; 62]; [10]]
        (60 :: 37 :: u :: (code ++ right_delimiter Angle ++ rest)) = Some 2%nat).
      cbn [one_of starts_with].
      by rewrite (proj2 (Z.eqb_neq 37 u)), (proj2 (Z.eqb_neq 61 u)), (proj2 (Z.eqb_neq 35 u)) by congruence.
    + by rewrite acts_close, acts_open.
  - exists (close_tag Equal (add e (open_tag Equal c))). split; [|split; [done|]].
    + by apply (Hopen (left_equal Angle) Equal e); [|unfold block; rewrite Hc|].
    + by rewrite acts_close, acts_open.
  - exists (close_tag Comment (add r (open_tag Comment c))). split; [|split; [done|]].
    + by apply (Hopen (left_comment Angle) Comment r); [|unfold block; rewrite Hc|].
    + by rewrite acts_close, acts_open.
Qed.

Lemma line_ends_id s : 13 ∉ s -> line_ends s = s.
Proof.
  induction s as [|c s IH]; [done|]. rewrite not_elem_of_cons. intros [Hc Hs]. specialize (IH Hs).
  cbn [line_ends]. rewrite IH. repeat case_match; congruence.
Qed.

Lemma segment_plain g : segment_ok g -> 13 ∉ print_segment g /\ head (print_segment g) = Some 60.
Proof.
  assert (Hc : forall w e, 13 ∉ w -> code_ok e -> 13 ∉ w ++ e ++ js "%>").
  { intros w e Hw (_ & _ & _ & _ & He). rewrite !not_elem_of_app. split_and!; [done|done|by_decide]. }
  destruct g as [code|e|r]; cbn [segment_ok print_segment]; [intros [He _]|intros He|intros He];
    (split; [apply Hc; [by_decide|done]|done]).
Qed.

Lemma template_plain t : template_ok t -> 13 ∉ print_template t.
Proof.
  intros [Hall [_ Hlast]]. unfold print_template. rewrite not_elem_of_app. split; [|done].
  induction Hall as [|[s g] ps [[_ Hs] Hg] _ IH]; [apply not_elem_of_nil|]. cbn [flat_map fst snd] in *.
  rewrite !not_elem_of_app. split; [split; [done|]|done]. by apply segment_plain.
Qed.

Lemma read_pieces ps last c :
  tag c = None -> Forall (fun p => text_ok p.1 /\ segment_ok p.2) ps -> text_ok last ->
  exists c', read_template (block Angle) (flat_map (fun p => p.1 ++ print_segment p.2) ps ++ last) c = c' /\
    tag c' = None /\ acts c' = acts c ++ template_actions (ps, last).
Proof.
  intros Hc Hall Hlast. revert c Hc. induction Hall as [|[s g] ps [Hs Hg] _ IH]; intros c Hc.
  - cbn [flat_map app]. destruct (read_text last [] c Hc Hlast (or_introl eq_refl)) as (c' & H1 & H2 & H3).
    rewrite app_nil_r in H1. by exists c'.
  - cbn [flat_map fst snd] in *. destruct (segment_plain g Hg) as [_ Hhead]. rewrite <- !app_assoc.
    set (rest := flat_map _ ps ++ last) in *.
    destruct (read_text s (print_segment g ++ rest) c Hc Hs) as (c1 & H1 & H2 & H3).
    { right. by destruct (print_segment g). }
    destruct (read_segment g rest c1 H2 Hg) as (c2 & H4 & H5 & H6).
    destruct (IH c2 H5) as (c3 & H7 & H8 & H9). exists c3. rewrite H1, H4. split; [done|]. split; [done|].
    rewrite H9, H6, H3. unfold template_actions. cbn [flat_map fst snd]. by rewrite <- !app_assoc.
Qed.

Lemma actions_finish c : actions (finish c) = acts c.
Proof.
  unfold finish, acts. destruct (content c) as [|u s]; [by rewrite app_nil_r|]. by rewrite actions_push.
Qed.


(** ** What is put out is written as a literal *)

(** The text of a string literal, up to its quote, and what follows. *)
Fixpoint read_string (s : jstr) : option (jstr * jstr) :=
  match s with
  | [] => None
  | u :: s =>
      if decide (u = 34) then Some ([], s)
      else if decide (u = 92) then
        match s with
        | [] => None
        | v :: s =>
            w ← (if decide (v = 110) then Some 10 else if decide (v = 92 \/ v = 34) then Some v else None);
            '(t, rest) ← read_string s; Some (w :: t, rest)
        end
      else if decide (u = 10 \/ u = 13) then None
      else '(t, rest) ← read_string s; Some (u :: t, rest)
  end.

Lemma clean_cons u s :
  clean (u :: s) = (if decide (u = 92) then [92; 92] else if decide (u = 10) then [92; 110]
                    else if decide (u = 34) then [92; 34] else [u]) ++ clean s.
Proof.
  unfold clean. cbn [replace_unit]. repeat case_decide; subst; try done; cbn [replace_unit app];
    repeat (rewrite decide_False by done || rewrite decide_True by done; cbn [replace_unit app]); try done.
Qed.

(** The literals of the script denote the texts they are made from. *)
Lemma read_clean s rest : 13 ∉ s -> read_string (clean s ++ 34 :: rest) = Some (s, rest).
Proof.
  induction s as [|u s IH]; [done|]. rewrite not_elem_of_cons. intros [Hu Hs]. rewrite clean_cons, <- app_assoc.
  destruct (decide (u = 92)) as [->|H92]; [cbn [app read_string]; by rewrite IH|].
  destruct (decide (u = 10)) as [->|H10]; [cbn [app read_string]; by rewrite IH|].
  destruct (decide (u = 34)) as [->|H34]; [cbn [app read_string]; by rewrite IH|].
  cbn [app read_string]. rewrite decide_False by done. rewrite decide_False by done.
  rewrite decide_False by (intros [?|?]; congruence). by rewrite IH.
Qed.

Lemma scan_concat b s : concat (scan b s) = s.
Proof.
  transitivity (concat (rsplit (one_of newline) s)); [|by apply rsplit_concat, newline_range].
  unfold scan. generalize (rsplit (one_of newline) s) as ls. intros ls. induction ls as [|l ls IH]; [done|].
  cbn [map concat]. rewrite concat_app, IH. f_equal. apply rsplit_concat, token_range.
Qed.

Lemma line_ends_plain s : 13 ∉ line_ends s.
Proof.
  induction s as [s IH] using (induction_ltof1 _ length). unfold ltof in IH.
  destruct s as [|c s]; [apply not_elem_of_nil|]. destruct (decide (c = 13)) as [->|Hc].
  - assert (Hten : forall s', (length s' < S (length s))%nat -> 13 ∉ 10 :: line_ends s').
    { intros s' Hl. rewrite not_elem_of_cons. split; [done|by apply IH]. }
    destruct s as [|d s]; [apply (Hten []); cbn; lia|]. destruct (decide (d = 10)) as [->|Hd]; [apply (Hten s); cbn; lia|].
    assert (line_ends (13 :: d :: s) = 10 :: line_ends (d :: s)) as ->; [|apply Hten; cbn; lia].
    cbn [line_ends]. repeat case_match; congruence.
  - assert (line_ends (c :: s) = c :: line_ends s) as ->; [|rewrite not_elem_of_cons; split; [congruence|apply IH; cbn; lia]].
    cbn [line_ends]. repeat case_match; congruence.
Qed.

(** The texts that wait and that are put out hold no carriage return. *)
Definition plain_cmd (c : cmd) : Prop := match c with PutLine s | Put s => 13 ∉ s | _ => True end.
Definition plain_state (c : compiler) : Prop := 13 ∉ content c /\ Forall plain_cmd (commands (buff c)).

Lemma plain_push d b : plain_cmd d -> Forall plain_cmd (commands b) -> Forall plain_cmd (commands (push d b)).
Proof. intros Hd Hb. unfold commands, push in *. cbn. rewrite app_assoc. apply Forall_app. split; [done|by constructor]. Qed.

Lemma plain_cr b : Forall plain_cmd (commands b) -> Forall plain_cmd (commands (cr b)).
Proof. unfold commands, cr. cbn. rewrite concat_app. cbn. by rewrite !app_nil_r. Qed.

Lemma plain_add s c : 13 ∉ s -> plain_state c -> plain_state (add s c).
Proof. intros Hs [H1 H2]. split; [|done]. cbn. by rewrite not_elem_of_app. Qed.

Lemma plain_open t c : plain_state c -> plain_state (open_tag t c).
Proof.
  intros [H1 H2]. split; [apply not_elem_of_nil|]. unfold open_tag. cbn [buff].
  destruct (content c); [done|]. by apply plain_push.
Qed.

Lemma plain_close t c : plain_state c -> plain_state (close_tag t c).
Proof.
  intros [H1 H2]. split; [apply not_elem_of_nil|]. unfold close_tag. cbn [buff].
  destruct t; [case_match; [apply plain_cr|]; by apply plain_push|by apply plain_push|done].
Qed.

Lemma plain_block b token c : 13 ∉ token -> plain_state c -> plain_state (block b c token).
Proof.
  intros Ht Hc. assert (Hd : 13 ∉ left_delimiter b /\ 13 ∉ right_delimiter b) by (destruct b; split; by_decide).
  unfold block. destruct (tag c) as [t|]; repeat case_decide;
    try (apply plain_add; by try apply Hd); try (by apply plain_open); try (by apply plain_close).
  destruct Hc as [H1 H2]. split; [apply not_elem_of_nil|]. cbn [buff]. apply plain_cr, plain_push; [|done].
  cbn. rewrite not_elem_of_app. split; [done|by_decide].
Qed.

(** Every text that a compiled template puts out stands in the script as a literal
    that denotes it, whatever the template. *)
Theorem literals_read b source :
  Forall (fun c => match c with
                   | PutLine s | Put s => read_string (clean s ++ [34]) = Some (s, [])
                   | _ => True
                   end) (commands (compile b source)).
Proof.
  assert (Hs : plain_state (foldl (block b) Ejs.start (scan b (line_ends source)))).
  { assert (Htok : Forall (fun t => 13 ∉ t) (scan b (line_ends source))).
    { apply Forall_forall. intros t Ht H. apply (line_ends_plain source). rewrite <- (scan_concat b).
      apply list_elem_of_In, in_concat. exists t. by split; apply list_elem_of_In. }
    assert (H0 : plain_state Ejs.start) by (split; [apply not_elem_of_nil|by repeat constructor]).
    revert H0. generalize Ejs.start. induction Htok as [|t ts Ht _ IH]; intros c Hc; [done|]. by apply IH, plain_block. }
  unfold compile. destruct Hs as [H1 H2]. assert (Hall : Forall plain_cmd (commands (finish (foldl (block b) Ejs.start (scan b (line_ends source)))))).
  { unfold finish. destruct (content _); [done|]. by apply plain_push. }
  eapply Forall_impl; [exact Hall|]. intros [] Hc; [done|by apply read_clean|by apply read_clean|done].
Qed.

(** ** The cache of the templates (EJS, and format of main.js) *)

(** The compiled templates by their addresses, the names format has seen, and the
    addresses that were asked for, each with whether a random part was added. *)
Record views := mk_views {
  templates_directory : obj buffer;
  ejs_cached : list jstr;
  asked : list (jstr * bool);
}.

(** EJS.endExt: its expression [/.ejs/] is found after any unit of a line. *)
Fixpoint has_ext (path : jstr) : bool :=
  match path with
  | [] => false
  | c :: path => (negb (c =? 10) && starts_with path "ejs") || has_ext path
  end.

Definition endExt (path : jstr) : jstr := if has_ext path then path else path ++ ".ejs".

Section Views.
Context {D : Type}.
(** The answer for an address, when there is one; whether the function of a script
    can be built; and what it returns, when it does. *)
Variable request : jstr -> option jstr.
Variable evaluates : buffer -> bool.
Variable process : buffer -> D -> option jstr.

(** new EJS({url, cache}): the template, or an exception. *)
Definition new_EJS (url : jstr) (cache : bool) (v : views) : option buffer * views :=
  let url := endExt url in
  match (if cache then get (templates_directory v) url else None) with
  | Some template => (Some template, v)
  | None =>
      let v := mk_views (templates_directory v) (ejs_cached v) (asked v ++ [(url, negb cache)]) in
      match request url with
      | None => (None, v)
      | Some text =>
          let template := compile Angle text in
          if evaluates template
          then (Some template, mk_views (put (templates_directory v) url template) (ejs_cached v) (asked v))
          else (None, v)
      end
  end.

Definition template_url (template : jstr) : jstr := "js/tmpl/" ++ template ++ ".ejs".

(** format: nothing is returned when an exception was caught, which also clears the
    timer and writes to the page. *)
Definition format (template : jstr) (json : D) (v : views) : option jstr * views :=
  let cache := bool_decide (template ∈ ejs_cached v) in
  let v := if cache then v else mk_views (templates_directory v) (ejs_cached v ++ [template]) (asked v) in
  let '(tmpl, v) := new_EJS (template_url template) cache v in
  (tmpl ← tmpl; process tmpl json, v).

(** A template is there. *)
Definition known (template : jstr) (b : buffer) (v : views) : Prop :=
  template ∈ ejs_cached v /\ get (templates_directory v) (template_url template) = Some b.

Lemma has_ext_app s t : has_ext t = true -> has_ext (s ++ t) = true.
Proof. intros H. induction s as [|c s IH]; [done|]. cbn [app has_ext]. by rewrite IH, orb_true_r. Qed.

Lemma template_url_ext template : endExt (template_url template) = template_url template.
Proof.
  unfold endExt, template_url. rewrite app_assoc. by rewrite has_ext_app.
Qed.

Lemma format_known template b json v : known template b v -> format template json v = (process b json, v).
Proof.
  intros [Hc Hg]. unfold format. rewrite bool_decide_eq_true_2 by done. unfold new_EJS.
  by rewrite template_url_ext, Hg.
Qed.

Lemma template_url_inj s t : template_url s = template_url t -> s = t.
Proof. unfold template_url. intros H. apply app_inv_head in H. by apply app_inv_tail in H. Qed.

Lemma format_keeps template b other json v : known template b v -> known template b (format other json v).2.
Proof.
  intros Hk. destruct (decide (other = template)) as [->|Hne]; [by rewrite (format_known template b)|].
  destruct Hk as [Hc Hg]. unfold format, new_EJS. rewrite template_url_ext.
  assert (Hu : template_url template <> template_url other) by (intros H; apply Hne; by apply template_url_inj in H).
  destruct (bool_decide _).
  - destruct (get (templates_directory v) (template_url other)); [done|]. cbn [templates_directory ejs_cached asked].
    destruct (request _); [|done]. destruct (evaluates _); [|done]. split; [done|]. cbn. by rewrite get_put_ne.
  - cbn [templates_directory ejs_cached asked]. assert (Hc' : template ∈ ejs_cached v ++ [other]) by (apply elem_of_app; by left).
    destruct (request _); [|done]. destruct (evaluates _); [|done]. split; [done|]. cbn. by rewrite get_put_ne.
Qed.

(** Once a template was shown it is never asked for again, and stays what it was,
    whatever else is shown. *)
Theorem format_asks_once template json v others text :
  (format template json v).1 = Some text ->
  exists b, process b json = Some text /\
    forall json', let v' := foldl (fun v o => (format o.1 o.2 v).2) (format template json v).2 others in
      format template json' v' = (process b json', v').
Proof.
  intros Hf.
  assert (Hk : exists b, process b json = Some text /\ known template b (format template json v).2).
  { revert Hf. unfold format. destruct (bool_decide _) eqn:Hc; unfold new_EJS; rewrite template_url_ext;
      cbn [templates_directory ejs_cached asked].
    - apply bool_decide_eq_true in Hc. destruct (get (templates_directory v) _) as [b|] eqn:Hg; cbn; [by exists b|].
      destruct (request _) as [s|]; [|done]. destruct (evaluates _); [|done]. cbn. intros Hp.
      eexists. split; [exact Hp|]. split; [done|]. cbn. by rewrite get_put.
    - destruct (request _) as [s|]; [|done]. destruct (evaluates _); [|done]. cbn. intros Hp.
      eexists. split; [exact Hp|]. split; cbn; [apply elem_of_app; right; left|]. by rewrite get_put. }
  destruct Hk as (b & Hp & Hk). exists b. split; [done|]. intros json'. cbn zeta. apply format_known. revert Hk.
  generalize (format template json v).2. induction others as [|o others IH]; intros v' Hk; [done|].
  cbn [foldl]. by apply IH, format_keeps.
Qed.
End Views.

(** ** Examples *)

Module EjsExamples.

Fixpoint has_pair (x y : Z) (s : jstr) : bool :=
  match s with
  | u :: s => ((u =? x) && starts_with s [y]) || has_pair x y s
  | [] => false
  end.

Lemma no_pair_check x y s : has_pair x y s = false -> no_pair x y s.
Proof.
  induction s as [|u s IH]; intros H j t; [by rewrite drop_nil|]. cbn [has_pair] in H.
  apply orb_false_iff in H as [H1 H2]. destruct j as [|j]; [|by apply IH]. cbn [drop]. intros [= -> ->].
  rewrite Z.eqb_refl, starts_with_single, Z.eqb_refl in H1. done.
Qed.

Ltac check_text := split_and!; [apply no_pair_check; by vm_compute|by_decide].
Ltac check_code := split_and!; [apply no_pair_check; by vm_compute|apply no_pair_check; by vm_compute|by_decide..].

(** A list with a statement around its lines. *)
Definition list_template : template :=
  ([(js "<ul>" ++ [10], Script " for (;;) { "); (js "<li>", Output " name "); (js "</li>", Remark " 50 % ")], js "</ul>").

Lemma list_template_ok : template_ok list_template.
Proof.
  split; [|check_text]. repeat (apply Forall_cons; split).
  - split; [check_text|split; [check_code|by_decide]].
  - split; [check_text|check_code].
  - split; [check_text|check_code].
  - constructor.
Qed.


End EjsExamples.
