(* ===== verification/Visibility.v ===== *)
(** The sections of a page that can be opened and closed (main.js): how each is
    shown when the page is rendered, the click on a heading, and what is kept of
    it in the preferences. *)
From S2P Require Import Prelude JsString JsNum Base64 Uri JsObject JsValue Columns Prefs PrefsFacts ChartRanges.

(** A section: the text of its heading and the classes the code reads or sets. *)
Record section := mk_section {
  heading : jstr;
  is_section : bool;          (* section: open unless it was closed *)
  is_section_hidden : bool;   (* section-hidden: closed unless it was opened *)
  disable_pref : bool;
  section_visible : bool;
  section_invisible : bool;
}.

Definition show_section (visible : bool) (s : section) : section :=
  if visible
  then mk_section (heading s) (is_section s) (is_section_hidden s) (disable_pref s) true (section_invisible s)
  else mk_section (heading s) (is_section s) (is_section_hidden s) (disable_pref s) (section_visible s) true.

(** The classes after a click on the heading. *)
Definition turn_section (visible : bool) (s : section) : section :=
  mk_section (heading s) (is_section s) (is_section_hidden s) (disable_pref s) visible (negb visible).

Section Handlers.
Context {J : Type} {CJ : CookieJar J} {CK : Clock}.
Notation H := (M (page J)).

(** One section of setup_visibility; the template may not be set yet. *)
Definition setup_section (template : jstr) (s : section) : H section :=
  if disable_pref s then mret s
  else
    show ← get_pref (section_pref template (heading s));
    mret (show_section (match show with
                        | None => is_section s
                        | Some v => bool_decide (v = js "t")
                        end) s).

(** setup_visibility *)
Fixpoint setup_visibility (template : jstr) (sections : list section) : H (list section) :=
  match sections with
  | [] => mret []
  | s :: sections =>
      s ← setup_section template s;
      rest ← setup_visibility template sections;
      mret (s :: rest)
  end.

(** toggle_visibility, of the section of a heading. *)
Definition toggle_visibility (template : jstr) (s : section) : H section :=
  let pref := section_pref template (heading s) in
  if section_visible s then
    (if is_section s then store_pref pref "f" else clear_pref pref) ;;;
    mret (turn_section false s)
  else
    (if is_section_hidden s then store_pref pref "t" else clear_pref pref) ;;;
    mret (turn_section true s).

(** ** Properties *)

Implicit Types (p : page J).

Lemma substring_take (t : jstr) n : 0 <= n -> substring t 0 n = take (Z.to_nat n) t.
Proof.
  intros Hn. unfold substring, clamp. rewrite !Z.max_l by lia.
  replace (Z.to_nat (Z.min 0 _)) with 0%nat by lia. cbn [Nat.min Nat.max]. rewrite drop_0.
  destruct (Z_le_dec n (Z.of_nat (length t))) as [H|H]; [f_equal; lia|]. rewrite !take_ge by lia. done.
Qed.

(** The preference of a section has no default. *)
Lemma default_section_pref c template name : default_pref c (section_pref template name) = Ok None.
Proof.
  unfold section_pref, default_pref. rewrite !substring_take by lia.
  change (js "visible|" ++ ?t) with (118 :: js "isible|" ++ t). cbn [take Z.to_nat].
  by rewrite !decide_False by discriminate.
Qed.

(** What a section looks like on a page that was just rendered. *)
Definition rendered (s : section) : section :=
  mk_section (heading s) (is_section s) (is_section_hidden s) (disable_pref s) false false.

(** A section is of one of the two kinds, and its visibility is a preference. *)
Definition toggles (s : section) : Prop := is_section_hidden s = negb (is_section s) /\ disable_pref s = false.

(** Whether a section is open, by the preferences. *)
Definition open_pref (l : gmap jstr jstr) (template : jstr) (s : section) : bool :=
  match l !! rabbit (section_pref template (heading s)) with
  | None => is_section s
  | Some v => bool_decide (v = js "t")
  end.

Lemma setup_section_run p l template s :
  local_storage p = Some l -> disable_pref s = false ->
  setup_section template s p = (Ok (show_section (open_pref l template s) s), p).
Proof.
  intros Hl Hd. unfold setup_section. rewrite Hd. unfold mbind, M_bind. rewrite (get_pref_local p l) by done.
  rewrite default_section_pref. unfold open_pref. by destruct (l !! _).
Qed.

(** The local storage after a click. *)
Definition toggled (l : gmap jstr jstr) (template : jstr) (s : section) : gmap jstr jstr :=
  let k := rabbit (section_pref template (heading s)) in
  if section_visible s then (if is_section s then <[k := js "f"]> l else delete k l)
  else (if is_section_hidden s then <[k := js "t"]> l else delete k l).

Lemma toggle_visibility_run p l template s :
  local_storage p = Some l ->
  toggle_visibility template s p =
    (Ok (turn_section (negb (section_visible s)) s), set_local (toggled l template s) p).
Proof.
  intros Hl. unfold toggle_visibility, toggled, store_pref, clear_pref, store_local_pref, clear_local_pref,
    mbind, M_bind. destruct (section_visible s), (is_section s), (is_section_hidden s); by rewrite Hl.
Qed.

Lemma toggled_open l template s :
  toggles s -> section_visible s = open_pref l template s ->
  open_pref (toggled l template s) template s = negb (open_pref l template s).
Proof.
  intros [Hk _] Hv. rewrite <- Hv. unfold toggled, open_pref. rewrite Hk.
  destruct (section_visible s), (is_section s); cbn [negb];
    by rewrite ?lookup_insert_eq, ?lookup_delete_eq.
Qed.

(** The handler run for each click in turn. *)
Fixpoint clicks (n : nat) (template : jstr) (s : section) : H section :=
  match n with
  | O => mret s
  | S n => s ← toggle_visibility template s; clicks n template s
  end.

Lemma clicks_run n : forall p l template s,
  local_storage p = Some l -> toggles s -> section_visible s = open_pref l template s ->
  section_invisible s = negb (section_visible s) ->
  exists p' l', clicks n template s p = (Ok (turn_section (xorb (Nat.odd n) (section_visible s)) s), p') /\
    local_storage p' = Some l' /\ open_pref l' template s = xorb (Nat.odd n) (section_visible s).
Proof.
  induction n as [|n IH]; intros p l template s Hl Hs Hv Hi.
  - exists p, l. cbn [clicks Nat.odd Nat.even negb]. rewrite !xorb_false_l. split; [|split; [done|by rewrite Hv]].
    unfold turn_section. rewrite <- Hi. by destruct s.
  - cbn [clicks]. set (s1 := turn_section (negb (section_visible s)) s).
    destruct (IH (set_local (toggled l template s) p) (toggled l template s) template s1)
      as (p' & l' & Hr & Hl' & Ho); [done|done| |done|].
    { change (section_visible s1) with (negb (section_visible s)).
      change (open_pref ?x template s1) with (open_pref x template s). rewrite toggled_open by done. by rewrite Hv. }
    exists p', l'. unfold mbind, M_bind. rewrite (toggle_visibility_run p l) by done. fold s1. rewrite Hr.
    change (section_visible s1) with (negb (section_visible s)) in *.
    change (open_pref l' template s1) with (open_pref l' template s) in Ho.
    rewrite Nat.odd_succ, <- Nat.negb_odd.
    replace (xorb (negb (Nat.odd n)) (section_visible s)) with (xorb (Nat.odd n) (negb (section_visible s)))
      by (by destruct (Nat.odd n), (section_visible s)).
    by split_and!.
Qed.

(** A section is open or closed as it was left: however often its heading
    was clicked since the page was rendered, the page rendered anew shows it the
    way the last click left it, which is the way it was shown at first turned
    once for each click. *)
Theorem visibility_persists p l template s n :
  local_storage p = Some l -> toggles s ->
  exists s1 s2 p2,
    setup_section template (rendered s) p = (Ok s1, p) /\
    clicks n template s1 p = (Ok s2, p2) /\
    section_visible s2 = xorb (Nat.odd n) (section_visible s1) /\
    setup_section template (rendered s) p2 = (Ok (show_section (section_visible s2) (rendered s)), p2).
Proof.
  intros Hl Hs. set (b := open_pref l template s). set (s1 := show_section b (rendered s)).
  assert (Hs1 : toggles s1 /\ section_visible s1 = b /\ section_invisible s1 = negb b /\
    heading s1 = heading s /\ is_section s1 = is_section s) by (unfold s1; destruct Hs; by destruct b).
  destruct Hs1 as (Ht & Hv & Hi & Hh & Hk).
  assert (Ho1 : forall l', open_pref l' template s1 = open_pref l' template s)
    by (intros l'; unfold open_pref; by rewrite Hh, Hk).
  destruct (clicks_run n p l template s1) as (p2 & l2 & Hr & Hl2 & Ho);
    [done|done|by rewrite Ho1|by rewrite Hi, Hv|]. rewrite Hv in Hr, Ho. rewrite Ho1 in Ho.
  exists s1, (turn_section (xorb (Nat.odd n) b) s1), p2. split_and!.
  - by rewrite (setup_section_run p l) by (done || apply Hs).
  - exact Hr.
  - by rewrite Hv.
  - rewrite (setup_section_run p2 l2) by (done || apply Hs).
    change (open_pref l2 template (rendered s)) with (open_pref l2 template s). by rewrite Ho.
Qed.

End Handlers.

Import PrefsFacts.Browser.

Lemma visibility_persists_witness :
  let s := mk_section "Details" true false false false false in
  exists s1 s2 p2,
    setup_section "queue" (rendered s) (mk_page (Some ∅) [] 5000 None) = (Ok s1, mk_page (Some ∅) [] 5000 None) /\
    clicks 3 "queue" s1 (mk_page (Some ∅) [] 5000 None) = (Ok s2, p2) /\
    section_visible s2 = xorb (Nat.odd 3) (section_visible s1) /\
    setup_section "queue" (rendered s) p2 = (Ok (show_section (section_visible s2) (rendered s)), p2).
Proof.
  intros s. apply (visibility_persists (J := cookies) (mk_page (Some ∅) [] 5000 None) ∅ "queue" s 3); done.
Defined.
