(* ===== verification/Popups.v ===== *)
(** The popups of the page (main.js: show_popup and hide_popup_warn): an element
    for each one beside the page, which fades before it is removed, and the handlers
    that close them, which are given anew by every popup and never taken away. *)
From S2P Require Import Prelude JsString JsObject JsValue.

(** A popup in the document. *)
Record popup := mk_popup { p_id : nat; p_type : jstr; p_text : value; p_fading : bool }.

(** The popups, the last one first, the types whose handler the page was given
    ([$("div#outer")]), the popups whose closing mark was given one, with the type that
    it hides, and the element that is marked as the owner of a popup. *)
Record popups := mk_popups {
  shown : list popup;
  next_popup : nat;
  on_outer : list jstr;
  on_mark : list (nat * jstr);
  owner : option nat;
}.

Definition no_popups : popups := mk_popups [] 0 [] [] None.

Definition fade (p : popup) : popup := mk_popup (p_id p) (p_type p) (p_text p) true.

(** hide of show_popup: the popups of the type begin to fade. *)
Definition hide (type : jstr) (s : popups) : popups :=
  mk_popups (map (fun p => if decide (p_type p = type) then fade p else p) (shown s))
    (next_popup s) (on_outer s) (on_mark s) (owner s).

Definition set_owner (o : option nat) (s : popups) : popups :=
  mk_popups (shown s) (next_popup s) (on_outer s) (on_mark s) o.

(** show_popup: the mark of every popup of the type gets the handler, also of those
    that fade. *)
Definition show_popup (type : jstr) (text : value) (s : popups) : popups :=
  let s := hide type s in
  let all := mk_popup (next_popup s) type text false :: shown s in
  mk_popups all (S (next_popup s)) (on_outer s ++ [type])
    (on_mark s ++ map (fun p => (p_id p, type)) (filter (fun p => p_type p = type) all)) (owner s).

(** The handler of a click. Its condition holds always: [eq] gives a selection,
    which counts as true even when it is empty. *)
Definition close (s : popups) (type : jstr) : popups := hide type (set_owner None s).

Definition click_outer (s : popups) : popups := foldl close s (on_outer s).
Definition click_mark (id : nat) (s : popups) : popups :=
  foldl close s (filter (fun h => h.1 = id) (on_mark s)).*2.

(** hide_popup_warn *)
Definition hide_popup_warn (s : popups) : popups := hide "warn" (set_owner None s).

(** The link to the options of a table or chart: it becomes the owner. *)
Definition options_link (element : nat) (text : value) (s : popups) : popups :=
  show_popup "options" text (set_owner (Some element) s).

(** The end of fading: the element is removed. *)
Definition faded (id : nat) (s : popups) : popups :=
  mk_popups (filter (fun p => ~ (p_id p = id /\ p_fading p = true)) (shown s))
    (next_popup s) (on_outer s) (on_mark s) (owner s).

Inductive popup_step : popups -> popups -> Prop :=
  | step_show type text s : popup_step s (show_popup type text s)
  | step_options element text s : popup_step s (options_link element text s)
  | step_outer s : popup_step s (click_outer s)
  | step_mark id s : popup_step s (click_mark id s)
  | step_warn s : popup_step s (hide_popup_warn s)
  | step_faded id s : popup_step s (faded id s).

(** ** Properties *)

(** The popups a user sees. *)
Definition live (s : popups) : list popup := filter (fun p => p_fading p = false) (shown s).

(** One popup of each type at most is seen; every popup has its own number; and
    every popup can be closed, by a click on the page or on its mark. *)
Record popups_ok (s : popups) : Prop := {
  ok_types : NoDup (map p_type (live s));
  ok_ids : NoDup (map p_id (shown s)) /\ Forall (fun p => (p_id p < next_popup s)%nat) (shown s);
  ok_outer : Forall (fun p => p_type p ∈ on_outer s) (shown s);
  ok_marks : Forall (fun p => (p_id p, p_type p) ∈ on_mark s) (shown s);
  ok_hides : Forall (fun h => (h.1 < next_popup s)%nat /\
    Forall (fun p => p_id p = h.1 -> p_type p = h.2) (shown s)) (on_mark s);
}.

Lemma live_hide type s : live (hide type s) = filter (fun p => p_type p <> type) (live s).
Proof.
  unfold live, hide. cbn [shown]. induction (shown s) as [|p l IH]; [done|].
  cbn [map]. rewrite !filter_cons. destruct (decide (p_type p = type)) as [He|Hne].
  - rewrite decide_False by done. rewrite IH. case_decide; [|done]. by rewrite filter_cons, decide_False by tauto.
  - rewrite IH. case_decide; [|done]. by rewrite filter_cons, decide_True.
Qed.

Lemma hide_map {A} (f : popup -> A) type s :
  (forall p, f (fade p) = f p) -> map f (shown (hide type s)) = map f (shown s).
Proof.
  intros Hf. cbn. rewrite map_map. apply map_ext. intros p. by case_decide.
Qed.

Lemma Forall_fade (P : popup -> Prop) type s :
  (forall p, P p -> P (fade p)) -> Forall P (shown s) -> Forall P (shown (hide type s)).
Proof. intros Hf H. cbn. apply Forall_map. eapply Forall_impl; [exact H|]. intros p Hp. cbn. case_decide; auto. Qed.

Lemma NoDup_filter_map {A B} (f : A -> B) (P : A -> Prop) `{!forall x, Decision (P x)} l :
  NoDup (map f l) -> NoDup (map f (filter P l)).
Proof.
  induction l as [|x l IH]; [done|]. cbn [map]. intros [Hx Hl]%NoDup_cons. rewrite filter_cons.
  case_decide; [|by apply IH]. cbn [map]. apply NoDup_cons. split; [|by apply IH].
  intros (y & Hy & Hin)%list_elem_of_fmap. apply Hx. apply list_elem_of_filter in Hin as [_ Hin].
  apply list_elem_of_fmap. by exists y.
Qed.

Lemma NoDup_map_inj {A B} (f : A -> B) l x y : NoDup (map f l) -> x ∈ l -> y ∈ l -> f x = f y -> x = y.
Proof.
  induction l as [|z l IH]; [by intros _ ?%elem_of_nil|]. cbn [map]. intros [Hz Hl]%NoDup_cons.
  rewrite !elem_of_cons. intros [->|Hx] [->|Hy] He; [done| | |by apply IH];
    destruct Hz; apply list_elem_of_fmap; eauto.
Qed.

Lemma hide_ok type s : popups_ok s -> popups_ok (hide type s).
Proof.
  intros [H1 [H2 H3] H4 H5 H6]. split; [| split | | |].
  - rewrite live_hide. by apply NoDup_filter_map.
  - by rewrite hide_map.
  - by apply Forall_fade.
  - by apply Forall_fade.
  - by apply Forall_fade.
  - eapply Forall_impl; [exact H6|]. intros h [Hn Hh]. split; [exact Hn|]. by apply Forall_fade.
Qed.

Lemma owner_ok o s : popups_ok s -> popups_ok (set_owner o s).
Proof. by intros [H1 H2 H3 H4 H5]; split. Qed.

Lemma close_all_ok types s : popups_ok s -> popups_ok (foldl close s types).
Proof.
  revert s. induction types as [|t types IH]; intros s H; [done|]. by apply IH, hide_ok, owner_ok.
Qed.

Lemma show_ok type text s : popups_ok s -> popups_ok (show_popup type text s).
Proof.
  intros H. pose proof (live_hide type s) as Hl. apply (hide_ok type) in H.
  unfold show_popup. set (s1 := hide type s) in *. destruct H as [H1 [H2 H3] H4 H5 H6].
  set (p0 := mk_popup (next_popup s1) type text false).
  assert (Hids : NoDup (map p_id (p0 :: shown s1))).
  { cbn [map]. apply NoDup_cons. split; [|done]. intros (p & Hp & Hin)%list_elem_of_fmap.
    rewrite Forall_forall in H3. specialize (H3 p Hin). change (next_popup s1 = p_id p) in Hp. lia. }
  split; cbn [shown next_popup on_outer on_mark].
  - unfold live. cbn [shown]. rewrite filter_cons, decide_True by done. cbn [map p_type]. apply NoDup_cons. split; [|exact H1].
    fold (live s1). rewrite Hl. intros (p & Hp & Hin)%list_elem_of_fmap. by apply list_elem_of_filter in Hin as [? _].
  - split; [exact Hids|].
    constructor; [cbn; lia|]. eapply Forall_impl; [exact H3|]. cbn. lia.
  - constructor; [cbn; apply elem_of_app; right; left|]. eapply Forall_impl; [exact H4|]. intros p Hp. apply elem_of_app. by left.
  - constructor.
    + apply elem_of_app. right. rewrite filter_cons, decide_True by done. left.
    + eapply Forall_impl; [exact H5|]. intros p Hp. apply elem_of_app. by left.
  - apply Forall_app. split.
    + eapply Forall_impl; [exact H6|]. intros h [Hn Hh]. split; [lia|]. constructor; [intros He; change (next_popup s1 = h.1) in He; lia|done].
    + apply Forall_forall. intros h (q & -> & [Ht Hq]%list_elem_of_filter)%list_elem_of_fmap. cbn [fst snd]. split.
      * apply elem_of_cons in Hq as [->|Hq]; [cbn; lia|]. rewrite Forall_forall in H3. specialize (H3 q Hq). lia.
      * apply Forall_forall. intros p Hp Hid. rewrite <- Ht. f_equal. by apply (NoDup_map_inj p_id (p0 :: shown s1)).
Qed.

Lemma faded_ok id s : popups_ok s -> popups_ok (faded id s).
Proof.
  intros [H1 [H2 H3] H4 H5 H6].
  assert (Hall : forall P : popup -> Prop, Forall P (shown s) -> Forall P (shown (faded id s))).
  { intros P HP. cbn. rewrite Forall_forall in *. intros p Hp. apply list_elem_of_filter in Hp as [_ Hp]. auto. }
  split; [|split; [|by apply Hall]|by apply Hall|by apply Hall|].
  - assert (live (faded id s) = live s) as ->; [|done]. unfold live, faded. cbn [shown].
    rewrite list_filter_filter. apply list_filter_iff. intros p. destruct (p_fading p); naive_solver.
  - by apply NoDup_filter_map.
  - eapply Forall_impl; [exact H6|]. intros h [Hn Hh]. split; [exact Hn|by apply Hall].
Qed.

(** In every state of the page at most one popup of each type is seen. *)
Lemma reachable_popups s : rtc popup_step no_popups s -> popups_ok s.
Proof.
  assert (Hstep : forall s s', popup_step s s' -> popups_ok s -> popups_ok s').
  { intros s0 s1 [] H; [by apply show_ok|by apply show_ok, owner_ok|by apply close_all_ok|by apply close_all_ok
      |by apply hide_ok, owner_ok|by apply faded_ok]. }
  assert (H0 : popups_ok no_popups) by (split; repeat constructor).
  intros H. revert H0. generalize dependent no_popups. intros s0 H.
  induction H as [|s1 s2 s3 H12 _ IH]; [done|]. intros H1. apply IH. by eapply Hstep.
Qed.

Lemma live_close_all types s : live (foldl close s types) = filter (fun p => p_type p ∉ types) (live s).
Proof.
  revert s. induction types as [|t types IH]; intros s.
  - cbn [foldl]. induction (live s) as [|p l IH]; [done|].
    rewrite filter_cons, decide_True by apply not_elem_of_nil. by rewrite <- IH.
  - cbn [foldl]. rewrite IH. unfold close. rewrite live_hide. change (live (set_owner None s)) with (live s).
    rewrite list_filter_filter. apply list_filter_iff. intros p. rewrite elem_of_cons. tauto.
Qed.

(** A click on the page closes every popup, and one on the mark of a popup that one;
    popups of other types stay. *)
Theorem popups_close s : rtc popup_step no_popups s ->
  live (click_outer s) = [] /\
  forall p, p ∈ live s -> live (click_mark (p_id p) s) = filter (fun q => p_type q <> p_type p) (live s).
Proof.
  intros Hr. destruct (reachable_popups s Hr) as [_ _ H4 H5 H6]. split.
  - unfold click_outer. rewrite live_close_all. destruct (filter _ _) as [|p l] eqn:Hl; [done|].
    assert (Hp : p ∈ filter (fun p => p_type p ∉ on_outer s) (live s)) by (rewrite Hl; left).
    apply list_elem_of_filter in Hp as [Hp Hin]. apply list_elem_of_filter in Hin as [_ Hin].
    rewrite Forall_forall in H4. by destruct Hp; apply H4.
  - intros p [_ Hp]%list_elem_of_filter. unfold click_mark. rewrite live_close_all. apply list_filter_iff. intros q.
    rewrite Forall_forall in H5. rewrite Forall_forall in H6. assert (Ht : forall t, t ∈ (filter (fun h => h.1 = p_id p) (on_mark s)).*2 <-> t = p_type p).
    { intros t. rewrite list_elem_of_fmap. split.
      - intros (h & -> & [Hid Hh]%list_elem_of_filter). destruct (H6 h Hh) as [_ Hall]. rewrite Forall_forall in Hall.
        symmetry. by apply Hall.
      - intros ->. exists (p_id p, p_type p). split; [done|]. apply list_elem_of_filter. split; [done|by apply H5]. }
    by rewrite Ht.
Qed.

(** Two helps and a warning: the second help replaces the first. *)
Example popups_shown :
  let s := show_popup "help" (VStr "b") (show_popup "warn" (VStr "w") (show_popup "help" (VStr "a") no_popups)) in
  map p_text (live s) = [VStr "b"; VStr "w"] /\ length (shown s) = 3%nat /\ live (click_outer s) = [].
Proof. by vm_compute. Qed.
