(* ===== verification/World.v ===== *)
(** The state of the page (global.js, main.js) with its timers and requests, and
    the effects its handlers have on the browser.

    The browser gives and clears timers, and hands each request a number; what
    the page does that the user or the server can see is an [effect], in order. *)
From S2P Require Import Prelude JsString JsNum Base64 Uri JsObject JsValue Columns Prefs Requests ChartRanges.

(** ** Requests in flight *)

(** What happens with the page once its requests are answered. *)
Inductive after := AfterUpdate | AfterPartial.

(** The continuation of a request: the next request of a page, or the end of
    an action of the user. *)
Inductive cont :=
  | NextReq (key : jstr) (reqs : obj jstr) (acc extra : obj value) (k : after)
  | ImportDone
  | DefinitionsDone (filename : jstr)
  | PublishDone
  | MessagesDone.

Record pending := mk_pending {
  req_cont : cont;
  on404 : bool;          (* whether a handler for 404 was given *)
  response_url : jstr;
}.

(** ** Effects *)

Inductive effect :=
  | Send (r : nat) (method path : jstr) (authorization : option jstr) (vhost : jstr)
  | Abort (r : nat)
  | Popup (type : jstr) (text : value)
  | Rendered (k : after) (template : option jstr) (acc extra : obj value)
  | Page404
  | On404 (response : value)
  | Status (status : jstr)
  | DebugText (status : Z)
  | ScrollTop
  | ScrollTo (x y : option Z)
  | Reload
  | GoTo (url : jstr)
  | Logout (reason : value)
  | Listeners
  | TabActivated (tab : option jstr)
  | SyncSend (method path authorization : jstr) (headers : obj value) (body : option (obj value))
  | PasswordSend (path authorization : jstr) (body : obj value)
  | PopupError (e : exn)
  | Download (filename : jstr)
  | Title (title : jstr)
  | VhostMenu (vhosts : list jstr) (selected : nat)
  | ActionDisabled
  | OAuthLogout
  | Content (element template : jstr) (model : obj value)
  | PopupsHidden
  | StyleLoad (file : jstr)
  | ScriptLoad (file : jstr)
  | AppUnload
  | AppRun.

(** ** The state *)

(** A counter that is undefined until it is first used; decrementing it before
    gives NaN, which stays NaN. *)
Inductive counter := Unset | Count (n : Z) | NotANumber.

(** The timers of the browser, and the variables that hold them. *)
Record timers := mk_timers {
  next_timer : nat;
  running : list (nat * Z);          (* the intervals that are set, with their periods *)
  timer : option nat;
  timer_interval : option Z;
  paused : counter;                  (* globalThis.rmq_webui_auto_refresh_paused *)
}.

(** A change of the user's own password: what its callbacks hold, whether it
    is over, and whether its timeout is still set. *)
Record change := mk_change {
  c_username : value;
  c_password : value;
  c_url : jstr;
  c_done : bool;
  c_timeout : bool;
}.

Record net := mk_net {
  next_req : nat;
  outstanding_reqs : list nat;
  in_flight : list (nat * pending);
  last_successful_connect : option Z;
  last_page_out_of_range_error : option Z;
  password_change_in_progress : bool;
  changes : list change;
}.

Record view := mk_view {
  current_template : option jstr;
  current_reqs : obj req;
  current_highlight : option jstr;
  update_counter : Z;
}.

(** What the handlers read of the document: whether a pagination field has the
    focus, whether there is something to update in place, whether the parts to
    update match, where the page is scrolled, and the values of the fields. *)
Record dom := mk_dom {
  focused : bool;
  updatable : bool;
  mismatch : bool;
  x_position : Z;
  y_position : Z;
  field_value : jstr -> value;
  field_checked : jstr -> bool;
}.

Record world (J : Type) := mk_world {
  prefs : page J;
  query : query_state;
  view_of : view;
  timers_of : timers;
  net_of : net;
  ranges : chart_ranges;
  document : dom;
  log : list effect;
}.
Arguments mk_world {J} _ _ _ _ _ _ _ _.
Arguments prefs {J} _.
Arguments query {J} _.
Arguments view_of {J} _.
Arguments timers_of {J} _.
Arguments net_of {J} _.
Arguments ranges {J} _.
Arguments document {J} _.
Arguments log {J} _.

Definition set_prefs {J : Type} (p : page J) (w : world J) : world J :=
  mk_world p (query w) (view_of w) (timers_of w) (net_of w) (ranges w) (document w) (log w).
Definition set_query {J : Type} (q : query_state) (w : world J) : world J :=
  mk_world (prefs w) q (view_of w) (timers_of w) (net_of w) (ranges w) (document w) (log w).
Definition set_view {J : Type} (v : view) (w : world J) : world J :=
  mk_world (prefs w) (query w) v (timers_of w) (net_of w) (ranges w) (document w) (log w).
Definition set_timers {J : Type} (t : timers) (w : world J) : world J :=
  mk_world (prefs w) (query w) (view_of w) t (net_of w) (ranges w) (document w) (log w).
Definition set_net {J : Type} (n : net) (w : world J) : world J :=
  mk_world (prefs w) (query w) (view_of w) (timers_of w) n (ranges w) (document w) (log w).
Definition set_document {J : Type} (d : dom) (w : world J) : world J :=
  mk_world (prefs w) (query w) (view_of w) (timers_of w) (net_of w) (ranges w) d (log w).
Definition set_log {J : Type} (l : list effect) (w : world J) : world J :=
  mk_world (prefs w) (query w) (view_of w) (timers_of w) (net_of w) (ranges w) (document w) l.

Section Handlers.
Context {J : Type}.
Notation H := (M (world J)).

(** A handler of the preferences, run on the whole state. *)
Definition on_prefs {A} (m : M (page J) A) : H A := fun w =>
  let '(r, p) := m (prefs w) in (r, set_prefs p w).

Definition on_timers (f : timers -> timers) : H unit :=
  modify (fun w => set_timers (f (timers_of w)) w).
Definition on_net (f : net -> net) : H unit := modify (fun w => set_net (f (net_of w)) w).
Definition on_view (f : view -> view) : H unit := modify (fun w => set_view (f (view_of w)) w).

Definition emit (e : effect) : H unit := modify (fun w => set_log (log w ++ [e]) w).

Definition when (b : bool) (m : H unit) : H unit := if b then m else skip.

(** A handler called by the browser: an exception goes to the console. *)
Definition callback (m : H unit) : H unit := fun w =>
  match m w with (Ok tt, w') => (Ok tt, w') | (Throw _, w') => (Ok tt, w') end.

(** ** Timers *)

(** [clearInterval(id)] *)
Definition clear_interval (id : option nat) (t : timers) : timers :=
  mk_timers (next_timer t) (filter (fun r => Some r.1 <> id) (running t)) (timer t)
    (timer_interval t) (paused t).

(** [timer = setInterval(onRefresh, period)] *)
Definition set_interval (period : Z) (t : timers) : timers :=
  mk_timers (S (next_timer t)) (running t ++ [(next_timer t, period)]) (Some (next_timer t))
    (timer_interval t) (paused t).

(** reset_timer *)
Definition reset_timer_state (t : timers) : timers :=
  let t := match timer t with Some _ => clear_interval (timer t) t | None => t end in
  match timer_interval t with Some period => set_interval period t | None => t end.

Definition reset_timer : H unit := on_timers reset_timer_state.

(** set_timer_interval *)
Definition set_timer_interval (interval : option Z) : H unit :=
  on_timers (fun t => mk_timers (next_timer t) (running t) (timer t) interval (paused t)) ;;;
  reset_timer.

(** update_interval, up to the selection of the option on the page. *)
Definition interval_of (intervalStr : option jstr) : option Z :=
  match intervalStr with
  | None => Some 5000
  | Some s => if decide (s = []) then None else parse_int s
  end.

Definition update_interval `{CJ : CookieJar J, CK : Clock} : H unit :=
  s ← on_prefs (get_pref "interval"); set_timer_interval (interval_of s).

(** pause_auto_refresh *)
Definition pause_state (t : timers) : timers :=
  let n := match paused t with Unset => Count 1 | Count n => Count (n + 1) | NotANumber => NotANumber end in
  let t := mk_timers (next_timer t) (running t) (timer t) (timer_interval t) n in
  match timer t with Some _ => clear_interval (timer t) t | None => t end.

Definition pause_auto_refresh : H unit := on_timers pause_state.

(** resume_auto_refresh *)
Definition resume_state (t : timers) : timers :=
  let n := match paused t with Count n => Count (n - 1) | _ => NotANumber end in
  let t := mk_timers (next_timer t) (running t) (timer t) (timer_interval t) n in
  match n with Count 0 => reset_timer_state t | _ => t end.

Definition resume_auto_refresh : H unit := on_timers resume_state.

(** setup_constant_events: the handler of the choice of the interval. A delay
    that is not a number is a delay of 0. *)
Definition on_update_every `{CJ : CookieJar J, CK : Clock} (interval : jstr) : H unit :=
  on_prefs (store_pref "interval" interval) ;;;
  set_timer_interval (if decide (interval = []) then None else Some (default 0 (parse_int interval))).

End Handlers.

(** ** Properties of the timers *)

(** At most one interval is running, and it is the one the page knows. *)
Record timers_ok (t : timers) : Prop := {
  ok_known : forall r, r ∈ running t -> Some r.1 = timer t;
  ok_single : (length (running t) <= 1)%nat;
  ok_fresh : forall id, timer t = Some id -> (id < next_timer t)%nat;
}.

(** The transitions of the timers: those of the handlers, and clearing the
    timer, which update and format do. *)
Inductive timer_step : timers -> timers -> Prop :=
  | step_reset t : timer_step t (reset_timer_state t)
  | step_interval t interval :
      timer_step t (mk_timers (next_timer t) (running t) (timer t) interval (paused t))
  | step_pause t : timer_step t (pause_state t)
  | step_resume t : timer_step t (resume_state t)
  | step_clear t : timer_step t (clear_interval (timer t) t).

Lemma clear_timer_empty t : timers_ok t -> running (clear_interval (timer t) t) = [].
Proof.
  intros [Hk Hs _]. cbn. destruct (running t) as [|r [|r' rs]]; [done| |cbn in Hs; lia].
  rewrite filter_cons, decide_False; [done|]. intros H. apply H, Hk. left.
Qed.

Lemma timers_ok_clear t : timers_ok t -> timers_ok (clear_interval (timer t) t).
Proof.
  intros Hok. pose proof (clear_timer_empty t Hok) as He. destruct Hok as [Hk Hs Hf].
  split; rewrite ?He; [by intros r ?%elem_of_nil | cbn; lia | exact Hf].
Qed.

Lemma timers_ok_fields t i c :
  timers_ok t -> timers_ok (mk_timers (next_timer t) (running t) (timer t) i c).
Proof. by intros [Hk Hs Hf]. Qed.

Lemma timers_ok_no_timer t : timers_ok t -> timer t = None -> running t = [].
Proof.
  intros [Hk _ _] Ht. destruct (running t) as [|r rs]; [done|].
  specialize (Hk r ltac:(left)). by rewrite Ht in Hk.
Qed.

(** What reset_timer leaves: one interval with the period chosen, or none. *)
Lemma reset_running t :
  timers_ok t ->
  running (reset_timer_state t) =
  match timer_interval t with Some period => [(next_timer t, period)] | None => [] end.
Proof.
  intros Hok. unfold reset_timer_state. destruct (timer t) as [id|] eqn:Et.
  - pose proof (clear_timer_empty t Hok) as He. rewrite Et in He. cbn in He |- *.
    by destruct (timer_interval t); cbn; rewrite He.
  - destruct (timer_interval t); cbn [set_interval running]; by rewrite (timers_ok_no_timer t Hok Et).
Qed.

Lemma timers_ok_reset t : timers_ok t -> timers_ok (reset_timer_state t).
Proof.
  intros Hok. pose proof (reset_running t Hok) as Hr.
  assert (Ht : timer (reset_timer_state t) =
      match timer_interval t with Some _ => Some (next_timer t) | None => timer t end /\
    next_timer (reset_timer_state t) =
      match timer_interval t with Some _ => S (next_timer t) | None => next_timer t end).
  { unfold reset_timer_state. by destruct (timer t) eqn:Et; cbn; destruct (timer_interval t). }
  destruct Ht as [Ht Hn]. destruct Hok as [Hk Hs Hf].
  split; rewrite ?Hr, ?Ht, ?Hn; destruct (timer_interval t); cbn; try lia.
  - by intros r ->%list_elem_of_singleton.
  - by intros r ?%elem_of_nil.
  - intros id [= <-]. lia.
  - exact Hf.
Qed.

Lemma timers_ok_pause t : timers_ok t -> timers_ok (pause_state t) /\ running (pause_state t) = [].
Proof.
  intros Hok. unfold pause_state. set (n := match paused t with Unset => _ | _ => _ end).
  pose proof (timers_ok_fields t (timer_interval t) n Hok) as Hok'. cbn [timer].
  destruct (timer t) as [id|] eqn:Et.
  - pose proof (timers_ok_clear _ Hok') as H1. pose proof (clear_timer_empty _ Hok') as H2.
    cbn [timer] in H1, H2. by split.
  - split; [done|]. by apply timers_ok_no_timer.
Qed.

Lemma timers_ok_resume t : timers_ok t -> timers_ok (resume_state t).
Proof.
  intros Hok. unfold resume_state. set (n := match paused t with Count _ => _ | _ => _ end).
  pose proof (timers_ok_fields t (timer_interval t) n Hok) as Hok'.
  destruct n as [|[]|]; try done. by apply timers_ok_reset.
Qed.

Lemma timer_step_ok t t' : timer_step t t' -> timers_ok t -> timers_ok t'.
Proof.
  destruct 1; auto using timers_ok_reset, timers_ok_fields, timers_ok_resume, timers_ok_clear.
  intros Hok. by apply timers_ok_pause.
Qed.

Definition initial_timers : timers := mk_timers 1 [] None None Unset.

(** C13: in every state the handlers can reach, at most one refresh timer is
    running, and it is the one the page would clear: timers never pile up. And
    resetting the timer leaves exactly one, with the interval the user chose,
    or none when he chose none. *)
Theorem timers_never_leak t :
  rtc timer_step initial_timers t ->
  timers_ok t /\
  running (reset_timer_state t) =
    match timer_interval t with Some period => [(next_timer t, period)] | None => [] end.
Proof.
  intros Hr. assert (Hok : timers_ok t).
  { assert (H0 : timers_ok initial_timers) by (split; cbn; [by intros r ?%elem_of_nil | lia | done]).
    revert H0. induction Hr as [|x y z Hxy _ IH]; [done|]. intros Hx. apply IH. by eapply timer_step_ok. }
  split; [done | by apply reset_running].
Qed.

Lemma timers_never_leak_witness :
  timers_ok (resume_state (pause_state (reset_timer_state (mk_timers 1 [] None (Some 5000) Unset)))).
Proof.
  apply (timers_never_leak _).
  eapply rtc_l; [apply (step_interval initial_timers (Some 5000))|].
  eapply rtc_l; [apply step_reset|]. eapply rtc_l; [apply step_pause|].
  eapply rtc_l; [apply step_resume|]. apply rtc_refl.
Defined.
