(* ===== verification/Pages.v ===== *)
(** Paginated lists (main.js, formatters.js): the page, the page size and the
    filter kept for each list, the address they give, and the filter of the
    lists that are not paginated. *)
From S2P Require Import Prelude JsString JsNum Base64 Uri JsObject JsValue Columns Prefs Requests ChartRanges Escape Format Links World.

(** ** Comparing stored texts with numbers *)

(** A number of the language: [ToNumber] of a text. *)
Inductive number := Finite (n : num) | Infinite (positive : bool) | NaN.

(** An exponent that ends the text. *)
Definition whole_exponent (t : jstr) : option Z :=
  match t with
  | [] => Some 0
  | c :: t' =>
      if decide (c = 101 \/ c = 69) then
        let '(sg, ds) := split_sign t' in
        if bool_decide (ds <> []) && forallb is_digit ds
        then Z.mul sg <$> digits_value dec_val 10 0 false ds else None
      else None
  end.

Definition decimal_literal (t : jstr) : number :=
  let '(sg, t) := split_sign t in
  if decide (t = "Infinity") then Infinite (0 <? sg)
  else
    let '(m, d, t1) := frac_digits 0 0 t in
    let '(m, s, t2) := match t1 with
                       | 46 :: t' => frac_digits m 0 t'
                       | _ => (m, 0%nat, t1)
                       end in
    match whole_exponent t2 with
    | Some e => if decide (d + s = 0)%nat then NaN else Finite (scaled (sg * m) s e)
    | None => NaN
    end.

Definition radix_value (base : Z) (ds : jstr) : number :=
  let val c := match hex_val c with Some d => if d <? base then Some d else None | None => None end in
  if bool_decide (ds <> []) && forallb (fun c => bool_decide (is_Some (val c))) ds
  then match digits_value val base 0 false ds with Some n => Finite (num_of n) | None => NaN end
  else NaN.

Definition to_number (s : jstr) : number :=
  match trim s with
  | [] => Finite (num_of 0)
  | 48 :: x :: ds as t =>
      if decide (x = 120 \/ x = 88) then radix_value 16 ds
      else if decide (x = 111 \/ x = 79) then radix_value 8 ds
      else if decide (x = 98 \/ x = 66) then radix_value 2 ds
      else decimal_literal t
  | t => decimal_literal t
  end.

(** [v > n] for a text or a number. *)
Definition exceeds (v : value) (n : Z) : bool :=
  let gt x := match x with
              | Finite m => num_ltb (num_of n) m
              | Infinite b => b
              | NaN => false
              end in
  match v with
  | VNum m => gt (Finite m)
  | VStr s => gt (to_number s)
  | _ => false
  end.

Definition to_value (s : option jstr) : value := match s with Some s => VStr s | None => VNull end.

Section Pages.
Context {J : Type} {CJ : CookieJar J} {CK : Clock}.

(** stored_value_or_default *)
Definition stored_value_or_default (template : jstr) (defaultValue : value) : M (page J) value :=
  stored ← get_pref template;
  mret (match stored with
        | None | Some [] => defaultValue
        | Some s => VStr s
        end).

(** fmt_page_number_request: [defaultPage <= 0] of a number. *)
Definition fmt_page_number_request (template : jstr) (defaultPage : value) : M (page J) value :=
  let defaultPage :=
    match defaultPage with
    | VNum n => if num_leb n (num_of 0) then VInt 1 else defaultPage
    | VUndef | VNull => VInt 1
    | _ => defaultPage
    end in
  stored_value_or_default (template ++ "_current_page_number") defaultPage.

(** fmt_page_size_request *)
Definition fmt_page_size_request (template : jstr) (defaultPageSize : value) : M (page J) value :=
  let defaultPageSize :=
    match defaultPageSize with
    | VNum n => if num_ltb n (num_of 0) then VInt 100 else defaultPageSize
    | VUndef | VNull => VInt 100
    | _ => defaultPageSize
    end in
  result ← stored_value_or_default (template ++ "_current_page_size") defaultPageSize;
  mret (if exceeds result 500 then VInt 500 else result).

(** fmt_filter_name_request *)
Definition fmt_filter_name_request (template : jstr) (defaultName : value) : M (page J) jstr :=
  v ← stored_value_or_default (template ++ "_current_filter_name") defaultName;
  mret (fmt_escape_html v).

(** fmt_regex_request *)
Definition fmt_regex_request (template : jstr) (defaultName : value) : M (page J) jstr :=
  v ← stored_value_or_default (template ++ "_current_regex") defaultName;
  mret (fmt_escape_html v).

End Pages.

(** ** The address of a list *)

(** Which texts are regular expressions is for the language's RegExp to say. *)
Class RegExpSyntax := { is_valid_regexp : jstr -> bool }.

Section Url.
Context {J : Type} {CJ : CookieJar J} {CK : Clock} {RX : RegExpSyntax}.

(** url_pagination_template_context *)
Definition url_pagination_template_context (template context : jstr)
  (defaultPage defaultPageSize : value) : M (world J) jstr :=
  page_number_request ← on_prefs (fmt_page_number_request context defaultPage);
  page_size ← on_prefs (fmt_page_size_request context defaultPageSize);
  name_request ← on_prefs (fmt_filter_name_request context (VStr []));
  regex ← on_prefs (fmt_regex_request context (VStr []));
  let use_regex := bool_decide (regex = js "checked") in
  request ←
    (if use_regex then
       if is_valid_regexp name_request then
         e ← lift (esc name_request); mret (e, true)
       else
         emit (Popup "warn" (VStr (fmt_escape_html (VStr
           ("Filter expression '" ++ name_request ++
            "' is not a valid regular expression, will perform a regular text query"))))) ;;;
         mret (name_request, false)
     else mret (name_request, false));
  let '(name_request, use_regex) := request in
  mret ("/" ++ template ++ "?page=" ++ to_str page_number_request ++
        "&page_size=" ++ to_str page_size ++ "&name=" ++ name_request ++
        "&use_regex=" ++ bool_string use_regex).

(** url_pagination_template *)
Definition url_pagination_template (template : jstr) (defaultPage defaultPageSize : value)
  : M (world J) jstr :=
  url_pagination_template_context template template defaultPage defaultPageSize.

(** stored_page_info: what the fields of the page say; fmt_strip_tags gives a
    text in any case, so the size and the name are always stored. *)
Definition stored_page_info (template : jstr) (page_start : value) : M (world J) unit :=
  d ← gets document;
  let pageSize := fmt_strip_tags (field_value d (template ++ "-pagesize")) in
  let filterName := fmt_strip_tags (field_value d (template ++ "-name")) in
  on_prefs (store_pref (template ++ "_current_page_number") (to_str page_start)) ;;;
  on_prefs (store_pref (template ++ "_current_filter_name") filterName) ;;;
  let regex_on := field_checked d (template ++ "-filter-regex-mode") in
  on_prefs (store_pref (template ++ "_current_regex") (if regex_on then "checked" else " ")) ;;;
  on_prefs (store_pref (template ++ "_current_page_size") pageSize).

End Url.

(** ** Lists that are filtered on the page *)

Section Filter.
Context {LC : LowerCase} (G : globals).

(** An item is kept when the regular expression matches its name in lower case,
    or when its name contains the filter. *)
Definition filter_matches (name : jstr) : bool :=
  let item_name := to_lower name in
  (current_filter_regex_on G &&
   match current_filter_regex G with
   | Some exec => bool_decide (is_Some (exec item_name))
   | None => false
   end) ||
  negb (index_of item_name (to_lower (current_filter G)) =? -1).

Definition items_desc (l : Z) : jstr := if l =? 1 then dec l ++ " item" else dec l ++ " items".

(** filter_ui_pg: the items, by name, are filtered in place; the markup. *)
Definition filter_ui_pg (items : list jstr) (truncate appendselect : jstr) : jstr * list jstr :=
  let total := Z.of_nat (length items) in
  let items := if decide (current_filter G = []) then items
               else filter (fun name => filter_matches name = true) items in
  let res :=
    "<div class=`filter`><table" ++
    (if decide (current_filter G = []) then [] else js " class=`filter-active`") ++
    "><tr><th>Filter:</th>" ++
    "<td><input id=`filter` type=`text` value=`" ++ fmt_escape_html (VStr (current_filter G)) ++ "`/>" ++
    "<input type=`checkbox` name=`filter-regex-mode` id=`filter-regex-mode`" ++
    (if current_filter_regex_on G then js " checked" else []) ++
    "/><label for=`filter-regex-mode`>Regex</label> <span class=`help` id=`filter-regex`></span>" ++
    "</td></tr></table>" in
  let count := Z.of_nat (length items) in
  let selected :=
    if decide (current_filter G = []) then items_desc count
    else dec count ++ " of " ++ items_desc total ++ " selected" in
  (res ++ "<p id=`filter-truncate`><span class=`updatable`>" ++ (selected ++ appendselect) ++
   "</span>" ++ truncate ++ "</p>" ++ "</div>", items).

(** filter_ui, given the preference "truncate": the items are cut to the first
    ones, and then filtered. A negative length is a RangeError. *)
Definition filter_ui (truncate_pref : option jstr) (items : list jstr) : res (jstr * list jstr) :=
  let current_truncate := s ← truncate_pref; parse_int s in
  let truncate_input :=
    "<input type=`text` id=`truncate` value=`" ++
    match current_truncate with Some n => dec n | None => "NaN" end ++ "`>" in
  match current_truncate with
  | Some n =>
      if Z.of_nat (length items) >? n then
        if n <? 0 then Throw RangeError
        else Ok (filter_ui_pg (take (Z.to_nat n) items) truncate_input
                   "<span id=`filter-warning-show`> (only showing first</span> ")
      else Ok (filter_ui_pg items truncate_input ", page size up to ")
  | None => Ok (filter_ui_pg items truncate_input ", page size up to ")
  end.

End Filter.

(** maybe_truncate *)
Definition maybe_truncate {A} (items : list A) : jstr * list A :=
  let maximum := 500 in
  if Z.of_nat (length items) >? maximum then
    ("<p class=`warning`>Only " ++ dec maximum ++ " of " ++ dec (Z.of_nat (length items)) ++
     " items are shown.</p>", take (Z.to_nat maximum) items)
  else ([], items).

(** update_truncate: only the digits typed are kept. *)
Definition update_truncate {J : Type} {CJ : CookieJar J} {CK : Clock} (typed : jstr)
  : M (page J) jstr :=
  let s := filter (fun c => is_digit c = true) typed in
  let s := if decide (s = []) then js "0" else s in
  store_pref "truncate" (match parse_int10 s with Some n => dec n | None => "NaN" end) ;;;
  mret s.

(** ** Properties *)

Section PageFacts.
Context {J : Type} {CJ : CookieJar J} {CK : Clock}.

Lemma get_pref_stored p l k v :
  local_storage p = Some l -> l !! rabbit k = Some v -> get_pref k p = (Ok (Some v), p).
Proof. intros El Hv. by rewrite (get_pref_local p l k El), Hv. Qed.

(** What stored_value_or_default makes of a stored text. *)
Definition or_default (s : jstr) (d : value) : value := if decide (s = []) then d else VStr s.

Lemma stored_or_default_run p l k v d :
  local_storage p = Some l -> l !! rabbit k = Some v ->
  stored_value_or_default k d p = (Ok (or_default v d), p).
Proof.
  intros El Hv. unfold stored_value_or_default, mbind, M_bind.
  rewrite (get_pref_stored p l k v El Hv). unfold or_default. by destruct v.
Qed.

(** No page larger than 500 is ever asked for: whatever text is stored as the
    page size of a list, hexadecimal, exponential or "Infinity" included, what
    fmt_page_size_request gives is not more than 500. *)
Theorem page_size_limit p template size :
  match (fmt_page_size_request template size p).1 with
  | Ok v => exceeds v 500 = false
  | Throw _ => True
  end.
Proof.
  unfold fmt_page_size_request, mbind, M_bind.
  destruct (stored_value_or_default _ _ p) as [[v|e] p']; [|done]. cbn.
  by destruct (exceeds v 500) eqn:E.
Qed.

Context {RX : RegExpSyntax}.

(** The preferences of a list. *)
Definition page_keys (t : jstr) : list jstr :=
  [t ++ "_current_page_number"; t ++ "_current_filter_name"; t ++ "_current_regex";
   t ++ "_current_page_size"].

Lemma rabbit_suffix_ne t (a b : jstr) : a <> b -> rabbit (t ++ a) <> rabbit (t ++ b).
Proof. unfold rabbit. intros Hne [= H]. by apply app_inv_head in H. Qed.

(** The address of a list asks for what its fields say: after the page, the
    size, the filter and the mode were read from the fields, the address holds
    them, with their defaults for those left empty, and the size cut to 500. *)
Theorem url_asks_for_fields w l t page_start :
  local_storage (prefs w) = Some l ->
  let d := document w in
  let size := fmt_strip_tags (field_value d (t ++ "-pagesize")) in
  let name := fmt_strip_tags (field_value d (t ++ "-name")) in
  field_checked d (t ++ "-filter-regex-mode") = false ->
  exists w', stored_page_info t page_start w = (Ok tt, w') /\
    (url_pagination_template t (VInt 1) (VInt 100) w').1 =
    Ok ("/" ++ t ++ "?page=" ++ to_str (or_default (to_str page_start) (VInt 1)) ++
        "&page_size=" ++
        to_str (if exceeds (or_default size (VInt 100)) 500 then VInt 500
                else or_default size (VInt 100)) ++
        "&name=" ++ fmt_escape_html (VStr name) ++ "&use_regex=false").
Proof.
  intros El d size name Hrx.
  set (l' := <[rabbit (t ++ "_current_page_size") := size]>
    (<[rabbit (t ++ "_current_regex") := js " "]> (<[rabbit (t ++ "_current_filter_name") := name]>
      (<[rabbit (t ++ "_current_page_number") := to_str page_start]> l)))).
  exists (set_prefs (set_local l' (prefs w)) w). split.
  { unfold stored_page_info, gets, mbind, M_bind, on_prefs. fold d. fold size name.
    rewrite (store_pref_local _ _ _ _ El). cbn [prefs set_prefs].
    rewrite (store_pref_local _ (<[rabbit (t ++ "_current_page_number") := to_str page_start]> l)) by done.
    cbn [prefs set_prefs]. rewrite Hrx.
    erewrite store_pref_local by reflexivity. cbn [prefs set_prefs].
    erewrite store_pref_local by reflexivity. done. }
  set (p := set_local l' (prefs w)). assert (Ep : local_storage p = Some l') by done.
  assert (Hsz : l' !! rabbit (t ++ "_current_page_size") = Some size) by apply lookup_insert_eq.
  assert (Hrg : l' !! rabbit (t ++ "_current_regex") = Some (js " ")).
  { unfold l'. by rewrite lookup_insert_ne, lookup_insert_eq by by apply rabbit_suffix_ne. }
  assert (Hnm : l' !! rabbit (t ++ "_current_filter_name") = Some name).
  { unfold l'. by rewrite !lookup_insert_ne, lookup_insert_eq by by apply rabbit_suffix_ne. }
  assert (Hpg : l' !! rabbit (t ++ "_current_page_number") = Some (to_str page_start)).
  { unfold l'. by rewrite !lookup_insert_ne, lookup_insert_eq by by apply rabbit_suffix_ne. }
  unfold url_pagination_template, url_pagination_template_context, fmt_page_number_request,
    fmt_page_size_request, fmt_filter_name_request, fmt_regex_request, mbind, M_bind, on_prefs.
  cbn [prefs set_prefs]. fold p.
  rewrite (stored_or_default_run p l' _ _ _ Ep Hpg). cbn [prefs set_prefs].
  rewrite (stored_or_default_run p l' _ _ _ Ep Hsz). cbn [prefs set_prefs mret M_ret].
  rewrite (stored_or_default_run p l' _ _ _ Ep Hnm). cbn [prefs set_prefs mret M_ret].
  rewrite (stored_or_default_run p l' _ _ _ Ep Hrg). cbn [prefs set_prefs mret M_ret].
  change (bool_decide (fmt_escape_html (or_default (js " ") (VStr [])) = js "checked")) with false.
  assert (En : or_default name (VStr []) = VStr name).
  { unfold or_default. case_decide as Hn; [by rewrite Hn | done]. }
  rewrite En. reflexivity.
Qed.

End PageFacts.
