(* ===== verification/Refresh.v ===== *)
(** Requests and refreshes (main.js): the requests of a page are sent one after
    the other, their answers collected into the model of its template, and the
    page is refreshed in full or in place. *)
From S2P Require Import Prelude JsString JsNum Base64 Uri JsObject JsValue Columns Prefs Requests ChartRanges Escape Format Links World Pages.

(** Whether a template can be rendered with a model: the templating library and
    the templates are not part of this code. *)
Class Templates := { renders : jstr -> obj value -> obj value -> bool }.

(** An answer: the body is the value its JSON text denotes, when it is JSON. *)
Record response := mk_response { status : Z; body : option value }.

Section Refresh.
Context {J : Type} {CJ : CookieJar J} {CK : Clock} {RX : RegExpSyntax} {TP : Templates}.
Variable oauth_enabled : bool.
Notation H := (M (world J)).

Definition clear_timer : H unit := on_timers (fun t => clear_interval (timer t) t).

(** update_status; the date of the last connection is undefined until there was
    one. *)
Definition update_status (s : jstr) : H unit :=
  if decide (s = "ok") then emit (Status "ok")
  else if decide (s = "error") then
    n ← gets net_of;
    match last_successful_connect n with
    | None => throw TypeError
    | Some _ => emit (Status "error")
    end
  else throw (Thrown ("Unknown status " ++ s)).

(** initiate_logout *)
Definition initiate_logout (reason : value) : H unit :=
  on_prefs (clear_pref "auth") ;;; on_prefs (clear_cookie_value "auth") ;;; emit (Logout reason).

(** What follows "api/" in the address, up to the last question mark. *)
Definition url_resource (url : jstr) : option jstr :=
  head (omap (fun o => fst <$> last_occurrence "?" (first_line o.2)) (occurrences "api/" url)).

Definition is_word (v : value) (s : jstr) : bool :=
  match v with VStr t => bool_decide (t = s) | _ => false end.

Definition set_page_error (now : Z) (n : net) : net :=
  mk_net (next_req n) (outstanding_reqs n) (in_flight n) (last_successful_connect n) (Some now)
    (password_change_in_progress n) (changes n).

(** The part of check_bad_response about pages that no longer exist. *)
Definition page_out_of_range (update_pages : jstr -> value -> H unit) (url : jstr) : H unit :=
  n ← gets net_of; t ← gets (fun w => now (prefs w));
  let late := match last_page_out_of_range_error n with Some last => 3000 <? t - last | None => true end in
  when late (
    match url_resource url with
    | Some resource =>
        for_each (fun item => when (starts_with resource item) (update_pages item (VInt 1)))
          [js "queues"; js "exchanges"; js "connections"; js "channels"]
    | None =>
        v ← gets view_of;
        update_pages (default (js "undefined") (current_template v)) (VInt 1)
    end ;;;
    on_net (set_page_error t)).

(** The popup for a reason: a text is escaped, anything else is shown as JSON. *)
Definition reason_popup (reason : value) : effect :=
  Popup "warn" (match reason with VStr _ => VStr (fmt_escape_html reason) | _ => reason end).

(** The branch of check_bad_response for 400 to 404. *)
Definition client_error (update_pages : jstr -> value -> H unit) (on404 : bool) (url : jstr)
  (r : response) : H unit :=
  match body r with
  | None => throw SyntaxError
  | Some answer =>
      error ← lift (field answer "error");
      reason ← lift (field answer "reason");
      if is_word error "bad_request" || is_word error "not_found" || is_word reason "Not Found" ||
         is_word error "not_authorised" || is_word error "not_authorized" then
        if ((status r =? 401) || (status r =? 403)) && oauth_enabled then initiate_logout reason
        else if on404 && (status r =? 404) then emit (On404 answer)
        else emit (reason_popup reason)
      else when (is_word error "page_out_of_range") (page_out_of_range update_pages url)
  end.

Definition success (s : Z) : bool := ((200 <=? s) && (s <? 300)) || (s =? 1223).

(** check_bad_response *)
Definition check_bad_response (update_pages : jstr -> value -> H unit) (full_page_404 on404 : bool)
  (url : jstr) (r : response) : H bool :=
  n ← gets net_of;
  if success (status r) then mret true
  else if password_change_in_progress n then mret false
  else
    (if (status r =? 404) && full_page_404 then emit Page404
     else if (400 <=? status r) && (status r <=? 404) then client_error update_pages on404 url r
     else if status r =? 408 then update_status "timeout"
     else if (status r =? 0) || (12000 <? status r) || (status r =? 503) then update_status "error"
     else (emit (DebugText (status r)) ;;; clear_timer)) ;;;
    mret false.

(** ** Sending *)

Definition add_request (c : pending) (n : net) : net :=
  mk_net (S (next_req n)) (outstanding_reqs n ++ [next_req n]) (in_flight n ++ [(next_req n, c)])
    (last_successful_connect n) (last_page_out_of_range_error n) (password_change_in_progress n) (changes n).

(** with_req *)
Definition with_req (method path : jstr) (c : cont) : H unit :=
  n ← gets net_of;
  if password_change_in_progress n then skip
  else
    ok ← on_prefs (has_auth_credentials None);
    if negb ok then on_prefs clear_auth ;;; emit Reload
    else
      header ← on_prefs authorization_header;
      q ← gets query;
      on_net (add_request (mk_pending c false ("api" ++ path))) ;;;
      emit (Send (next_req n) method ("api" ++ path) header (current_vhost q)).

(** full_refresh *)
Definition full_refresh : H unit :=
  d ← gets document;
  on_prefs (store_pref "position" (dec (x_position d) ++ "," ++ dec (y_position d))) ;;;
  emit Reload.

(** maybe_scroll *)
Definition maybe_scroll : H unit :=
  pos ← on_prefs (get_pref "position");
  match pos with
  | None | Some [] => skip
  | Some pos =>
      on_prefs (clear_pref "position") ;;;
      let xy := split_on 44 pos in
      emit (ScrollTo (x ← xy !! 0%nat; parse_int x) (y ← xy !! 1%nat; parse_int y))
  end.

Definition bump_counter (v : view) : view :=
  mk_view (current_template v) (current_reqs v) (current_highlight v) (update_counter v + 1).

(** The callbacks of update and partial_update, with the rendering of the
    template by format, which stops the timer when the template fails. *)
Definition finish (k : after) (acc extra : obj value) : H unit :=
  v ← gets view_of;
  when (negb (renders (default (js "undefined") (current_template v)) acc extra)) clear_timer ;;;
  match k with
  | AfterUpdate => emit (Rendered k (current_template v) acc extra) ;;; maybe_scroll ;;; reset_timer
  | AfterPartial =>
      on_view bump_counter ;;;
      d ← gets document;
      when (mismatch d) full_refresh ;;;
      emit (Rendered k (current_template v) acc extra)
  end ;;;
  update_status "ok".

(** with_reqs *)
Definition with_reqs (reqs : obj jstr) (acc extra : obj value) (k : after) : H unit :=
  match entries reqs with
  | [] => finish k acc extra
  | (key, path) :: _ => with_req "GET" path (NextReq key reqs acc extra k)
  end.

(** The function given to with_req, on a good answer. *)
Definition run_cont (c : cont) (r : response) : H unit :=
  match c with
  | ImportDone => emit (Popup "info" (VStr "Your definitions were imported successfully."))
  | DefinitionsDone filename =>
      emit (if (200 <=? status r) && (status r <=? 299) then Download filename
            else Popup "warn" (VStr "Error downloading definitions"))
  | _ =>
      match body r with
      | None => throw SyntaxError
      | Some v =>
          match c with
          | NextReq key reqs acc extra k =>
              if starts_with key "extra_" then with_reqs (del reqs key) acc (put extra key v) k
              else with_reqs (del reqs key) (put acc key v) extra k
          | PublishDone =>
              routed ← lift (field v "routed");
              emit (if truthy routed then Popup "info" (VStr "Message published.")
                    else Popup "warn" (VStr "Message published, but not routed."))
          | _ =>
              n ← lift (field v "length");
              when (eq_empty n) (emit (Popup "info" (VStr "Queue is empty")))
          end
      end
  end.

(** with_update *)
Definition with_update (k : after) : H unit :=
  n ← gets net_of;
  match outstanding_reqs n with
  | _ :: _ => skip
  | [] =>
      v ← gets view_of; q ← gets query;
      range ← on_prefs (get_pref "chart-range");
      reqs ← lift (apply_state q (null_string range) (current_reqs v));
      with_reqs reqs [] [] k
  end.

(** update *)
Definition update : H unit := clear_timer ;;; with_update AfterUpdate.

Definition reset_counter (v : view) : view :=
  mk_view (current_template v) (current_reqs v) (current_highlight v) 0.

(** partial_update *)
Definition partial_update : H unit :=
  d ← gets document; v ← gets view_of;
  when (negb (focused d) && updatable d)
    (if 200 <=? update_counter v then on_view reset_counter ;;; full_refresh
     else with_update AfterPartial).

(** onRefresh *)
Definition onRefresh : H unit := partial_update ;;; emit Listeners.

(** ** Answers *)

Fixpoint lookup_request (r : nat) (l : list (nat * pending)) : option pending :=
  match l with
  | [] => None
  | (r', c) :: l => if decide (r' = r) then Some c else lookup_request r l
  end.

(** [outstanding_reqs.splice(ix, 1)] of a request that is there. *)
Fixpoint splice (r : nat) (l : list nat) : list nat :=
  match l with
  | [] => []
  | r' :: l => if decide (r' = r) then l else r' :: splice r l
  end.

Definition answered (r : nat) (n : net) : net :=
  mk_net (next_req n) (splice r (outstanding_reqs n)) (filter (fun x => x.1 <> r) (in_flight n))
    (last_successful_connect n) (last_page_out_of_range_error n) (password_change_in_progress n) (changes n).

Definition connected (t : Z) (n : net) : net :=
  mk_net (next_req n) (outstanding_reqs n) (in_flight n) (Some t)
    (last_page_out_of_range_error n) (password_change_in_progress n) (changes n).

(** onreadystatechange of a request that is done. *)
Definition ready_state_change (update_pages : jstr -> value -> H unit) (r : nat) (resp : response)
  : H unit :=
  n ← gets net_of;
  match lookup_request r (in_flight n) with
  | None => skip
  | Some c =>
      on_net (answered r) ;;;
      ok ← check_bad_response update_pages (negb (on404 c)) (on404 c) (response_url c) resp;
      when ok (t ← gets (fun w => now (prefs w)); on_net (connected t) ;;; run_cont (req_cont c) resp)
  end.

(** [req.abort()]: the request is done at once, with status 0. *)
Definition abort (r : nat) : H unit :=
  n ← gets net_of;
  match lookup_request r (in_flight n) with
  | None => skip
  | Some _ =>
      emit (Abort r) ;;;
      callback (ready_state_change (fun _ _ => skip) r (mk_response 0 None))
  end.

(** The loop of render over the outstanding requests, whose indices were taken
    before it and whose answers shorten the list. *)
Fixpoint abort_loop (i count : nat) : H unit :=
  match count with
  | O => skip
  | S count =>
      n ← gets net_of;
      match outstanding_reqs n !! i with Some r => abort r | None => skip end ;;;
      abort_loop (S i) count
  end.

Definition drop_outstanding (n : net) : net :=
  mk_net (next_req n) [] (in_flight n) (last_successful_connect n)
    (last_page_out_of_range_error n) (password_change_in_progress n) (changes n).

Definition abort_all : H unit :=
  n ← gets net_of; abort_loop 0 (length (outstanding_reqs n)) ;;; on_net drop_outstanding.

(** render *)
Definition render (reqs : obj req) (template : jstr) (highlight : jstr) : H unit :=
  old ← gets (fun w => current_template (view_of w));
  on_view (fun v => mk_view (Some template) reqs (current_highlight v) (update_counter v)) ;;;
  abort_all ;;;
  on_view (fun v => mk_view (current_template v) (current_reqs v) (Some highlight) (update_counter v)) ;;;
  when (negb (bool_decide (old = Some template))) (emit ScrollTop) ;;;
  update ;;;
  emit (TabActivated (Some highlight)).

(** ** The lists *)

Definition sorted_list : obj value := [(js "sort", VBool true); (js "vhost", VBool true); (js "pagination", VBool true)].

(** renderQueues *)
Definition renderQueues : H unit :=
  r ← gets ranges;
  on_prefs (ensure_queues_chart_range r) ;;;
  path ← url_pagination_template "queues" (VInt 1) (VInt 100);
  render [(js "queues", WithOptions path sorted_list); (js "vhosts", Path "/vhosts")] "queues" "#/queues".

(** renderUsers *)
Definition renderUsers : H unit :=
  path ← url_pagination_template "users" (VInt 1) (VInt 100);
  render [(js "users", WithOptions path [(js "sort", VBool true); (js "pagination", VBool true)]);
          (js "permissions", Path "/permissions")] "users" "#/users".

(** renderExchanges *)
Definition renderExchanges : H unit :=
  path ← url_pagination_template "exchanges" (VInt 1) (VInt 100);
  render [(js "exchanges", WithOptions path sorted_list); (js "vhosts", Path "/vhosts")]
    "exchanges" "#/exchanges".

(** renderConnections *)
Definition renderConnections : H unit :=
  path ← url_pagination_template "connections" (VInt 1) (VInt 100);
  render [(js "connections", WithOptions path [(js "sort", VBool true)])] "connections" "#/connections".

(** renderChannels *)
Definition renderChannels : H unit :=
  path ← url_pagination_template "channels" (VInt 1) (VInt 100);
  render [(js "channels", WithOptions path [(js "sort", VBool true)])] "channels" "#/channels".

(** update_pages: RENDER_CALLBACKS is empty unless an extension fills it. *)
Definition update_pages (template : jstr) (page_start : value) : H unit :=
  stored_page_info template page_start ;;;
  if decide (template = "queues") then renderQueues
  else if decide (template = "exchanges") then renderExchanges
  else if decide (template = "connections") then renderConnections
  else if decide (template = "channels") then renderChannels
  else if decide (template = "users") then renderUsers
  else skip.

(** update_pages_from_ui, given the value and the "data-page-start" of the
    field. *)
Definition update_pages_from_ui (val : value) (page_start : value) : H unit :=
  let raw := if truthy page_start then page_start else val in
  v ← gets view_of;
  update_pages (default (js "undefined") (current_template v))
    (VStr (fmt_escape_html (VStr (fmt_strip_tags raw)))).

(** ** Sorting and filtering by the user *)

(** The handler of a click on the heading of a column. *)
Definition on_sort (sort : jstr) : H unit :=
  modify (fun w =>
    let q := query w in
    set_query (if decide (Requests.current_sort q = Some sort)
               then mk_query (current_vhost q) (Requests.current_sort q) (negb (Requests.current_sort_reverse q))
               else mk_query (current_vhost q) (Some sort) false) w) ;;;
  update.

(** The handler of the choice of a virtual host. *)
Definition on_show_vhost (vhost : jstr) : H unit :=
  modify (fun w => let q := query w in
    set_query (mk_query vhost (Requests.current_sort q) (Requests.current_sort_reverse q)) w) ;;;
  on_prefs (store_pref "vhost" vhost) ;;;
  v ← gets view_of;
  when (bool_decide (current_reqs v <> [])) update ;;;
  emit Listeners.

(** ** Events *)

Inductive event :=
  | Tick (id : nat)
  | Response (r : nat) (resp : response)
  | Open (reqs : obj req) (template highlight : jstr)
  | Sort (sort : jstr)
  | ShowVhost (vhost : jstr)
  | Interval (interval : jstr)
  | UpdatePages (template : jstr) (page_start : value)
  | Pause
  | Resume
  | Focus
  | Document (d : dom)
  | Clock_ (t : Z).

Definition set_now (t : Z) (w : world J) : world J :=
  set_prefs (mk_page (local_storage (prefs w)) (jar (prefs w)) t (COLUMNS (prefs w))) w.

(** The handler of an event; a timer only fires while it is running. *)
Definition handle (e : event) : H unit :=
  match e with
  | Tick id =>
      t ← gets timers_of;
      when (bool_decide (id ∈ (running t).*1)) onRefresh
  | Response r resp => ready_state_change update_pages r resp
  | Open reqs template highlight => render reqs template highlight
  | Sort sort => on_sort sort
  | ShowVhost vhost => on_show_vhost vhost
  | Interval interval => on_update_every interval
  | UpdatePages template page_start => update_pages template page_start
  | Pause => pause_auto_refresh
  | Resume => resume_auto_refresh
  | Focus => on_view reset_counter
  | Document d => modify (set_document d)
  | Clock_ t => modify (set_now t)
  end.

Definition step (w : world J) (e : event) : world J := (callback (handle e) w).2.

Definition run (w : world J) (es : list event) : world J := foldl step w es.

End Refresh.
