(* ===== verification/Sync.v ===== *)
(** Synchronous requests (main.js): the parameters of a form become a request,
    and its answer is the result of the call. *)
From S2P Require Import Prelude JsString JsNum Base64 Uri JsObject JsValue Columns Prefs Requests ChartRanges Escape Format Links Forms World Pages Refresh.

(** What sync_req returns: false, the text of the answer, or the object that
    tells of a change that was made. *)
Inductive sync_result :=
  | Refused
  | Text (body : option value)
  | Done (http_status : Z) (req_params : obj value).

(** Whether the result counts as true. *)
Definition succeeded (r : sync_result) : bool := match r with Refused => false | _ => true end.

(** [JSON.parse(r)]; false is the text "false". *)
Definition json_parse (r : sync_result) : res value :=
  match r with
  | Refused => Ok (VBool false)
  | Text (Some v) => Ok v
  | Text None | Done _ _ => Throw SyntaxError
  end.

(** The globals the forms read. *)
Record form_state := mk_form {
  queue_type : jstr;
  selectors : list selector;
}.

Section Sync.
Context {J : Type} {CJ : CookieJar J} {CK : Clock} {RX : RegExpSyntax} {TP : Templates}.
Variable oauth_enabled : bool.
Variable form : form_state.
(** The answers of the server, which is not part of this code. *)
Variable server : jstr -> jstr -> option (obj value) -> response.
Notation H := (M (world J)).

(** The popup for an exception: the text that was thrown is escaped. *)
Definition popup_of (e : exn) : effect :=
  match e with
  | Thrown s => Popup "warn" (VStr (fmt_escape_html (VStr s)))
  | _ => PopupError e
  end.

(** The parameters and the path of a request. *)
Definition prepare (params0 : obj value) (path_template : jstr) : res (obj value * jstr) :=
  params ← params_magic (queue_type form) (selectors form) params0;
  path ← fill_path_template path_template params;
  Ok (params, path).

(** sync_req *)
Definition sync_req (type : jstr) (params0 : obj value) (path_template : jstr) (headers : obj value)
  : H sync_result :=
  match prepare params0 path_template with
  | Throw e => emit (popup_of e) ;;; mret Refused
  | Ok (params, path) =>
      header ← on_prefs authorization_header;
      let body := if decide (type = "GET") then None else Some params in
      emit (SyncSend type ("api" ++ path) (null_string header) headers body) ;;;
      let r := server type ("api" ++ path) body in
      ok ← check_bad_response oauth_enabled (update_pages oauth_enabled) false false ("api" ++ path) r;
      mret (if (ok : bool)
            then if decide (type = "GET") then Text (Refresh.body r) else Done (status r) params
            else Refused)
  end.

Definition sync_get (path : jstr) : H sync_result := sync_req "GET" [] path [].
Definition sync_put (params : obj value) (path_template : jstr) : H sync_result :=
  sync_req "PUT" params path_template [].
Definition sync_delete (params : obj value) (path_template : jstr) (headers : obj value)
  : H sync_result := sync_req "DELETE" params path_template headers.
Definition sync_post (params : obj value) (path_template : jstr) : H sync_result :=
  sync_req "POST" params path_template [].

(** [JSON.parse(sync_get(path))] *)
Definition get_json (path : jstr) : H value := r ← sync_get path; lift (json_parse r).

(** [if (r) action] *)
Definition if_done (m : H sync_result) (action : H unit) : H unit :=
  r ← m; when (succeeded r) action.

(** update_vhosts: the virtual host that is no longer there is left for the
    first choice, "All". *)
Definition selected_vhost (current : jstr) (names : list jstr) : nat :=
  foldl (fun index '(i, n) => if decide (n = current) then S i else index) 0%nat
    (imap (fun i n => (i, n)) names).

Definition update_vhosts (names : list jstr) : H unit :=
  q ← gets query;
  let index := selected_vhost (current_vhost q) names in
  let vhost := match index with O => [] | S i => default [] (names !! i) end in
  modify (set_query (mk_query vhost (Requests.current_sort q) (Requests.current_sort_reverse q))) ;;;
  emit (VhostMenu names index) ;;;
  on_prefs (store_pref "vhost" vhost).

(** put_cast_params *)
Definition sync_put_cast (params : obj value) (path : jstr) (mandatory_keys num_keys bool_keys : list jstr)
  : H unit :=
  params ← lift (put_cast_params mandatory_keys num_keys bool_keys params);
  if_done (sync_put params path) update.

(** put_parameter *)
Definition put_parameter (params : obj value)
  (mandatory_keys num_keys bool_keys arrayable_keys : list jstr) : H unit :=
  params ← lift (put_parameter_params (queue_type form) (selectors form)
                   mandatory_keys num_keys bool_keys arrayable_keys params);
  if_done (sync_put params "/parameters/:component/:vhost/:name") update.

(** ** Messages *)

Definition message_props : list (jstr * bool) :=
  [(js "content_type", false); (js "content_encoding", false); (js "correlation_id", false);
   (js "reply_to", false); (js "expiration", false); (js "message_id", false);
   (js "type", false); (js "user_id", false); (js "app_id", false); (js "cluster_id", false);
   (js "priority", true); (js "timestamp", true)].

(** The properties of a message: those of the form that are not empty, the
    integers among them parsed. *)
Definition message_properties (params : obj value) : res (obj value) :=
  let p0 := [(js "delivery_mode", int_value (prop params "delivery_mode"))] in
  let p1 := if eq_empty (prop params "headers") then p0 else put p0 "headers" (prop params "headers") in
  foldl (fun acc '(name, int) =>
      p ← acc;
      v ← field (prop params "props") name;
      Ok (if nullish v || eq_empty v then p
          else put p name (if (int : bool) then int_value v else v)))
    (Ok p1) message_props.

(** publish_msg0; the body of an asynchronous request is not kept. *)
Definition publish_msg0 (params : obj value) : H unit :=
  path ← lift (fill_path_template "/exchanges/:vhost/:name/publish" params);
  properties ← lift (message_properties params);
  with_req "POST" path PublishDone.

(** publish_msg: what is tried, and what is caught. *)
Definition try_publish (params0 : obj value) : H unit :=
  params ← lift (params_magic (queue_type form) (selectors form) params0); publish_msg0 params.

Definition publish_msg (params0 : obj value) : H unit := fun w =>
  match try_publish params0 w with
  | (Ok tt, w') => (Ok tt, w')
  | (Throw e, w') => emit (popup_of e) w'
  end.

(** get_msgs *)
Definition get_msgs (params : obj value) : H unit :=
  path ← lift (fill_path_template "/queues/:vhost/:name/get" params);
  with_req "POST" path MessagesDone.

(** submit_import, once the user confirmed. *)
Definition submit_import (vhost : option jstr) : H unit :=
  path ← lift (match vhost with
               | Some v => if decide (v = []) then Ok (js "/definitions")
                           else s ← esc v; Ok ("/definitions/" ++ s)
               | None => Ok (js "/definitions")
               end);
  with_req "POST" path ImportDone.

(** The click on the download of the definitions: those of one virtual host, when
    one is selected. *)
Definition download_definitions (vhost : option jstr) (download_filename : jstr) : H unit :=
  v ← lift (match vhost with Some v => s ← esc v; Ok ("/" ++ s) | None => Ok [] end);
  filename ← lift (esc download_filename);
  with_req "GET" ("/definitions" ++ v) (DefinitionsDone filename).

End Sync.

(** The message for definitions that cannot be fetched is never shown: the answer
    was found good before, and is handed to the browser; only 1223, which old
    browsers gave for 204, is told to be an error. *)
Lemma download_error_unseen {J : Type} {CJ : CookieJar J} {CK : Clock} {TP : Templates} filename r :
  success (status r) = true -> status r <> 1223 ->
  run_cont (J := J) (DefinitionsDone filename) r = emit (Download filename).
Proof.
  unfold success. intros Hs Hne. cbn [run_cont].
  assert ((200 <=? status r) && (status r <=? 299) = true) as ->; [|done].
  apply orb_true_iff in Hs as [Hs|Hs%Z.eqb_eq]; [|done]. apply andb_true_iff in Hs as [H1 H2].
  apply andb_true_iff. lia.
Qed.
