(* ===== verification/Password.v ===== *)
(** The change of the user's own password (main.js): refreshes are paused and
    requests held back until the server answered or half a minute passed. *)
From S2P Require Import Prelude JsString JsNum Base64 Uri JsObject JsValue Columns Prefs Requests ChartRanges Escape Format Links Forms World Pages Refresh Sync.

Section Password.
Context {J : Type} {CJ : CookieJar J} {CK : Clock} {RX : RegExpSyntax} {TP : Templates}.
Variable oauth_enabled : bool.
Variable form : form_state.
Notation H := (M (world J)).

Definition set_progress (b : bool) (n : net) : net :=
  mk_net (next_req n) (outstanding_reqs n) (in_flight n) (last_successful_connect n)
    (last_page_out_of_range_error n) b (changes n).

Definition set_changes (l : list change) (n : net) : net :=
  mk_net (next_req n) (outstanding_reqs n) (in_flight n) (last_successful_connect n)
    (last_page_out_of_range_error n) (password_change_in_progress n) l.

Definition add_change (c : change) (n : net) : net := set_changes (changes n ++ [c]) n.

Definition end_change (i : nat) (n : net) : net :=
  set_changes (alter (fun c => mk_change (c_username c) (c_password c) (c_url c) true (c_timeout c)) i (changes n)) n.

Definition clear_timeout (i : nat) (n : net) : net :=
  set_changes (alter (fun c => mk_change (c_username c) (c_password c) (c_url c) (c_done c) false) i (changes n)) n.

(** change_own_password: what the form does at once. *)
Definition change_own_password (params0 : obj value) : H unit :=
  params ← lift (params_magic (queue_type form) (selectors form) params0);
  path ← lift (fill_path_template "/users/:username" params);
  on_net (set_progress true) ;;;
  pause_auto_refresh ;;;
  abort_all oauth_enabled ;;;
  on_net (add_change (mk_change (prop params0 "username") (prop params0 "password") ("api" ++ path) false true)) ;;;
  header ← on_prefs authorization_header;
  emit (PasswordSend ("api" ++ path) (null_string header) params).

(** finish, of the change with number [i]. *)
Definition finish_change (i : nat) : H unit :=
  n ← gets net_of;
  match changes n !! i with
  | None => skip
  | Some c =>
      when (negb (c_done c))
        (on_net (end_change i) ;;; on_net (set_progress false) ;;; resume_auto_refresh)
  end.

(** The timeout of half a minute, when it was not cleared. *)
Definition password_timeout (i : nat) : H unit :=
  n ← gets net_of;
  match changes n !! i with
  | None => skip
  | Some c =>
      when (c_timeout c)
        (on_net (clear_timeout i) ;;; finish_change i ;;;
         emit (Popup "warn" (VStr "Password change request timed out. Please try logging in again.")))
  end.

(** The answer of the server. *)
Definition password_answer (i : nat) (r : response) : H unit :=
  n ← gets net_of;
  match changes n !! i with
  | None => skip
  | Some c =>
      when (negb (c_done c))
        (on_net (clear_timeout i) ;;;
         if (200 <=? status r) && (status r <? 300) then
           on_prefs (set_basic_auth (to_str (c_username c)) (to_str (c_password c))) ;;;
           finish_change i ;;;
           emit (GoTo "#/users")
         else
           finish_change i ;;;
           ok ← check_bad_response oauth_enabled (update_pages oauth_enabled) false false (c_url c) r;
           skip)
  end.

End Password.
