(* ===== verification/Router.v ===== *)
(** The routing of the addresses and of the forms to their handlers, as the
    Sammy library beside the code does it (sammy-0.7.6.js): patterns of
    addresses with named parameters, tried in the order they were added. *)
From S2P Require Import Prelude JsString JsNum Base64 Uri JsObject JsValue.

Inductive verb := GET | PUT | POST | DELETE.

#[global] Instance verb_eq_dec : EqDecision verb.
Proof. solve_decision. Defined.

(** ** Decoding *)

(** One percent escape at the head. *)
Definition take_escape (s : jstr) : option (Z * jstr) :=
  match s with
  | 37 :: a :: b :: s => v ← hex2 a b; Some (v, s)
  | _ => None
  end.

(** The low six bits of a continuation octet. *)
Definition take_continuation (s : jstr) : option (Z * jstr) :=
  '(b, s) ← take_escape s;
  if (128 <=? b) && (b <? 192) then Some (b - 128, s) else None.

(** The code units of a code point. *)
Definition utf16 (cp : Z) : jstr :=
  if cp <? 65536 then [cp] else [(cp - 65536) / 1024 + 55296; (cp - 65536) mod 1024 + 56320].

(** A code point after its first octet, in its shortest form. *)
Definition decode_rest (b : Z) (s : jstr) : option (Z * jstr) :=
  if b <? 128 then Some (b, s)
  else if b <? 194 then None
  else if b <? 224 then
    '(c1, s) ← take_continuation s; Some ((b - 192) * 64 + c1, s)
  else if b <? 240 then
    '(c1, s) ← take_continuation s; '(c2, s) ← take_continuation s;
    let cp := (b - 224) * 4096 + c1 * 64 + c2 in
    if (cp <? 2048) || ((55296 <=? cp) && (cp <? 57344)) then None else Some (cp, s)
  else if b <? 245 then
    '(c1, s) ← take_continuation s; '(c2, s) ← take_continuation s; '(c3, s) ← take_continuation s;
    let cp := (b - 240) * 262144 + c1 * 4096 + c2 * 64 + c3 in
    if (cp <? 65536) || (1114111 <? cp) then None else Some (cp, s)
  else None.

(** [decodeURIComponent(s)]; every step consumes a unit, so that the length is
    fuel enough. *)
Fixpoint decode_loop (fuel : nat) (s : jstr) : res jstr :=
  match s with
  | [] => Ok []
  | c :: s1 =>
      match fuel with
      | O => Throw (RangeError)
      | S fuel =>
          if decide (c = 37) then
            match ('(b, s2) ← take_escape s; decode_rest b s2) with
            | Some (cp, s2) => app (utf16 cp) <$> decode_loop fuel s2
            | None => Throw URIError
            end
          else cons c <$> decode_loop fuel s1
      end
  end.

Definition decodeURIComponent (s : jstr) : res jstr := decode_loop (length s) s.

(** _decode: a plus is a space. *)
Definition decode_param (s : jstr) : res jstr := decodeURIComponent (replace_unit 43 [32] s).

(** ** Patterns *)

(** A pattern: units that stand for themselves, and parameters, which take one
    unit or more up to a slash. *)
Inductive piece := Lit (c : Z) | Param.

(** The units of a parameter's name. *)
Definition word_unit (c : Z) : bool := is_alnum c || (c =? 95).

Fixpoint take_word (s : jstr) : jstr * jstr :=
  match s with
  | c :: s' => if word_unit c then let '(w, r) := take_word s' in (c :: w, r) else ([], s)
  | [] => ([], [])
  end.

(** The pieces of a pattern and the names of its parameters. *)
Fixpoint compile (fuel : nat) (p : jstr) : list piece * list jstr :=
  match fuel, p with
  | S fuel, c :: p1 =>
      let '(w, rest) := take_word p1 in
      if decide (c = 58 /\ w <> []) then
        let '(ps, ns) := compile fuel rest in (Param :: ps, w :: ns)
      else let '(ps, ns) := compile fuel p1 in (Lit c :: ps, ns)
  | _, _ => ([], [])
  end.

Definition pattern (p : jstr) : list piece * list jstr := compile (length p) p.

(** The units a parameter can take. *)
Fixpoint run_length (s : jstr) : nat :=
  match s with c :: s' => if decide (c = 47) then O else S (run_length s') | [] => O end.

(** The pattern at the head of the text and up to its end: a parameter takes as
    much as it can, and less when the rest does not match. *)
Fixpoint match_at (ps : list piece) (s : jstr) : option (list jstr) :=
  match ps with
  | [] => match s with [] => Some [] | _ => None end
  | Lit c :: ps =>
      match s with d :: s => if decide (c = d) then match_at ps s else None | [] => None end
  | Param :: ps =>
      (fix try_take (n : nat) : option (list jstr) :=
         match n with
         | O => None
         | S m =>
             match match_at ps (drop n s) with
             | Some l => Some (take n s :: l)
             | None => try_take m
             end
         end) (run_length s)
  end.

(** The pattern matches the end of the text: the leftmost place is taken. *)
Fixpoint search (ps : list piece) (s : jstr) : option (list jstr) :=
  match match_at ps s with
  | Some l => Some l
  | None => match s with _ :: s => search ps s | [] => None end
  end.

(** routablePath: without the query, the first question mark that no hash
    follows. *)
Fixpoint routablePath (path : jstr) : jstr :=
  match path with
  | [] => []
  | c :: path => if decide (c = 63 /\ 35 ∉ path) then [] else c :: routablePath path
  end.

(** The query of an address. *)
Fixpoint query_string (path : jstr) : option jstr :=
  match path with
  | [] => None
  | c :: path => if decide (c = 63 /\ 35 ∉ path) then Some path else query_string path
  end.

(** _parseParamPair: a name given twice makes a list. *)
Definition add_param (params : obj value) (key : jstr) (v : value) : obj value :=
  match get params key with
  | None | Some VUndef => put params key v
  | Some (VArr l) => put params key (VArr (l ++ [v]))
  | Some x => put params key (VArr [x; v])
  end.

(** _parseQueryString *)
Fixpoint add_pairs (pairs : list jstr) (params : obj value) : res (obj value) :=
  match pairs with
  | [] => Ok params
  | nv :: pairs =>
      let kv := split_on 61 nv in
      k ← decode_param (default [] (kv !! 0%nat));
      v ← decode_param (default [] (kv !! 1%nat));
      add_pairs pairs (add_param params k (VStr v))
  end.

Definition parse_query (path : jstr) : res (obj value) :=
  match query_string path with
  | None | Some [] => Ok []
  | Some q => add_pairs (split_on 38 q) []
  end.

(** ** Routes *)

Record route (H : Type) := mk_route {
  r_verb : verb;
  r_path : jstr;
  r_handler : obj value -> H;
}.
Arguments mk_route {H} _ _ _.
Arguments r_verb {H} _.
Arguments r_path {H} _.
Arguments r_handler {H} _.

Section Route.
Context {H : Type}.
Implicit Types (rs : list (route H)).

(** lookupRoute, with the values of its parameters. *)
Fixpoint lookupRoute (v : verb) (path : jstr) (rs : list (route H))
  : option (route H * list jstr * list jstr) :=
  match rs with
  | [] => None
  | r :: rs =>
      let '(ps, names) := pattern (r_path r) in
      if decide (r_verb r = v) then
        match search ps (routablePath path) with
        | Some vals => Some (r, names, vals)
        | None => lookupRoute v path rs
        end
      else lookupRoute v path rs
  end.

(** The parameters of the address, over those of the form. *)
Fixpoint path_params (names vals : list jstr) (params : obj value) : res (obj value) :=
  match names, vals with
  | n :: names, v :: vals => d ← decode_param v; path_params names vals (put params n (VStr d))
  | _, _ => Ok params
  end.

(** runRoute: the handler that is called, with its parameters. *)
Definition runRoute (v : verb) (path : jstr) (params : obj value) (rs : list (route H))
  : res (option H) :=
  q ← parse_query path;
  let params := foldl (fun o kv => put o kv.1 kv.2) params (entries q) in
  match lookupRoute v path rs with
  | None => Ok None
  | Some (r, names, vals) =>
      params ← path_params names vals params;
      Ok (Some (r_handler r params))
  end.

Lemma lookupRoute_in v path rs r names vals :
  lookupRoute v path rs = Some (r, names, vals) -> r ∈ rs.
Proof.
  induction rs as [|r' rs IH]; cbn; [done|]. destruct (pattern (r_path r')) as [ps ns].
  destruct (decide (r_verb r' = v)); [destruct (search ps _)|];
    [intros [= <- _ _]; left | intros Hr; right; auto..].
Qed.

Lemma runRoute_in v path params rs h :
  runRoute v path params rs = Ok (Some h) -> exists r params', r ∈ rs /\ h = r_handler r params'.
Proof.
  unfold runRoute. intros (q & _ & Hq)%res_bind_ok. cbn in Hq.
  destruct (lookupRoute v path rs) as [[[r names] vals]|] eqn:Hl; [|done].
  apply res_bind_ok in Hq as (params' & _ & [= <-]). exists r, params'.
  split; [by eapply lookupRoute_in | done].
Qed.

End Route.

Example pattern_queue :
  search (pattern "#/queues/:vhost/:name").1 "/#/queues/%2F/a%20b" = Some [js "%2F"; js "a%20b"].
Proof. by_compute. Qed.

Example decode_example : decode_param "a%20b+c%C3%A9%F0%9F%90%B0" = Ok (js "a b c" ++ [233; 55357; 56368]).
Proof. by_compute. Qed.
