(* ===== verification/FormRows.v ===== *)
(** The multi-valued fields of a page, from the keystrokes to the inputs of a form:
    the states a user can bring the rows of [Multifields] into, and the names
    their inputs have.

    The states of the fields are those a user can reach: any number of inputs and
    types is changed, the fields are brought into shape, and so on. *)
From stdpp Require Import sorting.
From S2P Require Import Prelude JsString JsNum Uri JsObject JsValue QueueTypes Forms FormsFacts Multifields Router.

(** ** The inputs of the rows *)

(** The names and texts of the inputs of a row, in the order of the document
    (multifield_input, and the name of a field inside a row). *)
Fixpoint row_inputs (dict : bool) (name : jstr) (r : row) : list (jstr * jstr) :=
  match r with
  | Row id key type value sub =>
      let prefix := name ++ "_" ++ dec id in
      (if dict then [(prefix ++ MFKEY, key)] else []) ++
      match value with
      | Some v => [(prefix ++ MFVALUE, v)]
      | None =>
          (fix go (rows : list row) : list (jstr * jstr) :=
             match rows with [] => [] | r :: rows => row_inputs false prefix r ++ go rows end) sub
      end ++
      [(prefix ++ MFTYPE, type)]
  end.

Definition rows_inputs (dict : bool) (name : jstr) (rows : list row) : list (jstr * jstr) :=
  flat_map (row_inputs dict name) rows.

Definition fields_inputs (fields : list (jstr * list row)) : list (jstr * jstr) :=
  flat_map (fun f => rows_inputs true f.1 f.2) fields.

(** _parseFormParams: the parameters of a form with the given inputs. *)
Definition parse_form_params (inputs : list (jstr * jstr)) : obj value :=
  foldl (fun params kv => add_param params kv.1 (VStr kv.2)) [] inputs.

(** ** The steps of a user *)

(** Texts and types of a row are changed; which inputs there are is not. *)
Inductive edited : row -> row -> Prop :=
  | edited_row id key key' type type' value value' sub sub' :
      (is_Some value <-> is_Some value') -> Forall2 edited sub sub' ->
      edited (Row id key type value sub) (Row id key' type' value' sub').

(** Some rows were edited, and update_multifields ran. *)
Inductive user_step : list (jstr * list row) -> list (jstr * list row) -> Prop :=
  | user_edits fields fields' :
      Forall2 (fun f g => f.1 = g.1 /\ Forall2 edited f.2 g.2) fields fields' ->
      user_step fields (update_multifields fields').

(** The fields of a new page, brought into shape by postprocess. *)
Definition fresh_fields (names : list jstr) : list (jstr * list row) :=
  update_multifields (map (fun n => (n, [])) names).

Definition reachable_fields (names : list jstr) (fields : list (jstr * list row)) : Prop :=
  rtc user_step (fresh_fields names) fields.

(** ** The numbers of the rows *)

(** Increasing numbers, none of them negative, at all depths. *)
Inductive numbered : list row -> Prop :=
  | numbered_rows rows :
      StronglySorted Z.lt (map row_id rows) -> Forall (fun r => 0 <= row_id r /\ numbered (row_sub r)) rows ->
      numbered rows.

Definition well_numbered (r : row) : Prop := 0 <= row_id r /\ numbered (row_sub r).

Lemma numbered_nil : numbered [].
Proof. constructor; constructor. Qed.

Lemma sorted_NoDup l : StronglySorted Z.lt l -> NoDup l.
Proof.
  induction 1 as [|i l _ IH Hi]; constructor; [|done]. intros Hin. rewrite Forall_forall in Hi.
  specialize (Hi i Hin). lia.
Qed.

Lemma sorted_sublist {A} (R : relation A) l k : sublist l k -> StronglySorted R k -> StronglySorted R l.
Proof.
  induction 1 as [|i l k Hs IH|i l k Hs IH]; inversion 1 as [|? ? Hk Hall]; subst; [constructor| |by apply IH].
  constructor; [by apply IH|]. rewrite Forall_forall in Hall |- *. intros j Hj. apply Hall. by eapply elem_of_sublist.
Qed.

Lemma largest_id_pos rows : 0 <= largest_id rows.
Proof. destruct rows; cbn; [lia|]. induction rows; cbn; lia. Qed.

Lemma new_row_numbered id : 0 <= id -> well_numbered (new_row id).
Proof. split; [done|apply numbered_nil]. Qed.

Lemma add_row_numbered rows res :
  sublist (map row_id res.1) (map row_id rows) -> numbered rows -> Forall well_numbered res.1 ->
  numbered (add_row rows res).
Proof.
  intros Hsub Hn Hres. inversion Hn as [? Hnd _]; subst. unfold add_row. destruct res as [rows' []];
    cbn [fst snd] in *; constructor; try done; [by eapply sorted_sublist| |].
  - rewrite map_app. apply StronglySorted_app_2; [|by eapply sorted_sublist|repeat constructor].
    intros i j Hi Hj%list_elem_of_singleton. cbn in Hj. subst j.
    assert (i ∈ map row_id rows) as Hin by (by eapply elem_of_sublist).
    apply list_elem_of_fmap in Hin as (r & -> & Hr).
    pose proof (largest_id_ge rows) as Hge. rewrite Forall_forall in Hge. specialize (Hge r Hr). lia.
  - apply Forall_app. split; [done|]. apply Forall_singleton, new_row_numbered.
    pose proof (largest_id_pos rows). lia.
Qed.

(** What an update makes of rows, whether their inputs agree with their types or not. *)
Lemma update_rows_numbered dict rows :
  Forall (fun r => well_numbered r -> forall dict last,
    sublist (map row_id (update_row dict last r).1) [row_id r] /\
    Forall well_numbered (update_row dict last r).1) rows ->
  numbered rows ->
  sublist (map row_id (update_rows dict rows).1) (map row_id rows) /\
  Forall well_numbered (update_rows dict rows).1.
Proof.
  intros HP Hn. inversion Hn as [? Hnd Hall]; subst. clear Hn Hnd.
  induction rows as [|r rows IH]; [done|]. apply Forall_cons in HP as [Hr HP], Hall as [Hw Hall].
  specialize (IH HP Hall) as [Hs Hf]. destruct (Hr Hw dict (bool_decide (rows = []))) as [Hs' Hf'].
  cbn [update_rows]. destruct (update_row _ _ _) as [kept ?], (update_rows _ _) as [rest ?]; cbn [fst] in *.
  split; [|by apply Forall_app]. rewrite map_app. cbn [map]. change (row_id r :: map row_id rows) with ([row_id r] ++ map row_id rows).
  by apply sublist_app.
Qed.

Lemma update_row_numbered r :
  well_numbered r -> forall dict last,
    sublist (map row_id (update_row dict last r).1) [row_id r] /\
    Forall well_numbered (update_row dict last r).1.
Proof.
  induction r as [id key type value sub IH] using row_ind'. intros Hw dict last.
  assert (Hsingle : forall r', row_id r' = id -> numbered (row_sub r') ->
    sublist (map row_id [r']) [id] /\ Forall well_numbered [r']).
  { intros r' Hid Hn. cbn [map]. rewrite Hid. split; [done|]. apply Forall_singleton.
    split; [rewrite Hid; apply Hw|done]. }
  assert (Hnone : sublist (map row_id []) [id] /\ Forall well_numbered []).
  { split; [apply sublist_nil_l|constructor]. }
  destruct (decide (type = "list")) as [->|Ht].
  - destruct value as [v|].
    + cbn [update_row]. rewrite decide_True by done. apply Hsingle; [done|]. cbn [row_sub].
      apply add_row_numbered; [done|apply numbered_nil|constructor].
    + rewrite update_row_list. apply Hsingle; [done|]. cbn [row_sub]. unfold update_multifield.
      destruct Hw as [_ Hn]. cbn [row_sub] in Hn.
      destruct (update_rows_numbered false sub IH Hn). by apply add_row_numbered.
  - destruct value as [v|].
    + rewrite update_row_input by done. destruct (empty_row _ _); [destruct last|];
        cbn [fst]; [apply Hsingle; [done|apply Hw]|done|apply Hsingle; [done|apply Hw]].
    + cbn [update_row]. rewrite decide_False by done. apply Hsingle; [done|apply numbered_nil].
Qed.

Lemma update_multifield_numbered dict rows : numbered rows -> numbered (update_multifield dict rows).
Proof.
  intros Hn. destruct (update_rows_numbered dict rows) as [Hs Hf]; [|done|].
  - apply Forall_forall. intros r _. apply update_row_numbered.
  - by apply add_row_numbered.
Qed.

Lemma update_row_found r dict last : (update_row dict last r).2 = true -> (update_row dict last r).1 <> [].
Proof. destruct r as [id key type [v|] sub]; cbn [update_row]; repeat case_decide; by destruct last. Qed.

Lemma update_multifield_nonempty dict rows : update_multifield dict rows <> [].
Proof.
  unfold update_multifield, add_row. destruct (update_rows dict rows).2 eqn:Hf; [|by destruct (update_rows _ _).1].
  induction rows as [|r rows IH]; [done|]. cbn [update_rows] in *.
  pose proof (update_row_found r dict (bool_decide (rows = []))) as Hr.
  destruct (update_row _ _ _) as [kept []], (update_rows dict rows) as [rest []]; cbn in *; try done.
  - by destruct kept; [destruct Hr|].
  - by destruct kept; [destruct Hr|].
  - destruct kept; [by apply IH|done].
Qed.

(** ** What holds of the fields a user can reach *)

Record field_ok (rows : list row) : Prop := {
  ok_settled : Forall settled rows;
  ok_numbered : numbered rows;
  ok_nonempty : rows <> [];
}.

Lemma edited_ids rows rows' : Forall2 edited rows rows' -> map row_id rows = map row_id rows'.
Proof. induction 1 as [|r r' rows rows' He _ IH]; [done|]. cbn [map]. rewrite IH. by destruct He. Qed.

Lemma edited_numbered r : forall r', edited r r' -> numbered (row_sub r) -> numbered (row_sub r').
Proof.
  induction r as [id key type value sub IH] using row_ind'. inversion 1 as [? ? ? ? ? ? ? ? sub' _ Hsub]; subst.
  cbn [row_sub]. inversion 1 as [? Hnd Hall]; subst. constructor; [by rewrite <- (edited_ids sub)|].
  clear H H0 Hnd. induction Hsub as [|r r' sub sub' He _ IHs]; [constructor|].
  apply Forall_cons in IH as [Hr IH], Hall as [[Hi Hn] Hall]. constructor; [|by apply IHs].
  split; [by destruct He|by apply Hr].
Qed.

Lemma edits_numbered rows rows' : Forall2 edited rows rows' -> numbered rows -> numbered rows'.
Proof.
  intros H Hn. apply (edited_numbered (Row 0 [] [] None rows) (Row 0 [] [] None rows')); [|done].
  by constructor.
Qed.

Lemma update_field_ok rows : numbered rows -> field_ok (update_multifield true rows).
Proof.
  intros Hn. split; [apply update_multifield_settles|by apply update_multifield_numbered|].
  apply update_multifield_nonempty.
Qed.

Lemma reachable_ok names fields :
  reachable_fields names fields -> map fst fields = names /\ Forall (fun f => field_ok f.2) fields.
Proof.
  intros Hr. pattern fields. revert fields Hr. apply rtc_ind_r.
  - unfold fresh_fields, update_multifields. induction names as [|n names [IH Hok]]; [done|]. cbn [map fst snd].
    split; [by rewrite IH|]. constructor; [|done]. apply update_field_ok, numbered_nil.
  - intros fields fields' _ [mid mid' Hs] [<- Hok]. unfold update_multifields.
    induction Hs as [|f g mid mid' [Hname He] _ IH]; [done|]. apply Forall_cons in Hok as [Hf Hok].
    destruct (IH Hok) as [Hn Hok']. cbn [map fst snd]. rewrite Hname, <- Hn. split; [done|].
    constructor; [|done]. apply update_field_ok. by eapply edits_numbered, ok_numbered.
Qed.

(** ** Names of inputs *)

Lemma span_app f s c t : forallb f s = true -> f c = false -> span f (s ++ c :: t) = (s, c :: t).
Proof.
  induction s as [|d s IH]; cbn; [by intros _ ->|]. intros [-> Hs]%andb_true_iff Hc. by rewrite IH.
Qed.

Lemma span_split f s : (span f s).1 ++ (span f s).2 = s.
Proof.
  induction s as [|c s IH]; [done|]. cbn. destruct (f c); [|done]. destruct (span f s). cbn in *. by rewrite IH.
Qed.

Lemma longest_id_here id rest : starts_with rest (95 :: rest) = false ->
  longest_id (id ++ [95]) rest (95 :: rest) = Some id.
Proof.
  intros Hr. induction id as [|c id IH]; cbn [app longest_id].
  - rewrite Hr. cbn [app]. destruct (starts_with (95 :: rest) (95 :: rest)) eqn:E; [done|]. exfalso.
    apply (eq_true_false_abs _ (proj2 (starts_with_spec (95 :: rest) (95 :: rest)) (ex_intro _ [] (eq_sym (app_nil_r _)))) E).
  - by rewrite IH.
Qed.

Lemma match_field_here name id c m :
  forallb is_lower name = true -> forallb id_unit id = true -> id_unit c = false ->
  match_field (name ++ 95 :: id ++ 95 :: c :: m) (95 :: c :: m) = Some (name, id).
Proof.
  intros Hn Hid Hc. assert (match_here (name ++ 95 :: id ++ 95 :: c :: m) (95 :: c :: m) = Some (name, id)) as H.
  { unfold match_here. rewrite span_app by done. cbn [app].
    change (id ++ 95 :: c :: m) with (id ++ [95] ++ c :: m). rewrite app_assoc, span_app; [|by rewrite forallb_app, Hid|done].
    rewrite longest_id_here; [done|]. apply not_true_is_false. intros [t Ht]%starts_with_spec.
    injection Ht as ->. done. }
  destruct (name ++ 95 :: id ++ 95 :: c :: m); cbn [match_field]; by rewrite H.
Qed.

Lemma longest_id_infix run rest suffix p :
  longest_id run rest suffix = Some p -> exists a b, run ++ rest = a ++ suffix ++ b.
Proof.
  revert p. induction run as [|c run IH]; intros p; cbn [longest_id app].
  - case_match eqn:Hs; [|done]. intros _. apply starts_with_spec in Hs as [b ->]. by exists [], b.
  - destruct (longest_id run rest suffix) as [q|].
    + intros _. destruct (IH q eq_refl) as (a & b & ->). by exists (c :: a), b.
    + case_match eqn:Hs; [|done]. intros _. apply starts_with_spec in Hs as [b ->]. by exists [], b.
Qed.

Lemma match_field_infix key suffix m :
  match_field key suffix = Some m -> exists a b, key = a ++ suffix ++ b.
Proof.
  revert m. assert (Hhere : forall s m, match_here s suffix = Some m -> exists a b, s = a ++ suffix ++ b).
  { intros s m. unfold match_here. pose proof (span_split is_lower s) as Hs.
    destruct (span is_lower s) as [name [|c rest]]; [done|]. cbn in Hs.
    destruct (decide (c = 95)) as [->|Hc]; [|by repeat case_match]. pose proof (span_split id_unit rest) as Hr.
    destruct (span id_unit rest) as [run rest']. cbn in Hr. destruct (longest_id run rest' suffix) eqn:Hl; [|done].
    apply longest_id_infix in Hl as (a & b & Hab). intros _. exists (name ++ 95 :: a), b.
    rewrite <- Hs, <- Hr, Hab. by rewrite <- app_assoc. }
  induction key as [|c key IH]; intros m; cbn [match_field].
  - destruct (match_here [] suffix) eqn:H; [|done]. eauto.
  - destruct (match_here (c :: key) suffix) eqn:H; [eauto|]. intros Hm.
    destruct (IH m Hm) as (a & b & ->). by exists (c :: a), b.
Qed.

(** An input with another suffix, which has no [t], is not taken for a type. *)
Lemma match_field_other name s m :
  95 ∉ name -> 116 ∈ m -> 116 ∉ s -> match_field (name ++ 95 :: s) (95 :: m) = None.
Proof.
  intros Hn Hm Hs. destruct (match_field _ _) as [r|] eqn:E; [|done]. exfalso.
  apply match_field_infix in E as (a & b & E). cbn [app] in E.
  assert (Ht : 116 ∈ 95 :: m ++ b) by (right; apply elem_of_app; by left).
  apply app_eq_inv in E as [(l & -> & E)|(l & -> & E)].
  - destruct l as [|c l]; cbn in E; injection E as E.
    + apply Hs. rewrite <- E. apply elem_of_app. by left.
    + subst c. apply Hn, elem_of_app. right. left.
  - assert (116 ∈ 95 :: s) as [?|?]%elem_of_cons; [|done..]. rewrite E. apply elem_of_app. by right.
Qed.

Definition word (name : jstr) : Prop := forallb is_lower name = true.

Lemma word_no_underscore name : word name -> 95 ∉ name.
Proof.
  unfold word. rewrite forallb_forall. intros H Hin. apply list_elem_of_In, H in Hin. done.
Qed.

Definition id_text_ok (id : jstr) : Prop := forallb id_unit id = true.

Lemma id_no_t id : id_text_ok id -> 116 ∉ id.
Proof.
  unfold id_text_ok. rewrite forallb_forall. intros H Hin. apply list_elem_of_In, H in Hin. done.
Qed.

Lemma match_field_own name id suffix :
  word name -> id_text_ok id -> suffix ∈ [MFTYPE; MFKEY; MFVALUE] ->
  match_field (name ++ 95 :: id ++ suffix) suffix = Some (name, id).
Proof.
  intros Hn Hid Hs. rewrite !elem_of_cons, elem_of_nil in Hs.
  destruct Hs as [->|[->|[->|[]]]]; by apply match_field_here.
Qed.

Lemma match_field_not_type name id suffix :
  word name -> id_text_ok id -> suffix ∈ [MFKEY; MFVALUE] ->
  match_field (name ++ 95 :: id ++ suffix) MFTYPE = None.
Proof.
  intros Hn Hid Hs. apply (match_field_other name (id ++ suffix) (js "mftype")).
  - by apply word_no_underscore.
  - by_decide.
  - rewrite elem_of_app. intros [H|H]; [by eapply id_no_t|]. revert H.
    rewrite !elem_of_cons, elem_of_nil in Hs. destruct Hs as [->|[->|[]]]; by_decide.
Qed.

Lemma classify_type name id :
  word name -> id_text_ok id -> classify (name ++ 95 :: id ++ MFTYPE) = Some (Some (name, id)).
Proof. intros Hn Hid. unfold classify. rewrite match_field_own; [done..|left]. Qed.

Lemma classify_other name id suffix :
  word name -> id_text_ok id -> suffix ∈ [MFKEY; MFVALUE] ->
  classify (name ++ 95 :: id ++ suffix) = Some None.
Proof.
  intros Hn Hid Hs. unfold classify. rewrite match_field_not_type by done.
  pose proof (match_field_own name id suffix Hn Hid) as Ho. rewrite !elem_of_cons, elem_of_nil in Hs.
  destruct Hs as [->|[->|[]]]; rewrite Ho; [done|by_decide| |by_decide]. by destruct (match_field _ MFKEY).
Qed.

(** ** Numerals in names *)

Lemma dec_inj n m : 0 <= n -> 0 <= m -> dec n = dec m -> n = m.
Proof.
  intros Hn Hm H. apply (f_equal parse_int10) in H. rewrite !parse_int10_dec in H by done. congruence.
Qed.

Lemma dec_no_underscore n : 0 <= n -> 95 ∉ dec n.
Proof.
  intros Hn Hin. pose proof (dec_digits n Hn) as H. rewrite forallb_forall in H.
  apply list_elem_of_In, H in Hin. done.
Qed.

(** Text up to the first underscore. *)
Lemma underscore_split s t u v : 95 ∉ s -> 95 ∉ t -> s ++ 95 :: u = t ++ 95 :: v -> s = t /\ u = v.
Proof.
  intros Hs Ht H. apply (f_equal (split_on 95)) in H as H'. rewrite !split_on_app_sep in H' by done.
  injection H' as -> _. by apply app_inv_head in H as [= ->].
Qed.

(** The id of the row at a path. *)
Definition path_text (p : list Z) : jstr := join [95] (map dec p).

(** What the names of the inputs at a path begin with. *)
Definition path_name (name : jstr) (p : list Z) : jstr := join [95] (name :: map dec p).

Lemma path_name_snoc name p i : path_name name (p ++ [i]) = path_name name p ++ "_" ++ dec i.
Proof. unfold path_name. rewrite map_app. cbn [map]. rewrite app_comm_cons. by apply join_snoc. Qed.

Lemma path_name_text name p : p <> [] -> path_name name p = name ++ 95 :: path_text p.
Proof. by destruct p. Qed.

Lemma path_text_ok p : Forall (fun i => 0 <= i) p -> id_text_ok (path_text p).
Proof.
  unfold id_text_ok, path_text. induction 1 as [|i p Hi _ IH]; [done|]. destruct p as [|j p].
  - cbn. pose proof (dec_digits i Hi) as H. rewrite forallb_forall in H |- *. intros c Hc.
    unfold id_unit. by rewrite (H c Hc).
  - change (join [95] (map dec (i :: j :: p))) with (dec i ++ 95 :: join [95] (map dec (j :: p))).
    rewrite forallb_app. cbn [forallb]. rewrite IH, andb_true_r. pose proof (dec_digits i Hi) as H.
    rewrite forallb_forall in H |- *. intros c Hc. unfold id_unit. by rewrite (H c Hc).
Qed.

Lemma path_parts p : p <> [] -> Forall (fun i => 0 <= i) p -> split_on 95 (path_text p) = map dec p.
Proof.
  intros Hp Hall. apply split_join; [by destruct p|]. apply Forall_map. eapply Forall_impl; [exact Hall|].
  intros i. apply dec_no_underscore.
Qed.

Lemma path_parent name p i :
  p <> [] -> Forall (fun i => 0 <= i) (p ++ [i]) -> parent_id (name, path_text (p ++ [i])) = (name, path_text p).
Proof.
  intros Hp Hall. unfold parent_id. cbn [fst snd]. rewrite path_parts; [|by destruct p|done].
  rewrite map_app, length_app. cbn [map length]. f_equal. unfold path_text.
  replace (length (map dec p) + 1 - 1)%nat with (length (map dec p)) by lia. by rewrite take_app_length.
Qed.

(** ** Rows at their paths *)

Inductive located : list row -> list Z -> row -> Prop :=
  | located_here rows r : r ∈ rows -> located rows [row_id r] r
  | located_inside rows r p r' :
      r ∈ rows -> row_value r = None -> located (row_sub r) p r' -> located rows (row_id r :: p) r'.

Lemma located_path rows p r : located rows p r -> p <> [].
Proof. by destruct 1. Qed.

Lemma located_numbered rows p r : located rows p r -> numbered rows -> Forall (fun i => 0 <= i) p.
Proof.
  induction 1 as [rows r Hr|rows r p r' Hr _ _ IH]; inversion 1 as [? _ Hall]; subst;
    rewrite Forall_forall in Hall; destruct (Hall r Hr) as [Hi Hn]; constructor; try done; auto.
Qed.

Lemma located_settled rows p r : located rows p r -> Forall settled rows -> settled r.
Proof.
  induction 1 as [rows r Hr|rows r p r' Hr Hv _ IH]; rewrite Forall_forall; intros Hs; [auto|].
  apply IH. specialize (Hs r Hr). by destruct Hs.
Qed.

(** The row around a row. *)
Lemma located_parent rows p i r :
  located rows (p ++ [i]) r -> p <> [] ->
  exists r', located rows p r' /\ row_value r' = None /\ r ∈ row_sub r' /\ row_id r = i.
Proof.
  remember (p ++ [i]) as q eqn:Hq. intros H. revert p Hq.
  induction H as [rows r Hr|rows r q r' Hr Hv Hl IH]; intros p Hq Hp.
  { destruct p as [|? []]; [done|discriminate..]. }
  destruct p as [|j p]; [done|]. injection Hq as <- ->. destruct p as [|j p].
  - exists r. split; [by constructor|]. split; [done|].
    inversion Hl as [|? ? ? ? ? ? Hl']; subst; [done|by apply located_path in Hl'].
  - destruct (IH (j :: p) eq_refl) as (r2 & Hl2 & Hv2); [done|]. exists r2. split; [by constructor|done].
Qed.

Lemma located_child rows p r s :
  located rows p r -> row_value r = None -> s ∈ row_sub r -> located rows (p ++ [row_id s]) s.
Proof.
  induction 1 as [rows r Hr|rows r p r' Hr Hv Hl IH]; intros Hv' Hs.
  - apply (located_inside rows r [row_id s]); [done|done|by constructor].
  - apply (located_inside rows r (p ++ [row_id s])); [done|done|by apply IH].
Qed.

(** A path leads to one row. *)
Lemma row_by_id rows r r' : NoDup (map row_id rows) -> r ∈ rows -> r' ∈ rows -> row_id r = row_id r' -> r = r'.
Proof.
  induction rows as [|r0 rows IH]; cbn [map]; rewrite ?elem_of_cons; [by intros _ ?%elem_of_nil|].
  intros [Hn Hnd]%NoDup_cons [->|Hr] [->|Hr'] He; [done|..|by apply IH]; exfalso; apply Hn;
    apply list_elem_of_fmap; eauto.
Qed.

Lemma located_unique rows p r r' : numbered rows -> located rows p r -> located rows p r' -> r = r'.
Proof.
  intros Hn H. revert r' Hn. induction H as [rows r Hr|rows r p r1 Hr Hv Hl IH]; intros r' Hn H';
    inversion Hn as [? Hnd Hall]; subst; inversion H' as [? r2 Hr2 Hi|? r2 p' ? Hr2 Hv2 Hl2 Hi]; subst.
  - apply (row_by_id rows); [by apply sorted_NoDup|done..].
  - by apply located_path in Hl2.
  - by apply located_path in Hl.
  - assert (r2 = r) as -> by (apply (row_by_id rows); [by apply sorted_NoDup|done..]).
    apply IH; [|done]. rewrite Forall_forall in Hall. by apply Hall.
Qed.

(** ** The inputs of a field *)

Lemma row_inputs_eq dict name id key type value sub :
  let prefix := name ++ "_" ++ dec id in
  row_inputs dict name (Row id key type value sub) =
  (if dict then [(prefix ++ MFKEY, key)] else []) ++
  match value with Some v => [(prefix ++ MFVALUE, v)] | None => rows_inputs false prefix sub end ++
  [(prefix ++ MFTYPE, type)].
Proof. done. Qed.

Definition suffixes : list jstr := [MFKEY; MFVALUE; MFTYPE].

Lemma located_incl rows rows' p r : rows ⊆ rows' -> located rows p r -> located rows' p r.
Proof. intros Hs. destruct 1; econstructor; eauto. Qed.

(** Every input belongs to the row at some path. *)
Lemma row_inputs_located name r : forall dict q k v,
  (k, v) ∈ row_inputs dict (path_name name q) r ->
  exists p r' suffix, located [r] p r' /\ suffix ∈ suffixes /\ k = path_name name (q ++ p) ++ suffix.
Proof.
  induction r as [id key type value sub IH] using row_ind'. intros dict q k v.
  rewrite row_inputs_eq, <- path_name_snoc. rewrite !elem_of_app, list_elem_of_singleton.
  assert (Hhere : forall suffix, suffix ∈ suffixes -> exists p r' suffix',
    located [Row id key type value sub] p r' /\ suffix' ∈ suffixes /\
    path_name name (q ++ [id]) ++ suffix = path_name name (q ++ p) ++ suffix').
  { intros suffix Hs. exists [id], (Row id key type value sub), suffix. split; [|done].
    apply (located_here _ (Row id key type value sub)). by apply list_elem_of_singleton. }
  intros [H|[H|[= -> _]]]; [|destruct value as [w|]|apply Hhere; by_decide].
  - destruct dict; [|by apply elem_of_nil in H]. apply list_elem_of_singleton in H as [= -> _].
    apply Hhere. by_decide.
  - apply list_elem_of_singleton in H as [= -> _]. apply Hhere. by_decide.
  - unfold rows_inputs in H. apply list_elem_of_In, in_flat_map in H as (r & Hr & H).
    apply list_elem_of_In in Hr, H. rewrite Forall_forall in IH.
    destruct (IH r Hr _ _ _ _ H) as (p & r' & suffix & Hl & Hs & ->). exists (id :: p), r', suffix.
    split; [|by rewrite <- app_assoc]. apply (located_inside _ (Row id key type None sub)); [by apply list_elem_of_singleton|done|].
    eapply located_incl; [|exact Hl]. intros x ->%list_elem_of_singleton. done.
Qed.

Lemma rows_inputs_located dict name q rows k v :
  (k, v) ∈ rows_inputs dict (path_name name q) rows ->
  exists p r' suffix, located rows p r' /\ suffix ∈ suffixes /\ k = path_name name (q ++ p) ++ suffix.
Proof.
  intros H. apply list_elem_of_In, in_flat_map in H as (r & Hr & H). apply list_elem_of_In in Hr, H.
  destruct (row_inputs_located _ _ _ _ _ _ H) as (p & r' & suffix & Hl & Hs). exists p, r', suffix.
  split; [|done]. eapply located_incl; [|exact Hl]. intros x ->%list_elem_of_singleton. done.
Qed.

(** Every row has an input for its type. *)
Lemma located_type dict name q rows p r :
  located rows p r -> (path_name name (q ++ p) ++ MFTYPE, row_type r) ∈ rows_inputs dict (path_name name q) rows.
Proof.
  intros H. revert dict q. induction H as [rows r Hr|rows r p r' Hr Hv _ IH]; intros dict q;
    apply list_elem_of_In, in_flat_map; exists r; (split; [by apply list_elem_of_In|]); apply list_elem_of_In;
    destruct r as [id key type value sub]; rewrite row_inputs_eq, <- path_name_snoc, !elem_of_app.
  - right; right. by apply list_elem_of_singleton.
  - cbn in Hv. subst value. right; left. specialize (IH false (q ++ [id])). by rewrite <- app_assoc in IH.
Qed.

(** A row without a field of its own has an input for its value, and a row of a
    table one for its key. *)
Lemma located_value dict name q rows p r v :
  located rows p r -> row_value r = Some v ->
  (path_name name (q ++ p) ++ MFVALUE, v) ∈ rows_inputs dict (path_name name q) rows.
Proof.
  intros H Hval. revert dict q. induction H as [rows r Hr|rows r p r' Hr Hv _ IH]; intros dict q;
    apply list_elem_of_In, in_flat_map; exists r; (split; [by apply list_elem_of_In|]); apply list_elem_of_In;
    destruct r as [id key type value sub]; rewrite row_inputs_eq, <- path_name_snoc, !elem_of_app.
  - right; left. cbn in Hval. subst value. by apply list_elem_of_singleton.
  - cbn in Hv. subst value. right; left. specialize (IH Hval false (q ++ [id])). by rewrite <- app_assoc in IH.
Qed.

Lemma row_key_input name rows r :
  r ∈ rows -> (path_name name [row_id r] ++ MFKEY, row_key r) ∈ rows_inputs true name rows.
Proof.
  intros Hr. apply list_elem_of_In, in_flat_map. exists r. split; [by apply list_elem_of_In|].
  apply list_elem_of_In. destruct r as [id key type value sub]. rewrite row_inputs_eq, elem_of_app. left.
  cbn [row_id row_key]. change (path_name name [id]) with (name ++ "_" ++ dec id). by apply list_elem_of_singleton.
Qed.

(** ** Different inputs have different names *)

Lemma NoDup_flat_map_fst {A B C K} (tag : A -> C) (f : A -> list (K * B)) l :
  NoDup (map tag l) -> Forall (fun x => NoDup (f x).*1) l ->
  (forall x y k, x ∈ l -> y ∈ l -> k ∈ (f x).*1 -> k ∈ (f y).*1 -> tag x = tag y) ->
  NoDup (flat_map f l).*1.
Proof.
  induction l as [|x l IH]; intros Hn Hf Hd; [constructor|]. cbn [map] in Hn. apply NoDup_cons in Hn as [Hx Hn].
  apply Forall_cons in Hf as [Hfx Hf]. cbn [flat_map]. rewrite fmap_app. apply NoDup_app. split; [done|]. split.
  - intros k Hk Hk'. apply list_elem_of_fmap in Hk' as ([k' v] & -> & Hk').
    apply list_elem_of_In, in_flat_map in Hk' as (y & Hy & Hk'). apply list_elem_of_In in Hy, Hk'.
    apply Hx, list_elem_of_fmap. exists y. split; [|done]. apply (Hd x y k'); [left|by right|done|].
    apply list_elem_of_fmap. by exists (k', v).
  - apply IH; [done..|]. intros y z k Hy Hz. apply Hd; by right.
Qed.

Lemma NoDup_omap {A B} (f : A -> option B) l :
  NoDup l -> (forall x y b, x ∈ l -> y ∈ l -> f x = Some b -> f y = Some b -> x = y) -> NoDup (omap f l).
Proof.
  induction 1 as [|x l Hx _ IH]; intros Hf; [constructor|]. cbn [omap list_omap].
  assert (NoDup (omap f l)) by (apply IH; intros y z b Hy Hz; apply Hf; by right).
  destruct (f x) as [b|] eqn:Hfx; [|done]. apply NoDup_cons. split; [|done].
  intros (y & Hy & Hfy)%list_elem_of_omap. apply Hx. by rewrite (Hf x y b) by (done || left || by right).
Qed.

(** The inputs of a row begin with its name. *)
Lemma row_inputs_prefix dict name r k :
  k ∈ (row_inputs dict name r).*1 -> exists t, k = name ++ 95 :: dec (row_id r) ++ 95 :: t.
Proof.
  revert dict name k. induction r as [id key type value sub IH] using row_ind'. intros dict name k.
  rewrite row_inputs_eq, !fmap_app, !elem_of_app. cbn [row_id].
  intros [H|[H|H]].
  - destruct dict; [|by apply elem_of_nil in H]. apply list_elem_of_singleton in H as ->.
    eexists. by rewrite <- !app_assoc.
  - destruct value as [v|].
    + apply list_elem_of_singleton in H as ->. eexists. by rewrite <- !app_assoc.
    + apply list_elem_of_fmap in H as ([k' v] & -> & H).
      apply list_elem_of_In, in_flat_map in H as (r & Hr & H). apply list_elem_of_In in Hr, H.
      rewrite Forall_forall in IH. destruct (IH r Hr false (name ++ "_" ++ dec id) k') as [t ->].
      { apply list_elem_of_fmap. by exists (k', v). }
      eexists. by rewrite <- !app_assoc.
  - apply list_elem_of_singleton in H as ->. eexists. by rewrite <- !app_assoc.
Qed.

Lemma rows_inputs_NoDup dict name rows :
  numbered rows -> Forall (fun r => forall dict name, numbered (row_sub r) -> NoDup (row_inputs dict name r).*1) rows ->
  NoDup (rows_inputs dict name rows).*1.
Proof.
  inversion 1 as [? Hnd Hall]; subst. intros Hr. rewrite Forall_forall in Hall. apply (NoDup_flat_map_fst row_id).
  - by apply sorted_NoDup.
  - rewrite Forall_forall in Hr |- *. intros r Hin. by apply Hr, Hall.
  - intros x y k Hx Hy [t Ht]%row_inputs_prefix [u Hu]%row_inputs_prefix.
    destruct (Hall x Hx) as [Hi _], (Hall y Hy) as [Hj _]. rewrite Hu in Ht.
    apply app_inv_head in Ht. injection Ht as Ht. apply dec_inj; [done..|].
    apply underscore_split in Ht as [-> _]; [done|by apply dec_no_underscore..].
Qed.

(** A name at a deeper path is none of a row's own. *)
Lemma inner_name_ne dict prefix rows suffix :
  numbered rows -> suffix ∈ suffixes -> prefix ++ suffix ∉ (rows_inputs dict prefix rows).*1.
Proof.
  intros Hn Hs H. inversion Hn as [? _ Hall]; subst. rewrite Forall_forall in Hall.
  apply list_elem_of_fmap in H as ([k v] & Hk & H). cbn in Hk. subst k.
  apply list_elem_of_In, in_flat_map in H as (r & Hr & H). apply list_elem_of_In in Hr, H.
  destruct (row_inputs_prefix dict prefix r (prefix ++ suffix)) as [t Ht].
  { apply list_elem_of_fmap. by exists (prefix ++ suffix, v). }
  apply app_inv_head in Ht. destruct (Hall r Hr) as [Hi _]. pose proof (dec_digits _ Hi) as Hd.
  unfold suffixes in Hs. rewrite !elem_of_cons, elem_of_nil in Hs.
  destruct (dec (row_id r)) as [|c s], Hs as [->|[->|[->|[]]]]; try discriminate Ht;
    injection Ht as <- _; done.
Qed.

Lemma row_inputs_NoDup r : forall dict name, numbered (row_sub r) -> NoDup (row_inputs dict name r).*1.
Proof.
  induction r as [id key type value sub IH] using row_ind'. intros dict name Hn. cbn [row_sub] in Hn.
  rewrite row_inputs_eq. set (prefix := name ++ "_" ++ dec id). rewrite !fmap_app.
  assert (Hmid : NoDup (match value with Some v => [(prefix ++ MFVALUE, v)] | None => rows_inputs false prefix sub end).*1).
  { destruct value; [apply NoDup_singleton|by apply rows_inputs_NoDup]. }
  assert (Hout : forall suffix, suffix ∈ [MFKEY; MFTYPE] -> prefix ++ suffix ∉
    (match value with Some v => [(prefix ++ MFVALUE, v)] | None => rows_inputs false prefix sub end).*1).
  { intros suffix Hs. destruct value.
    - cbn. intros H%list_elem_of_singleton%app_inv_head. subst. revert Hs. by_decide.
    - apply inner_name_ne; [done|]. unfold suffixes. rewrite !elem_of_cons in *. tauto. }
  assert (Hne : prefix ++ MFTYPE <> prefix ++ MFKEY) by by intros ?%app_inv_head.
  apply NoDup_app. split; [destruct dict; [apply NoDup_singleton|constructor]|]. split.
  - destruct dict; [|by intros k ?%elem_of_nil]. intros k ->%list_elem_of_singleton.
    intros [H|H%list_elem_of_singleton]%elem_of_app; [|by apply Hne].
    revert H. apply Hout. left.
  - apply NoDup_app. split; [done|]. split; [|apply NoDup_singleton].
    intros k Hk Hk'%list_elem_of_singleton. cbn in Hk'. subst k. revert Hk. apply Hout. right; left.
Qed.
