(* ===== verification/Navigation.v ===== *)
(** How the addresses and the forms of the page reach the routes
    (sammy-0.7.6.js: Sammy.Application and Sammy.DefaultLocationProxy): the
    location proxy, which hears of a change of the address in up to three ways,
    the look at the address that follows, links, and the submission of forms. *)
From stdpp Require Import sorting.
From S2P Require Import Prelude JsString JsNum Base64 Uri JsObject JsValue Links Router FormRows.

(** ** Addresses *)

(** A location, as the page reads it. *)
Record location := mk_location { href : jstr; pathname : jstr; search : jstr }.

(** [/^[^#]*(#.+)$/]: from the first number sign, when more follows. An address
    has no line ends. *)
Fixpoint hash_of (s : jstr) : jstr :=
  match s with
  | [] => []
  | c :: s' => if decide (c = 35) then match s' with [] => [] | _ => s end else hash_of s'
  end.

(** DefaultLocationProxy.fullPath *)
Definition fullPath (l : location) : jstr := pathname l ++ search l ++ hash_of (href l).

(** Sammy.targetIsThisWindow: the target of the link or form, if there is an
    element, and the name of the window. *)
Record window := mk_window { window_name : jstr; is_top : bool }.

Definition targetIsThisWindow (w : window) (element : option (option jstr)) : bool :=
  match element with
  | None => true
  | Some None | Some (Some []) => true
  | Some (Some t) =>
      if decide (t = window_name w \/ t = "_self") then true
      else if decide (t = "_blank") then false
      else bool_decide (t = "top") && is_top w
  end.

(** ** Forms *)

(** What the application reads of a form: its action, its input named _method,
    its method, its target and its successful inputs. *)
Record form_element := mk_form_element {
  action : option jstr;
  method_input : option jstr;
  method_attr : option jstr;
  form_target : option jstr;
  form_inputs : list (jstr * jstr);
}.

Definition or_else (v : option jstr) (w : option jstr) : option jstr :=
  match v with Some [] | None => w | _ => v end.

(** _getFormVerb *)
Definition getFormVerb `{LowerCase} (f : form_element) : jstr :=
  trim (to_lower (default (js "get") (or_else (or_else (method_input f) (method_attr f)) None))).

(** The routes of a verb, ROUTE_VERBS. *)
Definition route_verb (v : jstr) : option verb :=
  if decide (v = "get") then Some GET else if decide (v = "post") then Some POST
  else if decide (v = "put") then Some PUT else if decide (v = "delete") then Some DELETE else None.

(** _encodeFormPair and _serializeFormParams *)
Definition encodeFormPair (kv : jstr * jstr) : res jstr :=
  k ← encodeURIComponent kv.1; v ← encodeURIComponent kv.2; Ok (k ++ "=" ++ v).

Fixpoint serialize_rest (inputs : list (jstr * jstr)) (query : jstr) : res jstr :=
  match inputs with
  | [] => Ok query
  | kv :: inputs => p ← encodeFormPair kv; serialize_rest inputs (query ++ "&" ++ p)
  end.

Definition serializeFormParams (inputs : list (jstr * jstr)) : res jstr :=
  match inputs with [] => Ok [] | kv :: inputs => p ← encodeFormPair kv; serialize_rest inputs p end.

(** ** The application *)

(** The address, the state of the application and its proxy, and what the proxies
    of all applications share: the bindings, whether the address is polled, the
    address the poll last saw; and the changes a poll has announced. *)
Record nav := mk_nav {
  here : location;
  last_location : option jstr;
  running : bool;
  is_native : bool;
  bindings : Z;
  polling : bool;
  polled : option jstr;
  announced : nat;
}.

Definition set_here (l : location) (n : nav) : nav :=
  mk_nav l (last_location n) (running n) (is_native n) (bindings n) (polling n) (polled n) (announced n).
Definition set_last (p : option jstr) (n : nav) : nav :=
  mk_nav (here n) p (running n) (is_native n) (bindings n) (polling n) (polled n) (announced n).

(** A call of runRoute: from the address, or from a form. *)
Inductive run := FromAddress (path : jstr) | FromForm (v : option verb) (path : jstr) (params : obj value).

Section Application.
Context `{LowerCase}.
(** Whether the browser has a history with states, the window, and how the
    browser resolves an address. *)
Variable has_history : bool.
Variable win : window.
Variable resolve : location -> jstr -> location.
(** Whether a GET route matches. *)
Variable has_route : jstr -> bool.

Definition getLocation (n : nav) : jstr := fullPath (here n).

(** _checkLocation *)
Definition checkLocation (n : nav) : nav * list run :=
  let location := getLocation n in
  if decide (last_location n = Some location) then (n, [])
  else (set_last (Some location) n, [FromAddress location]).

(** setLocation: an address without a prefix gets one. *)
Definition prefixed (s : jstr) : jstr :=
  match s with
  | 35 :: _ | 47 :: _ => s
  | _ => if has_history then 47 :: s else js "#!/" ++ s
  end.

Definition setLocation (new_location : jstr) (n : nav) : nav * list run :=
  let new_location := prefixed new_location in
  if decide (new_location = getLocation n) then (n, [])
  else
    let n' := set_here (resolve (here n) new_location) n in
    if has_history && starts_with new_location "/" then checkLocation n' else (n', []).

(** hashCheck of _startPolling *)
Definition hashCheck (n : nav) : nav :=
  mk_nav (here n) (last_location n) (running n) (is_native n) (bindings n) (polling n) (Some (getLocation n))
    (if decide (polled n = Some (getLocation n)) then announced n else S (announced n)).

Definition startPolling (n : nav) : nav :=
  if polling n then n
  else
    let n := hashCheck n in
    mk_nav (here n) (last_location n) (running n) (is_native n) (bindings n) true (polled n) (announced n).

(** new Sammy.Application, with its location proxy. *)
Definition new_application (n : nav) : nav :=
  startPolling (mk_nav (here n) None false false (bindings n) (polling n) (polled n) (announced n)).

(** The proxy's bind and unbind. *)
Definition bind_proxy (n : nav) : nav :=
  mk_nav (here n) (last_location n) (running n) (is_native n) (bindings n + 1) (polling n) (polled n) (announced n).

Definition unbind_proxy (n : nav) : nav :=
  mk_nav (here n) (last_location n) (running n) (is_native n) (bindings n - 1)
    (polling n && (0 <? bindings n - 1)) (polled n) (announced n).

(** run: an address to start at is gone to when the page has none; nothing listens
    yet, so that the change is found by the look at the address that follows. *)
Definition run_application (start_url : option jstr) (n : nav) : nav * list run :=
  if running n then (n, [])
  else
    let n := mk_nav (here n) None true (is_native n) (bindings n) (polling n) (polled n) (announced n) in
    let n := match start_url with
             | Some url =>
                 if decide (hash_of (getLocation n) = [] /\ prefixed url <> getLocation n)
                 then set_here (resolve (here n) (prefixed url)) n else n
             | None => n
             end in
    let '(n, runs) := checkLocation n in (bind_proxy n, runs).

(** unload *)
Definition unload (n : nav) : nav :=
  if running n then
    let n := unbind_proxy n in
    mk_nav (here n) (last_location n) false (is_native n) (bindings n) (polling n) (polled n) (announced n)
  else n.

(** The handler of hashchange: the first one of the browser ends the polling. *)
Definition on_hashchange (non_native : bool) (n : nav) : nav * list run :=
  let n := if negb (is_native n) && negb non_native
           then mk_nav (here n) (last_location n) (running n) true (bindings n) false (polled n) (announced n) else n in
  checkLocation n.

(** A click on a link, in what the handler reads of it. *)
Record link := mk_link {
  link_location : location;
  same_host : bool;
  prevented : bool;
  modified : bool;               (* the meta or the control key *)
  link_target : option jstr;
}.

Definition taken (l : link) : bool :=
  has_history && negb (prevented l) && negb (modified l) && same_host l &&
  has_route (fullPath (link_location l)) && targetIsThisWindow win (Some (link_target l)).

Definition on_click (l : link) (n : nav) : nav * list run :=
  if taken l then setLocation (fullPath (link_location l)) n else (n, []).

(** _checkFormSubmission: the run, or the new address of a form to be read. *)
Definition checkFormSubmission (f : form_element) (n : nav) : res (nav * list run) :=
  let path := default [] (action f) in
  let verb := getFormVerb f in
  if decide (verb = "get") then
    params ← serializeFormParams (form_inputs f);
    Ok (setLocation (if decide (params = []) then path else path ++ "?" ++ params) n)
  else Ok (n, [FromForm (route_verb verb) path (parse_form_params (form_inputs f))]).

(** The handler of submit. *)
Definition on_submit (f : form_element) (n : nav) : nav * list run :=
  if targetIsThisWindow win (Some (form_target f)) then
    match checkFormSubmission f n with Ok r => r | Throw _ => (n, []) end
  else (n, []).

(** What happens: the browser changes the address, and tells of it; a poll, and
    what it announced; clicks and forms. *)
Inductive nav_event :=
  | Moved (l : location)
  | HashChange
  | PopState
  | Poll
  | Announced
  | Click (l : link)
  | Submit (f : form_element).

Definition nav_step (n : nav) (e : nav_event) : nav * list run :=
  match e with
  | Moved l => (set_here l n, [])
  | Poll => (if polling n then hashCheck n else n, [])
  | Announced =>
      match announced n with
      | O => (n, [])
      | S k =>
          let n := mk_nav (here n) (last_location n) (running n) (is_native n) (bindings n) (polling n) (polled n) k in
          if running n then on_hashchange true n else (n, [])
      end
  | HashChange => if running n then on_hashchange false n else (n, [])
  | PopState => if running n && has_history then checkLocation n else (n, [])
  | Click l => if running n then on_click l n else (n, [])
  | Submit f => if running n then on_submit f n else (n, [])
  end.

Fixpoint nav_run (n : nav) (es : list nav_event) : nav * list run :=
  match es with
  | [] => (n, [])
  | e :: es => let '(n, r) := nav_step n e in let '(n, rs) := nav_run n es in (n, r ++ rs)
  end.

(** ** Properties *)

(** The addresses that were run. *)
Definition addresses (rs : list run) : list jstr :=
  omap (fun r => match r with FromAddress p => Some p | _ => None end) rs.

(** No address twice in a row, and the last is the one the application knows. *)
Record visits_once (n n' : nav) (rs : list run) : Prop := {
  once_different : Sorted (fun p q => p <> q) (last_location n :: map Some (addresses rs));
  once_last : List.last (last_location n :: map Some (addresses rs)) None = last_location n';
}.

Lemma visits_none n n' rs : last_location n' = last_location n -> addresses rs = [] -> visits_once n n' rs.
Proof. intros Hl Hrs. split; rewrite Hrs; [by repeat constructor|done]. Qed.

Lemma checkLocation_once n : visits_once n (checkLocation n).1 (checkLocation n).2.
Proof.
  unfold checkLocation. case_decide as Hd; [by apply visits_none|]. cbn [fst snd].
  split; [|done]. cbn. constructor; [by repeat constructor|]. by constructor.
Qed.

Lemma checkLocation_known n : last_location (checkLocation n).1 = Some (getLocation (checkLocation n).1).
Proof. unfold checkLocation. by case_decide. Qed.

(** Only the last location counts for what is run. *)
Lemma once_from n n0 n' rs : last_location n = last_location n0 -> visits_once n n' rs -> visits_once n0 n' rs.
Proof. intros He [H1 H2]. split; by rewrite <- He. Qed.

Lemma setLocation_once p n : visits_once n (setLocation p n).1 (setLocation p n).2.
Proof.
  unfold setLocation. case_decide; [by apply visits_none|]. destruct (_ && _); [|by apply visits_none].
  eapply once_from, checkLocation_once. done.
Qed.

Lemma on_hashchange_once b n : visits_once n (on_hashchange b n).1 (on_hashchange b n).2.
Proof. unfold on_hashchange. eapply once_from, checkLocation_once. by destruct (_ && _). Qed.

Lemma on_submit_once f n : visits_once n (on_submit f n).1 (on_submit f n).2.
Proof.
  unfold on_submit. destruct (targetIsThisWindow _ _); [|by apply visits_none].
  unfold checkFormSubmission. case_decide; [|by apply visits_none].
  destruct (serializeFormParams _); [|by apply visits_none]. apply setLocation_once.
Qed.

Lemma nav_step_once n e : visits_once n (nav_step n e).1 (nav_step n e).2.
Proof.
  destruct e as [l| | | | |l|f]; cbn [nav_step].
  - by apply visits_none.
  - destruct (running n); [apply on_hashchange_once|by apply visits_none].
  - destruct (running n && has_history); [apply checkLocation_once|by apply visits_none].
  - apply visits_none; by destruct (polling n).
  - destruct (announced n); [by apply visits_none|]. cbn [running]. destruct (running n); [|by apply visits_none].
    eapply once_from, on_hashchange_once. done.
  - destruct (running n); [|by apply visits_none]. unfold on_click.
    destruct (taken l); [apply setLocation_once|by apply visits_none].
  - destruct (running n); [apply on_submit_once|by apply visits_none].
Qed.

Lemma last_app x ps qs : List.last (x :: ps ++ qs) (@None jstr) = List.last (List.last (x :: ps) None :: qs) None.
Proof. revert x. induction ps as [|p ps IH]; intros x; [done|]. apply IH. Qed.

Lemma sorted_app x ps qs :
  Sorted (fun p q : option jstr => p <> q) (x :: ps) ->
  Sorted (fun p q => p <> q) (List.last (x :: ps) None :: qs) -> Sorted (fun p q => p <> q) (x :: ps ++ qs).
Proof.
  revert x. induction ps as [|p ps IH]; intros x H1 H2; [done|].
  inversion H1 as [|? ? Hs Hd]; subst. constructor; [by apply IH|]. inversion Hd; subst. by constructor.
Qed.

Lemma visits_app n n1 n2 rs1 rs2 :
  visits_once n n1 rs1 -> visits_once n1 n2 rs2 -> visits_once n n2 (rs1 ++ rs2).
Proof.
  intros [H1 L1] [H2 L2]. assert (Happ : addresses (rs1 ++ rs2) = addresses rs1 ++ addresses rs2) by apply omap_app.
  split; rewrite Happ, map_app.
  - apply sorted_app; [done|]. by rewrite L1.
  - by rewrite last_app, L1.
Qed.

(** What the browser tells of: a change of the address. *)
Definition reports (n : nav) (e : nav_event) : bool :=
  match e with
  | HashChange => running n
  | PopState => running n && has_history
  | Announced => match announced n with O => false | _ => running n end
  | _ => false
  end.

Lemma checkLocation_here n : getLocation (checkLocation n).1 = getLocation n.
Proof. unfold checkLocation. by case_decide. Qed.

Lemma checkLocation_again n : last_location n = Some (getLocation n) -> (checkLocation n).2 = [].
Proof. intros Hl. unfold checkLocation. by rewrite decide_True. Qed.

Lemma report_checks n e :
  reports n e = true -> exists n0, nav_step n e = checkLocation n0 /\ here n0 = here n /\ last_location n0 = last_location n.
Proof.
  destruct e; cbn [reports nav_step]; try done.
  - intros ->. eexists. split; [done|]. by destruct (_ && _).
  - intros ->. by exists n.
  - destruct (announced n) as [|k]; [done|]. cbn [running]. intros ->. eexists. split; [done|]. by destruct (_ && _).
Qed.

(** C12: an address is run once, however often its change is told: of the addresses
    that are run, through links, forms that are read, the history or the address
    bar, no two in a row are the same, and the last is the one the application
    takes for its location; after any report of the browser that is where the
    browser is; and another report of the same address runs nothing. *)
Theorem addresses_run_once n es :
  let '(n', rs) := nav_run n es in
  visits_once n n' rs /\
  forall e, reports n' e = true ->
    last_location (nav_step n' e).1 = Some (getLocation n') /\
    forall e', reports (nav_step n' e).1 e' = true -> (nav_step (nav_step n' e).1 e').2 = [].
Proof.
  destruct (nav_run n es) as [n' rs] eqn:Hrun. split.
  - revert n Hrun. revert rs. induction es as [|e es IH]; intros rs n Hrun; cbn [nav_run] in Hrun.
    { injection Hrun as <- <-. by apply visits_none. }
    pose proof (nav_step_once n e) as Hs. destruct (nav_step n e) as [n1 r]. destruct (nav_run n1 es) as [n2 rs'] eqn:Hr.
    injection Hrun as <- <-. by eapply visits_app, IH.
  - intros e He. destruct (report_checks n' e He) as (n0 & -> & Hh & _).
    assert (Hhere : getLocation (checkLocation n0).1 = getLocation n').
    { rewrite checkLocation_here. unfold getLocation. by rewrite Hh. }
    rewrite <- Hhere. split; [apply checkLocation_known|]. intros e' He'.
    destruct (report_checks _ e' He') as (n1 & -> & Hh1 & Hl1). apply checkLocation_again.
    rewrite Hl1. unfold getLocation. rewrite Hh1. apply checkLocation_known.
Qed.

(** After an application is started it knows its location, and has run it. *)
Lemma run_application_known start_url n : running n = false ->
  let '(n', rs) := run_application start_url n in
  running n' = true /\ last_location n' = Some (getLocation n') /\ rs = [FromAddress (getLocation n')].
Proof.
  intros Hr. unfold run_application. rewrite Hr.
  destruct start_url; [case_decide|]; unfold checkLocation; by rewrite decide_False.
Qed.
End Application.

(** ** Examples *)

Module NavigationExamples.

#[local] Instance lower : LowerCase := { to_lower := map lower_ascii }.

Definition at_hash (h : jstr) : location := mk_location ("http://host/" ++ h) "/" [].

(** How a browser resolves the addresses of the page. *)
Definition resolve1 (l : location) (s : jstr) : location :=
  match s with 47 :: h => at_hash h | h => at_hash h end.

Definition start : nav := (run_application true resolve1 None (new_application (mk_nav (at_hash "#/") None false false 0 false None 0))).1.

(** A link that is clicked, and the back button, which the browser reports twice. *)
Definition events : list nav_event :=
  [Click (mk_link (at_hash "#/queues") true false false None); Moved (at_hash "#/"); PopState; HashChange; Poll; Announced].

Definition nav1 := nav_run true (mk_window [] true) resolve1 (fun _ => true) start events.

Lemma addresses_run_once_witness :
  addresses nav1.2 = [js "/#/queues"; js "/#/"] /\
  last_location (nav_step true (mk_window [] true) resolve1 (fun _ => true) nav1.1 HashChange).1 = Some (js "/#/") /\
  (nav_step true (mk_window [] true) resolve1 (fun _ => true)
     (nav_step true (mk_window [] true) resolve1 (fun _ => true) nav1.1 HashChange).1 PopState).2 = [].
Proof.
  split; [by vm_compute|].
  pose proof (addresses_run_once true (mk_window [] true) resolve1 (fun _ => true) start events) as H.
  change (nav_run true (mk_window [] true) resolve1 (fun _ => true) start events) with nav1 in H.
  destruct nav1 as [n' rs] eqn:E.
  assert (En : n' = (nav_run true (mk_window [] true) resolve1 (fun _ => true) start events).1) by (change (n' = nav1.1); by rewrite E).
  destruct H as [_ H]. cbn [fst]. subst n'. destruct (H HashChange) as [H1 H2]; [by vm_compute|].
  split; [etrans; [exact H1|by vm_compute]|]. apply H2. by vm_compute.
Defined.

(** The first report of the browser ends the polling. *)
Example polling_ends : polling start = true /\ polling nav1.1 = false.
Proof. split; by vm_compute. Qed.

(** A form whose hidden input _method is the verb. *)
Example form_verb :
  getFormVerb (mk_form_element (Some (js "#/queues")) (Some (js "DELETE ")) (Some (js "post")) None []) = js "delete".
Proof. by vm_compute. Qed.

End NavigationExamples.
