(* ===== verification/FormPage.v ===== *)
(** The form of a page with multi-valued fields ([FormRows]): whatever was typed,
    collapse_multifields makes of it what it shows ([FormValues]). *)
From S2P Require Import Prelude JsString JsNum Uri JsObject JsValue QueueTypes Forms FormsFacts FormValues Multifields Router FormRows.

(** ** The form of a page *)

(** The other inputs of a page: different names, none of them that of a field or
    of the inputs of one. *)
Record plain_inputs (names : list jstr) (plain : list (jstr * jstr)) : Prop := {
  plain_names : NoDup names /\ Forall word names /\ js "queuetype" ∉ names;
  plain_keys : NoDup plain.*1;
  plain_other : Forall (fun k => classify k = None /\ k ∉ names) plain.*1;
}.

(** What the type of a queue replaces or removes (collapse_multifields). *)
Definition replaced (queue_type : jstr) (plain : list (jstr * jstr)) (k : jstr) : Prop :=
  js "queuetype" ∈ plain.*1 /\
  (k = js "queuetype" \/ exists qt, get QUEUE_TYPES queue_type = Some qt /\ k ∈ keys_of (QueueTypes.params qt)).

(** The type of a queue is one of its arguments. *)
Definition with_queue_type (queue_type : jstr) (plain : list (jstr * jstr)) (n : jstr) (t : obj value) : obj value :=
  if decide (js "queuetype" ∈ plain.*1 /\ n = js "arguments" /\ queue_type <> js "default")
  then put t "x-queue-type" (VStr queue_type) else t.

Lemma parse_form_params_eq inputs :
  NoDup inputs.*1 -> parse_form_params inputs = map (fun kv => (kv.1, VStr kv.2)) inputs.
Proof.
  unfold parse_form_params. induction inputs as [|[k v] inputs IH] using rev_ind; [done|].
  rewrite fmap_app, NoDup_app. intros (Hn & Hd & _). rewrite foldl_app, map_app. cbn [foldl map fst snd].
  rewrite IH by done. assert (k ∉ keys_of (map (fun kv => (kv.1, VStr kv.2)) inputs)) as Hk.
  { unfold keys_of. intros Hk. change (k ∈ map fst (map (fun kv : jstr * jstr => (kv.1, VStr kv.2)) inputs)) in Hk.
    rewrite map_map in Hk. apply (Hd k); [done|]. by left. }
  unfold add_param. rewrite (proj2 (get_None _ _) Hk). by apply put_fresh.
Qed.

Section PageForm.
Context (names : list jstr) (fields : list (jstr * list row)) (plain inputs : list (jstr * jstr)).
Context (Hreach : reachable_fields names fields) (Hplain : plain_inputs names plain).
Context (Hinputs : inputs ≡ₚ plain ++ fields_inputs fields).

Let params0 := parse_form_params inputs.

Lemma field_word f : f ∈ fields -> word f.1 /\ field_ok f.2 /\ f.1 ∈ names.
Proof.
  intros Hf. destruct (reachable_ok _ _ Hreach) as [Hn Hok].
  rewrite Forall_forall in Hok. assert (f.1 ∈ names) as Hin.
  { rewrite <- Hn. apply list_elem_of_fmap. eauto. }
  destruct (plain_names _ _ Hplain) as (_ & Hw & _). rewrite Forall_forall in Hw. auto.
Qed.

(** The name of an input of a field. *)
Lemma field_key k v :
  (k, v) ∈ fields_inputs fields -> exists f p r suffix,
    f ∈ fields /\ located f.2 p r /\ Forall (fun i => 0 <= i) p /\ p <> [] /\ suffix ∈ suffixes /\
    k = f.1 ++ 95 :: path_text p ++ suffix.
Proof.
  intros H. apply list_elem_of_In, in_flat_map in H as (f & Hf & H). apply list_elem_of_In in Hf, H.
  destruct (field_word f Hf) as (_ & Hok & _).
  destruct (rows_inputs_located true f.1 [] _ _ _ H) as (p & r & suffix & Hl & Hs & ->).
  exists f, p, r, suffix. pose proof (located_path _ _ _ Hl) as Hp. cbn [app].
  split_and!; [done|done|by eapply located_numbered, ok_numbered|done|done|].
  rewrite path_name_text by done. by rewrite <- app_assoc.
Qed.

Lemma field_key_type f p r :
  f ∈ fields -> located f.2 p r -> (f.1 ++ 95 :: path_text p ++ MFTYPE, row_type r) ∈ inputs.
Proof.
  intros Hf Hl. rewrite Hinputs, elem_of_app. right. apply list_elem_of_In, in_flat_map.
  exists f. split; [by apply list_elem_of_In|]. apply list_elem_of_In.
  pose proof (located_type true f.1 [] f.2 p r Hl) as H. cbn [app] in H.
  rewrite path_name_text in H by (by eapply located_path). by rewrite <- app_assoc in H.
Qed.

Lemma field_key_classified k v : (k, v) ∈ fields_inputs fields -> classify k <> None.
Proof.
  intros (f & p & r & suffix & Hf & _ & Hi & _ & Hs & ->)%field_key. destruct (field_word f Hf) as (Hw & _).
  apply path_text_ok in Hi. unfold suffixes in Hs. rewrite !elem_of_cons, elem_of_nil in Hs.
  destruct Hs as [->|[->|[->|[]]]]; [rewrite classify_other|rewrite classify_other|rewrite classify_type];
    done || by_decide.
Qed.

Lemma inputs_NoDup : NoDup inputs.*1.
Proof.
  rewrite Hinputs, fmap_app. apply NoDup_app. split; [apply Hplain|]. split.
  - intros k Hk Hk'. apply list_elem_of_fmap in Hk' as ([k' v] & -> & Hk').
    apply field_key_classified in Hk'. pose proof (plain_other _ _ Hplain) as Ho.
    rewrite Forall_forall in Ho. by destruct (Ho k' Hk).
  - destruct (reachable_ok _ _ Hreach) as [Hn Hok]. apply (NoDup_flat_map_fst fst).
    + rewrite Hn. apply Hplain.
    + eapply Forall_impl; [exact Hok|]. intros f Hf. apply rows_inputs_NoDup; [apply Hf|].
      apply Forall_forall. intros r _. apply row_inputs_NoDup.
    + intros f g k Hf Hg Hkf Hkg. destruct (field_word f Hf) as (Hwf & _), (field_word g Hg) as (Hwg & _).
      apply list_elem_of_fmap in Hkf as ([k1 v1] & -> & Hkf), Hkg as ([k2 v2] & Hk & Hkg). cbn in Hk. subst k2.
      apply (rows_inputs_located true f.1 []) in Hkf as (p & r & s & Hl & _ & Hp).
      apply (rows_inputs_located true g.1 []) in Hkg as (q & r' & s' & Hl' & _ & Hq).
      rewrite Hp in Hq. cbn [app] in Hq. rewrite !path_name_text, <- !app_assoc in Hq by (by eapply located_path).
      cbn [app] in Hq. apply underscore_split in Hq as [? _]; [done|by apply word_no_underscore..].
Qed.

Lemma params0_eq : params0 = map (fun kv => (kv.1, VStr kv.2)) inputs.
Proof. apply parse_form_params_eq, inputs_NoDup. Qed.

Lemma params0_keys : keys_of params0 = inputs.*1.
Proof. rewrite params0_eq. unfold keys_of. apply (map_map (fun kv => (kv.1, VStr kv.2)) fst). Qed.

Lemma params0_get k v : (k, v) ∈ inputs -> get params0 k = Some (VStr v).
Proof.
  intros H. apply In_get; [rewrite params0_keys; apply inputs_NoDup|]. rewrite params0_eq.
  apply list_elem_of_fmap. by exists (k, v).
Qed.

Lemma field_ids_inputs i :
  i ∈ field_ids params0 <-> exists k v, (k, v) ∈ inputs /\ classify k = Some (Some i).
Proof.
  unfold field_ids. rewrite list_elem_of_omap. split.
  - intros ([k v] & H & Hc). rewrite entries_perm, params0_eq in H.
    apply list_elem_of_fmap in H as ([k' v'] & [= -> ->] & H). exists k', v'. split; [done|].
    cbn in Hc. destruct (classify k') as [[j|]|]; congruence.
  - intros (k & v & H & Hc). exists (k, VStr v). split; [|cbn; by rewrite Hc].
    rewrite entries_perm, params0_eq. apply list_elem_of_fmap. by exists (k, v).
Qed.

(** The ids are those of the rows. *)
Lemma field_ids_located i :
  i ∈ field_ids params0 -> exists f p r,
    f ∈ fields /\ located f.2 p r /\ Forall (fun i => 0 <= i) p /\ p <> [] /\ i = (f.1, path_text p).
Proof.
  intros (k & v & H & Hc)%field_ids_inputs. rewrite Hinputs, elem_of_app in H. destruct H as [H|H].
  { pose proof (plain_other _ _ Hplain) as Ho. rewrite Forall_forall in Ho.
    destruct (Ho k) as [Hk _]; [apply list_elem_of_fmap; by exists (k, v)|congruence]. }
  apply field_key in H as (f & p & r & suffix & Hf & Hl & Hi & Hp & Hs & ->).
  exists f, p, r. split_and!; try done. destruct (field_word f Hf) as (Hw & _).
  apply path_text_ok in Hi. unfold suffixes in Hs. rewrite !elem_of_cons, elem_of_nil in Hs.
  destruct Hs as [->|[->|[->|[]]]];
    [rewrite classify_other in Hc|rewrite classify_other in Hc|rewrite classify_type in Hc];
    done || by_decide || congruence.
Qed.

Lemma located_field_id f p r : f ∈ fields -> located f.2 p r -> (f.1, path_text p) ∈ field_ids params0.
Proof.
  intros Hf Hl. apply field_ids_inputs. destruct (field_word f Hf) as (Hw & Hok & _).
  exists (f.1 ++ 95 :: path_text p ++ MFTYPE), (row_type r). split; [by apply field_key_type|].
  apply classify_type; [done|]. by eapply path_text_ok, located_numbered, ok_numbered.
Qed.

(** The form is one of those [FormsFacts] is about. *)
Lemma page_form_ok : form_ok params0.
Proof.
  intros i (f & p & r & Hf & Hl & Hi & Hp & ->)%field_ids_located. cbn [fst].
  destruct (field_word f Hf) as (Hw & Hok & Hname). split.
  - apply plain_fields_keys. rewrite params0_keys. intros Hk. rewrite Hinputs, fmap_app, elem_of_app in Hk.
    destruct Hk as [Hk|Hk].
    + pose proof (plain_other _ _ Hplain) as Ho. rewrite Forall_forall in Ho. by apply (Ho _ Hk).
    + apply list_elem_of_fmap in Hk as ([k v] & Hk & H). cbn in Hk. subst k.
      apply field_key in H as (g & q & r' & s & _ & _ & _ & _ & _ & Hg).
      apply (word_no_underscore _ Hw). rewrite Hg. apply elem_of_app. right; left.
  - unfold nested. cbn [snd]. rewrite path_parts, length_map by done. intros Hlen.
    destruct p as [|j q _] using rev_ind; [done|]. rewrite length_app in Hlen. cbn in Hlen.
    assert (Hq : q <> []) by (intros ->; cbn in Hlen; lia).
    destruct (located_parent _ _ _ _ Hl Hq) as (r' & Hl' & Hv & _). rewrite path_parent by done.
    split; [by eapply located_field_id|]. cbn [fst snd].
    pose proof (field_key_type f q r' Hf Hl') as H. apply params0_get in H. unfold prop.
    change (f.1 ++ "_" ++ path_text q ++ MFTYPE) with (f.1 ++ 95 :: path_text q ++ MFTYPE). rewrite H.
    pose proof (located_settled _ _ _ Hl' (ok_settled _ Hok)) as Hs. destruct Hs; [done|]. by vm_compute.
Qed.

Lemma field_ids_NoDup : NoDup (field_ids params0).
Proof.
  apply NoDup_omap.
  - apply (NoDup_fmap_1 fst), NoDup_entries. rewrite params0_keys. apply inputs_NoDup.
  - assert (Hkey : forall k x i, (k, x) ∈ entries params0 -> classify k = Some (Some i) ->
      k = i.1 ++ 95 :: i.2 ++ MFTYPE /\ get params0 k = Some x).
    { intros k x i H Hc. rewrite entries_perm in H. split.
      - rewrite params0_eq in H. apply list_elem_of_fmap in H as ([k' v] & [= <- _] & H).
        rewrite Hinputs, elem_of_app in H. destruct H as [H|H].
        + pose proof (plain_other _ _ Hplain) as Ho. rewrite Forall_forall in Ho.
          destruct (Ho k) as [Hk _]; [apply list_elem_of_fmap; by exists (k, v)|congruence].
        + apply field_key in H as (f & p & r & suffix & Hf & _ & Hi & _ & Hs & ->).
          destruct (field_word f Hf) as (Hw & _). apply path_text_ok in Hi.
          unfold suffixes in Hs. rewrite !elem_of_cons, elem_of_nil in Hs.
          destruct Hs as [->|[->|[->|[]]]];
            [rewrite classify_other in Hc by (done || by_decide); congruence..|].
          rewrite classify_type in Hc by done. by injection Hc as <-.
      - apply In_get; [rewrite params0_keys; apply inputs_NoDup|done]. }
    intros [k x] [k' x'] i H H' Hc Hc'. cbn [fst] in Hc, Hc'.
    assert (classify k = Some (Some i)) as Hck by (by destruct (classify k) as [[]|]; congruence).
    assert (classify k' = Some (Some i)) as Hck' by (by destruct (classify k') as [[]|]; congruence).
    destruct (Hkey _ _ _ H Hck) as [-> Hx], (Hkey _ _ _ H' Hck') as [-> Hx']. congruence.
Qed.

(** Every field becomes a table. *)
Lemma fields_tables b n :
  let ids := sort_ids (field_ids params0) in
  value_inv params0 ids (list_ids params0 ids) b -> n ∈ names ->
  exists t, get (reify_build b) n = Some (VObj t) /\ shows_table params0 ids n t.
Proof.
  intros ids Hv Hn. destruct (reachable_ok _ _ Hreach) as [Hnames _]. rewrite <- Hnames in Hn.
  apply list_elem_of_fmap in Hn as (f & -> & Hf). destruct (field_word f Hf) as (_ & Hok & _).
  destruct (f.2) as [|r rows] eqn:Hrows; [by destruct (ok_nonempty _ Hok)|].
  unfold reify_build. rewrite get_reify, (v_tables _ _ _ _ Hv f.1).
  - destruct (reify_table params0 ids b f.1 Hv) as (t & Ht & Hs).
    + unfold ids. rewrite sort_ids_perm. apply field_ids_NoDup.
    + intros pre j post Hids Hnest. eapply parent_first; [exact Hids|done|].
      apply page_form_ok; [|done]. rewrite <- sort_ids_perm. fold ids. rewrite Hids. apply elem_of_app. right; left.
    + exists t. split; [|done]. cbn [fmap option_fmap option_map]. by rewrite Ht.
  - apply (v_names _ _ _ _ Hv (f.1, path_text [row_id r])). unfold ids. rewrite sort_ids_perm.
    apply located_field_id with (r := r); [done|]. rewrite Hrows. constructor. left.
Qed.

Lemma plain_params b k v :
  loop_inv params0 (rev (sort_ids (field_ids params0))) b -> (k, v) ∈ plain ->
  get (reify_build b) k = Some (VStr v).
Proof.
  intros Hb Hk. unfold reify_build. rewrite get_reify, (inv_plain _ _ _ Hb k (VStr v)); [done| |done].
  apply plain_fields_get.
  - rewrite params0_keys. apply inputs_NoDup.
  - pose proof (plain_other _ _ Hplain) as Ho. rewrite Forall_forall in Ho. apply (Ho k).
    apply list_elem_of_fmap. by exists (k, v).
  - apply params0_get. rewrite Hinputs, elem_of_app. by left.
Qed.

(** A parameter that is no input and no field is not there. *)
Lemma no_other b k :
  loop_inv params0 (rev (sort_ids (field_ids params0))) b -> 95 ∉ k -> k ∉ plain.*1 -> k ∉ names ->
  get (out b) k = None.
Proof.
  intros Hb Hu Hq Hn. apply (inv_none _ _ _ Hb).
  - apply plain_fields_keys. rewrite params0_keys, Hinputs, fmap_app, elem_of_app. intros [H|H]; [done|].
    apply list_elem_of_fmap in H as ([k' v] & Hk & H). cbn in Hk. subst k'.
    apply field_key in H as (f & p & r & s & Hf & _ & _ & _ & _ & Hk). apply Hu.
    refine (eq_ind_r (fun s => 95 ∈ s) _ Hk). apply elem_of_app. right; left.
  - intros Ht. destruct (inv_names _ _ _ Hb _ Ht) as (i & Hi & Hname).
    apply field_ids_located in Hi as (f & p & r & Hf & _ & _ & _ & ->). cbn in Hname.
    destruct (field_word f Hf) as (_ & _ & Hin). rewrite Hname in Hin. by apply Hn.
Qed.
End PageForm.

Lemma get_puts (l o : obj value) k :
  k ∉ keys_of l -> get (foldl (fun o kv => put o kv.1 kv.2) o l) k = get o k.
Proof.
  revert o. unfold keys_of. induction l as [|[k' v] l IH]; intros o; [done|]. cbn [foldl fmap list_fmap fst snd].
  rewrite not_elem_of_cons. intros [Hne Hk]. rewrite IH by done. by rewrite get_put_ne.
Qed.

(** The type of a queue is put into an existing table of arguments, and replaces
    only its own parameters. *)
Lemma collapse_queue_type_ok queue_type params qt t :
  js "queuetype" ∈ keys_of params -> get QUEUE_TYPES queue_type = Some qt ->
  (queue_type <> js "default" -> get params "arguments" = Some (VObj t)) ->
  exists params', collapse_queue_type queue_type params = Ok params' /\
    forall k, k <> js "queuetype" -> k ∉ keys_of (QueueTypes.params qt) ->
      get params' k = if decide (k = js "arguments" /\ queue_type <> js "default")
                      then Some (VObj (put t "x-queue-type" (VStr queue_type))) else get params k.
Proof.
  intros Hk Hqt Ha. unfold collapse_queue_type. rewrite bool_decide_eq_true_2 by done. rewrite Hqt.
  case_decide as Hd; cbn [mbind res_bind].
  - eexists. split; [done|]. intros k Hne Hk'. rewrite decide_False by tauto. rewrite get_puts by done.
    by apply get_del_ne.
  - unfold set_in, prop. rewrite get_del_ne by done. rewrite (Ha Hd). cbn [default mbind res_bind].
    eexists. split; [done|]. intros k Hne Hk'. rewrite get_puts by done.
    destruct (decide (k = "arguments")) as [->|Hn]; [rewrite decide_True by done; by rewrite get_put|].
    rewrite decide_False by tauto. rewrite get_put_ne by congruence. by apply get_del_ne.
Qed.

(** The parameters of the page, or what it is refused with. *)
Lemma page_collapses queue_type names fields plain inputs :
  reachable_fields names fields -> plain_inputs names plain -> inputs ≡ₚ plain ++ fields_inputs fields ->
  (js "queuetype" ∈ plain.*1 ->
    is_Some (get QUEUE_TYPES queue_type) /\ (queue_type <> js "default" -> js "arguments" ∈ names)) ->
  let params0 := parse_form_params inputs in
  match collapse_multifields queue_type params0 with
  | Ok params =>
      (forall i, i ∈ field_ids params0 -> exists c, contribution_of params0 i = Ok c) /\
      (forall k v, (k, v) ∈ plain -> ~ replaced queue_type plain k -> get params k = Some (VStr v)) /\
      (forall n, n ∈ names -> ~ replaced queue_type plain n -> exists t,
        get params n = Some (VObj (with_queue_type queue_type plain n t)) /\
        shows_table params0 (sort_ids (field_ids params0)) n t) /\
      (forall k, 95 ∉ k -> k ∉ plain.*1 -> k ∉ names -> ~ replaced queue_type plain k -> get params k = None)
  | Throw e => (exists m, e = Thrown m) /\ exists i, i ∈ field_ids params0 /\ contribution_of params0 i = Throw e
  end.
Proof.
  intros Hr Hp Hi Hq params0. unfold collapse_multifields.
  pose proof (page_form_ok names fields plain inputs Hr Hp Hi) as Hok.
  pose proof (collapse_loop_inv params0 [] _ _ Hok eq_refl (start_inv params0)) as H.
  pose proof (collapse_loop_value params0 [] _ _ Hok (field_ids_NoDup names fields plain inputs Hr Hp Hi) eq_refl
    (start_value params0)) as Hv.
  pose proof (collapse_loop_contributions params0 (sort_ids (field_ids params0)) (mk_build (plain_fields params0) [] [])) as Hall.
  destruct (collapse_loop params0 _ _) as [b|e]; cbn [mbind res_bind app] in *;
    [|split; [done|exact Hv]].
  specialize (Hall b eq_refl). rewrite Forall_forall in Hall.
  assert (Hok_ids : forall i, i ∈ field_ids params0 -> exists c, contribution_of params0 i = Ok c).
  { intros i Hi'. apply Hall. by rewrite sort_ids_perm. }
  pose proof (fun k v Hk => plain_params names fields plain inputs Hr Hp Hi b k v H Hk) as Hplain.
  pose proof (fun n Hn => fields_tables names fields plain inputs Hr Hp Hi b n Hv Hn) as Htable. cbn zeta in Htable.
  fold params0 in Htable.
  assert (Hother : forall k, 95 ∉ k -> k ∉ plain.*1 -> k ∉ names -> get (reify_build b) k = None).
  { intros k Hu Hk Hn. unfold reify_build. rewrite get_reify. by rewrite (no_other names fields plain inputs Hr Hp Hi b k H). }
  set (params := reify_build b) in *. unfold with_queue_type.
  destruct (decide (js "queuetype" ∈ plain.*1)) as [Hin|Hout].
  - destruct (Hq Hin) as [[qt Hqt] Ha]. assert (Hkeys : js "queuetype" ∈ keys_of params).
    { apply list_elem_of_fmap in Hin as ([k v] & Hk & Hin). cbn in Hk. subst k. apply Hplain, get_In in Hin.
      apply list_elem_of_fmap. by exists (js "queuetype", VStr v). }
    assert (exists t, queue_type <> js "default" -> get params "arguments" = Some (VObj t)) as [t Ht].
    { destruct (decide (queue_type = js "default")) as [->|Hd]; [by exists []|].
      destruct (Htable _ (Ha Hd)) as (t & Ht & _). by exists t. }
    destruct (collapse_queue_type_ok queue_type params qt t Hkeys Hqt Ht) as (params' & -> & Hget).
    assert (Hnot : forall k, ~ replaced queue_type plain k -> k <> js "queuetype" /\ k ∉ keys_of (QueueTypes.params qt)).
    { intros k Hk. split; intros Hc; apply Hk; (split; [done|]); [by left|right; eauto]. }
    split; [done|]. split_and!.
    + intros k v Hk [Hne Hk']%Hnot. rewrite (Hget k Hne Hk'), decide_False; [by apply Hplain|]. intros [-> Hd].
      pose proof (plain_other _ _ Hp) as Ho. rewrite Forall_forall in Ho.
      apply (Ho (js "arguments")); [|by apply Ha]. apply list_elem_of_fmap. by exists (js "arguments", v).
    + intros n Hn [Hne Hn']%Hnot. rewrite (Hget n Hne Hn'). destruct (Htable n Hn) as (t' & Ht' & Hs).
      exists t'. split; [|done]. destruct (decide (n = js "arguments" /\ queue_type <> js "default")) as [[-> Hd]|Hd].
      * rewrite decide_True by done. specialize (Ht Hd). congruence.
      * by rewrite decide_False by tauto.
    + intros k Hu Hk Hn [Hne Hk']%Hnot. rewrite (Hget k Hne Hk'), decide_False; [by apply Hother|].
      intros [-> Hd]. by apply Hn, Ha.
  - unfold collapse_queue_type. rewrite bool_decide_eq_false_2.
    + split; [done|]. split_and!; [auto| |auto]. intros n Hn _. destruct (Htable n Hn) as (t & Ht & Hs).
      exists t. by rewrite decide_False by tauto.
    + destruct (plain_names _ _ Hp) as (_ & _ & Hnq). apply get_None, Hother; [by_decide|done|done].
Qed.
