(* ===== verification/FormEntries.v ===== *)
(** What a user sees is what is sent: the parameters of a form with multi-valued
    fields, against the entries the fields show ([Multifields.entries_of]). *)
From stdpp Require Import sorting.
From S2P Require Import Prelude JsString JsNum Uri JsObject JsValue QueueTypes Forms FormsFacts FormValues Multifields Router FormRows FormPage.

(** ** What entries mean *)

(** The value an entry stands for; none when its text is no boolean or number. *)
Fixpoint entry_value (e : entry) : option value :=
  match e with
  | Leaf _ type v =>
      if decide (type = "boolean") then
        if decide (v = "true") then Some (VBool true)
        else if decide (v = "false") then Some (VBool false) else None
      else if decide (type = "number") then VNum <$> parse_float v
      else Some (VStr v)
  | Node _ es =>
      VArr <$> (fix go (es : list entry) : option (list value) :=
        match es with [] => Some [] | e :: es => v ← entry_value e; vs ← go es; Some (v :: vs) end) es
  end.

Definition entry_key (e : entry) : jstr := match e with Leaf k _ _ | Node k _ => k end.

Fixpoint entry_values (es : list entry) : option (list value) :=
  match es with [] => Some [] | e :: es => v ← entry_value e; vs ← entry_values es; Some (v :: vs) end.

(** The table of entries: the later of two with one key counts. *)
Fixpoint entry_table (t : obj value) (es : list entry) : option (obj value) :=
  match es with [] => Some t | e :: es => v ← entry_value e; entry_table (put t (entry_key e) v) es end.

(** The texts of the numbers are in order, as with numbers of one digit, or of
    two digits. *)
Inductive text_ordered : list row -> Prop :=
  | text_ordered_rows rows :
      StronglySorted (fun r s => str_leb (dec (row_id r)) (dec (row_id s)) = true) rows ->
      Forall (fun r => text_ordered (row_sub r)) rows -> text_ordered rows.

Lemma entry_value_node key es : entry_value (Node key es) = VArr <$> entry_values es.
Proof. done. Qed.

(** ** Contributions of rows *)

Lemma contribute_empty id key type v sub top K :
  type <> js "list" -> (top = true -> K = VStr key) ->
  empty_row top (Row id key type (Some v) sub) = true -> contribute K (VStr v) (VStr type) top = Ok Nothing.
Proof.
  intros Ht HK. rewrite empty_row_spec by done. intros [Hk ->]%bool_decide_eq_true.
  unfold contribute. change (eq_word (VStr type) "list") with (bool_decide (type = js "list")).
  rewrite bool_decide_eq_false_2 by done. destruct top; [rewrite HK by done; rewrite Hk|rewrite andb_false_r]; done.
Qed.

Lemma contribute_leaf id key type v sub top K :
  type <> js "list" -> (top = true -> K = VStr key) ->
  empty_row top (Row id key type (Some v) sub) = false ->
  match entry_value (Leaf (if top then key else []) type v) with
  | Some x => contribute K (VStr v) (VStr type) top = Ok (Item x)
  | None => exists m, contribute K (VStr v) (VStr type) top = Throw (Thrown m)
  end.
Proof.
  intros Ht HK. rewrite empty_row_spec by done. intros Hne%bool_decide_eq_false.
  assert (Hset : is_set K && top || is_set (VStr v) = true).
  { unfold is_set. destruct v as [|c v]; [|by rewrite orb_true_r].
    destruct top; [|by destruct Hne]. rewrite HK by done. destruct key; [by destruct Hne|done]. }
  unfold contribute. rewrite Hset. cbn [eq_word nullish entry_value]. rewrite bool_decide_eq_false_2 by done.
  rewrite <- !decide_bool_decide. change (to_str (VStr v)) with v.
  destruct (decide (type = "boolean")); [repeat case_decide; eauto|].
  destruct (decide (type = "number")); [|done]. destruct (parse_float v); [done|cbn; eauto].
Qed.

(** ** The rows among the ids *)

Lemma str_leb_refl s : str_leb s s = true.
Proof. induction s as [|c s IH]; [done|]. cbn. by rewrite Z.ltb_irrefl. Qed.

Lemma str_leb_antisym s t : str_leb s t = true -> str_leb t s = true -> s = t.
Proof.
  revert t. induction s as [|c s IH]; intros [|d t]; cbn; try done.
  destruct (Z.ltb_spec c d), (Z.ltb_spec d c); try lia; try done. intros H1 H2.
  assert (c = d) as -> by lia. by rewrite (IH t).
Qed.

Lemma str_leb_app s t u : str_leb (s ++ t) (s ++ u) = str_leb t u.
Proof. induction s as [|c s IH]; [done|]. cbn. by rewrite Z.ltb_irrefl. Qed.

Lemma path_text_snoc p i : p <> [] -> path_text (p ++ [i]) = path_text p ++ 95 :: dec i.
Proof.
  intros Hp. unfold path_text. rewrite map_app. cbn [map]. rewrite join_snoc; [done|by destruct p].
Qed.

Lemma path_text_inj p q :
  p <> [] -> q <> [] -> Forall (fun i => 0 <= i) p -> Forall (fun i => 0 <= i) q -> path_text p = path_text q -> p = q.
Proof.
  intros Hp Hq Hip Hiq H. apply (f_equal (split_on 95)) in H. rewrite !path_parts in H by done.
  clear Hp Hq. revert q Hiq H. induction Hip as [|i p Hi _ IH]; intros [|j q]; try done.
  intros [Hj Hiq]%Forall_cons [= H1 H2]. f_equal; [by apply dec_inj|by apply IH].
Qed.

(** The numbers of rows under a common path are compared by their texts. *)
Lemma position_leb name p i j :
  str_leb (id_text (name, path_text (p ++ [i]))) (id_text (name, path_text (p ++ [j]))) = str_leb (dec i) (dec j).
Proof.
  unfold id_text. cbn [fst snd]. rewrite !app_assoc, str_leb_app. destruct p as [|k p]; [done|].
  rewrite !path_text_snoc by done. rewrite str_leb_app. cbn [str_leb]. by rewrite Z.ltb_irrefl.
Qed.

Lemma filter_sublist {A} (P : A -> Prop) `{forall x, Decision (P x)} l : sublist (filter P l) l.
Proof.
  induction l as [|x l IH]; [done|]. rewrite filter_cons. case_decide; by constructor.
Qed.

Definition shown (dict : bool) (rows : list row) : list row := filter (fun r => empty_row dict r = false) rows.

(** The ids with a property, when they are those of the rows shown under a path. *)
Lemma ordered_ids ids (P : jstr * jstr -> bool) name p dict rows :
  let position := fun r => (name, path_text (p ++ [row_id r])) in
  NoDup ids -> StronglySorted id_le ids -> Forall (fun i => 0 <= i) p -> numbered rows -> text_ordered rows ->
  (forall j, j ∈ ids /\ P j = true <-> exists r, r ∈ shown dict rows /\ j = position r) ->
  filter (fun j => P j = true) ids = map position (shown dict rows).
Proof.
  intros position Hnd Hs Hp Hn Ho Hiff. inversion Hn as [? Hids Hall]; subst. inversion Ho as [? Ht _]; subst.
  rewrite Forall_forall in Hall.
  assert (Hle : forall r s, id_le (position r) (position s) <-> str_leb (dec (row_id r)) (dec (row_id s)) = true).
  { intros r s. unfold id_le, position. by rewrite position_leb. }
  assert (Hinj : forall r s, r ∈ rows -> s ∈ rows -> position r = position s -> r = s).
  { intros r s Hr Hs' [= He]. apply path_text_inj in He.
    - apply app_inj_2 in He as [_ [= He]]; [|done]. apply (row_by_id rows); [by apply sorted_NoDup|done..].
    - by destruct p.
    - by destruct p.
    - apply Forall_app. split; [done|]. apply Forall_singleton. by apply Hall.
    - apply Forall_app. split; [done|]. apply Forall_singleton. by apply Hall. }
  assert (Hsub : forall r, r ∈ shown dict rows -> r ∈ rows) by (intros r Hr; by apply list_elem_of_filter in Hr as [_ ?]).
  apply (StronglySorted_unique_strong id_le).
  - intros i j [HPi Hi]%list_elem_of_filter Hj H1 H2. destruct (proj1 (Hiff i) (conj Hi HPi)) as (r & Hr & ->).
    apply list_elem_of_fmap in Hj as (s & -> & Hs'). f_equal. 
    apply Hle in H1, H2. pose proof (str_leb_antisym _ _ H1 H2) as He.
    apply dec_inj in He; [by rewrite (row_by_id rows r s (sorted_NoDup _ Hids) (Hsub _ Hr) (Hsub _ Hs') He)|..];
      apply Hall; auto.
  - eapply sorted_sublist; [apply filter_sublist|done].
  - assert (Hss : StronglySorted (fun r s => str_leb (dec (row_id r)) (dec (row_id s)) = true) (shown dict rows)).
    { eapply sorted_sublist; [apply filter_sublist|done]. }
    clear -Hss Hle. induction Hss as [|r l _ IH Hr]; constructor; [done|]. apply Forall_map.
    eapply Forall_impl; [exact Hr|]. intros s. apply Hle.
  - apply NoDup_Permutation.
    + by apply NoDup_filter.
    + apply NoDup_fmap_2_strong; [intros r s Hr Hs'; apply Hinj; auto|].
      apply NoDup_filter. apply (NoDup_fmap_1 row_id). by apply sorted_NoDup.
    + intros j. rewrite list_elem_of_filter, list_elem_of_fmap. rewrite (and_comm (P j = true)), Hiff. naive_solver.
Qed.

(** ** The fields of a page *)

Section Entries.
Context (names : list jstr) (fields : list (jstr * list row)) (plain inputs : list (jstr * jstr)).
Context (Hreach : reachable_fields names fields) (Hplain : plain_inputs names plain).
Context (Hinputs : inputs ≡ₚ plain ++ fields_inputs fields).

Let params0 := parse_form_params inputs.
Let ids := sort_ids (field_ids params0).
Notation field_word := (field_word names fields plain Hreach Hplain).

Lemma input_prop f k v : f ∈ fields -> (k, v) ∈ rows_inputs true f.1 f.2 -> prop params0 k = VStr v.
Proof.
  intros Hf H. unfold prop, params0. rewrite (params0_get names fields plain inputs Hreach Hplain Hinputs k v); [done|].
  rewrite Hinputs, elem_of_app. right. apply list_elem_of_In, in_flat_map. exists f. by split; apply list_elem_of_In.
Qed.

Lemma located_one rows i r : located rows [i] r -> r ∈ rows /\ row_id r = i.
Proof. inversion 1 as [|? ? ? ? ? ? Hl]; subst; [done|by apply located_path in Hl]. Qed.

(** What a row contributes. *)
Lemma contribution_row f p r :
  f ∈ fields -> located f.2 p r ->
  let i := (f.1, path_text p) in
  let top := bool_decide (length p = 1)%nat in
  match row_value r with
  | None => contribution_of params0 i = Ok NewList
  | Some v => exists K, (top = true -> K = VStr (row_key r)) /\
      contribution_of params0 i = contribute K (VStr v) (VStr (row_type r)) top
  end.
Proof.
  intros Hf Hl. cbn zeta. destruct (field_word f Hf) as (Hw & Hok & _).
  pose proof (located_path _ _ _ Hl) as Hp. pose proof (located_numbered _ _ _ Hl (ok_numbered _ Hok)) as Hi.
  pose proof (located_settled _ _ _ Hl (ok_settled _ Hok)) as Hset.
  pose proof (located_type true f.1 [] f.2 p r Hl) as Ht. cbn [app] in Ht.
  rewrite path_name_text, <- app_assoc in Ht by done. cbn [app] in Ht. apply input_prop in Ht; [|done].
  unfold contribution_of. cbn [fst snd]. rewrite path_parts, length_map by done.
  change (f.1 ++ "_" ++ path_text p ++ MFTYPE) with (f.1 ++ 95 :: path_text p ++ MFTYPE). rewrite Ht.
  destruct (row_value r) as [v|] eqn:Hv.
  - pose proof (located_value true f.1 [] f.2 p r v Hl Hv) as Hval. cbn [app] in Hval.
    rewrite path_name_text, <- app_assoc in Hval by done. cbn [app] in Hval. apply input_prop in Hval; [|done].
    change (f.1 ++ "_" ++ path_text p ++ MFVALUE) with (f.1 ++ 95 :: path_text p ++ MFVALUE). rewrite Hval.
    eexists. split; [|done]. intros Htop%bool_decide_eq_true. destruct p as [|i []]; try done.
    apply located_one in Hl as [Hr <-].
    apply (input_prop f _ _ Hf). pose proof (row_key_input f.1 f.2 r Hr) as Hk.
    change (path_name f.1 [row_id r]) with (f.1 ++ "_" ++ dec (row_id r)) in Hk. by rewrite <- !app_assoc in Hk.
  - destruct Hset; [done|]. unfold contribute. cbn [row_type].
    by assert (eq_word (VStr (js "list")) "list" = true) as -> by by_decide.
Qed.

(** A row that shows something, and one that does not. *)
Lemma contributes_row f p r :
  f ∈ fields -> located f.2 p r -> (exists c, contribution_of params0 (f.1, path_text p) = Ok c) ->
  contributes params0 (f.1, path_text p) = negb (empty_row (bool_decide (length p = 1)%nat) r).
Proof.
  intros Hf Hl [c Hc]. pose proof (contribution_row f p r Hf Hl) as H. cbn zeta in H.
  destruct (field_word f Hf) as (_ & Hok & _).
  pose proof (located_settled _ _ _ Hl (ok_settled _ Hok)) as Hset. unfold contributes.
  destruct Hset as [id key type v sub Ht|id key sub]; cbn [row_value row_key row_type] in H.
  - destruct H as (K & HK & H). rewrite H in Hc |- *. destruct (empty_row _ _) eqn:He.
    + by rewrite (contribute_empty id key type v sub _ K Ht HK He).
    + pose proof (contribute_leaf id key type v sub _ K Ht HK He) as Hleaf.
      destruct (entry_value _); [by rewrite Hleaf|]. destruct Hleaf as [m Hm]. congruence.
  - rewrite H. unfold empty_row. cbn. rewrite bool_decide_eq_false_2; [done|]. by intros [[] _].
Qed.

Lemma fields_fst f g : f ∈ fields -> g ∈ fields -> f.1 = g.1 -> f = g.
Proof.
  destruct (reachable_ok _ _ Hreach) as [Hn _]. destruct (plain_names _ _ Hplain) as [Hnd _].
  rewrite <- Hn in Hnd. clear -Hnd. induction fields as [|h l IH]; [by intros ?%elem_of_nil|].
  cbn [map] in Hnd. apply NoDup_cons in Hnd as [Hh Hnd]. rewrite !elem_of_cons.
  intros [->|Hf] [->|Hg] He; [done|..|by apply IH]; exfalso; apply Hh;
    apply list_elem_of_fmap; eauto.
Qed.

(** The id of a row determines the field and the path. *)
Lemma position_inj f g p q r s :
  f ∈ fields -> g ∈ fields -> located f.2 p r -> located g.2 q s ->
  (f.1, path_text p) = (g.1, path_text q) -> f = g /\ p = q /\ r = s.
Proof.
  intros Hf Hg Hl Hl' [= H1 H2]. pose proof (fields_fst f g Hf Hg H1) as ->. split; [done|].
  destruct (field_word g Hg) as (_ & Hok & _). pose proof (ok_numbered _ Hok) as Hn.
  apply path_text_inj in H2 as ->; [|by eapply located_path|by eapply located_path|by eapply located_numbered..].
  split; [done|]. by eapply located_unique.
Qed.

Lemma located_sub rows p r :
  located rows p r -> numbered rows -> text_ordered rows -> numbered (row_sub r) /\ text_ordered (row_sub r).
Proof.
  induction 1 as [rows r Hr|rows r p r' Hr _ _ IH]; inversion 1 as [? _ Hn]; inversion 1 as [? _ Ht]; subst;
    rewrite Forall_forall in Hn, Ht; destruct (Hn r Hr); [by auto|]. apply IH; auto.
Qed.

Lemma elem_of_ids j : j ∈ ids <-> j ∈ field_ids params0.
Proof. unfold ids. by rewrite sort_ids_perm. Qed.

Hypothesis Hcontrib : forall i, i ∈ field_ids params0 -> exists c, contribution_of params0 i = Ok c.

Lemma contributes_located f p r :
  f ∈ fields -> located f.2 p r ->
  contributes params0 (f.1, path_text p) = negb (empty_row (bool_decide (length p = 1)%nat) r).
Proof.
  intros Hf Hl. apply contributes_row; [done..|]. apply Hcontrib.
  by apply (located_field_id names fields plain inputs Hreach Hplain Hinputs) with (r := r).
Qed.

(** The elements of a list are the rows it shows, in order. *)
Lemma child_ids f p r :
  f ∈ fields -> located f.2 p r -> row_value r = None -> text_ordered f.2 ->
  filter (fun j => element_of params0 (f.1, path_text p) j = true) ids =
  map (fun s => (f.1, path_text (p ++ [row_id s]))) (shown false (row_sub r)).
Proof.
  intros Hf Hl Hv Ho. destruct (field_word f Hf) as (Hw & Hok & _).
  destruct (located_sub _ _ _ Hl (ok_numbered _ Hok) Ho) as [Hn Ht].
  pose proof (located_path _ _ _ Hl) as Hp. pose proof (located_numbered _ _ _ Hl (ok_numbered _ Hok)) as Hi.
  apply ordered_ids; [|apply sort_ids_sorted|done..|].
  { unfold ids. rewrite sort_ids_perm. by apply (field_ids_NoDup names fields plain inputs). }
  intros j. rewrite elem_of_ids. split.
  - intros [Hj He]. unfold element_of in He. apply andb_true_iff in He as [He Hc].
    apply andb_true_iff in He as [Hlen%bool_decide_eq_true Hpar%bool_decide_eq_true].
    apply (field_ids_located names fields plain inputs Hreach Hplain Hinputs) in Hj as (g & q & s & Hg & Hls & Hiq & Hq & ->).
    cbn [snd] in Hlen. rewrite path_parts, length_map in Hlen by done.
    destruct q as [|x q _] using rev_ind; [done|]. rewrite length_app in Hlen. cbn in Hlen.
    assert (Hq' : q <> []) by (intros ->; cbn in Hlen; lia).
    rewrite path_parent in Hpar by done. destruct (located_parent _ _ _ _ Hls Hq') as (r' & Hl' & _ & Hs & <-).
    destruct (position_inj g f q p r' r Hg Hf Hl' Hl Hpar) as (-> & -> & ->).
    rewrite (contributes_located f _ s Hf Hls) in Hc. rewrite bool_decide_eq_false_2 in Hc by (rewrite length_app; cbn; lia).
    exists s. split; [|done]. apply list_elem_of_filter. split; [|done]. by apply negb_true_iff.
  - intros (s & Hs & ->). apply list_elem_of_filter in Hs as [He Hs]. pose proof (located_child _ _ _ _ Hl Hv Hs) as Hls.
    pose proof (located_numbered _ _ _ Hls (ok_numbered _ Hok)) as His.
    split; [by apply (located_field_id names fields plain inputs Hreach Hplain Hinputs) with (r := s)|].
    unfold element_of. rewrite (contributes_located f _ s Hf Hls), path_parent by done. cbn [snd].
    rewrite path_parts, length_map, length_app by (done || by destruct p). cbn [length].
    assert (Hlen : (1 < length p + 1)%nat) by (destruct p; [done|cbn; lia]).
    rewrite !bool_decide_eq_true_2 by done. rewrite bool_decide_eq_false_2 by lia. by rewrite He.
Qed.

(** The rows of a field are those it shows, in order. *)
Lemma field_row_ids f :
  f ∈ fields -> text_ordered f.2 ->
  filter (fun j => row_of params0 f.1 j = true) ids =
  map (fun s => (f.1, path_text ([] ++ [row_id s]))) (shown true f.2).
Proof.
  intros Hf Ho. destruct (field_word f Hf) as (Hw & Hok & _). pose proof (ok_numbered _ Hok) as Hn.
  apply ordered_ids; [|apply sort_ids_sorted|done..|].
  { unfold ids. rewrite sort_ids_perm. by apply (field_ids_NoDup names fields plain inputs). }
  intros j. rewrite elem_of_ids. split.
  - intros [Hj He]. unfold row_of in He. apply andb_true_iff in He as [He Hc].
    apply andb_true_iff in He as [Hname%bool_decide_eq_true Hlen%bool_decide_eq_true].
    apply (field_ids_located names fields plain inputs Hreach Hplain Hinputs) in Hj as (g & q & s & Hg & Hls & Hiq & Hq & ->).
    cbn [fst snd] in *. rewrite path_parts, length_map in Hlen by done.
    pose proof (fields_fst g f Hg Hf Hname) as ->.
    rewrite (contributes_located f _ s Hf Hls) in Hc. rewrite bool_decide_eq_true_2 in Hc by done.
    destruct q as [|x []]; try done. apply located_one in Hls as [Hs <-].
    exists s. split; [|done]. apply list_elem_of_filter. split; [|done]. by apply negb_true_iff.
  - intros (s & Hs & ->). apply list_elem_of_filter in Hs as [He Hs].
    assert (Hls : located f.2 [row_id s] s) by by constructor.
    pose proof (located_numbered _ _ _ Hls Hn) as His. cbn [app].
    split; [by apply (located_field_id names fields plain inputs Hreach Hplain Hinputs) with (r := s)|].
    unfold row_of. rewrite (contributes_located f _ s Hf Hls). cbn [fst snd]. rewrite path_parts by done.
    cbn [map length]. rewrite !bool_decide_eq_true_2 by done. by rewrite He.
Qed.

(** What a row shows is the value of its entry. *)
Lemma shown_values dict sub (position : row -> jstr * jstr) vs :
  Forall (fun s => empty_row dict s = false -> exists e, row_entries dict s = [e] /\
    forall v, shows params0 ids (position s) v -> entry_value e = Some v) sub ->
  Forall settled sub ->
  Forall2 (shows params0 ids) (map position (shown dict sub)) vs -> entry_values (entries_of dict sub) = Some vs.
Proof.
  intros Hrows Hset. revert vs. induction Hrows as [|s sub Hs _ IH]; intros vs H.
  { by inversion H. }
  apply Forall_cons in Hset as [Hss Hset]. unfold shown, entries_of in *. rewrite filter_cons in H. cbn [flat_map].
  destruct (decide (empty_row dict s = false)) as [He|He].
  - cbn [map] in H. inversion H as [|? v ? vs' Hv Hvs]; subst.
    destruct (Hs He) as (e & -> & Hval). cbn [app entry_values]. by rewrite (Hval v Hv), (IH Hset vs' Hvs).
  - apply not_false_is_true in He. rewrite (empty_row_entries dict s Hss He). by apply IH.
Qed.

Lemma row_shows r : forall f p,
  f ∈ fields -> text_ordered f.2 -> located f.2 p r ->
  let top := bool_decide (length p = 1)%nat in
  empty_row top r = false -> exists e, row_entries top r = [e] /\
    forall v, shows params0 ids (f.1, path_text p) v -> entry_value e = Some v.
Proof.
  induction r as [id key type value sub IH] using row_ind'. intros f p Hf Ho Hl top He.
  destruct (field_word f Hf) as (_ & Hok & _). pose proof (located_settled _ _ _ Hl (ok_settled _ Hok)) as Hset.
  pose proof (contribution_row f p _ Hf Hl) as Hc. cbn zeta in Hc. fold top in Hc. cbn [row_value row_key row_type] in Hc.
  destruct value as [v|].
  - inversion Hset as [? ? ? ? ? Ht|]; subst. destruct Hc as (K & HK & Hc).
    exists (Leaf (if top then key else []) type v). cbn [row_entries]. rewrite He. split; [done|].
    pose proof (contribute_leaf id key type v sub top K Ht HK He) as Hleaf. rewrite <- Hc in Hleaf.
    intros x Hx. inversion Hx as [? ? Hi|? ? Hi]; subst;
      destruct (entry_value _) as [y|]; [congruence|destruct Hleaf; congruence|congruence|destruct Hleaf; congruence].
  - exists (Node (if top then key else []) (entries_of false sub)). split; [apply row_entries_list|].
    inversion Hset as [|? ? ? Hsub]; subst. intros x Hx. inversion Hx as [? ? Hi|? vs _ Hvs]; subst; [congruence|].
    rewrite entry_value_node, (child_ids f p _ Hf Hl eq_refl Ho) in *. cbn [row_sub] in Hvs.
    rewrite (shown_values false sub (fun s => (f.1, path_text (p ++ [row_id s]))) vs); [done| |done|done].
    rewrite Forall_forall in IH |- *. intros s Hs Hse.
    pose proof (located_child _ _ _ s Hl eq_refl Hs) as Hls. specialize (IH s Hs f _ Hf Ho Hls). cbn zeta in IH.
    pose proof (located_path _ _ _ Hl) as Hp.
    rewrite bool_decide_eq_false_2 in IH by (rewrite length_app; destruct p; [done|cbn; lia]). by apply IH.
Qed.

Lemma row_entries_key r e : row_entries true r = [e] -> entry_key e = row_key r.
Proof.
  destruct r as [id key type [v|] sub]; [|by intros [= <-]]. cbn [row_entries].
  destruct (empty_row _ _); [done|by intros [= <-]].
Qed.

Lemma key_of_row f s : f ∈ fields -> s ∈ f.2 -> key_of params0 (f.1, path_text [row_id s]) = row_key s.
Proof.
  intros Hf Hs. destruct (field_word f Hf) as (_ & Hok & _). pose proof (ok_numbered _ Hok) as Hn.
  inversion Hn as [? _ Hall]; subst. rewrite Forall_forall in Hall. destruct (Hall s Hs) as [Hi _].
  unfold key_of. cbn [fst snd]. rewrite path_parts; [|done|by apply Forall_singleton].
  pose proof (row_key_input f.1 f.2 s Hs) as Hk. apply (input_prop f _ _ Hf) in Hk.
  change (path_name f.1 [row_id s]) with (f.1 ++ "_" ++ dec (row_id s)) in Hk. rewrite <- !app_assoc in Hk.
  change (to_str (prop params0 (f.1 ++ "_" ++ dec (row_id s) ++ MFKEY)) = row_key s). by rewrite Hk.
Qed.

(** The table of a field is that of its entries. *)
Lemma table_entries f t :
  f ∈ fields -> text_ordered f.2 -> shows_table params0 ids f.1 t ->
  entry_table [] (entries_of true f.2) = Some t.
Proof.
  intros Hf Ho (kvs & Hkvs & ->). rewrite (field_row_ids f Hf Ho) in Hkvs. cbn [app] in Hkvs.
  destruct (field_word f Hf) as (_ & Hok & _). pose proof (ok_settled _ Hok) as Hset.
  assert (Hin : forall s, s ∈ f.2 -> s ∈ f.2) by done. revert Hkvs Hset Hin.
  generalize (@nil (jstr * value)) as t. generalize f.2 at 1 2 3 5 as rows. intros rows. revert kvs.
  induction rows as [|s rows IH]; intros kvs t H Hset Hin.
  { by inversion H. }
  apply Forall_cons in Hset as [Hss Hset]. unfold shown, entries_of in *. rewrite filter_cons in H. cbn [flat_map].
  assert (Hs : s ∈ f.2) by (apply Hin; left).
  destruct (decide (empty_row true s = false)) as [He|He].
  - cbn [map] in H. inversion H as [|? kv ? kvs' [Hk Hv] Hvs]; subst. rewrite (key_of_row f s Hf Hs) in Hk.
    destruct (row_shows s f [row_id s] Hf Ho (located_here _ _ Hs) He) as (e & Hentry & Hval).
    cbn [length] in Hentry. rewrite bool_decide_eq_true_2 in Hentry by done. rewrite Hentry.
    cbn [app entry_table foldl]. rewrite (Hval _ Hv), (row_entries_key s e Hentry), <- Hk. cbn [mbind option_bind].
    apply IH; [done..|]. intros x Hx. apply Hin. by right.
  - apply not_false_is_true in He. rewrite (empty_row_entries true s Hss He).
    apply IH; [done..|]. intros x Hx. apply Hin. by right.
Qed.

End Entries.

(** ** Entries that are refused *)

Lemma entry_values_invalid es e : e ∈ es -> entry_value e = None -> entry_values es = None.
Proof.
  intros H He. induction es as [|e' es IH]; [by apply elem_of_nil in H|]. cbn [entry_values].
  apply elem_of_cons in H as [<-|H]; [by rewrite He|]. destruct (entry_value e'); [|done]. cbn. by rewrite IH.
Qed.

Lemma entry_table_invalid t es e : e ∈ es -> entry_value e = None -> entry_table t es = None.
Proof.
  intros H He. revert t. induction es as [|e' es IH]; intros t; [by apply elem_of_nil in H|]. cbn [entry_table].
  apply elem_of_cons in H as [<-|H]; [by rewrite He|]. destruct (entry_value e'); [|done]. by apply IH.
Qed.

(** A row that is refused at some depth makes an entry of the field invalid. *)
Lemma invalid_row rows p r dict e :
  located rows p r -> e ∈ row_entries (dict && bool_decide (length p = 1)%nat) r -> entry_value e = None ->
  exists e', e' ∈ entries_of dict rows /\ entry_value e' = None.
Proof.
  intros H. revert dict e. induction H as [rows r Hr|rows r p r' Hr Hv Hl IH]; intros dict e He Hval.
  - rewrite bool_decide_eq_true_2, andb_true_r in He by done. exists e. split; [|done].
    apply list_elem_of_In, in_flat_map. exists r. by split; apply list_elem_of_In.
  - rewrite bool_decide_eq_false_2, andb_false_r in He.
    2: { apply located_path in Hl. destruct p; [done|cbn; lia]. }
    destruct (IH false e He Hval) as (e' & He' & Hval'). destruct r as [id key type value sub].
    cbn in Hv, He'. subst value. exists (Node (if dict then key else []) (entries_of false sub)). split.
    + apply list_elem_of_In, in_flat_map. exists (Row id key type None sub).
      split; apply list_elem_of_In; [done|]. rewrite row_entries_list. left.
    + rewrite entry_value_node. by rewrite (entry_values_invalid _ e').
Qed.

(** What a form becomes: its parameters, and no others but those with an underscore
    in their names, or what it is refused for. *)
Lemma collapsed_entries queue_type names fields plain inputs :
  reachable_fields names fields -> plain_inputs names plain -> inputs ≡ₚ plain ++ fields_inputs fields ->
  (js "queuetype" ∈ plain.*1 ->
    is_Some (get QUEUE_TYPES queue_type) /\ (queue_type <> js "default" -> js "arguments" ∈ names)) ->
  match collapse_multifields queue_type (parse_form_params inputs) with
  | Ok params =>
      (forall k v, (k, v) ∈ plain -> ~ replaced queue_type plain k -> get params k = Some (VStr v)) /\
      (forall f, f ∈ fields -> ~ replaced queue_type plain f.1 -> exists t,
        get params f.1 = Some (VObj (with_queue_type queue_type plain f.1 t)) /\
        (text_ordered f.2 -> entry_table [] (entries_of true f.2) = Some t)) /\
      (forall k, 95 ∉ k -> k ∉ plain.*1 -> k ∉ names -> ~ replaced queue_type plain k -> get params k = None)
  | Throw e =>
      (exists m, e = Thrown m) /\ exists f, f ∈ fields /\ entry_table [] (entries_of true f.2) = None
  end.
Proof.
  intros Hr Hp Hi Hq. pose proof (page_collapses queue_type names fields plain inputs Hr Hp Hi Hq) as H. cbn zeta in H.
  destruct (collapse_multifields _ _) as [params|e].
  - destruct H as (Hc & Hplain & Htables & Hother). split_and!; [done| |done]. intros f Hf Hn.
    destruct (field_word names fields plain Hr Hp f Hf) as (_ & _ & Hname).
    destruct (Htables f.1 Hname Hn) as (t & Ht & Hs). exists t. split; [done|]. intros Ho.
    by apply (table_entries names fields plain inputs Hr Hp Hi Hc f t).
  - destruct H as (Hm & i & Hin & Hthrow). split; [done|].
    apply (field_ids_located names fields plain inputs Hr Hp Hi) in Hin as (f & p & r & Hf & Hl & _ & _ & ->).
    exists f. split; [done|]. pose proof (contribution_row names fields plain inputs Hr Hp Hi f p r Hf Hl) as Hc.
    cbn zeta in Hc. destruct (field_word names fields plain Hr Hp f Hf) as (_ & Hok & _).
    pose proof (located_settled _ _ _ Hl (ok_settled _ Hok)) as Hset.
    destruct Hset as [id key type v sub Ht|]; cbn [row_value row_key row_type] in Hc; [|congruence].
    destruct Hc as (K & HK & Hc). rewrite Hthrow in Hc. set (top := bool_decide (length p = 1)%nat) in *.
    destruct (empty_row top (Row id key type (Some v) sub)) eqn:He.
    { by rewrite (contribute_empty id key type v sub top K Ht HK He) in Hc. }
    pose proof (contribute_leaf id key type v sub top K Ht HK He) as Hleaf. rewrite <- Hc in Hleaf.
    destruct (invalid_row f.2 p _ true (Leaf (if top then key else []) type v) Hl) as (e' & Hin & Hinv).
    + rewrite andb_true_l. fold top. cbn [row_entries]. rewrite He. left.
    + by destruct (entry_value _).
    + by apply (entry_table_invalid _ _ e').
Qed.


(** Numbers of one digit are in order. *)
Inductive below (n : Z) : list row -> Prop :=
  | below_rows rows : Forall (fun r => row_id r < n /\ below n (row_sub r)) rows -> below n rows.

Lemma dec_one_digit i : 0 <= i < 10 -> dec i = [48 + i].
Proof. revert i. apply (Forall_range (fun i => dec i = [48 + i])). repeat constructor. Qed.

Lemma one_digit_ordered rows : numbered rows -> below 10 rows -> text_ordered rows.
Proof.
  assert (Hrow : forall r, numbered (row_sub r) -> below 10 (row_sub r) -> text_ordered (row_sub r)).
  { induction r as [id key type value sub IH] using row_ind'. cbn [row_sub]. intros H H'.
    inversion H as [? Hs Hn]; inversion H' as [? Hb]; subst. rewrite Forall_forall in IH, Hn, Hb. constructor.
    - clear IH H H'. induction sub as [|r sub IHs]; [constructor|]. cbn [map] in Hs.
      inversion Hs as [|? ? Hss Hlt]; subst. rewrite Forall_forall in Hlt. constructor.
      + apply IHs; [done|..]; intros s Hin; [apply Hn|apply Hb]; by right.
      + apply Forall_forall. intros s Hin. assert (row_id r < row_id s) by (apply Hlt, list_elem_of_fmap; eauto).
        destruct (Hn r), (Hb r), (Hn s), (Hb s); try (by left); try (by right).
        rewrite !dec_one_digit by lia. cbn [str_leb]. by rewrite (proj2 (Z.ltb_lt _ _)) by lia.
    - apply Forall_forall. intros r Hr. apply IH; [done|by apply Hn|by apply Hb]. }
  intros Hn Hb. apply (Hrow (Row 0 [] [] None rows)); done.
Qed.

(** ** Examples *)

Module FormEntryExamples.

(** A list of a number, typed in two steps, in the form for a quorum queue. *)
Definition step1 : list (jstr * list row) := [(js "arguments", [Row 1 "x-list" "list" (Some []) []])].
Definition step2 : list (jstr * list row) :=
  [(js "arguments", [Row 1 "x-list" "list" None [Row 1 [] "number" (Some (js "7")) []]; new_row 2])].

Definition queue_inputs : list (jstr * jstr) :=
  [(js "queuetype", js "quorum"); (js "name", js "q1"); (js "durable", js "false")].

Example submitted_inputs :
  fields_inputs (update_multifields step2) = [
    (js "arguments_1_mfkey", js "x-list"); (js "arguments_1_1_mfvalue", js "7"); (js "arguments_1_1_mftype", js "number");
    (js "arguments_1_2_mfvalue", []); (js "arguments_1_2_mftype", js "string"); (js "arguments_1_mftype", js "list");
    (js "arguments_2_mfkey", []); (js "arguments_2_mfvalue", []); (js "arguments_2_mftype", js "string")].
Proof. by vm_compute. Qed.

Lemma steps_reachable : reachable_fields [js "arguments"] (update_multifields step2).
Proof.
  eapply rtc_l; [apply (user_edits _ step1)|].
  { repeat constructor; by eauto. }
  apply rtc_once. apply (user_edits _ step2). repeat constructor; by eauto.
Qed.


(** The rows of the example are in order, and show one list. *)
Example shown_entries :
  Forall (fun f => text_ordered f.2) (update_multifields step2) /\
  map (fun f => entries_of true f.2) (update_multifields step2) = [[Node "x-list" [Leaf [] "number" "7"]]].
Proof. split; [|by vm_compute]. repeat constructor. Qed.

End FormEntryExamples.
