(* ===== verification/Title.v ===== *)
(** The title of the document (title.js, a plugin of the routing library), as the
    application sets it up (dispatcher of main.js) and the routes use it. *)
From S2P Require Import Prelude JsString JsNum Uri JsObject JsValue Prefs World.

(** What setTitle is given: a text, or a function of the title. *)
Inductive title_arg := TitleText (title : jstr) | TitleFunction (f : jstr -> jstr).

(** setTitle: the function that is kept as title_function. *)
Definition setTitle (a : title_arg) : jstr -> jstr :=
  match a with
  | TitleText title => fun additional_title => join " " [title; additional_title]
  | TitleFunction f => f
  end.

(** The helper title(): the title of the document. *)
Definition title (title_function : option (jstr -> jstr)) (arguments : list jstr) : jstr :=
  let new_title := join " " arguments in
  match title_function with Some f => f new_title | None => new_title end.

(** The plugin as the dispatcher sets it up. *)
Definition title_function : option (jstr -> jstr) := Some (setTitle (TitleText "RocketMQ: ")).

(** The title of the document after what a page did: that of the last call. *)
Definition document_title (initial : jstr) (effects : list effect) : jstr :=
  foldl (fun t e => match e with Title s => title title_function [s] | _ => t end) initial effects.

(** Every title of a route is the name of the program, two spaces and its text:
    the text given to setTitle ends with the space that join adds. *)
Lemma document_title_last initial before s after :
  Forall (fun e => match e with Title _ => False | _ => True end) after ->
  document_title initial (before ++ Title s :: after) = "RocketMQ:  " ++ s.
Proof.
  intros H. unfold document_title. rewrite foldl_app. cbn [foldl].
  generalize (foldl (fun t e => match e with Title s => title title_function [s] | _ => t end) initial before). intros _.
  assert (title title_function [s] = "RocketMQ:  " ++ s) as -> by done.
  induction H as [|e after He _ IH]; [done|]. cbn [foldl]. destruct e; done.
Qed.
