(* ===== verification/Routes.v ===== *)
(** The pages and the forms of the UI (dispatcher.js): the routes in the order
    they are added, each with its handler. *)
From S2P Require Import Prelude JsString JsNum Base64 Uri JsObject JsValue Columns Prefs Requests ChartRanges Escape Format Links Access Forms World Pages Refresh Sync Password Router.

(** What the handlers read of the session: the globals of global.js. *)
Record session := mk_session {
  user_name : value;                   (* user.name *)
  user_monitor : bool;
  access_of : access;                  (* ac *)
  ui_model : ui_data;                  (* ui_data_model *)
  oauth_logged_in : bool;
  extra_requests : list (jstr -> jstr -> obj req);   (* QUEUE_EXTRA_CONTENT_REQUESTS *)
}.

Section Routes.
Context {J : Type} {CJ : CookieJar J} {CK : Clock} {RX : RegExpSyntax} {TP : Templates}.
Variable oauth_enabled : bool.
Variable form : form_state.
Variable server : jstr -> jstr -> option (obj value) -> response.
Variable s : session.
Notation H := (M (world J) unit).
Notation handler := (obj value -> H).
Notation render := (render oauth_enabled).
Notation sync_put := (sync_put oauth_enabled form server).
Notation sync_delete := (sync_delete oauth_enabled form server).
Notation sync_post := (sync_post oauth_enabled form server).
Notation get_json := (get_json oauth_enabled form server).

(** [this.params[k]] in a text, and escaped for an address. *)
Definition text (params : obj value) (k : jstr) : jstr := to_str (prop params k).
Definition esc_param (params : obj value) (k : jstr) : M (world J) jstr := lift (esc (text params k)).

(** update_rate_options (charts.js) *)
Definition update_rate_options (params : obj value) : H :=
  let id := text params "id" in
  on_prefs (store_pref ("rate-mode-" ++ id) (text params "mode")) ;;;
  on_prefs (store_pref ("chart-size-" ++ id) (text params "size")) ;;;
  on_prefs (store_pref "chart-range" (text params "range")) ;;;
  partial_update.

(** update_column_options (main.js): a column is shown when its box was ticked. *)
Definition store_columns (mode : jstr) (params : obj value) (options : list column) : M (page J) unit :=
  for_each (fun c =>
    let value := negb (nullish (prop params (mode ++ "-" ++ col_key c))) in
    store_pref ("column-" ++ mode ++ "-" ++ col_key c) (if value then js "true" else js "false")) options.

Definition update_column_options (params : obj value) : H :=
  let mode := text params "mode" in
  p ← gets prefs;
  match COLUMNS p with
  | None => throw TypeError
  | Some cols =>
      on_prefs (for_each (fun g => store_columns mode params g.2) (entries (default [] (get cols mode)))) ;;;
      partial_update
  end.

Definition title (t : jstr) : H := emit (Title t).
Definition go_to (url : jstr) : H := emit (GoTo url).

Definition ranges_option (l : list jstr) : obj value := [(js "ranges", VArr (map VStr l))].
Definition ranged (path : jstr) (l : list jstr) : req := WithOptions path (ranges_option l).
Definition sorted (path : jstr) : req := WithOptions path [(js "sort", VBool true)].

Definition get_ (p : jstr) (h : handler) : route H := mk_route GET p h.
Definition put_ (p : jstr) (h : handler) : route H := mk_route PUT p h.
Definition post_ (p : jstr) (h : handler) : route H := mk_route POST p h.
Definition del_ (p : jstr) (h : handler) : route H := mk_route DELETE p h.

(** path(p, r, t) *)
Definition path (p : jstr) (r : obj req) (t : jstr) : route H := get_ p (fun _ => render r t p).

Definition show_overview (_ : obj value) : H :=
  title "Overview" ;;;
  let reqs := [(js "overview", ranged "/overview" [js "lengths-over"; js "msg-rates-over"]);
               (js "vhosts", Path "/vhosts")] in
  render (if user_monitor s then put reqs "nodes" (Path "/nodes") else reqs) "overview" "#/".

(** setup_global_vars() without its argument: [overview.rates_mode] of
    undefined. *)
Definition setup_global_vars_undefined : H := v ← lift (field VUndef "rates_mode"); skip.

Definition change_cluster_name (params : obj value) : H :=
  if_done (sync_put params "/cluster-name") (setup_global_vars_undefined ;;; update).

Definition show_node (params : obj value) : H :=
  title ("Node " ++ text params "name") ;;;
  name ← esc_param params "name";
  render [(js "node", ranged ("/nodes/" ++ name) [js "node-stats"])] "node" [].

Definition show_connection (params : obj value) : H :=
  name ← esc_param params "name";
  let connectionPath := "/connections/" ++ name in
  let reqs := [(js "connection", ranged connectionPath [js "data-rates-conn"])] in
  connectionDetails ← get_json connectionPath;
  protocol ← lift (field connectionDetails "protocol");
  render (if is_word protocol "AMQP 1-0" || is_word protocol "Web AMQP 1-0"
          then put reqs "sessions" (Path (connectionPath ++ "/sessions"))
          else put reqs "channels" (Path (connectionPath ++ "/channels")))
    "connection" "#/connections".

Definition close_connection (params : obj value) : H :=
  if_done (sync_delete params "/connections/:name" [(js "X-Reason", prop params "reason")])
    (go_to "#/connections").

Definition show_channel (params : obj value) : H :=
  name ← esc_param params "name";
  render [(js "channel", ranged ("/channels/" ++ name) [js "data-rates-ch"; js "msg-rates-ch"])]
    "channel" "#/channels".

Definition show_exchange (params : obj value) : H :=
  vhost ← esc_param params "vhost";
  title ("Exchange " ++ vhost ++ "/" ++ text params "name") ;;;
  name ← esc_param params "name";
  let path := "/exchanges/" ++ vhost ++ "/" ++ name in
  render [(js "exchange", ranged path [js "msg-rates-x"]);
          (js "bindings_source", Path (path ++ "/bindings/source"));
          (js "bindings_destination", Path (path ++ "/bindings/destination"))]
    "exchange" "#/exchanges".

(** The requests the extensions add, over those of the page. *)
Definition with_extra (requests : obj req) (vhost queue : jstr) : obj req :=
  foldl (fun o f => foldl (fun o kv => put o kv.1 kv.2) o (entries (f vhost queue))) requests (extra_requests s).

Definition show_queue (params : obj value) : H :=
  vhost ← esc_param params "vhost";
  title ("Queue " ++ vhost ++ "/" ++ text params "name") ;;;
  queue ← esc_param params "name";
  let path := "/queues/" ++ vhost ++ "/" ++ queue in
  render (with_extra
           [(js "queue", ranged path [js "lengths-q"; js "msg-rates-q"; js "data-rates-q"]);
            (js "bindings", Path (path ++ "/bindings"))]
           (text params "vhost") (text params "name")) "queue" "#/queues".

Definition delete_queue (params : obj value) : H :=
  if loose_eq (prop params "mode") (VStr "delete") then
    if_done (sync_delete params "/queues/:vhost/:name" []) (go_to "#/queues")
  else when (loose_eq (prop params "mode") (VStr "purge"))
    (if_done (sync_delete params "/queues/:vhost/:name/contents" [])
       (emit (Popup "info" (VStr "Queue purged")) ;;; partial_update)).

Definition show_vhost (params : obj value) : H :=
  id ← esc_param params "id";
  render [(js "vhost", ranged ("/vhosts/" ++ id) [js "lengths-vhost"; js "msg-rates-vhost"; js "data-rates-vhost"]);
          (js "permissions", Path ("/vhosts/" ++ id ++ "/permissions"));
          (js "topic_permissions", Path ("/vhosts/" ++ id ++ "/topic-permissions"));
          (js "users", Path "/users/");
          (js "exchanges", Path ("/exchanges/" ++ id))]
    "vhost" "#/vhosts".

(** The first virtual host with the name of the preference, or the first one. *)
Fixpoint index_vhost (current : option jstr) (i : nat) (vhosts : list value) : res nat :=
  match vhosts with
  | [] => Ok 0%nat
  | v :: vhosts =>
      name ← field v "name";
      if is_word name (default [] current) && bool_decide (current <> None) then Ok i
      else index_vhost current (S i) vhosts
  end.

Definition show_user (params : obj value) : H :=
  vhosts ← get_json "/vhosts";
  current_vhost ← on_prefs (get_pref "vhost");
  i ← lift (match vhosts with VArr l => index_vhost current_vhost 0 l | _ => Ok 0%nat end);
  id ← esc_param params "id";
  vhost ← lift (v ← field vhosts (dec (Z.of_nat i)); field v "name");
  name ← lift (esc (to_str vhost));
  render [(js "user", Path ("/users/" ++ id));
          (js "permissions", Path ("/users/" ++ id ++ "/permissions"));
          (js "topic_permissions", Path ("/users/" ++ id ++ "/topic-permissions"));
          (js "vhosts", Path "/vhosts/");
          (js "exchanges", Path ("/exchanges/" ++ name))]
    "user" "#/users".

Definition add_user (params : obj value) : H :=
  res ← sync_put params "/users/:username";
  match res with
  | Refused | Text _ => skip
  | Done http_status req_params =>
      when (http_status =? 204)
        (emit (Popup "warn" (VStr ("Updated an existing user: '" ++
                                   fmt_escape_html (prop req_params "username") ++ "'")))) ;;;
      update
  end.

Definition modify_user (params : obj value) : H :=
  let password := prop params "password" in
  if negb (nullish password) && negb (eq_empty password) && loose_eq (prop params "username") (user_name s)
  then change_own_password oauth_enabled form params
  else if_done (sync_put params "/users/:username") (go_to "#/users").

Definition show_policy (params : obj value) : H :=
  title "Policies" ;;;
  vhost ← esc_param params "vhost";
  id ← esc_param params "id";
  render [(js "policy", Path ("/policies/" ++ vhost ++ "/" ++ id))] "policy" "#/policies".

(** The limits of virtual hosts and users: a value that is not a number is
    refused. *)
Definition put_limit (template : jstr) (params : obj value) : H :=
  match int_value (prop params "value") with
  | VNaN =>
      emit (Popup "warn" (VStr (fmt_escape_html (VStr (
        "Validation failed" ++ [10; 10] ++ text params "name" ++
        " should be a number, actually was `" ++ text params "value" ++ "`")))))
  | n => if_done (sync_put (put params "value" n) template) update
  end.

Definition limits_model : obj req :=
  let datamodel := [(js "limits", Path "/vhost-limits"); (js "user_limits", Path "/user-limits");
                    (js "vhosts", Path "/vhosts")] in
  if isAdministratorUser (access_of s) then put datamodel "users" (Path "/users") else datamodel.

Definition logout (_ : obj value) : H :=
  on_prefs clear_auth ;;;
  if oauth_logged_in s then emit OAuthLogout else go_to "/".

Definition put_policy (template : jstr) (params : obj value) : H :=
  sync_put_cast oauth_enabled form server params template [js "name"; js "pattern"; js "policy"]
    [js "priority"] [].

(** The routes that need a virtual host. *)
Definition vhost_routes : list (route H) :=
  [get_ "#/connections" (fun _ => title "Connections" ;;; renderConnections oauth_enabled);
   get_ "#/connections/:name" show_connection;
   del_ "#/connections" close_connection;
   get_ "#/channels" (fun _ => title "Channels" ;;; renderChannels oauth_enabled);
   get_ "#/channels/:name" show_channel;
   get_ "#/exchanges" (fun _ => title "Exchanges" ;;; renderExchanges oauth_enabled);
   get_ "#/exchanges/:vhost/:name" show_exchange;
   put_ "#/exchanges" (fun params => if_done (sync_put params "/exchanges/:vhost/:name") update);
   del_ "#/exchanges"
     (fun params => if_done (sync_delete params "/exchanges/:vhost/:name" []) (go_to "#/exchanges"));
   post_ "#/exchanges/publish" (publish_msg form);
   get_ "#/queues" (fun _ => title "Queues" ;;; renderQueues oauth_enabled);
   get_ "#/queues/:vhost/:name" show_queue;
   put_ "#/queues" (fun params => if_done (sync_put params "/queues/:vhost/:name") update);
   del_ "#/queues" delete_queue;
   post_ "#/queues/get" get_msgs;
   post_ "#/queues/actions"
     (fun params => if_done (sync_post params "/queues/:vhost/:name/actions") (emit ActionDisabled));
   post_ "#/bindings" (fun params =>
     if_done (sync_post params "/bindings/:vhost/e/:source/:destination_type/:destination") update);
   del_ "#/bindings" (fun params =>
     if_done (sync_delete params
       "/bindings/:vhost/e/:source/:destination_type/:destination/:properties_key" []) update);
   path "#/vhosts" [(js "vhosts", sorted "/vhosts"); (js "permissions", Path "/permissions")] "vhosts";
   get_ "#/vhosts/:id" show_vhost;
   put_ "#/vhosts" (fun params =>
     if_done (sync_put params "/vhosts/:name") (update_vhosts (vhosts (ui_model s)) ;;; update));
   del_ "#/vhosts" (fun params =>
     if_done (sync_delete params "/vhosts/:name" []) (update_vhosts (vhosts (ui_model s)) ;;; go_to "#/vhosts"));
   get_ "#/users" (fun _ => title "Users" ;;; renderUsers oauth_enabled);
   get_ "#/users/:id" show_user;
   put_ "#/users-add" add_user;
   put_ "#/users-modify" modify_user;
   del_ "#/users" (fun params => if_done (sync_delete params "/users/:username" []) (go_to "#/users"));
   put_ "#/permissions" (fun params => if_done (sync_put params "/permissions/:vhost/:username") update);
   del_ "#/permissions" (fun params =>
     if_done (sync_delete params "/permissions/:vhost/:username" []) update);
   put_ "#/topic-permissions" (fun params =>
     if_done (sync_put params "/topic-permissions/:vhost/:username") update);
   del_ "#/topic-permissions" (fun params =>
     if_done (sync_delete params "/topic-permissions/:vhost/:username/:exchange" []) update);
   path "#/policies" [(js "policies", Path "/policies"); (js "operator_policies", Path "/operator-policies");
                      (js "vhosts", Path "/vhosts")] "policies";
   get_ "#/policies/:vhost/:id" show_policy;
   put_ "#/policies" (put_policy "/policies/:vhost/:name");
   del_ "#/policies" (fun params =>
     if_done (sync_delete params "/policies/:vhost/:name" []) (go_to "#/policies"));
   put_ "#/operator_policies" (fun params =>
     put_policy "/operator-policies/:vhost/:name" (rename_multifield params "definitionop" "definition"));
   del_ "#/operator_policies" (fun params =>
     if_done (sync_delete params "/operator-policies/:vhost/:name" []) update);
   path "#/limits" limits_model "limits";
   put_ "#/limits" (put_limit "/vhost-limits/:vhost/:name");
   put_ "#/user-limits" (put_limit "/user-limits/:user/:name");
   post_ "#/restart_vhost" (fun params => if_done (sync_post params "/vhosts/:vhost/start/:node") update);
   del_ "#/limits" (fun params => if_done (sync_delete params "/vhost-limits/:vhost/:name" []) update);
   del_ "#/user-limits" (fun params => if_done (sync_delete params "/user-limits/:user/:name" []) update)].

(** The dispatcher. *)
Definition routes : list (route H) :=
  [get_ "#/" show_overview;
   get_ "#/" show_overview;
   path "#/cluster-name" [(js "cluster_name", Path "/cluster-name")] "cluster-name";
   put_ "#/cluster-name" change_cluster_name;
   get_ "#/nodes/:name" show_node] ++
  (if canAccessVhosts (ui_model s) (access_of s) then vhost_routes else []) ++
  [path "#/feature-flags" [(js "feature_flags", sorted "/feature-flags");
                           (js "permissions", Path "/permissions")] "feature-flags";
   put_ "#/feature-flags-enable" (fun params => if_done (sync_put params "/feature-flags/:name/enable") update);
   path "#/deprecated-features" [(js "deprecated_features", sorted "/deprecated-features");
                                 (js "used_deprecated_features", Path "/deprecated-features/used")]
     "deprecated-features";
   put_ "#/logout" logout;
   put_ "#/rate-options" update_rate_options;
   put_ "#/column-options" update_column_options;
   del_ "#/reset" (fun params => if_done (sync_delete params "/reset" []) update);
   del_ "#/reset_node" (fun params => if_done (sync_delete params "/reset/:node" []) update)].

End Routes.
