(* ===== verification/RefreshFacts.v ===== *)
(** Properties of requests and refreshes: invariants of every run, the order in
    which a page asks and what it collects, and what stops a refresh. *)
From S2P Require Import Prelude JsString JsNum Base64 Uri JsObject JsValue Columns Prefs PrefsFacts Requests ChartRanges Escape Format Links World Pages Refresh.

(** ** Reasoning about handlers *)

(** The handler keeps the invariant, whether it ends or throws. *)
Definition keeps_inv {W A} (I : W -> Prop) (m : M W A) : Prop := forall w, I w -> I (m w).2.

Section Keeps.
Context {W : Type} (I : W -> Prop).

Lemma keeps_ret {A} (a : A) : keeps_inv I (mret a).
Proof. by intros w Hw. Qed.

Lemma keeps_skip : keeps_inv I skip.
Proof. by intros w Hw. Qed.

Lemma keeps_throw {A} e : keeps_inv I (throw (A := A) e).
Proof. by intros w Hw. Qed.

Lemma keeps_lift {A} (r : res A) : keeps_inv I (lift r).
Proof. by intros w Hw. Qed.

Lemma keeps_gets {A} (f : W -> A) : keeps_inv I (gets f).
Proof. by intros w Hw. Qed.

Lemma keeps_modify f : (forall w, I w -> I (f w)) -> keeps_inv I (modify f).
Proof. intros Hf w Hw. cbn. auto. Qed.

Lemma keeps_bind {A B} (m : M W A) (f : A -> M W B) :
  keeps_inv I m -> (forall a, keeps_inv I (f a)) -> keeps_inv I (m ≫= f).
Proof.
  intros Hm Hf w Hw. unfold mbind, M_bind. specialize (Hm w Hw).
  destruct (m w) as [[a|e] w']; [by apply Hf | done].
Qed.

(** The value read may be used to prove the rest. *)
Lemma keeps_bind_gets {A B} (g : W -> A) (f : A -> M W B) :
  (forall w, I w -> I (f (g w) w).2) -> keeps_inv I (gets g ≫= f).
Proof. intros Hf w Hw. by apply Hf. Qed.

(** From [I], the handler ends in [Q], whether it throws or not. *)
Definition leads {A} (Q : W -> Prop) (m : M W A) : Prop := forall w, I w -> Q (m w).2.

Lemma leads_bind {A B} (Q : W -> Prop) (m : M W A) (f : A -> M W B) :
  (forall w, I w -> Q w) -> keeps_inv I m -> (forall a, leads Q (f a)) -> leads Q (m ≫= f).
Proof.
  intros HIQ Hm Hf w Hw. unfold mbind, M_bind. specialize (Hm w Hw).
  destruct (m w) as [[a|e] w']; [by apply Hf | by apply HIQ].
Qed.

Lemma leads_weaken {A} (Q : W -> Prop) (m : M W A) :
  (forall w, I w -> Q w) -> keeps_inv I m -> leads Q m.
Proof. intros HIQ Hm w Hw. by apply HIQ, Hm. Qed.

Lemma keeps_for_each {A} (f : A -> M W unit) l :
  (forall x, keeps_inv I (f x)) -> keeps_inv I (for_each f l).
Proof. intros Hf. induction l; cbn; [apply keeps_skip | by apply keeps_bind]. Qed.

End Keeps.

#[export] Hint Resolve keeps_ret keeps_skip keeps_throw keeps_lift keeps_gets : keeps.

Section KeepsWorld.
Context {J : Type} (I : world J -> Prop).

Lemma keeps_when b (m : M (world J) unit) : keeps_inv I m -> keeps_inv I (when b m).
Proof. intros Hm. destruct b; [done | apply keeps_skip]. Qed.

Lemma keeps_callback (m : M (world J) unit) : keeps_inv I m -> keeps_inv I (callback m).
Proof.
  intros Hm w Hw. unfold callback. specialize (Hm w Hw). by destruct (m w) as [[[]|e] w'].
Qed.

End KeepsWorld.

(** Splits a handler into its parts. *)
Ltac keeps :=
  repeat first
    [ solve [auto with keeps]
    | apply keeps_bind; [|intros ?]
    | apply keeps_when
    | apply keeps_for_each; intros ?
    | apply keeps_callback
    | match goal with
      | |- keeps_inv _ (match ?x with _ => _ end) => destruct x
      | |- keeps_inv _ (let '(_, _) := ?x in _) => destruct x
      end ].

(** ** The invariant of every run *)

(** At most one request of the page is in flight, and it is the one the page
    would abort. *)
Record net_ok (n : net) : Prop := {
  ok_flight : (in_flight n).*1 = outstanding_reqs n;
  ok_one : (length (outstanding_reqs n) <= 1)%nat;
  ok_ids : forall r, r ∈ outstanding_reqs n -> (r < next_req n)%nat;
}.

Definition world_ok {J : Type} (w : world J) : Prop := timers_ok (timers_of w) /\ net_ok (net_of w).

(** No request is in flight. *)
Definition idle {J : Type} (w : world J) : Prop := world_ok w /\ outstanding_reqs (net_of w) = [].

(** The two shapes of the requests. *)
Lemma net_ok_cases n :
  net_ok n ->
  (in_flight n = [] /\ outstanding_reqs n = []) \/
  exists r c, in_flight n = [(r, c)] /\ outstanding_reqs n = [r].
Proof.
  intros [H1 H2 _]. rewrite <- H1 in H2 |- *. rewrite length_fmap in H2.
  destruct (in_flight n) as [|[r c] [|x l]]; cbn in *; [by left | right; eauto | lia].
Qed.

Lemma net_ok_answered r n :
  net_ok n -> lookup_request r (in_flight n) <> None ->
  net_ok (answered r n) /\ outstanding_reqs (answered r n) = [].
Proof.
  intros Hn Hr. destruct (net_ok_cases n Hn) as [[Hf Ho]|(r' & c & Hf & Ho)]; rewrite Hf in Hr; [done|].
  cbn in Hr. case_decide as He; [subst r'|done].
  assert (Hc : in_flight (answered r n) = [] /\ outstanding_reqs (answered r n) = []).
  { cbn. rewrite Hf, Ho, filter_cons. cbn. rewrite decide_False by (intros Hne; by apply Hne).
    by rewrite decide_True. }
  destruct Hc as [Hc1 Hc2]. split; [|exact Hc2]. split; rewrite ?Hc1, ?Hc2; [done | cbn; lia |].
  by intros x ?%elem_of_nil.
Qed.

Lemma net_ok_add c n : net_ok n -> outstanding_reqs n = [] -> net_ok (add_request c n).
Proof.
  intros [H1 H2 H3] He. rewrite He in H1. split; cbn; rewrite ?fmap_app, ?H1, ?He; cbn; [done|lia|].
  intros r ->%list_elem_of_singleton. lia.
Qed.

Lemma net_ok_drop n : net_ok n -> outstanding_reqs n = [] -> net_ok (drop_outstanding n).
Proof. intros [H1 H2 H3] He. rewrite He in H1. split; cbn; [done | lia | by intros r ?%elem_of_nil]. Qed.

(** ** The invariant through the handlers *)

Section Invariant.
Context {J : Type} {CJ : CookieJar J} {CK : Clock} {RX : RegExpSyntax} {TP : Templates}.
Variable oauth_enabled : bool.
Notation W := (world J).
Notation keeps_ok m := (keeps_inv (W := W) world_ok m).
Notation keeps_idle m := (keeps_inv (W := W) idle m).
Notation from_idle m := (leads (W := W) idle world_ok m).

Lemma idle_ok (w : W) : idle w -> world_ok w.
Proof. by intros [H _]. Qed.

Lemma keeps_on_prefs (I : W -> Prop) {A} (m : M (page J) A) :
  (forall w p, I w -> I (set_prefs p w)) -> keeps_inv I (on_prefs m).
Proof. intros HI w Hw. unfold on_prefs. destruct (m (prefs w)). by apply HI. Qed.

Lemma keeps_ok_on_prefs {A} (m : M (page J) A) : keeps_ok (on_prefs m).
Proof. by apply keeps_on_prefs. Qed.

Lemma keeps_idle_on_prefs {A} (m : M (page J) A) : keeps_idle (on_prefs m).
Proof. by apply keeps_on_prefs. Qed.

Lemma keeps_ok_modify f :
  (forall w : W, timers_of (f w) = timers_of w /\ net_of (f w) = net_of w) -> keeps_ok (modify f).
Proof. intros Hf w Hw. destruct (Hf w) as [H1 H2]. unfold world_ok. cbn. by rewrite H1, H2. Qed.

Lemma keeps_idle_modify f :
  (forall w : W, timers_of (f w) = timers_of w /\ net_of (f w) = net_of w) -> keeps_idle (modify f).
Proof. intros Hf w Hw. destruct (Hf w) as [H1 H2]. unfold idle, world_ok. cbn. by rewrite H1, H2. Qed.

Lemma keeps_ok_timers f : (forall t, timers_ok t -> timers_ok (f t)) -> keeps_ok (on_timers f).
Proof. intros Hf w [Ht Hn]. split; [by apply Hf | done]. Qed.

Lemma keeps_idle_timers f : (forall t, timers_ok t -> timers_ok (f t)) -> keeps_idle (on_timers f).
Proof. intros Hf w [Hw Hi]. split; [by apply keeps_ok_timers | done]. Qed.

Hint Resolve keeps_ok_on_prefs keeps_idle_on_prefs : keeps.
Hint Extern 4 (keeps_inv world_ok (modify _)) => (apply keeps_ok_modify; done) : keeps.
Hint Extern 4 (keeps_inv idle (modify _)) => (apply keeps_idle_modify; done) : keeps.
Hint Extern 4 (keeps_inv world_ok (emit _)) => (apply keeps_ok_modify; done) : keeps.
Hint Extern 4 (keeps_inv idle (emit _)) => (apply keeps_idle_modify; done) : keeps.
Hint Extern 4 (keeps_inv world_ok (on_view _)) => (apply keeps_ok_modify; done) : keeps.
Hint Extern 4 (keeps_inv idle (on_view _)) => (apply keeps_idle_modify; done) : keeps.

Lemma keeps_clear_timer : keeps_ok clear_timer.
Proof. apply keeps_ok_timers, timers_ok_clear. Qed.

Lemma keeps_idle_clear_timer : keeps_idle clear_timer.
Proof. apply keeps_idle_timers, timers_ok_clear. Qed.

Lemma keeps_reset_timer : keeps_ok reset_timer.
Proof. apply keeps_ok_timers, timers_ok_reset. Qed.

Lemma keeps_idle_reset_timer : keeps_idle reset_timer.
Proof. apply keeps_idle_timers, timers_ok_reset. Qed.

Lemma keeps_set_timer_interval i : keeps_ok (set_timer_interval i).
Proof.
  apply keeps_bind; [apply keeps_ok_timers; intros t; apply timers_ok_fields|intros _].
  apply keeps_reset_timer.
Qed.

Lemma keeps_set_page_error t : keeps_ok (on_net (set_page_error t)).
Proof. intros w [Ht [H1 H2 H3]]. split; [done|]. by split. Qed.

Lemma keeps_idle_connected t : keeps_idle (on_net (connected t)).
Proof. intros w [[Ht [H1 H2 H3]] Hi]. split; [|done]. split; [done|]. by split. Qed.

Lemma add_from_idle c : from_idle (on_net (add_request c)).
Proof. intros w [[Ht Hn] Hi]. split; [done | by apply net_ok_add]. Qed.

Hint Resolve keeps_clear_timer keeps_reset_timer keeps_idle_clear_timer keeps_idle_reset_timer
  keeps_set_page_error keeps_set_timer_interval keeps_idle_connected : keeps.

Lemma keeps_update_status s : keeps_ok (update_status s).
Proof. unfold update_status. keeps. Qed.

Lemma keeps_idle_update_status s : keeps_idle (update_status s).
Proof. unfold update_status. keeps. Qed.
Hint Resolve keeps_update_status keeps_idle_update_status : keeps.

Lemma keeps_page_out_of_range up url :
  (forall t p, keeps_ok (up t p)) -> keeps_ok (page_out_of_range up url).
Proof. intros Hup. unfold page_out_of_range. keeps. Qed.

Lemma keeps_check up full404 on404 url r :
  (forall t p, keeps_ok (up t p)) -> keeps_ok (check_bad_response oauth_enabled up full404 on404 url r).
Proof.
  intros Hup. pose proof (keeps_page_out_of_range up url Hup).
  unfold check_bad_response, client_error, initiate_logout. keeps.
Qed.

(** A good answer changes nothing, and no other answer is good. *)
Lemma check_success up full404 on404 url r w :
  success (status r) = true ->
  check_bad_response oauth_enabled up full404 on404 url r w = (Ok true, w).
Proof. intros Hs. unfold check_bad_response, mbind, M_bind. cbn. by rewrite Hs. Qed.

Lemma check_failure up full404 on404 url r w w' b :
  success (status r) = false ->
  check_bad_response oauth_enabled up full404 on404 url r w = (Ok b, w') -> b = false.
Proof.
  intros Hs. unfold check_bad_response, mbind, M_bind. cbn [gets]. rewrite Hs.
  destruct (password_change_in_progress _); [by intros [= <- _]|].
  match goal with |- context [match ?m w with _ => _ end] => destruct (m w) as [[[]|e] w1] end;
    by intros [= <- _].
Qed.

(** *** Sending *)

Lemma with_req_from_idle method path c : from_idle (with_req method path c).
Proof.
  pose proof idle_ok. unfold with_req.
  repeat first [apply leads_bind; [exact idle_ok | by keeps | intros ?] | case_match];
    try (apply leads_weaken; [exact idle_ok | by keeps]).
  intros w Hw. unfold mbind, M_bind. cbn. by apply add_from_idle.
Qed.

Lemma with_reqs_from_idle reqs acc extra k : from_idle (with_reqs reqs acc extra k).
Proof.
  unfold with_reqs. destruct (entries reqs) as [|[key path] l]; [|apply with_req_from_idle].
  apply leads_weaken; [exact idle_ok|]. unfold finish, maybe_scroll, full_refresh. keeps.
Qed.

Lemma keeps_with_update k : keeps_ok (with_update k).
Proof.
  apply keeps_bind_gets. intros w Hw. destruct (outstanding_reqs (net_of w)) eqn:Ho; [|done].
  refine ((_ : from_idle _) w (conj Hw Ho)).
  repeat (apply leads_bind; [exact idle_ok | by keeps | intros ?]). apply with_reqs_from_idle.
Qed.
Hint Resolve keeps_with_update : keeps.

Lemma keeps_update : keeps_ok update.
Proof. unfold update. keeps. Qed.
Hint Resolve keeps_update : keeps.

(** *** Answers *)

Lemma run_cont_from_idle c r : from_idle (run_cont c r).
Proof.
  pose proof idle_ok. unfold run_cont.
  destruct c; destruct (body r);
    try (apply leads_weaken; [exact idle_ok | by keeps]).
  destruct (starts_with key "extra_"); apply with_reqs_from_idle.
Qed.

Lemma keeps_ready up r resp :
  (forall t p, keeps_ok (up t p)) -> keeps_ok (ready_state_change oauth_enabled up r resp).
Proof.
  intros Hup. apply keeps_bind_gets. intros w Hw.
  destruct (lookup_request r (in_flight (net_of w))) as [c|] eqn:Hr; [|done].
  set (w1 := set_net (answered r (net_of w)) w).
  assert (Hi : idle w1).
  { destruct Hw as [Ht Hn]. destruct (net_ok_answered r _ Hn ltac:(by rewrite Hr)) as [H1 H2]. done. }
  change (world_ok ((ok ← check_bad_response oauth_enabled up (negb (on404 c)) (on404 c)
    (response_url c) resp; when ok (t ← gets (fun w => now (prefs w)); on_net (connected t) ;;;
    run_cont (req_cont c) resp)) w1).2). clearbody w1.
  destruct (success (status resp)) eqn:Hs.
  - unfold mbind at 1, M_bind at 1. rewrite check_success by done. cbn [when]. revert w1 Hi.
    change (from_idle (t ← gets (fun w => now (prefs w)); on_net (connected t) ;;; run_cont (req_cont c) resp)).
    repeat (apply leads_bind; [exact idle_ok | by keeps | intros ?]). apply run_cont_from_idle.
  - unfold mbind at 1, M_bind at 1. pose proof (keeps_check up (negb (on404 c)) (on404 c) (response_url c) resp Hup w1 (idle_ok _ Hi)) as Hc.
    destruct (check_bad_response _ _ _ _ _ _ _) as [[b|e] w2] eqn:Hb; [|done].
    by rewrite (check_failure _ _ _ _ _ _ _ _ Hs Hb).
Qed.

Lemma keeps_idle_set_page_error t : keeps_idle (on_net (set_page_error t)).
Proof. intros w [[Ht [H1 H2 H3]] Hi]. split; [|done]. split; [done|]. by split. Qed.
Hint Resolve keeps_idle_set_page_error : keeps.

(** Aborting the request in flight leaves none. *)
Lemma abort_idle r (w : W) :
  world_ok w -> lookup_request r (in_flight (net_of w)) <> None -> idle (abort oauth_enabled r w).2.
Proof.
  intros [Ht Hn] Hr. destruct (net_ok_answered r _ Hn Hr) as [H1 H2].
  unfold abort, mbind, M_bind. cbn [gets]. destruct (lookup_request r _) as [c|] eqn:Hc; [|done].
  cbn [emit modify]. set (w1 := set_log _ w).
  assert (Hi : idle (set_net (answered r (net_of w)) w1)) by done.
  unfold callback, ready_state_change, mbind, M_bind. cbn [gets].
  change (net_of w1) with (net_of w). rewrite Hc. cbn [on_net modify].
  change (set_net (answered r (net_of w1)) w1) with (set_net (answered r (net_of w)) w1).
  assert (Hk : keeps_idle (check_bad_response oauth_enabled (fun _ _ => skip) (negb (on404 c)) (on404 c)
    (response_url c) (mk_response 0 None))).
  { unfold check_bad_response, client_error, initiate_logout, page_out_of_range. keeps. }
  specialize (Hk _ Hi).
  destruct (check_bad_response _ _ _ _ _ _ _) as [[b|e] w2] eqn:Hb; [|done].
  apply check_failure in Hb as ->; done.
Qed.

Lemma keeps_abort_all : keeps_ok (abort_all oauth_enabled).
Proof.
  intros w [Ht Hn]. unfold abort_all.
  destruct (net_ok_cases _ Hn) as [[Hf Ho]|(r & c & Hf & Ho)]; unfold mbind, M_bind; cbn [gets];
    rewrite Ho; cbn [length abort_loop].
  - split; [done|]. by apply net_ok_drop.
  - unfold mbind, M_bind. cbn [gets]. rewrite Ho. cbn [lookup list_lookup].
    pose proof (abort_idle r w (conj Ht Hn)) as Hi. rewrite Hf in Hi. cbn in Hi.
    rewrite decide_True in Hi by done. specialize (Hi ltac:(done)).
    destruct (abort oauth_enabled r w) as [[[]|e] w1]; [|by apply idle_ok].
    cbn in *. destruct Hi as [[Ht1 Hn1] Hi1]. split; [done|]. by apply net_ok_drop.
Qed.
Hint Resolve keeps_abort_all : keeps.

Lemma keeps_render reqs template highlight : keeps_ok (render oauth_enabled reqs template highlight).
Proof. unfold render. keeps. Qed.
Hint Resolve keeps_render : keeps.

Lemma keeps_update_pages template start : keeps_ok (update_pages oauth_enabled template start).
Proof.
  unfold update_pages, renderQueues, renderUsers, renderExchanges, renderConnections, renderChannels,
    stored_page_info, url_pagination_template. keeps.
Qed.
Hint Resolve keeps_update_pages : keeps.

Lemma keeps_partial_update : keeps_ok partial_update.
Proof. unfold partial_update, full_refresh. keeps. Qed.
Hint Resolve keeps_partial_update : keeps.

Lemma keeps_pause : keeps_ok pause_auto_refresh.
Proof. apply keeps_ok_timers. intros t Ht. by apply timers_ok_pause. Qed.

Lemma keeps_resume : keeps_ok resume_auto_refresh.
Proof. apply keeps_ok_timers, timers_ok_resume. Qed.
Hint Resolve keeps_pause keeps_resume : keeps.

Lemma keeps_handle e : keeps_ok (handle oauth_enabled e).
Proof.
  pose proof (fun r resp => keeps_ready _ r resp keeps_update_pages).
  destruct e; cbn [handle]; unfold onRefresh, on_sort, on_show_vhost, on_update_every; keeps.
Qed.

Lemma run_ok es (w : W) : world_ok w -> world_ok (run oauth_enabled w es).
Proof.
  revert w. induction es as [|e es IH]; intros w Hw; [done|]. apply IH.
  apply (keeps_callback world_ok _ (keeps_handle e)), Hw.
Qed.

End Invariant.
