(* ===== verification/RouteFacts.v ===== *)
(** Properties of the routes: decoding undoes the encoding of the links, and the
    links lead to the pages of their objects. *)
From S2P Require Import Prelude JsString JsNum Base64 Uri JsObject JsValue Columns Prefs Requests ChartRanges Escape Format Links Access Forms World Pages Refresh Sync Password Router Routes.

(** ** Decoding what was encoded *)

Lemma take_escape_byte b s : 0 <= b < 256 -> take_escape (pct_byte b ++ s) = Some (b, s).
Proof. intros Hb. unfold take_escape, pct_byte. cbn [app]. by rewrite hex2_digits. Qed.

Lemma take_continuation_byte x s :
  0 <= x < 64 -> take_continuation (pct_byte (128 + x) ++ s) = Some (x, s).
Proof.
  intros Hx. unfold take_continuation. rewrite take_escape_byte by lia. cbn.
  destruct ((128 <=? 128 + x) && (128 + x <? 192)) eqn:E; [|lia]. f_equal. f_equal. lia.
Qed.

(** A code point that is not a surrogate. *)
Definition scalar (cp : Z) : Prop := 0 <= cp < 1114112 /\ ~ 55296 <= cp < 57344.

(** The octets of a code point are read back as it. *)
Lemma decode_point cp s :
  scalar cp ->
  ('(b, s2) ← take_escape (pct (utf8 cp) ++ s); decode_rest b s2) = Some (cp, s).
Proof.
  intros [Hr Hs]. unfold utf8.
  destruct (Z.ltb_spec cp 128) as [H1|H1]; [|destruct (Z.ltb_spec cp 2048) as [H2|H2];
    [|destruct (Z.ltb_spec cp 65536) as [H3|H3]]];
    cbn [pct flat_map]; rewrite ?app_nil_r, <- ?app_assoc;
    rewrite take_escape_byte by lia_div; cbn [mbind option_bind];
    unfold decode_rest.
  - by rewrite (proj2 (Z.ltb_lt _ _) H1).
  - repeat rewrite (proj2 (Z.ltb_ge _ _)) by lia_div. rewrite (proj2 (Z.ltb_lt _ 224)) by lia_div.
    rewrite take_continuation_byte by lia_div. cbn. f_equal. f_equal. lia_div.
  - do 3 rewrite (proj2 (Z.ltb_ge _ _)) by lia_div. rewrite (proj2 (Z.ltb_lt _ 240)) by lia_div.
    rewrite !take_continuation_byte by lia_div. cbn [mbind option_bind].
    rewrite take_continuation_byte by lia_div. cbn [mbind option_bind].
    set (x := (224 + cp / 4096 - 224) * 4096 + cp / 64 mod 64 * 64 + cp mod 64).
    assert (Hx : x = cp) by (subst x; lia_div). rewrite Hx.
    destruct ((cp <? 2048) || ((55296 <=? cp) && (cp <? 57344))) eqn:E; [lia|done].
  - do 4 rewrite (proj2 (Z.ltb_ge _ _)) by lia_div. rewrite (proj2 (Z.ltb_lt _ 245)) by lia_div.
    do 3 (rewrite take_continuation_byte by lia_div; cbn [mbind option_bind]).
    set (x := (240 + cp / 262144 - 240) * 262144 + cp / 4096 mod 64 * 4096 + cp / 64 mod 64 * 64 + cp mod 64).
    assert (Hx : x = cp) by (subst x; lia_div). rewrite Hx.
    destruct ((cp <? 65536) || (1114111 <? cp)) eqn:E; [lia|done].
Qed.

Lemma pct_head cp s : exists t, pct (utf8 cp) ++ s = 37 :: t /\ (length s < length t)%nat.
Proof.
  unfold utf8. repeat case_match_goal; cbn [pct flat_map pct_byte app]; eexists; (split; [reflexivity|]);
    cbn; rewrite ?length_app; cbn; lia.
Qed.

(** decodeURIComponent undoes encodeURIComponent. *)
Lemma decode_loop_esc s : forall e fuel,
  wf_jstr s -> esc s = Ok e -> (length e <= fuel)%nat -> decode_loop fuel e = Ok s.
Proof.
  unfold esc. induction s as [s IH] using (induction_ltof1 _ length). intros e fuel Hs.
  assert (Hp : forall cp s' e', scalar cp -> wf_jstr s' -> (length s' < length s)%nat ->
    encodeURIComponent s' = Ok e' -> e = pct (utf8 cp) ++ e' -> (length e <= fuel)%nat ->
    decode_loop fuel e = Ok (utf16 cp ++ s')).
  { intros cp s' e' Hcp Hs' Hlt He' -> Hf. pose proof (decode_point cp e' Hcp) as Hd.
    destruct (pct_head cp e') as (t & Ht & Hlen). rewrite Ht in Hd, Hf |- *.
    destruct fuel as [|fuel]; [cbn in Hf; lia|]. cbn [decode_loop]. rewrite decide_True by done.
    rewrite Hd. rewrite (IH s' Hlt e'); [done | done | done | cbn in Hf; lia]. }
  destruct s as [|c s1]; cbn [encodeURIComponent]; [intros [= <-] _; by destruct fuel|].
  inversion Hs as [|? ? Hc Hs1]; subst. unfold is_code_unit in Hc.
  destruct (uri_unreserved c) eqn:Eu.
  { intros He Hf. destruct (encodeURIComponent s1) as [e1|] eqn:E1; [|done]. injection He as <-.
    apply unreserved_ascii in Eu as [_ Hne]. destruct fuel as [|fuel]; [cbn in Hf; lia|].
    cbn [decode_loop]. rewrite decide_False by done.
    rewrite (IH s1); [done | unfold ltof; cbn; lia | done | done | cbn in Hf; lia]. }
  destruct (is_trail c) eqn:Et; [done|]. destruct (is_lead c) eqn:El.
  - destruct s1 as [|d s2]; [done|]. destruct (is_trail d) eqn:Ed; [|done].
    inversion Hs1 as [|? ? _ Hs2]; subst.
    intros He Hf. destruct (encodeURIComponent s2) as [e2|] eqn:E2; [|done]. injection He as <-.
    pose proof (code_point_range c d El Ed) as Hr.
    rewrite (Hp (code_point c d) s2 e2); [| split; lia | done | cbn; lia | done | done | done].
    unfold utf16. rewrite (proj2 (Z.ltb_ge _ _)) by lia. cbn [app]. do 2 f_equal.
    + unfold code_point, is_lead, is_trail in *. rewrite !andb_true_iff, !Z.leb_le in *. lia_div.
    + f_equal. unfold code_point, is_lead, is_trail in *. rewrite !andb_true_iff, !Z.leb_le in *. lia_div.
  - intros He Hf. destruct (encodeURIComponent s1) as [e1|] eqn:E1; [|done]. injection He as <-.
    assert (Hsc : scalar c).
    { split; [lia|]. unfold is_lead, is_trail in *. rewrite !andb_false_iff, !Z.leb_gt in *. lia. }
    rewrite (Hp c s1 e1); [| done | done | cbn; lia | done | done | done].
    unfold utf16. by rewrite (proj2 (Z.ltb_lt _ _)) by lia.
Qed.

Lemma path_unit_not c d : path_unit d = false -> path_unit c = true -> c <> d.
Proof. intros Hd Hc ->. by rewrite Hc in Hd. Qed.

Lemma units_free d e : path_unit d = false -> Forall (fun c => path_unit c = true) e -> d ∉ e.
Proof.
  intros Hd He Hin. rewrite Forall_forall in He. specialize (He d Hin). by rewrite He in Hd.
Qed.

Lemma decode_esc s e : wf_jstr s -> esc s = Ok e -> decode_param e = Ok s.
Proof.
  intros Hs He. unfold decode_param, decodeURIComponent. pose proof (esc_units s e Hs He) as Hu.
  rewrite replace_unit_id by by apply units_free. by apply decode_loop_esc.
Qed.

(** ** Matching *)

(** A segment of an address: something, without slash, question mark or hash. *)
Definition segment (e : jstr) : Prop := e <> [] /\ Forall (fun c => path_unit c = true) e.

Lemma run_length_segment e t : Forall (fun c => path_unit c = true) e ->
  run_length (e ++ t) = (length e + match t with [] => 0 | _ => run_length t end)%nat.
Proof.
  induction 1 as [|c e Hc _ IH]; cbn; [by destruct t|].
  rewrite decide_False by by apply path_unit_not. by rewrite IH.
Qed.

Lemma match_at_last e : segment e -> match_at [Param] e = Some [e].
Proof.
  intros [Hne He]. cbn [match_at]. pose proof (run_length_segment e [] He) as Hl.
  rewrite app_nil_r, Nat.add_0_r in Hl. rewrite Hl.
  destruct e as [|c e]; [done|]. cbn [length]. change (S (length e)) with (length (c :: e)).
  by rewrite drop_all, firstn_all.
Qed.

Lemma match_at_middle ps e t l :
  segment e -> match_at (Lit 47 :: ps) (47 :: t) = Some l ->
  match_at (Param :: Lit 47 :: ps) (e ++ 47 :: t) = Some (e :: l).
Proof.
  intros [Hne He] Hm. cbn [match_at]. pose proof (run_length_segment e (47 :: t) He) as Hl.
  cbn [run_length] in Hl. rewrite decide_True in Hl by done. rewrite Nat.add_0_r in Hl. rewrite Hl.
  destruct e as [|c e]; [done|]. cbn [length]. change (S (length e)) with (length (c :: e)).
  rewrite drop_app_length, take_app_length. cbn [match_at] in Hm. by rewrite Hm.
Qed.

(** An address holds one hash, where every pattern begins. *)
Lemma search_at_hash ps pre rest :
  35 ∉ pre -> 35 ∉ rest -> search (Lit 35 :: ps) (pre ++ 35 :: rest) = match_at ps rest.
Proof.
  intros Hpre Hrest.
  assert (Hnone : forall s, 35 ∉ s -> search (Lit 35 :: ps) s = None).
  { induction s as [|c s IH]; [done|]. rewrite not_elem_of_cons. intros [Hne Hs].
    cbn. rewrite decide_False by done. by apply IH. }
  induction pre as [|c pre IH].
  - cbn. destruct (match_at ps rest) eqn:Em; [done|]. by apply Hnone.
  - rewrite not_elem_of_cons in Hpre. destruct Hpre as [Hne Hp]. cbn.
    rewrite decide_False by done. by apply IH.
Qed.

Lemma routable_at_hash pre rest :
  63 ∉ rest -> routablePath (pre ++ 35 :: rest) = pre ++ 35 :: rest.
Proof.
  intros Hq. assert (Hid : forall s, 63 ∉ s -> routablePath s = s).
  { induction s as [|c s IH]; [done|]. rewrite not_elem_of_cons. intros [Hne Hs]. cbn.
    rewrite decide_False by naive_solver. by rewrite IH. }
  induction pre as [|c pre IH]; cbn.
  - rewrite decide_False by naive_solver. by rewrite Hid.
  - rewrite decide_False; [by rewrite IH|]. intros [_ Hn]. apply Hn, elem_of_app. right. left.
Qed.

Lemma query_at_hash pre rest : 63 ∉ rest -> query_string (pre ++ 35 :: rest) = None.
Proof.
  intros Hq. assert (Hno : forall s, 63 ∉ s -> query_string s = None).
  { induction s as [|c s IH]; [done|]. rewrite not_elem_of_cons. intros [Hne Hs]. cbn.
    rewrite decide_False by naive_solver. by apply IH. }
  induction pre as [|c pre IH]; cbn.
  - rewrite decide_False by naive_solver. by apply Hno.
  - rewrite decide_False; [done|]. intros [_ Hn]. apply Hn, elem_of_app. right. left.
Qed.

(** The route an address takes. *)
Section Lookup.
Context {H : Type}.
Implicit Types (rs : list (route H)).

Definition after_hash (r : route H) : list piece := tail (pattern (r_path r)).1.

Definition begins_with_hash (r : route H) : bool :=
  match (pattern (r_path r)).1 with Lit 35 :: _ => true | _ => false end.

(** The first route of the verb that matches after the hash. *)
Fixpoint lookup_after (v : verb) (rest : jstr) rs : option (route H * list jstr * list jstr) :=
  match rs with
  | [] => None
  | r :: rs =>
      if decide (r_verb r = v) then
        match match_at (after_hash r) rest with
        | Some vals => Some (r, (pattern (r_path r)).2, vals)
        | None => lookup_after v rest rs
        end
      else lookup_after v rest rs
  end.

Lemma lookup_at_hash v pre rest rs :
  35 ∉ pre -> 35 ∉ rest -> 63 ∉ rest -> forallb begins_with_hash rs = true ->
  lookupRoute v (pre ++ 35 :: rest) rs = lookup_after v rest rs.
Proof.
  intros Hpre Hrest Hq. induction rs as [|r rs IH]; [done|].
  cbn [forallb lookupRoute lookup_after]. rewrite andb_true_iff. intros [Hr Hrs].
  rewrite routable_at_hash by done. unfold begins_with_hash in Hr. unfold after_hash.
  destruct (pattern (r_path r)) as [ps names]. cbn [fst snd] in *.
  destruct ps as [|[c|] ps]; [done| |done].
  assert (c = 35) as -> by (repeat case_match; congruence). cbn [tail].
  rewrite search_at_hash, IH by done. done.
Qed.

Lemma lookup_after_app v rest rs1 rs2 :
  lookup_after v rest (rs1 ++ rs2) =
  match lookup_after v rest rs1 with Some x => Some x | None => lookup_after v rest rs2 end.
Proof.
  induction rs1 as [|r rs1 IH]; [done|]. cbn [app lookup_after].
  destruct (decide (r_verb r = v)); [destruct (match_at _ rest)|]; done.
Qed.

(** The pattern may match a text that begins with [k]. *)
Fixpoint compatible (ps : list piece) (k : jstr) : bool :=
  match ps, k with
  | _, [] => true
  | Lit c :: ps, d :: k => Z.eqb c d && compatible ps k
  | Param :: _, _ => true
  | [], _ :: _ => false
  end.

Lemma incompatible_no_match ps k t : compatible ps k = false -> match_at ps (k ++ t) = None.
Proof.
  revert k. induction ps as [|[c|] ps IH]; intros [|d k]; cbn [compatible]; try done.
  intros Hc. cbn [app match_at]. destruct (decide (c = d)) as [->|]; [|done].
  rewrite Z.eqb_refl in Hc. by apply IH.
Qed.

Definition skipped (v : verb) (k : jstr) (r : route H) : bool :=
  negb (bool_decide (r_verb r = v) && compatible (after_hash r) k).

Lemma lookup_after_nth v k t rs i r vals :
  forallb (skipped v k) (take i rs) = true -> rs !! i = Some r -> r_verb r = v ->
  match_at (after_hash r) (k ++ t) = Some vals ->
  lookup_after v (k ++ t) rs = Some (r, (pattern (r_path r)).2, vals).
Proof.
  revert i. induction rs as [|r' rs IH]; intros [|i] Hs Hi Hv Hm; try done.
  - injection Hi as ->. cbn [lookup_after]. by rewrite decide_True, Hm.
  - cbn [take forallb] in Hs. apply andb_true_iff in Hs as [Hr Hs]. cbn [lookup_after].
    specialize (IH i Hs Hi Hv Hm). unfold skipped in Hr.
    destruct (decide (r_verb r' = v)) as [He|He]; [|done].
    rewrite bool_decide_true in Hr by done. cbn in Hr. apply negb_true_iff in Hr.
    by rewrite incompatible_no_match.
Qed.

(** A visit: the route found at its place, its parameters decoded. *)
Lemma visit_nth v pre k t rs i r vals params :
  35 ∉ pre -> 35 ∉ k ++ t -> 63 ∉ k ++ t -> forallb begins_with_hash rs = true ->
  forallb (skipped v k) (take i rs) = true -> rs !! i = Some r -> r_verb r = v ->
  match_at (after_hash r) (k ++ t) = Some vals ->
  path_params (pattern (r_path r)).2 vals [] = Ok params ->
  runRoute v (pre ++ 35 :: k ++ t) [] rs = Ok (Some (r_handler r params)).
Proof.
  intros Hpre Hh Hq Hb Hs Hi Hv Hm Hp. unfold runRoute, parse_query.
  rewrite query_at_hash by done. cbn [mbind res_bind foldl]. change (foldl _ [] (entries [])) with ([] : obj value).
  rewrite lookup_at_hash by done. rewrite (lookup_after_nth v k t rs i r vals) by done.
  by rewrite Hp.
Qed.

End Lookup.

(** ** The links *)

(** The objects that have a page of their own. *)
Inductive object :=
  | OQueue (vhost name : jstr)
  | OExchange (vhost name : jstr)
  | OPolicy (vhost name : jstr)
  | OConnection (name : jstr)
  | OChannel (name : jstr)
  | ONode (name : jstr)
  | OVhost (name : jstr)
  | OUser (name : jstr).

Definition named (s : jstr) : Prop := wf_jstr s /\ s <> [].

(** Only the default exchange has no name. *)
Definition object_ok (o : object) : Prop :=
  match o with
  | OExchange v n => named v /\ wf_jstr n
  | OQueue v n | OPolicy v n => named v /\ named n
  | OConnection n | OChannel n | ONode n | OVhost n | OUser n => named n
  end.

Lemma esc_segment s e : named s -> esc s = Ok e -> segment e.
Proof.
  intros [Hw Hn] He. split; [|by eapply esc_units].
  intros ->. by apply Hn, esc_empty.
Qed.

Section Links.
Context {J : Type} {CJ : CookieJar J} {CK : Clock} {RX : RegExpSyntax} {TP : Templates} {LC : LowerCase}.
Variable oauth_enabled : bool.
Variable form : form_state.
Variable server : jstr -> jstr -> option (obj value) -> response.
Variable s : session.
Variable G : globals.
Notation H := (M (world J) unit).
Notation routes := (routes (J := J) oauth_enabled form server s).

Definition object_link (o : object) : res jstr :=
  match o with
  | OQueue v n => link_queue G v n []
  | OExchange v n => link_exchange G v n []
  | OPolicy v n => link_policy G v n
  | OConnection n => link_conn G n None
  | OChannel n => link_channel G n
  | ONode n => link_node G n
  | OVhost n => link_vhost G n
  | OUser n => link_user G n
  end.

(** The handler of the page of an object, with the parameters it is given. *)
Definition object_page (o : object) : H :=
  match o with
  | OQueue v n => show_queue oauth_enabled s [(js "vhost", VStr v); (js "name", VStr n)]
  | OExchange v n =>
      show_exchange oauth_enabled
        [(js "vhost", VStr v); (js "name", VStr (if decide (n = []) then js "amq.default" else n))]
  | OPolicy v n => show_policy oauth_enabled [(js "vhost", VStr v); (js "id", VStr n)]
  | OConnection n => show_connection oauth_enabled form server [(js "name", VStr n)]
  | OChannel n => show_channel oauth_enabled [(js "name", VStr n)]
  | ONode n => show_node oauth_enabled [(js "name", VStr n)]
  | OVhost n => show_vhost oauth_enabled [(js "id", VStr n)]
  | OUser n => show_user oauth_enabled form server [(js "id", VStr n)]
  end.

Hypothesis Hvhosts : canAccessVhosts (ui_model s) (access_of s) = true.

Lemma routes_hash : forallb begins_with_hash routes = true.
Proof. unfold Routes.routes. rewrite Hvhosts. by vm_compute. Qed.

Lemma no_unit d e : path_unit d = false -> segment e -> d ∉ e.
Proof. intros Hd [_ He]. by apply units_free. Qed.

(** A page whose address has one parameter, or two. *)
Lemma visit_one pre k e x i r :
  35 ∉ pre -> named x -> esc x = Ok e ->
  35 ∉ k -> 63 ∉ k -> forallb (skipped GET k) (take i routes) = true -> routes !! i = Some r ->
  r_verb r = GET -> after_hash r = map Lit k ++ [Param] ->
  forall name, (pattern (r_path r)).2 = [name] ->
  runRoute GET (pre ++ 35 :: k ++ e) [] routes = Ok (Some (r_handler r [(name, VStr x)])).
Proof.
  intros Hpre Hx Hesc Hk1 Hk2 Hs Hi Hv Ha name Hn.
  pose proof (esc_segment _ _ Hx Hesc) as He. pose proof (decode_esc _ _ (proj1 Hx) Hesc) as Hd.
  apply (visit_nth GET pre k e routes i r [e]); try done.
  - rewrite elem_of_app. intros [?|Hin]; [done|]. by apply no_unit in Hin.
  - rewrite elem_of_app. intros [?|Hin]; [done|]. by apply no_unit in Hin.
  - apply routes_hash.
  - rewrite Ha. clear Ha Hs Hk1 Hk2. induction k as [|c k IH]; [by apply match_at_last|].
    cbn [map app match_at]. by rewrite decide_True.
  - rewrite Hn. cbn. by rewrite Hd.
Qed.

Lemma visit_two pre k e1 e2 x1 x2 i r :
  35 ∉ pre -> named x1 -> named x2 -> esc x1 = Ok e1 -> esc x2 = Ok e2 ->
  35 ∉ k -> 63 ∉ k -> forallb (skipped GET k) (take i routes) = true -> routes !! i = Some r ->
  r_verb r = GET -> after_hash r = map Lit k ++ [Param; Lit 47; Param] ->
  forall n1 n2, (pattern (r_path r)).2 = [n1; n2] -> n1 <> n2 ->
  runRoute GET (pre ++ 35 :: k ++ e1 ++ 47 :: e2) [] routes =
  Ok (Some (r_handler r [(n1, VStr x1); (n2, VStr x2)])).
Proof.
  intros Hpre Hx1 Hx2 Hesc1 Hesc2 Hk1 Hk2 Hs Hi Hv Ha n1 n2 Hn Hne.
  pose proof (esc_segment _ _ Hx1 Hesc1) as He1. pose proof (decode_esc _ _ (proj1 Hx1) Hesc1) as Hd1.
  pose proof (esc_segment _ _ Hx2 Hesc2) as He2. pose proof (decode_esc _ _ (proj1 Hx2) Hesc2) as Hd2.
  assert (Hfree : forall d, d ∉ k -> path_unit d = false -> d <> 47 -> d ∉ k ++ e1 ++ 47 :: e2).
  { intros d Hd Hu Hs47. rewrite !elem_of_app, elem_of_cons.
    intros [?|[Hin|[?|Hin]]]; [done | by apply no_unit in Hin | done | by apply no_unit in Hin]. }
  apply (visit_nth GET pre k (e1 ++ 47 :: e2) routes i r [e1; e2]); try done; [by apply Hfree | by apply Hfree | apply routes_hash | |].
  - rewrite Ha. clear Ha Hs Hk1 Hk2 Hfree. induction k as [|c k IH].
    + apply match_at_middle; [done|]. cbn [match_at]. rewrite decide_True by done. by apply match_at_last.
    + cbn [map app]. cbn [match_at]. by rewrite decide_True.
  - rewrite Hn. cbn. rewrite Hd1. cbn. rewrite Hd2. cbn. by rewrite decide_False.
Qed.

Lemma link_to_href name url h args : exists rest, link_to G name url h args = "<a href=`" ++ url ++ "`" ++ rest.
Proof. unfold link_to. by eexists. Qed.

Lemma skipped_before k i :
  forallb (skipped GET k) (take i ([get_ "#/" (show_overview oauth_enabled s); get_ "#/" (show_overview oauth_enabled s);
    path oauth_enabled "#/cluster-name" [(js "cluster_name", Path "/cluster-name")] "cluster-name";
    put_ "#/cluster-name" (change_cluster_name oauth_enabled form server);
    get_ "#/nodes/:name" (show_node oauth_enabled)] ++ vhost_routes oauth_enabled form server s)) = true ->
  (i <= 48)%nat ->
  forallb (skipped GET k) (take i routes) = true.
Proof.
  intros Hs Hi. unfold Routes.routes. rewrite Hvhosts. rewrite (app_assoc _ (vhost_routes _ _ _ _)).
  rewrite take_app_le; [exact Hs|]. cbn. lia.
Qed.

(** The place of a route, before which no route matches. *)
Ltac place :=
  [> by_decide | by_decide | apply skipped_before; [by vm_compute | lia]
   | unfold Routes.routes; rewrite Hvhosts; reflexivity | done | by vm_compute | by vm_compute .. ].

Lemma ok_inj {A} (a b : A) : Ok a = Ok b -> b = a.
Proof. congruence. Qed.

(** C5: the link to an object leads to the page of that very object: its address,
    behind whatever address the UI has, is routed to the handler of the page,
    and the handler is given the name of the object and of its virtual host as
    they are, however they are spelled. *)
Theorem links_open_pages o pre html :
  35 ∉ pre -> object_ok o -> object_link o = Ok html ->
  exists url rest, html = "<a href=`" ++ url ++ "`" ++ rest /\
    runRoute GET (pre ++ url) [] routes = Ok (Some (object_page o)).
Proof.
  intros Hpre Ho Hl.
  destruct o as [v n|v n|v n|n|n|n|n|n]; cbn [object_ok object_link object_page] in *;
    unfold link_queue, link_exchange, link_policy, link_conn, link_channel,
      link_node, link_vhost, link_user in Hl; apply res_bind_ok in Hl as (ev & Hev & Hl);
    try apply res_bind_ok in Hl as (en & Hen & Hl); apply ok_inj in Hl as ->;
    match goal with |- context [link_to G ?name ?url ?h ?args] =>
      destruct (link_to_href name url h args) as [rest ->]; exists url, rest; split; [done|] end.
  - destruct Ho as [Hv Hn]. refine (visit_two pre "/queues/" ev en v n 16
      (get_ "#/queues/:vhost/:name" (show_queue oauth_enabled s)) Hpre Hv Hn Hev Hen _ _ _ _ _ _ "vhost" "name" _ _);
      place.
  - destruct Ho as [Hv Hn]. set (x := if decide (n = []) then js "amq.default" else n).
    assert (Hx : named x /\ esc x = Ok en).
    { subst x. destruct (decide (n = [])) as [->|Hne]; [|done]. injection Hen as <-.
      split; [split; [by_decide | done] | by vm_compute]. }
    destruct Hx as [Hx Hex].
    refine (visit_two pre "/exchanges/" ev en v x 11
      (get_ "#/exchanges/:vhost/:name" (show_exchange oauth_enabled)) Hpre Hv Hx Hev Hex _ _ _ _ _ _ "vhost" "name" _ _);
      place.
  - destruct Ho as [Hv Hn]. refine (visit_two pre "/policies/" ev en v n 37
      (get_ "#/policies/:vhost/:id" (show_policy oauth_enabled)) Hpre Hv Hn Hev Hen _ _ _ _ _ _ "vhost" "id" _ _);
      place.
  - refine (visit_one pre "/connections/" ev n 6
      (get_ "#/connections/:name" (show_connection oauth_enabled form server)) Hpre Ho Hev _ _ _ _ _ _ "name" _);
      place.
  - refine (visit_one pre "/channels/" ev n 9
      (get_ "#/channels/:name" (show_channel oauth_enabled)) Hpre Ho Hev _ _ _ _ _ _ "name" _);
      place.
  - refine (visit_one pre "/nodes/" ev n 4
      (get_ "#/nodes/:name" (show_node oauth_enabled)) Hpre Ho Hev _ _ _ _ _ _ "name" _);
      place.
  - refine (visit_one pre "/vhosts/" ev n 24
      (get_ "#/vhosts/:id" (show_vhost oauth_enabled)) Hpre Ho Hev _ _ _ _ _ _ "id" _);
      place.
  - refine (visit_one pre "/users/" ev n 28
      (get_ "#/users/:id" (show_user oauth_enabled form server)) Hpre Ho Hev _ _ _ _ _ _ "id" _);
      place.
Qed.
(** *** The navigation *)

Lemma visit_page pre k i r :
  35 ∉ pre -> 35 ∉ k -> 63 ∉ k -> forallb (skipped GET k) (take i routes) = true -> routes !! i = Some r ->
  r_verb r = GET -> after_hash r = map Lit k -> (pattern (r_path r)).2 = [] ->
  runRoute GET (pre ++ 35 :: k) [] routes = Ok (Some (r_handler r [])).
Proof.
  intros Hpre Hk1 Hk2 Hs Hi Hv Ha Hn. rewrite <- (app_nil_r k).
  apply (visit_nth GET pre k [] routes i r []); rewrite ?app_nil_r; try done; [apply routes_hash | | by rewrite Hn].
  rewrite Ha. clear. induction k as [|c k IH]; [done|]. cbn. by rewrite decide_True.
Qed.

(** The addresses of the navigation, each with the place of its route. *)
Definition navigation_places : list (jstr * nat) :=
  [(js "/", 0); (js "/connections", 5); (js "/channels", 8); (js "/exchanges", 10); (js "/queues", 15);
   (js "/users", 27); (js "/vhosts", 23); (js "/feature-flags", 48); (js "/deprecated-features", 50);
   (js "/policies", 36); (js "/limits", 42); (js "/cluster-name", 2)]%nat.

Lemma page_in_places k val href tag needs :
  (k, val) ∈ NAVIGATION -> page_in href tag needs val ->
  exists rest, href = 35 :: rest /\ rest ∈ navigation_places.*1.
Proof.
  assert (Hall : Forall (fun kv => forall href tag needs, page_in href tag needs kv.2 ->
    exists rest, href = 35 :: rest /\ rest ∈ navigation_places.*1) NAVIGATION).
  { assert (Hpage : forall h t n href tag needs, page_in href tag needs (Access.Page h t n) ->
      (exists rest, h = 35 :: rest /\ rest ∈ navigation_places.*1) ->
      exists rest, href = 35 :: rest /\ rest ∈ navigation_places.*1).
    { intros h t n href0 tag0 needs0 Hp. by inversion Hp; subst. }
    repeat constructor; intros href0 tag0 needs0 Hp; cbn [snd] in Hp;
      try (eapply Hpage; [exact Hp|]; eexists; split; [reflexivity | by_decide]).
    inversion Hp as [|k0 t0 items0 tag1 needs1 Hin Hp0]; subst.
    repeat (apply elem_of_cons in Hin as [[= -> ->]|Hin];
      [eapply Hpage; [exact Hp0|]; eexists; split; [reflexivity | by_decide]|]).
    by apply elem_of_nil in Hin. }
  intros Hin Hp. rewrite Forall_forall in Hall. exact (Hall _ Hin _ _ _ Hp).
Qed.
(** The route at each place is the page of its address. *)
Definition page_at (p : jstr * nat) : Prop := exists r,
  forallb (skipped GET p.1) (take p.2 routes) = true /\ routes !! p.2 = Some r /\
  r_verb r = GET /\ r_path r = 35 :: p.1 /\ after_hash r = map Lit p.1 /\ (pattern (r_path r)).2 = [] /\
  35 ∉ p.1 /\ 63 ∉ p.1.

Lemma pages_at : Forall page_at navigation_places.
Proof.
  assert (Hs : forall k i, (i <= 51)%nat -> forallb (skipped GET k) (take i (
     [get_ "#/" (show_overview oauth_enabled s); get_ "#/" (show_overview oauth_enabled s);
      path oauth_enabled "#/cluster-name" [(js "cluster_name", Path "/cluster-name")] "cluster-name";
      put_ "#/cluster-name" (change_cluster_name oauth_enabled form server);
      get_ "#/nodes/:name" (show_node oauth_enabled)] ++ vhost_routes oauth_enabled form server s ++
     drop 48 routes)) = true -> forallb (skipped GET k) (take i routes) = true).
  { intros k i Hi. unfold Routes.routes. rewrite Hvhosts. done. }
  unfold navigation_places. repeat constructor; unfold page_at; cbn [fst snd]; eexists;
    (split; [apply Hs; [lia | unfold Routes.routes; rewrite Hvhosts; by vm_compute]|]);
    (split; [unfold Routes.routes; rewrite Hvhosts; reflexivity|]);
    (split; [done|]); (split; [done|]); (split; [by vm_compute|]); (split; [by vm_compute|]);
    split; by_decide.
Qed.

(** No dead link in the navigation: every page below a tab, whatever the user
    may see of it, has a route of its own, which shows it. *)
Theorem navigation_has_routes k val href tag needs pre :
  (k, val) ∈ NAVIGATION -> page_in href tag needs val -> 35 ∉ pre ->
  exists r, r ∈ routes /\ r_verb r = GET /\ r_path r = href /\
    runRoute GET (pre ++ href) [] routes = Ok (Some (r_handler r [])).
Proof.
  intros Hin Hp Hpre. destruct (page_in_places _ _ _ _ _ Hin Hp) as (rest & -> & Hr).
  apply list_elem_of_fmap in Hr as ([rest' i] & -> & Hpl). cbn [fst].
  pose proof pages_at as Hall. rewrite Forall_forall in Hall.
  destruct (Hall _ Hpl) as (r & H1 & H2 & H3 & H4 & H5 & H6 & H7 & H8). exists r.
  split; [by eapply list_elem_of_lookup_2|]. split; [done|]. split; [done|].
  by apply (visit_page pre rest' i r).
Qed.
End Links.
