(* ===== verification/Session.v ===== *)
(** A session: the events of the page, the forms and the pages the user visits,
    and the change of the password; and what all handlers leave alone. *)
From S2P Require Import Prelude JsString JsNum Base64 Uri JsObject JsValue Columns Prefs PrefsFacts Requests ChartRanges Escape Format Links Access Forms World Pages Refresh Sync Password Router Routes RefreshFacts.

Section Session.
Context {J : Type} {CJ : CookieJar J} {CK : Clock} {RX : RegExpSyntax} {TP : Templates}.
Variable oauth_enabled : bool.
Variable form : form_state.
Variable server : jstr -> jstr -> option (obj value) -> response.
Variable s : session.
Notation W := (world J).
Notation H := (M W unit).

Inductive session_event :=
  | Page (e : event)
  | Visit (v : verb) (path : jstr) (params : obj value)
  | PasswordTimeout (i : nat)
  | PasswordAnswer (i : nat) (r : response).

(** A visit without a route is only logged. *)
Definition visit (v : verb) (path : jstr) (params : obj value) : H :=
  match runRoute v path params (routes oauth_enabled form server s) with
  | Ok (Some h) => h
  | Ok None => skip
  | Throw e => throw e
  end.

Definition handle_session (e : session_event) : H :=
  match e with
  | Page e => handle oauth_enabled e
  | Visit v path params => visit v path params
  | PasswordTimeout i => password_timeout i
  | PasswordAnswer i r => password_answer oauth_enabled i r
  end.

Definition session_step (w : W) (e : session_event) : W := (callback (handle_session e) w).2.
Definition session_run (w : W) (es : list session_event) : W := foldl session_step w es.

(** ** What the handlers of the page can change *)

Inductive page_timers : timers -> timers -> Prop :=
  | page_reset t : page_timers t (reset_timer_state t)
  | page_interval t i : page_timers t (mk_timers (next_timer t) (running t) (timer t) i (paused t))
  | page_clear t : page_timers t (clear_interval (timer t) t).

Inductive page_net : net -> net -> Prop :=
  | page_answered r n : page_net n (answered r n)
  | page_add c n : page_net n (add_request c n)
  | page_connected t n : page_net n (connected t n)
  | page_error t n : page_net n (set_page_error t n)
  | page_drop n : page_net n (drop_outstanding n).

(** A property of the state that none of these changes can break. *)
Record frame (I : W -> Prop) : Prop := {
  frame_prefs : forall w p, I w -> I (set_prefs p w);
  frame_query : forall w q, I w -> I (set_query q w);
  frame_view : forall w v, I w -> I (set_view v w);
  frame_document : forall w d, I w -> I (set_document d w);
  frame_log : forall w e, I w -> I (set_log (log w ++ [e]) w);
  frame_timers : forall w t, page_timers (timers_of w) t -> I w -> I (set_timers t w);
  frame_net : forall w n, page_net (net_of w) n -> I w -> I (set_net n w);
}.

Section Frame.
Context (I : W -> Prop) (HI : frame I).
Notation keeps_I m := (keeps_inv I m).

Lemma frame_on_prefs {A} (m : M (page J) A) : keeps_I (on_prefs m).
Proof. intros w Hw. unfold on_prefs. destruct (m (prefs w)). by apply HI. Qed.

Lemma frame_emit e : keeps_I (emit e).
Proof. intros w Hw. by apply (frame_log _ HI). Qed.

Lemma frame_on_view f : keeps_I (on_view f).
Proof. intros w Hw. by apply (frame_view _ HI). Qed.

Lemma frame_set_query f : keeps_I (modify (fun w => set_query (f w) w)).
Proof. intros w Hw. by apply (frame_query _ HI). Qed.

Lemma frame_on_timers f : (forall t, page_timers t (f t)) -> keeps_I (on_timers f).
Proof. intros Hf w Hw. by apply (frame_timers _ HI). Qed.

Lemma frame_on_net f : (forall n, page_net n (f n)) -> keeps_I (on_net f).
Proof. intros Hf w Hw. by apply (frame_net _ HI). Qed.

Lemma frame_set_timer_interval i : keeps_I (set_timer_interval i).
Proof.
  apply keeps_bind; [|intros _]; (apply frame_on_timers; intros t); [exact (page_interval t i) | apply page_reset].
Qed.

Hint Resolve frame_on_prefs frame_emit frame_on_view frame_set_query frame_set_timer_interval : keeps.
Hint Extern 2 (keeps_inv _ (on_timers _)) => (apply frame_on_timers; constructor) : keeps.
Hint Extern 2 (keeps_inv _ (on_net _)) => (apply frame_on_net; constructor) : keeps.
Hint Extern 2 (keeps_inv _ clear_timer) => (apply frame_on_timers; constructor) : keeps.
Hint Extern 2 (keeps_inv _ reset_timer) => (apply frame_on_timers; constructor) : keeps.

Lemma frame_update_status st : keeps_I (update_status st).
Proof. unfold update_status. keeps. Qed.
Hint Resolve frame_update_status : keeps.

Lemma frame_with_req method path c : keeps_I (with_req method path c).
Proof. unfold with_req. keeps. Qed.
Hint Resolve frame_with_req : keeps.

Lemma frame_full_refresh : keeps_I full_refresh.
Proof. unfold full_refresh. keeps. Qed.
Hint Resolve frame_full_refresh : keeps.

Lemma frame_maybe_scroll : keeps_I maybe_scroll.
Proof. unfold maybe_scroll. keeps. Qed.
Hint Resolve frame_maybe_scroll : keeps.

Lemma frame_finish k acc extra : keeps_I (finish k acc extra).
Proof. unfold finish. keeps. Qed.
Hint Resolve frame_finish : keeps.

Lemma frame_with_reqs reqs acc extra k : keeps_I (with_reqs reqs acc extra k).
Proof. unfold with_reqs. keeps. Qed.
Hint Resolve frame_with_reqs : keeps.

Lemma frame_run_cont c r : keeps_I (run_cont c r).
Proof. unfold run_cont. keeps. Qed.
Hint Resolve frame_run_cont : keeps.

Lemma frame_with_update k : keeps_I (with_update k).
Proof. unfold with_update. keeps. Qed.
Hint Resolve frame_with_update : keeps.

Lemma frame_update : keeps_I update.
Proof. unfold update. keeps. Qed.
Hint Resolve frame_update : keeps.

Lemma frame_partial_update : keeps_I partial_update.
Proof. unfold partial_update. keeps. Qed.
Hint Resolve frame_partial_update : keeps.

Lemma frame_check up full404 on404 url r :
  (forall t p, keeps_I (up t p)) -> keeps_I (check_bad_response oauth_enabled up full404 on404 url r).
Proof.
  intros Hup. unfold check_bad_response, client_error, page_out_of_range, initiate_logout. keeps.
Qed.

Lemma frame_ready up r resp :
  (forall t p, keeps_I (up t p)) -> keeps_I (ready_state_change oauth_enabled up r resp).
Proof.
  intros Hup. pose proof (fun f o u r => frame_check up f o u r Hup). unfold ready_state_change. keeps.
Qed.

Lemma frame_abort_all : keeps_I (abort_all oauth_enabled).
Proof.
  assert (Hr : forall r resp, keeps_I (ready_state_change oauth_enabled (fun _ _ => skip) r resp)).
  { intros r resp. apply frame_ready. intros _ _. apply keeps_skip. }
  assert (Ha : forall r, keeps_I (abort oauth_enabled r)) by (intros r; unfold abort; keeps).
  assert (Hl : forall n i, keeps_I (abort_loop oauth_enabled i n)).
  { induction n as [|n IH]; intros i; cbn [abort_loop]; keeps. }
  unfold abort_all. keeps.
Qed.
Hint Resolve frame_abort_all : keeps.

Lemma frame_render reqs template highlight : keeps_I (render oauth_enabled reqs template highlight).
Proof. unfold render. keeps. Qed.
Hint Resolve frame_render : keeps.

Lemma frame_url t d1 d2 : keeps_I (url_pagination_template (J := J) t d1 d2).
Proof. unfold url_pagination_template, url_pagination_template_context. keeps. Qed.
Hint Resolve frame_url : keeps.

Lemma frame_lists :
  keeps_I (renderQueues oauth_enabled) /\ keeps_I (renderUsers oauth_enabled) /\
  keeps_I (renderExchanges oauth_enabled) /\ keeps_I (renderConnections oauth_enabled) /\
  keeps_I (renderChannels oauth_enabled).
Proof.
  unfold renderQueues, renderUsers, renderExchanges, renderConnections, renderChannels.
  split_and!; keeps.
Qed.

Lemma frame_update_pages t p : keeps_I (update_pages oauth_enabled t p).
Proof.
  destruct frame_lists as (H1 & H2 & H3 & H4 & H5). unfold update_pages, stored_page_info. keeps.
Qed.
Hint Resolve frame_update_pages : keeps.

(** The events of the page, without pauses. *)
Definition no_pause (e : event) : Prop := e <> Pause /\ e <> Resume.

Lemma frame_handle e : no_pause e -> keeps_I (handle oauth_enabled e).
Proof.
  intros [Hp Hr]. pose proof (fun r resp => frame_ready _ r resp frame_update_pages).
  destruct e; cbn [handle]; try done;
    unfold onRefresh, on_sort, on_show_vhost, on_update_every; keeps.
  all: intros w Hw; first [by apply (frame_document _ HI) | by apply (frame_prefs _ HI) | by apply (frame_query _ HI)].
Qed.

(** *** Forms *)

Lemma frame_sync_req type params0 path_template headers :
  keeps_I (sync_req oauth_enabled form server type params0 path_template headers).
Proof.
  pose proof (fun f o u r => frame_check (update_pages oauth_enabled) f o u r frame_update_pages).
  unfold sync_req. keeps.
Qed.
Hint Resolve frame_sync_req : keeps.

Lemma frame_if_done m a : keeps_I m -> keeps_I a -> keeps_I (if_done m a).
Proof. intros Hm Ha. unfold if_done. keeps. Qed.

Lemma frame_get_json path : keeps_I (get_json oauth_enabled form server path).
Proof. unfold get_json, sync_get. keeps. Qed.
Hint Resolve frame_get_json : keeps.

Lemma frame_update_vhosts names : keeps_I (update_vhosts names).
Proof. unfold update_vhosts. keeps. Qed.
Hint Resolve frame_update_vhosts : keeps.

Lemma frame_publish params : keeps_I (publish_msg form params).
Proof.
  intros w Hw. unfold publish_msg.
  assert (Hk : keeps_I (try_publish form params)) by (unfold try_publish, publish_msg0; keeps).
  specialize (Hk w Hw). destruct (try_publish form params w) as [[[]|e] w']; [done | by apply frame_emit].
Qed.
Hint Resolve frame_publish : keeps.

Lemma frame_get_msgs params : keeps_I (get_msgs (J := J) params).
Proof. unfold get_msgs. keeps. Qed.
Hint Resolve frame_get_msgs : keeps.

(** *** The routes *)

Variable (Hpw : forall params, keeps_I (change_own_password oauth_enabled form params)).
Hint Resolve Hpw : keeps.

Definition handler_ok (r : route H) : Prop := forall params, keeps_I (r_handler r params).

Lemma frame_vhost_routes : Forall handler_ok (vhost_routes oauth_enabled form server s).
Proof.
  destruct (frame_lists) as (H1 & H2 & H3 & H4 & H5).
  unfold vhost_routes. repeat constructor; intros params; cbn [r_handler get_ put_ post_ del_ path];
    unfold show_connection, close_connection, show_channel, show_exchange, show_queue, delete_queue,
      show_vhost, show_user, add_user, modify_user, show_policy, put_limit, put_policy, sync_put_cast,
      sync_put, sync_delete, sync_post, if_done, title, go_to, esc_param; keeps.
Qed.

Lemma frame_routes : Forall handler_ok (routes oauth_enabled form server s).
Proof.
  unfold routes. repeat apply Forall_app_2.
  - repeat constructor; intros params; cbn [r_handler get_ put_ path];
      unfold show_overview, change_cluster_name, setup_global_vars_undefined, show_node, sync_put, if_done,
        title, esc_param; keeps.
  - destruct (canAccessVhosts _ _); [apply frame_vhost_routes | constructor].
  - repeat constructor; intros params; cbn [r_handler get_ put_ del_ path];
      unfold logout, go_to, update_rate_options, update_column_options, sync_put, sync_delete, if_done; keeps.
Qed.

Lemma frame_visit v p params : keeps_I (visit v p params).
Proof.
  unfold visit. destruct (runRoute v p params _) as [[h|]|e] eqn:Hr; [|keeps..].
  apply runRoute_in in Hr as (r & params' & Hin & ->).
  pose proof frame_routes as Hall. rewrite Forall_forall in Hall. by apply Hall.
Qed.

End Frame.

(** ** The change of the password *)

Definition pending (l : list change) : Z := Z.of_nat (length (filter (fun c => c_done c = false) l)).

Notation pending_changes w := (pending (changes (net_of w))).

(** Refreshes are paused by the changes that are not over, and by nothing else;
    requests are held back only while there is one. While a change begins, it
    is already counted [d] times. *)
Record paused_by (d : Z) (w : W) : Prop := {
  pw_paused :
    paused (timers_of w) = Count (pending_changes w + d) \/
    (paused (timers_of w) = Unset /\ changes (net_of w) = [] /\ d = 0);
  pw_flag : password_change_in_progress (net_of w) = true -> 0 < pending_changes w + d;
  pw_timers : timers_ok (timers_of w);
}.

Notation password_ok := (paused_by 0).

Lemma page_timers_paused t t' : page_timers t t' -> paused t' = paused t.
Proof.
  destruct 1; try done. unfold reset_timer_state. by destruct (timer t); cbn; destruct (timer_interval t).
Qed.

Lemma page_timers_ok t t' : page_timers t t' -> timers_ok t -> timers_ok t'.
Proof. destruct 1; auto using timers_ok_reset, timers_ok_fields, timers_ok_clear. Qed.

Lemma page_net_changes n n' :
  page_net n n' -> changes n' = changes n /\ password_change_in_progress n' = password_change_in_progress n.
Proof. by destruct 1. Qed.

Lemma paused_by_frame d : frame (paused_by d).
Proof.
  split; try by intros w x [H1 H2 H3].
  - intros w t Ht [H1 H2 H3]. split; cbn; [by rewrite (page_timers_paused _ _ Ht) | done | by eapply page_timers_ok].
  - intros w n Hn [H1 H2 H3]. destruct (page_net_changes _ _ Hn) as [Hc Hf].
    split; cbn; by rewrite ?Hc, ?Hf.
Qed.

Lemma pending_nonneg l : 0 <= pending l.
Proof. unfold pending. lia. Qed.

Lemma pending_app l c : pending (l ++ [c]) = pending l + (if c_done c then 0 else 1).
Proof.
  unfold pending. rewrite filter_app, length_app, filter_cons, filter_nil.
  destruct (c_done c); [rewrite decide_False by done | rewrite decide_True by done]; cbn; lia.
Qed.

(** The end of a change that is not over; other alterations leave the count. *)
Lemma pending_cons c l : pending (c :: l) = (if c_done c then 0 else 1) + pending l.
Proof.
  unfold pending. rewrite filter_cons.
  destruct (c_done c); [rewrite decide_False by done | rewrite decide_True by done]; cbn [length]; lia.
Qed.

Lemma pending_alter (f : change -> change) i l c :
  l !! i = Some c -> c_done c = false ->
  pending (alter f i l) = pending l - (if c_done (f c) then 1 else 0).
Proof.
  revert i. induction l as [|c' l IH]; intros [|i] Hi Hd; try done.
  - injection Hi as ->. change (alter f 0%nat (c :: l)) with (f c :: l). rewrite !pending_cons, Hd.
    destruct (c_done (f c)); lia.
  - change (alter f (S i) (c' :: l)) with (c' :: alter f i l). rewrite !pending_cons.
    rewrite (IH i Hi Hd). lia.
Qed.

(** The timeout of a change that is cleared does not count. *)
Lemma pending_clear_timeout i n : pending (changes (clear_timeout i n)) = pending (changes n).
Proof.
  cbn. generalize (changes n). clear n. intros l. revert i.
  induction l as [|c' l IH]; intros [|i]; [done..| |].
  - by rewrite (pending_cons c'), <- (pending_cons (mk_change (c_username c') (c_password c') (c_url c') (c_done c') false)).
  - specialize (IH i). by rewrite pending_cons, <- IH, <- pending_cons.
Qed.

(** *** It begins *)

Lemma abort_loop_ok n : forall i (w : W), exists w', abort_loop oauth_enabled i n w = (Ok tt, w').
Proof.
  induction n as [|n IH]; intros i w; cbn [abort_loop]; [by exists w|].
  unfold mbind, M_bind. cbn [gets].
  assert (Ha : exists w1, (match outstanding_reqs (net_of w) !! i with
    | Some r => abort oauth_enabled r | None => skip end) w = (Ok tt, w1)).
  { destruct (outstanding_reqs (net_of w) !! i) as [r|]; [|by exists w].
    unfold abort, mbind, M_bind. cbn [gets]. destruct (lookup_request r _); [|by exists w].
    cbn [emit modify]. unfold callback.
    by destruct (ready_state_change _ _ _ _ _) as [[[]|e] w1]; exists w1. }
  destruct Ha as [w1 ->]. apply IH.
Qed.

Lemma abort_all_ok (w : W) : exists w', abort_all oauth_enabled w = (Ok tt, w').
Proof.
  unfold abort_all, mbind, M_bind. cbn [gets].
  destruct (abort_loop_ok (length (outstanding_reqs (net_of w))) 0 w) as [w1 ->].
  cbn [on_net modify]. by eexists.
Qed.

Lemma keeps_begin params : keeps_inv password_ok (change_own_password oauth_enabled form params).
Proof.
  unfold change_own_password. do 2 (apply keeps_bind; [apply keeps_lift | intros ?]).
  intros w [H1 H2 H3]. unfold mbind at 1, M_bind at 1. cbn [on_net modify].
  unfold mbind at 1, M_bind at 1. cbn [pause_auto_refresh on_timers modify].
  set (w1 := set_timers _ _).
  assert (Hw1 : paused_by 1 w1).
  { pose proof (pending_nonneg (changes (net_of w))). destruct (timers_ok_pause _ H3) as [Hok _].
    assert (Hp : paused (pause_state (timers_of w)) =
      match paused (timers_of w) with Unset => Count 1 | Count n => Count (n + 1) | NotANumber => NotANumber end).
    { unfold pause_state. by destruct (timer (timers_of w)). }
    split; cbn.
    - left. rewrite Hp. destruct H1 as [-> | (-> & -> & _)]; [f_equal; lia | done].
    - lia.
    - exact Hok. }
  clearbody w1. unfold mbind at 1, M_bind at 1.
  destruct (abort_all_ok w1) as [w2 Ha].
  assert (Hw2 : paused_by 1 w2).
  { pose proof (frame_abort_all (paused_by 1) (paused_by_frame 1) w1 Hw1) as Hk. by rewrite Ha in Hk. }
  rewrite Ha. clear dependent w w1. unfold mbind at 1, M_bind at 1. cbn [on_net modify].
  match goal with |- context [add_change ?c _] => set (c0 := c) end.
  assert (Hw3 : password_ok (set_net (add_change c0 (net_of w2)) w2)).
  { destruct Hw2 as [H1 H2 H3]. pose proof (pending_nonneg (changes (net_of w2))).
    split; cbn; [|intros _; rewrite pending_app; cbn; lia | done].
    left. rewrite pending_app. cbn. destruct H1 as [-> | (_ & _ & ?)]; [f_equal; lia | lia]. }
  revert Hw3. generalize (set_net (add_change c0 (net_of w2)) w2). intros w3 Hw3.
  assert (Hk : keeps_inv password_ok (header ← on_prefs authorization_header;
    emit (PasswordSend ("api" ++ a0) (null_string header) a))); [|by apply Hk].
  apply keeps_bind; [by apply frame_on_prefs, paused_by_frame|].
  intros h. by apply frame_emit, paused_by_frame.
Qed.

(** *** It ends *)

Lemma keeps_clear_timeout i : keeps_inv password_ok (on_net (clear_timeout i)).
Proof.
  intros w [H1 H2 H3]. split; cbn [snd net_of timers_of set_net on_net modify]; rewrite ?pending_clear_timeout;
    [|exact H2 | done].
  destruct H1 as [H1|(H1 & Hc & ?)]; [by left | right]. split; [done|]. split; [|done].
  cbn. by rewrite Hc.
Qed.

Lemma resume_run t n :
  timers_ok t -> paused t = Count n ->
  paused (resume_state t) = Count (n - 1) /\
  (n = 1 -> running (resume_state t) =
    match timer_interval t with Some period => [(next_timer t, period)] | None => [] end).
Proof.
  intros Hok Hp. unfold resume_state. rewrite Hp.
  pose proof (timers_ok_fields t (timer_interval t) (Count (n - 1)) Hok) as Hok1.
  destruct (n - 1) eqn:En; try (split; [done | lia]).
  pose proof (page_timers_paused _ _ (page_reset (mk_timers (next_timer t) (running t) (timer t) (timer_interval t) (Count 0)))) as H1.
  split; [exact H1|]. intros _. by rewrite reset_running.
Qed.

(** What finish does to a change that is not over. *)
Lemma finish_run i c (w : W) :
  password_ok w -> changes (net_of w) !! i = Some c -> c_done c = false ->
  exists w', finish_change i w = (Ok tt, w') /\ password_ok w' /\
    password_change_in_progress (net_of w') = false /\
    pending_changes w' = pending_changes w - 1 /\
    prefs w' = prefs w /\ log w' = log w /\
    (pending_changes w = 1 -> paused (timers_of w') = Count 0 /\
      running (timers_of w') = match timer_interval (timers_of w) with
        Some period => [(next_timer (timers_of w), period)] | None => [] end).
Proof.
  intros [H1 H2 H3] Hi Hd.
  assert (Hpend : pending (changes (end_change i (net_of w))) = pending_changes w - 1).
  { cbn. by rewrite (pending_alter _ _ _ c). }
  assert (Hpos : 0 < pending_changes w).
  { pose proof (pending_nonneg (changes (end_change i (net_of w)))). lia. }
  destruct H1 as [H1|(_ & Hc & _)]; [|by rewrite Hc in Hi].
  rewrite Z.add_0_r in H1.
  eexists. split.
  { unfold finish_change, mbind, M_bind. cbn [gets]. rewrite Hi, Hd. cbn. reflexivity. }
  set (t1 := resume_state (timers_of w)).
  assert (Hp1 : paused t1 = Count (pending_changes w - 1) /\ timers_ok t1 /\
    (pending_changes w = 1 -> running t1 = match timer_interval (timers_of w) with
      Some period => [(next_timer (timers_of w), period)] | None => [] end)).
  { destruct (resume_run _ _ H3 H1) as [Hp Hr]. split_and!; [exact Hp | by apply timers_ok_resume | exact Hr]. }
  destruct Hp1 as (Hp1 & Ht1 & Hr1).
  split_and!; try done.
  - split; cbn [timers_of net_of set_timers set_net]; [left | done | done].
    change (paused t1 = Count (pending (changes (end_change i (net_of w))) + 0)). rewrite Hpend, Hp1. f_equal. lia.
  - intros Hone. split; [|by apply Hr1]. change (paused t1 = Count 0). rewrite Hp1, Hone. done.
Qed.

Lemma keeps_finish i : keeps_inv password_ok (finish_change i).
Proof.
  intros w Hw. unfold finish_change, mbind, M_bind. cbn [gets].
  destruct (changes (net_of w) !! i) as [c|] eqn:Hi; [|done].
  destruct (c_done c) eqn:Hd; [done|].
  destruct (finish_run i c w Hw Hi Hd) as (w' & Hrun & Hok & _).
  unfold finish_change, mbind, M_bind in Hrun. cbn [gets] in Hrun. rewrite Hi, Hd in Hrun.
  unfold mbind, M_bind. by rewrite Hrun.
Qed.

Lemma keeps_timeout i : keeps_inv password_ok (password_timeout i).
Proof.
  pose proof (keeps_clear_timeout i). pose proof (keeps_finish i).
  assert (He : forall e, keeps_inv password_ok (emit e)) by (intros e; apply frame_emit, paused_by_frame).
  unfold password_timeout. keeps.
Qed.

Lemma keeps_answer i r : keeps_inv password_ok (password_answer oauth_enabled i r).
Proof.
  pose proof (keeps_clear_timeout i). pose proof (keeps_finish i). pose proof (paused_by_frame 0) as Hf.
  pose proof (fun full on url => frame_check _ Hf (update_pages oauth_enabled) full on url r (frame_update_pages _ Hf)).
  pose proof (@frame_on_prefs _ Hf unit). pose proof (frame_emit _ Hf).
  unfold password_answer. keeps.
Qed.

(** The events of a session, without pauses of other origins. *)
Definition session_no_pause (e : session_event) : Prop :=
  match e with Page e => no_pause e | _ => True end.

Lemma keeps_session e : session_no_pause e -> keeps_inv password_ok (handle_session e).
Proof.
  pose proof (paused_by_frame 0) as Hf. destruct e; cbn [handle_session session_no_pause]; intros He.
  - by apply frame_handle.
  - apply frame_visit; [done | apply keeps_begin].
  - apply keeps_timeout.
  - apply keeps_answer.
Qed.

Lemma session_run_ok es : forall w, Forall session_no_pause es -> password_ok w -> password_ok (session_run w es).
Proof.
  induction es as [|e es IH]; intros w Hes Hw; [done|]. apply Forall_cons in Hes as [He Hes].
  apply IH; [done|]. by apply (keeps_callback password_ok _ (keeps_session e He)).
Qed.

(** The page before the first event of the session. *)
Definition session_opened (p : page J) (q : query_state) (r : chart_ranges) (d : dom) : W :=
  mk_world p q (mk_view None [] None 0) initial_timers (mk_net 0 [] [] None None false []) r d [].

Lemma session_opened_ok p q r d : password_ok (session_opened p q r d).
Proof.
  split; [by right | done | split; cbn; [by intros x ?%elem_of_nil | lia | done]].
Qed.

(** C6: refreshes are never left paused and requests never left blocked by a
    change of the password that is over: whatever pages the user visits, forms
    he sends, passwords he changes, and answers and timeouts come, the refreshes
    are paused once for each change that waits for its end, and when none does
    they are not paused and requests are sent again. At most one refresh timer
    runs all along. *)
Theorem password_change_releases p q r d es :
  Forall session_no_pause es ->
  let w := session_run (session_opened p q r d) es in
  (paused (timers_of w) = Count (pending_changes w) \/
    (paused (timers_of w) = Unset /\ changes (net_of w) = [])) /\
  (pending_changes w = 0 -> password_change_in_progress (net_of w) = false) /\
  (length (running (timers_of w)) <= 1)%nat.
Proof.
  intros Hes w. destruct (session_run_ok es _ Hes (session_opened_ok p q r d)) as [H1 H2 H3].
  fold w in H1, H2, H3. rewrite Z.add_0_r in H1, H2. split_and!.
  - destruct H1 as [H1|(H1 & Hc & _)]; [by left | by right].
  - intros H0. destruct (password_change_in_progress (net_of w)); [|done]. specialize (H2 eq_refl). lia.
  - by apply ok_single.
Qed.

Lemma clear_timeout_lookup i n c :
  changes n !! i = Some c ->
  changes (clear_timeout i n) !! i = Some (mk_change (c_username c) (c_password c) (c_url c) (c_done c) false).
Proof. intros Hi. unfold clear_timeout, set_changes. cbn [changes]. by rewrite list_lookup_alter_eq, Hi. Qed.

Lemma clear_finish_run i c (w : W) p :
  password_ok w -> changes (net_of w) !! i = Some c -> c_done c = false ->
  let w0 := set_prefs p (set_net (clear_timeout i (net_of w)) w) in
  exists w', finish_change i w0 = (Ok tt, w') /\
    password_change_in_progress (net_of w') = false /\
    pending_changes w' = pending_changes w - 1 /\ prefs w' = p /\ log w' = log w /\
    (pending_changes w = 1 -> paused (timers_of w') = Count 0 /\
      running (timers_of w') = match timer_interval (timers_of w) with
        Some period => [(next_timer (timers_of w), period)] | None => [] end).
Proof.
  intros Hw Hi Hd w0.
  assert (Hw0 : password_ok w0).
  { apply (frame_prefs _ (paused_by_frame 0)). by apply (keeps_clear_timeout i). }
  assert (Hp : pending_changes w0 = pending_changes w) by apply pending_clear_timeout.
  destruct (finish_run i _ w0 Hw0 (clear_timeout_lookup i _ c Hi) Hd)
    as (w' & Hr & _ & Hf & Hpe & Hpr & Hl & Hone).
  rewrite Hp in Hpe, Hone. exists w'. by split_and!.
Qed.


End Session.
