(* ===== verification/RefreshRuns.v ===== *)
(** Runs of the page: the invariant of every run, what a refresh asks and
    collects, and what stops the refreshes. *)
From S2P Require Import Prelude JsString JsNum Base64 Uri JsObject JsValue Columns Prefs PrefsFacts Requests ChartRanges Escape Format Links World Pages Refresh RefreshFacts.
From Stdlib Require Import Sorting.Sorted.

(** ** The enumeration order of a smaller object *)

Section Entries.
Context {A : Type}.
Implicit Types (o : obj A) (l : list (Z * (jstr * A))).

Notation sorted l := (StronglySorted Z.le l.*1).

Lemma insert_index_in n (kv : jstr * A) l m : m ∈ (insert_index n kv l).*1 -> m = n \/ m ∈ l.*1.
Proof.
  induction l as [|[n' kv'] l IH]; cbn; [intros [->|?]%elem_of_cons; auto|].
  destruct (n <=? n'); cbn; [by intros [->|?]%elem_of_cons; auto|].
  intros [->|Hm]%elem_of_cons; [right; left|]. destruct (IH Hm); [by left | right; by right].
Qed.

Lemma insert_index_sorted n (kv : jstr * A) l : sorted l -> sorted (insert_index n kv l).
Proof.
  induction l as [|[m kv'] l IH]; cbn; intros Hs; [by repeat constructor|].
  inversion Hs as [|? ? Hs' Hm]; subst. destruct (n <=? m) eqn:E; cbn.
  - constructor; [done|]. constructor; [lia|]. eapply Forall_impl; [exact Hm|]. cbn. lia.
  - constructor; [auto|]. apply Forall_forall. intros x Hx.
    rewrite Forall_forall in Hm. destruct (insert_index_in _ _ _ _ Hx) as [->|?]; [lia|auto].
Qed.

Lemma index_entries_sorted o : sorted (index_entries o).
Proof.
  induction o as [|kv o IH]; cbn; [constructor|].
  destruct (index_key kv.1); [by apply insert_index_sorted | done].
Qed.

Lemma insert_index_front n (kv : jstr * A) l :
  Forall (Z.le n) l.*1 -> insert_index n kv l = (n, kv) :: l.
Proof.
  destruct l as [|[m kv'] l]; [done|]. cbn. intros H. apply Forall_inv in H.
  by rewrite (proj2 (Z.leb_le _ _) H).
Qed.

Lemma insert_index_filter (P : jstr * A -> Prop) `{!forall x, Decision (P x)} n kv l :
  sorted l ->
  filter (fun x => P x.2) (insert_index n kv l) =
  if decide (P kv) then insert_index n kv (filter (fun x => P x.2) l) else filter (fun x => P x.2) l.
Proof.
  induction l as [|[m kv'] l IH]; cbn [insert_index]; intros Hs.
  - rewrite filter_cons, filter_nil. by repeat case_decide.
  - cbn in Hs. inversion Hs as [|? ? Hs' Hm]; subst. destruct (n <=? m) eqn:E.
    + rewrite filter_cons. cbn [snd]. case_decide; [|done]. symmetry. apply insert_index_front.
      apply Forall_forall. intros x (y & -> & [_ Hy]%list_elem_of_filter)%list_elem_of_fmap.
      apply elem_of_cons in Hy as [->|Hy]; cbn; [lia|]. rewrite Forall_forall in Hm.
      specialize (Hm y.1 ltac:(apply list_elem_of_fmap; by exists y)). lia.
    + rewrite !filter_cons. cbn [snd]. rewrite IH by done. repeat case_decide; cbn [insert_index]; by rewrite ?E.
Qed.

Lemma index_entries_filter (P : jstr * A -> Prop) `{!forall x, Decision (P x)} o :
  index_entries (filter P o) = filter (fun x => P x.2) (index_entries o).
Proof.
  induction o as [|kv o IH]; [done|]. rewrite filter_cons. cbn [index_entries foldr]. fold (index_entries o).
  destruct (decide (P kv)) as [Hp|Hp]; cbn [index_entries foldr]; fold (index_entries (filter P o)); destruct (index_key kv.1); rewrite ?IH; try done;
    rewrite insert_index_filter by apply index_entries_sorted; by case_decide.
Qed.

Lemma filter_snd (P : jstr * A -> Prop) `{!forall x, Decision (P x)} l :
  (filter (fun x => P x.2) l).*2 = filter P l.*2.
Proof. induction l as [|x l IH]; [done|]. rewrite fmap_cons, !filter_cons. case_decide; rewrite ?fmap_cons; by rewrite IH. Qed.

Lemma entries_filter (P : jstr * A -> Prop) `{!forall x, Decision (P x)} o :
  entries (filter P o) = filter P (entries o).
Proof.
  unfold entries. rewrite filter_app, index_entries_filter, filter_snd. f_equal.
  rewrite !list_filter_filter. apply list_filter_iff. naive_solver.
Qed.

Lemma filter_all (P : jstr * A -> Prop) `{!forall x, Decision (P x)} o : Forall P o -> filter P o = o.
Proof. induction 1 as [|x o Hx _ IH]; [done|]. by rewrite filter_cons_True, IH. Qed.

(** Without its first property, the others are enumerated as before. *)
Lemma entries_del_first o k v rest :
  NoDup (keys_of o) -> entries o = (k, v) :: rest -> entries (del o k) = rest.
Proof.
  intros Hd He. unfold del. rewrite entries_filter, He, filter_cons, decide_False by (cbn; tauto).
  apply NoDup_entries in Hd. unfold keys_of in Hd. rewrite He in Hd. cbn in Hd.
  apply NoDup_cons in Hd as [Hn _]. apply filter_all, Forall_forall.
  intros x Hx Hk. apply Hn. apply list_elem_of_fmap. by exists x.
Qed.

End Entries.

(** ** The invariant of every run *)

Section Runs.
Context {J : Type} {CJ : CookieJar J} {CK : Clock} {RX : RegExpSyntax} {TP : Templates}.
Variable oauth_enabled : bool.
Notation W := (world J).
Notation run := (run oauth_enabled).
Notation step := (step oauth_enabled).

(** The page as global.js and main.js leave it, before the first event. *)
Definition opened (p : page J) (q : query_state) (r : chart_ranges) (d : dom) : W :=
  mk_world p q (mk_view None [] None 0) initial_timers (mk_net 0 [] [] None None false []) r d [].

Lemma opened_ok p q r d : world_ok (opened p q r d).
Proof. split; split; cbn; try lia; try done; by intros x ?%elem_of_nil. Qed.


(** ** A refresh, from the first request to the last answer *)

Context {CL : CookieJarLaws J}.

(** The user is logged in, on a page without requests. *)
Record ready (w : W) : Prop := {
  ready_idle : idle w;
  ready_password : password_change_in_progress (net_of w) = false;
  ready_storage : is_Some (local_storage (prefs w));
  ready_auth : (has_auth_credentials None (prefs w)).1 = Ok true;
}.

(** The header of the requests of a user who is logged in. *)
Definition header_of (p : page J) : option jstr :=
  match local_storage p with
  | Some l => Some (null_string (l !! rabbit AUTH_SCHEME) ++ " " ++ null_string (l !! rabbit CREDENTIALS))
  | None => None
  end.

Lemma with_req_run method path c w :
  ready w ->
  with_req method path c w =
  (Ok tt, set_log (log w ++ [Send (next_req (net_of w)) method ("api" ++ path) (header_of (prefs w))
                               (current_vhost (query w))])
            (set_net (add_request (mk_pending c false ("api" ++ path)) (net_of w)) w)).
Proof.
  intros [_ Hp [l Hl] Ha]. unfold with_req, mbind, M_bind. cbn [gets]. rewrite Hp.
  unfold on_prefs at 1. rewrite (has_auth_run _ l) in Ha |- * by done. cbn [fst] in Ha.
  injection Ha as Ha. rewrite Ha. cbn [negb]. cbv beta iota. unfold on_prefs at 1.
  change (prefs (set_prefs (prefs w) w)) with (prefs w).
  rewrite (authorization_header_run _ l) by done. rewrite Ha. unfold header_of. by rewrite Hl.
Qed.

(** An answer with a good status and a JSON value. *)
Definition good (v : value) : response := mk_response 200 (Some v).

Definition answer (key : jstr) (v : value) (m : obj value * obj value) : obj value * obj value :=
  if starts_with key "extra_" then (m.1, put m.2 key v) else (put m.1 key v, m.2).

Definition after_request (w : W) (c : cont) (method path : jstr) : W :=
  set_log (log w ++ [Send (next_req (net_of w)) method ("api" ++ path) (header_of (prefs w))
                       (current_vhost (query w))])
    (set_net (add_request (mk_pending c false ("api" ++ path)) (net_of w)) w).

(** The state in which the next request is sent. *)
Definition between (w : W) (c : cont) (method path : jstr) : W :=
  let w' := after_request w c method path in
  let n := answered (next_req (net_of w)) (net_of w') in
  set_net (connected (now (prefs w)) n) w'.

Lemma idle_no_request (w : W) : idle w -> in_flight (net_of w) = [].
Proof.
  intros [[_ Hn] Ho]. destruct (net_ok_cases _ Hn) as [[H _]|(r & c & _ & H)]; [done|].
  by rewrite Ho in H.
Qed.

(** The answer to a request in flight is removed, and the request goes on. *)
Lemma answer_run w c method path v :
  ready w ->
  step (after_request w c method path) (Response (next_req (net_of w)) (good v)) =
  (callback (run_cont c (good v)) (between w c method path)).2.
Proof.
  intros [Hi Hp Hs Ha]. unfold Refresh.step. cbn [handle]. f_equal. unfold callback.
  assert (Hr : ready_state_change oauth_enabled (update_pages oauth_enabled) (next_req (net_of w)) (good v)
    (after_request w c method path) = run_cont c (good v) (between w c method path)); [|by rewrite Hr].
  unfold ready_state_change, mbind, M_bind. cbn [gets].
  assert (Hl : lookup_request (next_req (net_of w)) (in_flight (net_of (after_request w c method path)))
    = Some (mk_pending c false ("api" ++ path))).
  { cbn. rewrite (idle_no_request w Hi). cbn. by rewrite decide_True. }
  rewrite Hl. cbn [on_net modify]. by rewrite check_success.
Qed.

Lemma between_ready w c method path : ready w -> ready (between w c method path).
Proof.
  intros [Hi Hp Hs Ha]. split; [|done..].
  pose proof (idle_no_request w Hi) as Hf. destruct Hi as [[Ht Hn] Ho].
  pose proof (net_ok_add (mk_pending c false ("api" ++ path)) _ Hn Ho) as Hn1.
  destruct (net_ok_answered (next_req (net_of w)) _ Hn1) as [[H1 H2 H3] H4].
  { cbn. rewrite Hf. cbn. by rewrite decide_True. }
  split; [|exact H4]. split; [done|]. by split.
Qed.

(** The requests of a page in the order of its keys, numbered from [n]. *)
Fixpoint sends (n : nat) (header : option jstr) (vhost : jstr) (order : obj jstr) : list effect :=
  match order with
  | [] => []
  | (_, path) :: order => Send n "GET" ("api" ++ path) header vhost :: sends (S n) header vhost order
  end.

Fixpoint answers (n : nat) (f : jstr -> value) (order : obj jstr) : list event :=
  match order with
  | [] => []
  | (key, _) :: order => Response n (good (f key)) :: answers (S n) f order
  end.

(** What a page collects: the model of its template, and the part of the
    extensions. *)
Definition collect (f : jstr -> value) (order : obj jstr) (m : obj value * obj value) :=
  foldl (fun m kp => answer kp.1 (f kp.1) m) m order.

Lemma with_reqs_run f order : forall reqs m k w,
  NoDup (keys_of reqs) -> entries reqs = order -> ready w ->
  exists w', ready w' /\
    run (callback (with_reqs reqs m.1 m.2 k) w).2 (answers (next_req (net_of w)) f order) =
      (callback (finish k (collect f order m).1 (collect f order m).2) w').2 /\
    log w' = log w ++ sends (next_req (net_of w)) (header_of (prefs w)) (current_vhost (query w)) order /\
    prefs w' = prefs w /\ query w' = query w /\ view_of w' = view_of w /\ timers_of w' = timers_of w /\
    document w' = document w.
Proof.
  induction order as [|[key path] order IH]; intros reqs m k w Hd He Hw.
  - exists w. unfold with_reqs. rewrite He. cbn. by rewrite app_nil_r.
  - set (c := NextReq key reqs m.1 m.2 k). set (w1 := between w c "GET" path).
    assert (Hw1 : ready w1) by by apply between_ready.
    assert (Hn1 : next_req (net_of w1) = S (next_req (net_of w))) by done.
    destruct (IH (del reqs key) (answer key (f key) m) k w1) as (w' & H1 & H2 & H3 & H4);
      [by apply NoDup_del | by eapply entries_del_first | done |].
    exists w'. split; [done|]. split; [|split; [|done]].
    + assert (Hsend : (callback (with_reqs reqs m.1 m.2 k) w).2 = after_request w c "GET" path).
      { unfold callback, with_reqs. by rewrite He, with_req_run. }
      rewrite Hsend. cbn [answers]. unfold Refresh.run in H2 |- *. cbn [foldl]. rewrite answer_run by done.
      change (collect f ((key, path) :: order) m) with (collect f order (answer key (f key) m)).
      rewrite <- H2, Hn1. f_equal. fold w1.
      assert (Hc : callback (run_cont c (good (f key))) w1 =
        callback (with_reqs (del reqs key) (answer key (f key) m).1 (answer key (f key) m).2 k) w1); [|by rewrite Hc].
      unfold callback, run_cont, c, good, answer. cbn [body]. by destruct (starts_with key "extra_").
    + rewrite H3, Hn1. cbn. by rewrite <- app_assoc.
Qed.

Lemma apply_loop_NoDup st range reqs : forall prefix acc reqs2,
  NoDup (keys_of acc) -> apply_loop st range prefix reqs acc = Ok reqs2 -> NoDup (keys_of reqs2).
Proof.
  induction reqs as [|[k r] reqs IH]; intros prefix acc reqs2 Hd; cbn; [by intros [= <-]|].
  intros (u & _ & Hu)%res_bind_ok. eapply IH; [|exact Hu]. by apply NoDup_put.
Qed.

Lemma get_position_run (w : W) l :
  local_storage (prefs w) = Some l ->
  on_prefs (get_pref "position") w = (Ok (l !! rabbit "position"), w).
Proof.
  intros Hl. unfold on_prefs. rewrite (get_pref_local _ l) by done.
  assert (Hd : default_pref (COLUMNS (prefs w)) "position" = Ok None) by done.
  destruct w as [p ? ? ? ? ? ? ?]. by destruct (l !! rabbit "position"); rewrite ?Hd.
Qed.

Lemma maybe_scroll_run (w : W) :
  is_Some (local_storage (prefs w)) ->
  exists p tail, maybe_scroll w = (Ok tt, set_log (log w ++ tail) (set_prefs p w)).
Proof.
  intros [l Hl]. unfold maybe_scroll, mbind at 1, M_bind at 1. rewrite (get_position_run w l) by done.
  destruct (l !! rabbit "position") as [[|c s]|];
    try (exists (prefs w), []; rewrite app_nil_r; by destruct w).
  eexists _, _. unfold mbind, M_bind, on_prefs, clear_pref, clear_local_pref.
  rewrite Hl. cbv beta iota. reflexivity.
Qed.

Lemma update_status_ok (w : W) : update_status "ok" w = (Ok tt, set_log (log w ++ [Status "ok"]) w).
Proof. reflexivity. Qed.

(** There is no date to show until a request succeeded. *)
Lemma update_status_error (w : W) :
  update_status "error" w =
  match last_successful_connect (net_of w) with
  | None => (Throw TypeError, w)
  | Some _ => (Ok tt, set_log (log w ++ [Status "error"]) w)
  end.
Proof.
  unfold update_status. rewrite decide_False, decide_True by done. unfold mbind, M_bind. cbn [gets].
  by destruct (last_successful_connect (net_of w)).
Qed.

(** The end of an update: the page is rendered, and the timer set again. *)
Lemma finish_update_run (w : W) acc extra :
  ready w ->
  exists w' tail, (callback (finish AfterUpdate acc extra) w).2 = w' /\
    log w' = log w ++ Rendered AfterUpdate (current_template (view_of w)) acc extra :: tail /\
    net_of w' = net_of w /\ timers_ok (timers_of w') /\
    running (timers_of w') =
      match timer_interval (timers_of w) with Some period => [(next_timer (timers_of w), period)] | None => [] end.
Proof.
  intros [[[Ht Hn] Hi] Hp Hs _]. unfold callback, finish. unfold mbind at 1, M_bind at 1. cbn [gets].
  set (t1 := if negb (renders (default (js "undefined") (current_template (view_of w))) acc extra)
             then clear_interval (timer (timers_of w)) (timers_of w) else timers_of w).
  assert (Hwhen : when (negb (renders (default (js "undefined") (current_template (view_of w))) acc extra))
    clear_timer w = (Ok tt, set_timers t1 w)).
  { subst t1. destruct (negb _); [done|]. by destruct w. }
  unfold mbind at 1, M_bind at 1. rewrite Hwhen.
  assert (Ht1 : timers_ok t1 /\ timer_interval t1 = timer_interval (timers_of w) /\
    next_timer t1 = next_timer (timers_of w)).
  { subst t1. destruct (negb _); split_and!; try done. by apply timers_ok_clear. }
  clearbody t1. destruct Ht1 as (Ht1 & Hti & Hnt). unfold mbind, M_bind. cbn [emit modify].
  match goal with |- context [maybe_scroll ?w1] => destruct (maybe_scroll_run w1) as (p & tail & ->); [done|] end.
  unfold reset_timer, on_timers. cbn [modify]. rewrite update_status_ok.
  eexists _, (tail ++ [Status "ok"]). split; [reflexivity|].
  cbn [snd log net_of timers_of set_log set_timers set_prefs].
  split_and!; [by rewrite <- !app_assoc | done | by apply timers_ok_reset |].
  rewrite reset_running, Hti, Hnt by done. done.
Qed.




End Runs.

(** ** A page with its browser *)

Module Page.
Export Browser.

#[global] Instance any_regexp : RegExpSyntax := { is_valid_regexp := fun _ => true }.
#[global] Instance all_render : Templates := { renders := fun _ _ _ => true }.

Definition no_fields : dom := mk_dom false true false 0 0 (fun _ => VUndef) (fun _ => false).

(** A user who is logged in opens the overview, refreshed every five seconds. *)
Definition logged_page : page cookies := at_time 6000 (set_basic_auth "guest" "guest" (mk_page (Some ∅) [] 5000 None)).2.

Definition overview : obj req := [(js "overview", Path "/overview"); (js "nodes", Path "/nodes")].

Definition start : world cookies :=
  opened logged_page (mk_query [] None false) CHART_RANGES no_fields.

Definition world0 : world cookies :=
  run false (set_timers (reset_timer_state (mk_timers 1 [] None (Some 5000) Unset)) start)
    [Open overview "overview" "#/";
     Response 0 (good (VObj [])); Response 1 (good (VArr []))].

Definition sent (w : world cookies) : list jstr :=
  omap (fun e => match e with Send _ _ path _ _ => Some path | _ => None end) (log w).

End Page.
Import Page.

Example world0_sends : sent world0 = [js "api/overview"; js "api/nodes"].
Proof. by vm_compute. Qed.

Example world0_timer : running (timers_of world0) = [(2%nat, 5000)].
Proof. by vm_compute. Qed.

Lemma world0_ok : world_ok world0.
Proof.
  apply run_ok. split; [|apply opened_ok].
  apply timers_ok_reset. split; cbn; [by intros r ?%elem_of_nil | lia | done].
Qed.

Lemma ready_world0 : ready world0.
Proof.
  split; [split; [exact world0_ok | by vm_compute] | by vm_compute | by_decide | by vm_compute].
Qed.




(** ** What stops the refreshes *)

(** A user who sorts a list while a refresh is on its way: the timer is cleared,
    the sorted list is not asked for, and the answers to the refresh do not set
    the timer again. The page stops refreshing. *)
Lemma update_lost_while_refreshing :
  let w := run false world0 [Tick 2; Sort "name"; Response 2 (good (VObj [])); Response 3 (good (VArr []))] in
  idle w /\ running (timers_of w) = [] /\
  sent w = sent world0 ++ [js "api/overview"; js "api/nodes"] /\
  timer_interval (timers_of w) = Some 5000.
Proof.
  cbv zeta. split_and!; [|by vm_compute..]. split; [apply run_ok, world0_ok | by vm_compute].
Qed.

(** An update that cannot reach the server announces a retry, with no timer
    left to do it. *)
Lemma failed_update_not_retried :
  let w := run false world0 [Sort "name"; Response 2 (mk_response 0 None)] in
  last (log w) = Some (Status "error") /\ running (timers_of w) = [] /\ outstanding_reqs (net_of w) = [].
Proof. by vm_compute. Qed.

(** An update sets the timer again while the refreshes are paused. *)
Lemma update_ends_pause :
  let w := run false world0 [Pause; Sort "name"; Response 2 (good (VObj [])); Response 3 (good (VArr []))] in
  paused (timers_of w) = Count 1 /\ running (timers_of w) = [(3%nat, 5000)].
Proof. by vm_compute. Qed.

(** A request that times out throws. *)
Lemma timeout_throws up w :
  password_change_in_progress (net_of w) = false ->
  check_bad_response false up true false "api/nodes" (mk_response 408 None) w =
  (Throw (Thrown (js "Unknown status timeout")), w : world cookies).
Proof. intros Hp. unfold check_bad_response, mbind, M_bind. cbn [gets]. rewrite Hp. reflexivity. Qed.

(** The end of a session on the server leaves the credentials of the user. *)
Lemma initiate_logout_keeps_credentials :
  let w := (initiate_logout (VStr "expired") start).2 in
  (has_auth_credentials None (prefs w)).1 = Ok true.
Proof. by vm_compute. Qed.
