(* ===== verification/Examples.v ===== *)
(** Concrete pages: witnesses of the theorems about lists and ranges, and the
    behaviours of lists that their users may not expect. *)
From S2P Require Import Prelude JsString JsNum Base64 Uri JsObject JsValue Columns Prefs PrefsFacts Requests ChartRanges Escape Format Links World Access Forms Pages Refresh Sync Password Router Routes RefreshFacts RouteFacts Session RefreshRuns.
Import RefreshRuns.Page.

(** A range that the server does not keep is replaced by the last one it keeps. *)
Lemma ensure_queues_chart_range_valid_witness :
  let p := mk_page (Some {[rabbit "chart-range" := js "86400|1800"]}) [] 5000 None : page cookies in
  let r := setup_chart_ranges None (Some [600; 3600]) CHART_RANGES in
  exists p' v d, ensure_queues_chart_range r p = (Ok tt, p') /\
    (get_pref "chart-range" p').1 = Ok (Some v) /\ (v, d) ∈ basic r.
Proof.
  intros p r.
  destruct (ensure_queues_chart_range_valid p _ None [600; 3600] CHART_RANGES eq_refl)
    as (p' & v & d & H1 & H2 & H3 & _).
  exists p', v, d. by split_and!.
Defined.

(** Five hundred are asked for when more are wanted. *)
Definition large_page : world cookies :=
  set_document (mk_dom false true false 0 0
    (fun f => if decide (f = js "queues-pagesize") then VStr (js "900")
              else if decide (f = js "queues-name") then VStr (js "a&b") else VUndef)
    (fun _ => false)) start.

Lemma url_asks_for_fields_witness :
  exists w', stored_page_info "queues" (VInt 2) large_page = (Ok tt, w') /\
    (url_pagination_template "queues" (VInt 1) (VInt 100) w').1 =
    Ok (js "/queues?page=2&page_size=500&name=a&amp;b&use_regex=false").
Proof.
  set (l := default ∅ (local_storage (prefs large_page))).
  assert (El : local_storage (prefs large_page) = Some l) by by_decide.
  destruct (url_asks_for_fields large_page l "queues" (VInt 2) El eq_refl) as (w' & H1 & H2).
  exists w'. split; [exact H1|]. rewrite H2. by vm_compute.
Defined.

(** ** Visits *)

(** Lower case of ASCII text. *)
#[global] Instance ascii_lower : LowerCase := { to_lower := map lower_ascii }.

Definition no_filter : globals := mk_globals [] None false false [] None false.

(** An administrator of one virtual host. *)
Definition admin : session :=
  mk_session (VStr (js "guest")) true (ac_update [js "administrator"] new_access)
    (mk_ui_data [js "/"] []) false [].

Definition plain_form : form_state := mk_form "default" [].

(** A server that accepts everything. *)
Definition accepting (method path : jstr) (body : option (obj value)) : response :=
  mk_response 204 (Some (VObj [])).

(** A queue whose name is an address of its own. *)
Lemma links_open_pages_witness :
  exists url rest,
    object_link no_filter (OQueue "/" "a/b?c#d+ e") = Ok ("<a href=`" ++ url ++ "`" ++ rest) /\
    runRoute GET ("/" ++ url) [] (routes (J := cookies) false plain_form accepting admin) =
    Ok (Some (show_queue false admin [(js "vhost", VStr (js "/")); (js "name", VStr (js "a/b?c#d+ e"))])).
Proof.
  destruct (object_link no_filter (OQueue "/" "a/b?c#d+ e")) as [html|e] eqn:El; [|by vm_compute in El].
  assert (Hpre : 35 ∉ js "/") by by_decide.
  assert (Ho : object_ok (OQueue "/" "a/b?c#d+ e")) by (split; (split; [by_decide | done])).
  destruct (links_open_pages (J := cookies) false plain_form accepting admin no_filter eq_refl
    (OQueue "/" "a/b?c#d+ e") (js "/") html Hpre Ho El) as (url & rest & -> & Hr).
  exists url, rest. split; [done | exact Hr].
Defined.

Lemma navigation_has_routes_witness :
  exists r, r ∈ routes (J := cookies) false plain_form accepting admin /\ r_path r = js "#/policies" /\
    runRoute GET (js "/" ++ js "#/policies") [] (routes false plain_form accepting admin) =
    Ok (Some (r_handler r [])).
Proof.
  assert (Hpre : 35 ∉ js "/") by by_decide.
  destruct (navigation_has_routes (J := cookies) false plain_form accepting admin eq_refl
    (js "Admin") (default (Access.Page [] [] None) (snd <$> last NAVIGATION)) (js "#/policies") (js "management") None (js "/"))
    as (r & H1 & _ & H2 & H3); [right; right; right; right; right; left | | done |].
  - eapply page_below; [|apply page_here]. right. right. right. right. left.
  - by exists r.
Defined.

(** ** Changes of the password *)

Definition new_password (confirm : string) : obj value :=
  [(js "username", VStr (js "guest")); (js "password", VStr (js "secret"));
   (js "password_confirm", VStr (js confirm))].

Definition change_events : list session_event :=
  [Session.Page (Interval "5000");
   Visit PUT "#/users-modify" (new_password "secret");
   Session.Page (Sort "name");
   PasswordTimeout 0].

Lemma password_change_releases_witness :
  let w := session_run false plain_form accepting admin (session_opened logged_page (mk_query [] None false) CHART_RANGES no_fields)
    change_events in
  password_change_in_progress (net_of w) = false /\ paused (timers_of w) = Count 0.
Proof.
  cbv zeta.
  destruct (password_change_releases false plain_form accepting admin logged_page (mk_query [] None false)
    CHART_RANGES no_fields change_events) as (_ & H & _); [by repeat constructor|].
  split; [apply H; by vm_compute | by vm_compute].
Defined.

Definition changing : world cookies :=
  session_run false plain_form accepting admin (session_opened logged_page (mk_query [] None false) CHART_RANGES no_fields)
    [Session.Page (Interval "5000"); Visit PUT "#/users-modify" (new_password "secret")].

Lemma changing_paused : password_change_in_progress (net_of changing) = true /\ running (timers_of changing) = [].
Proof. by vm_compute. Qed.


(** A wrong confirmation of the user's own new password is not reported: what is
    thrown before the request only reaches the log. *)
Lemma own_password_mismatch_silent :
  let run params := session_step false plain_form accepting admin start (Visit PUT "#/users-modify" params) in
  log (run (new_password "other")) = [] /\
  log (run (put (new_password "other") "username" (VStr (js "other")))) =
    [Popup "warn" (VStr (js "Passwords do not match."))].
Proof. by vm_compute. Qed.

(** The name of the cluster is changed, then the globals are set up again without
    their argument: the page is not updated. *)
Lemma cluster_name_change_throws :
  (change_cluster_name false plain_form accepting [(js "name", VStr (js "rabbit@a"))] start).1 = Throw TypeError.
Proof. by vm_compute. Qed.
