(* ===== verification/Submissions.v ===== *)
(** From the address and the forms of the page to the requests of its handlers:
    the application of Sammy (Navigation) and the session (Session) as one
    machine, and what the submission of a form sends. *)
From S2P Require Import Prelude JsString JsNum Base64 Uri JsObject JsValue Columns Prefs PrefsFacts Requests ChartRanges Escape Format Links Access Forms World Pages Refresh Sync Password Router QueueTypes Multifields FormRows Navigation FormPage FormEntries Routes RefreshFacts RouteFacts Session RefreshRuns Examples.

(** ** Questions before a form is sent (main.js: postprocess) *)

(** The classes of forms that ask, each with its question. *)
Definition confirmations : list (jstr * jstr) :=
  [(js "confirm-queue", js "Are you sure? The queue is going to be deleted. Messages cannot be recovered after deletion.");
   (js "confirm-purge-queue", js "Are you sure? Messages cannot be recovered after purging.");
   (js "confirm", js "Are you sure? This object cannot be recovered after deletion.")].

Definition questions (classes : list jstr) : list jstr :=
  (filter (fun c => c.1 ∈ classes) confirmations).*2.

(** ** The whole page *)

Section Submissions.
Context {J : Type} {CJ : CookieJar J} {CK : Clock} {RX : RegExpSyntax} {TP : Templates} {LC : LowerCase}.
Variable oauth_enabled : bool.
Variable form : form_state.
Variable server : jstr -> jstr -> option (obj value) -> response.
Variable s : session.
(** The browser. *)
Variable has_history : bool.
Variable win : window.
Variable resolve : location -> jstr -> location.
Notation W := (world J).
Notation H := (M W unit).
Notation routes := (Routes.routes (J := J) oauth_enabled form server s).
Notation sync_req := (sync_req oauth_enabled form server).

Definition has_route (path : jstr) : bool := bool_decide (is_Some (lookupRoute GET path routes)).

(** runRoute of the application. *)
Definition do_run (w : W) (r : run) : W :=
  match r with
  | FromAddress path => session_step oauth_enabled form server s w (Visit GET path [])
  | FromForm (Some v) path params => session_step oauth_enabled form server s w (Visit v path params)
  | FromForm None _ _ => w
  end.

(** A form is submitted: its own handlers first, which may keep the event from
    the application. *)
Inductive browse_event :=
  | Browser (e : nav_event)
  | Activity (e : session_event)
  | FormSubmitted (classes : list jstr) (answer : jstr -> bool) (f : form_element).

Definition navigate (n : nav) (w : W) (e : nav_event) : nav * W :=
  let '(n, runs) := nav_step has_history win resolve has_route n e in (n, foldl do_run w runs).

Definition own_handlers (classes : list jstr) (w : W) : W :=
  if decide (js "enable-feature-flag" ∈ classes) then (callback full_refresh w).2 else w.

Definition browse_step (x : nav * W) (e : browse_event) : nav * W :=
  match e with
  | Browser e => navigate x.1 x.2 e
  | Activity e => (x.1, session_step oauth_enabled form server s x.2 e)
  | FormSubmitted classes answer f =>
      let w := own_handlers classes x.2 in
      if forallb answer (questions classes) then navigate x.1 w (Submit f) else (x.1, w)
  end.

Definition browse_run (x : nav * W) (es : list browse_event) : nav * W := foldl browse_step x es.

(** What holds of sessions holds while the user browses: the application only adds
    visits. *)
Definition browse_no_pause (e : browse_event) : Prop :=
  match e with Activity e => session_no_pause e | _ => True end.

Lemma do_run_ok w r : paused_by 0 w -> paused_by 0 (do_run w r).
Proof.
  intros Hw. destruct r as [path|[v|] path params]; cbn [do_run]; [| |done];
    by apply (session_run_ok oauth_enabled form server s [Visit _ _ _]); [repeat constructor|].
Qed.

Lemma navigate_ok n w e : paused_by 0 w -> paused_by 0 (navigate n w e).2.
Proof.
  intros Hw. unfold navigate. destruct (nav_step _ _ _ _ n e) as [n' runs]. cbn [snd].
  revert w Hw. induction runs as [|r runs IH]; intros w Hw; [done|]. by apply IH, do_run_ok.
Qed.

Lemma browse_run_ok es : forall x, Forall browse_no_pause es -> paused_by 0 x.2 -> paused_by 0 (browse_run x es).2.
Proof.
  induction es as [|e es IH]; intros x Hes Hx; [done|]. apply Forall_cons in Hes as [He Hes].
  apply IH; [done|]. destruct e as [e|e|classes answer f]; cbn [browse_step].
  - by apply navigate_ok.
  - by apply (session_run_ok oauth_enabled form server s [e]); [repeat constructor|].
  - assert (Hw : paused_by 0 (own_handlers classes x.2)).
    { unfold own_handlers. case_decide; [|done]. apply keeps_callback, Hx. apply frame_full_refresh, paused_by_frame. }
    destruct (forallb _ _); [by apply navigate_ok|done].
Qed.

(** ** The forms that send one request *)

(** The verb and the action of the form, and the place of its route; when its
    handler sends the request, what it makes of the parameters first, and the
    method, the template of the path and the headers of the request. *)
Record form_entry := mk_form_entry {
  fe_verb : verb;
  fe_action : jstr;
  fe_place : nat;
  fe_applies : obj value -> bool;
  fe_params : obj value -> res (obj value);
  fe_method : jstr;
  fe_template : jstr;
  fe_headers : obj value -> obj value;
}.

Definition method_name (v : verb) : jstr :=
  match v with GET => js "GET" | PUT => js "PUT" | POST => js "POST" | DELETE => js "DELETE" end.
Definition verb_name (v : verb) : jstr :=
  match v with GET => js "get" | PUT => js "put" | POST => js "post" | DELETE => js "delete" end.

(** The parameters of the form as they are. *)
Definition as_sent (v : verb) (action : jstr) (place : nat) (template : jstr) : form_entry :=
  mk_form_entry v action place (fun _ => true) Ok (method_name v) template (fun _ => []).

(** The own password is changed in another way. *)
Definition others_password (params : obj value) : bool :=
  let password := prop params "password" in
  negb (negb (nullish password) && negb (eq_empty password) && loose_eq (prop params "username") (user_name s)).

Definition mode_is (m : jstr) (params : obj value) : bool := loose_eq (prop params "mode") (VStr m).

(** A limit that is a number. *)
Definition limit_form (action : jstr) (place : nat) (template : jstr) : form_entry :=
  mk_form_entry PUT action place (fun params => match int_value (prop params "value") with VNaN => false | _ => true end)
    (fun params => Ok (put params "value" (int_value (prop params "value")))) "PUT" template (fun _ => []).

Definition policy_params (params : obj value) : res (obj value) :=
  put_cast_params [js "name"; js "pattern"; js "policy"] [js "priority"] [] params.

Definition form_table : list form_entry :=
  [as_sent PUT "/queues" 17 "/queues/:vhost/:name";
   mk_form_entry DELETE "/queues" 18 (mode_is "delete") Ok "DELETE" "/queues/:vhost/:name" (fun _ => []);
   mk_form_entry DELETE "/queues" 18 (fun ps => negb (mode_is "delete" ps) && mode_is "purge" ps) Ok
     "DELETE" "/queues/:vhost/:name/contents" (fun _ => []);
   as_sent POST "/queues/actions" 20 "/queues/:vhost/:name/actions";
   as_sent PUT "/exchanges" 12 "/exchanges/:vhost/:name";
   as_sent DELETE "/exchanges" 13 "/exchanges/:vhost/:name";
   as_sent POST "/bindings" 21 "/bindings/:vhost/e/:source/:destination_type/:destination";
   as_sent DELETE "/bindings" 22 "/bindings/:vhost/e/:source/:destination_type/:destination/:properties_key";
   mk_form_entry DELETE "/connections" 7 (fun _ => true) Ok "DELETE" "/connections/:name"
     (fun ps => [(js "X-Reason", prop ps "reason")]);
   as_sent PUT "/vhosts" 25 "/vhosts/:name";
   as_sent DELETE "/vhosts" 26 "/vhosts/:name";
   as_sent POST "/restart_vhost" 45 "/vhosts/:vhost/start/:node";
   as_sent PUT "/users-add" 29 "/users/:username";
   mk_form_entry PUT "/users-modify" 30 others_password Ok "PUT" "/users/:username" (fun _ => []);
   as_sent DELETE "/users" 31 "/users/:username";
   as_sent PUT "/permissions" 32 "/permissions/:vhost/:username";
   as_sent DELETE "/permissions" 33 "/permissions/:vhost/:username";
   as_sent PUT "/topic-permissions" 34 "/topic-permissions/:vhost/:username";
   as_sent DELETE "/topic-permissions" 35 "/topic-permissions/:vhost/:username/:exchange";
   mk_form_entry PUT "/policies" 38 (fun _ => true) policy_params "PUT" "/policies/:vhost/:name" (fun _ => []);
   as_sent DELETE "/policies" 39 "/policies/:vhost/:name";
   mk_form_entry PUT "/operator_policies" 40 (fun _ => true)
     (fun ps => policy_params (rename_multifield ps "definitionop" "definition"))
     "PUT" "/operator-policies/:vhost/:name" (fun _ => []);
   as_sent DELETE "/operator_policies" 41 "/operator-policies/:vhost/:name";
   limit_form "/limits" 43 "/vhost-limits/:vhost/:name";
   limit_form "/user-limits" 44 "/user-limits/:user/:name";
   as_sent DELETE "/limits" 46 "/vhost-limits/:vhost/:name";
   as_sent DELETE "/user-limits" 47 "/user-limits/:user/:name";
   as_sent PUT "/cluster-name" 3 "/cluster-name";
   as_sent PUT "/feature-flags-enable" 49 "/feature-flags/:name/enable";
   as_sent DELETE "/reset" 54 "/reset";
   as_sent DELETE "/reset_node" 55 "/reset/:node"].

(** ** What is appended to the log *)

Definition grows (l : list effect) (w : W) : Prop := exists rest, log w = l ++ rest.

Lemma grows_frame l : frame (grows l).
Proof.
  split; try (intros w x Hw; exact Hw); try (intros w x _ Hw; exact Hw).
  intros w e [r Hr]. exists (r ++ [e]). cbn. by rewrite Hr, app_assoc.
Qed.

(** ** The handlers of the forms *)

(** The entry describes the route at its place: before it no route of the verb
    matches the action; the handler sends the request and goes on with the
    result, without which it does nothing. *)
Record form_at (f : form_entry) (r : route H) (k : sync_result -> H) : Prop := {
  at_first : forallb (skipped (fe_verb f) (fe_action f)) (take (fe_place f) routes) = true;
  at_place : routes !! fe_place f = Some r;
  at_verb : r_verb r = fe_verb f;
  at_pattern : after_hash r = map Lit (fe_action f);
  at_names : (pattern (r_path r)).2 = [];
  at_hash : 35 ∉ fe_action f;
  at_query : 63 ∉ fe_action f;
  at_handler : forall params w, fe_applies f params = true ->
    r_handler r params w =
    (ps ← lift (fe_params f params); res ← sync_req (fe_method f) ps (fe_template f) (fe_headers f params); k res) w;
  at_refused : k Refused = skip;
  at_keeps : forall l res, keeps_inv (grows l) (k res);
}.

Hypothesis Hvhosts : canAccessVhosts (ui_model s) (access_of s) = true.

Lemma visit_form f r k params :
  form_at f r k -> runRoute (fe_verb f) (35 :: fe_action f) params routes = Ok (Some (r_handler r params)).
Proof.
  intros [Hs Hi Hv Ha Hn Hk1 Hk2 _ _ _]. unfold runRoute, parse_query.
  change (35 :: fe_action f) with ([] ++ 35 :: fe_action f).
  rewrite query_at_hash by done. cbn [mbind res_bind].
  change (foldl _ params (entries [])) with params.
  rewrite (lookup_at_hash (fe_verb f) [] (fe_action f)) by first [done|apply not_elem_of_nil|by apply routes_hash].
  assert (Hl : lookup_after (fe_verb f) (fe_action f) routes = Some (r, (pattern (r_path r)).2, [])).
  { rewrite <- (app_nil_r (fe_action f)). apply (lookup_after_nth _ _ [] routes (fe_place f)); try done.
    rewrite app_nil_r, Ha. clear. induction (fe_action f) as [|c l IH]; [done|]. cbn. by rewrite decide_True. }
  by rewrite Hl, Hn.
Qed.

#[local] Hint Resolve grows_frame frame_on_prefs frame_emit frame_update frame_update_vhosts frame_partial_update : keeps.

(** What follows a request that was accepted. *)
Definition after (action : H) (r : sync_result) : H := when (succeeded r) action.

Lemma keeps_after l action res : keeps_inv (grows l) action -> keeps_inv (grows l) (after action res).
Proof. intros Ha. by apply keeps_when. Qed.

Definition update_menu : H := update_vhosts (vhosts (ui_model s)).
Definition after_add (res : sync_result) : H :=
  match res with
  | Refused | Text _ => skip
  | Done http_status req_params =>
      when (http_status =? 204)
        (emit (Popup "warn" (VStr ("Updated an existing user: '" ++
                                   fmt_escape_html (prop req_params "username") ++ "'")))) ;;;
      update
  end.

(** The handler of the entry at hand, with what follows its request. *)
Ltac form_handler :=
  intros params w Hp; cbn [fe_applies as_sent limit_form] in Hp;
  first
  [ reflexivity
  | unfold others_password in Hp; apply negb_true_iff in Hp;
    cbn [r_handler put_]; unfold modify_user; rewrite Hp; reflexivity
  | apply andb_true_iff in Hp as [Hd Hp]; apply negb_true_iff in Hd;
    cbn [r_handler del_]; unfold delete_queue; unfold mode_is in Hd, Hp; rewrite Hd, Hp; reflexivity
  | cbn [r_handler del_]; unfold delete_queue; unfold mode_is in Hp; rewrite Hp; reflexivity
  | cbn [r_handler put_ fe_params limit_form]; unfold put_limit;
    destruct (int_value (prop params "value")); first [done|reflexivity] ].

Ltac form_route k :=
  eexists; exists k; split;
  [ unfold Routes.routes; rewrite Hvhosts; vm_compute; reflexivity
  | unfold Routes.routes; rewrite Hvhosts; reflexivity
  | done | by vm_compute | by vm_compute | by_decide | by_decide | form_handler | reflexivity
  | intros l res; try apply keeps_after; unfold after_add, update_menu, go_to, setup_global_vars_undefined; keeps ].

Notation purged := (emit (Popup "info" (VStr "Queue purged")) ;;; partial_update).

Lemma forms_at : Forall (fun f => exists r k, form_at f r k) form_table.
Proof.
  repeat (apply Forall_cons; split); [..|by constructor].
  - form_route (after update).
  - form_route (after (go_to (J := J) "#/queues")).
  - form_route (after purged).
  - form_route (after (emit ActionDisabled)).
  - form_route (after update).
  - form_route (after (go_to (J := J) "#/exchanges")).
  - form_route (after update).
  - form_route (after update).
  - form_route (after (go_to (J := J) "#/connections")).
  - form_route (after (update_menu ;;; update)).
  - form_route (after (update_menu ;;; go_to "#/vhosts")).
  - form_route (after update).
  - form_route after_add.
  - form_route (after (go_to (J := J) "#/users")).
  - form_route (after (go_to (J := J) "#/users")).
  - form_route (after update).
  - form_route (after update).
  - form_route (after update).
  - form_route (after update).
  - form_route (after update).
  - form_route (after (go_to (J := J) "#/policies")).
  - form_route (after update).
  - form_route (after update).
  - form_route (after update).
  - form_route (after update).
  - form_route (after update).
  - form_route (after update).
  - form_route (after (setup_global_vars_undefined ;;; update)).
  - form_route (after update).
  - form_route (after update).
  - form_route (after update).
Qed.

Lemma forms_change : Forall (fun f => fe_method f <> js "GET" /\ fe_verb f <> GET) form_table.
Proof. repeat (apply Forall_cons; split); [..|by constructor]; by_decide. Qed.

(** ** Requests *)

(** A request that cannot be made is told of, and nothing else happens. *)
Lemma sync_req_refused method ps template headers e (w : W) :
  prepare form ps template = Throw e ->
  sync_req method ps template headers w = (Ok Refused, set_log (log w ++ [popup_of e]) w).
Proof. intros Hp. unfold Sync.sync_req. by rewrite Hp. Qed.

(** Otherwise it is the next thing that happens, with the credentials there are. *)
Lemma sync_req_sends method ps template headers p path h (w : W) :
  prepare form ps template = Ok (p, path) -> method <> js "GET" -> (authorization_header (prefs w)).1 = Ok h ->
  grows (log w ++ [SyncSend method ("api" ++ path) (null_string h) headers (Some p)])
    (sync_req method ps template headers w).2.
Proof.
  intros Hp Hm Hh. unfold Sync.sync_req. rewrite Hp.
  unfold mbind at 1, M_bind at 1, on_prefs. destruct (authorization_header (prefs w)) as [r p']. cbn [fst] in Hh. subst r.
  unfold mbind at 1, M_bind at 1. cbn [emit modify]. destruct (decide (method = _)); [done|].
  match goal with |- grows ?l (?m ?w1).2 =>
    assert (Hk : keeps_inv (grows l) m); [|apply (Hk w1); exists []; symmetry; apply app_nil_r] end.
  apply keeps_bind; [|intros ok; apply keeps_ret].
  apply frame_check; [apply grows_frame|]. intros t q. apply frame_update_pages, grows_frame.
Qed.

Lemma sync_req_no_header method ps template headers p path e (w : W) :
  prepare form ps template = Ok (p, path) -> (authorization_header (prefs w)).1 = Throw e ->
  exists w', sync_req method ps template headers w = (Throw e, w') /\ log w' = log w.
Proof.
  intros Hp Hh. unfold Sync.sync_req. rewrite Hp. unfold mbind at 1, M_bind at 1, on_prefs.
  destruct (authorization_header (prefs w)) as [r p']. cbn [fst] in Hh. subst r. by eexists.
Qed.

(** ** What the submission of a form sends *)

Lemma navigate_form f el n w :
  running n = true -> targetIsThisWindow win (Some (form_target el)) = true ->
  action el = Some (35 :: fe_action f) -> route_verb (getFormVerb el) = Some (fe_verb f) -> fe_verb f <> GET ->
  navigate n w (Submit el) =
  (n, session_step oauth_enabled form server s w
        (Visit (fe_verb f) (35 :: fe_action f) (parse_form_params (form_inputs el)))).
Proof.
  intros Hr Ht Ha Hv Hg. unfold navigate. cbn [nav_step]. rewrite Hr. unfold on_submit. rewrite Ht.
  unfold checkFormSubmission. rewrite Ha.
  rewrite decide_False by (intros E; rewrite E in Hv; apply Hg; by injection Hv).
  by rewrite Hv.
Qed.

(** What the parameters of a form lead to: a request, a message, or nothing. *)
Inductive outcome := Sends (e : effect) | Tells (e : effect) | Nothing.

Definition form_outcome (f : form_entry) (params : obj value) (p : page J) : outcome :=
  match fe_params f params with
  | Throw _ => Nothing
  | Ok ps =>
      match prepare form ps (fe_template f) with
      | Throw e => Tells (popup_of e)
      | Ok (body, path) =>
          match (authorization_header p).1 with
          | Throw _ => Nothing
          | Ok h => Sends (SyncSend (fe_method f) ("api" ++ path) (null_string h) (fe_headers f params) (Some body))
          end
      end
  end.

Definition ends_with (w : W) (o : outcome) (w' : W) : Prop :=
  match o with
  | Sends e => exists rest, log w' = log w ++ e :: rest
  | Tells e => w' = set_log (log w ++ [e]) w
  | Nothing => log w' = log w
  end.

Lemma form_visited f params w :
  f ∈ form_table -> fe_applies f params = true ->
  ends_with w (form_outcome f params (prefs w))
    (session_step oauth_enabled form server s w (Visit (fe_verb f) (35 :: fe_action f) params)).
Proof.
  intros Hf Ha. pose proof forms_at as Hall. rewrite Forall_forall in Hall. destruct (Hall f Hf) as (r & k & Hat).
  pose proof forms_change as Hm. rewrite Forall_forall in Hm. destruct (Hm f Hf) as [Hmethod _].
  unfold session_step, callback, handle_session, visit. rewrite (visit_form f r k params Hat).
  rewrite (at_handler _ _ _ Hat params w Ha). unfold form_outcome. destruct (fe_params f params) as [ps|e]; [|done].
  unfold mbind at 1, M_bind at 1. cbn [lift]. unfold mbind, M_bind.
  destruct (prepare form ps (fe_template f)) as [[body path]|e] eqn:Hp.
  2: { rewrite (sync_req_refused _ _ _ _ e) by done. by rewrite (at_refused _ _ _ Hat). }
  destruct (authorization_header (prefs w)).1 as [h|e] eqn:Hh.
  2: { by destruct (sync_req_no_header (fe_method f) ps (fe_template f) (fe_headers f params) body path e w Hp Hh) as (w' & -> & Hl). }
  pose proof (sync_req_sends (fe_method f) ps (fe_template f) (fe_headers f params) body path h w Hp Hmethod Hh) as Hs.
  assert (Hg : forall l (w' : W), grows (l ++ [SyncSend (fe_method f) ("api" ++ path) (null_string h) (fe_headers f params) (Some body)]) w' ->
    exists rest, log w' = l ++ SyncSend (fe_method f) ("api" ++ path) (null_string h) (fe_headers f params) (Some body) :: rest).
  { intros l w' [rest ->]. exists rest. by rewrite <- app_assoc. }
  destruct (sync_req _ _ _ _ w) as [[res|e] w']; [|by apply Hg].
  pose proof (at_keeps _ _ _ Hat _ res w' Hs) as Hk. destruct (k res w') as [[[]|e] w'']; by apply Hg.
Qed.

Lemma form_submitted f answer classes el n w :
  f ∈ form_table -> running n = true -> targetIsThisWindow win (Some (form_target el)) = true ->
  action el = Some (35 :: fe_action f) -> route_verb (getFormVerb el) = Some (fe_verb f) ->
  fe_applies f (parse_form_params (form_inputs el)) = true -> forallb answer (questions classes) = true ->
  let w1 := own_handlers classes w in
  let x := browse_step (n, w) (FormSubmitted classes answer el) in
  x.1 = n /\ ends_with w1 (form_outcome f (parse_form_params (form_inputs el)) (prefs w1)) x.2.
Proof.
  intros Hf Hr Ht Ha Hv Hap Hq. cbn zeta. cbn [browse_step fst snd]. rewrite Hq.
  pose proof forms_change as Hm. rewrite Forall_forall in Hm. destruct (Hm f Hf) as [_ Hg].
  rewrite (navigate_form f el n _ Hr Ht Ha Hv Hg). split; [done|]. by apply form_visited.
Qed.


(** ** A new queue *)

Lemma queue_path ps :
  fill_path_template "/queues/:vhost/:name" ps =
  (v ← fill ps "vhost"; n ← fill ps "name"; Ok ("/queues/" ++ v ++ "/" ++ n)).
Proof.
  assert (E : js "/queues/:vhost/:name" = js "/queues/" ++ 58 :: js "vhost" ++ js "/" ++ 58 :: js "name" ++ []) by by_decide.
  assert (H1 : 58 ∉ js "/queues/") by by_decide. assert (H2 : 58 ∉ js "/") by by_decide.
  unfold fill_path_template. rewrite E, fill_literal by done.
  rewrite fill_parameter; [|by vm_compute|by (split; [by vm_compute|by_decide])]. rewrite fill_literal by done.
  rewrite fill_parameter; [|by vm_compute|done].
  destruct (fill ps "vhost"); [|done]. cbn [mbind res_bind]. destruct (fill ps "name") as [n|]; [|done].
  cbn [mbind res_bind fill_scan]. by rewrite app_nil_r.
Qed.

Lemma queue_type_keys type qt k :
  get QUEUE_TYPES type = Some qt -> k ∈ keys_of (QueueTypes.params qt) -> k ∈ [js "durable"; js "auto_delete"].
Proof.
  intros Hq Hk. apply get_In in Hq. unfold QUEUE_TYPES in Hq.
  repeat (apply elem_of_cons in Hq as [[= _ ->]|Hq]; [by revert Hk; revert k; apply (Forall_forall _ _); by_decide|]).
  by apply elem_of_nil in Hq.
Qed.

(** The form for a new queue, with the fields and the other inputs of the page. *)
Record queue_form (fields : list (jstr * list row)) (plain : list (jstr * jstr)) (vhost name : jstr)
  (el : form_element) : Prop := {
  qf_fields : reachable_fields [js "arguments"] fields;
  qf_plain : plain_inputs [js "arguments"] plain;
  qf_inputs : form_inputs el ≡ₚ plain ++ fields_inputs fields;
  qf_vhost : (js "vhost", vhost) ∈ plain;
  qf_name : (js "name", name) ∈ plain;
  qf_password : js "password" ∉ plain.*1;
  qf_action : action el = Some (js "#/queues");
  qf_verb : route_verb (getFormVerb el) = Some PUT;
  qf_target : targetIsThisWindow win (Some (form_target el)) = true;
}.

(** What the body of its request says. *)
Definition says (fields : list (jstr * list row)) (plain : list (jstr * jstr)) (body : obj value) : Prop :=
  (forall k v, (k, v) ∈ plain -> ~ replaced (Sync.queue_type form) plain k -> get body k = Some (VStr v)) /\
  (forall f, f ∈ fields -> exists t,
    get body f.1 = Some (VObj (with_queue_type (Sync.queue_type form) plain f.1 t)) /\
    (text_ordered f.2 -> entry_table [] (entries_of true f.2) = Some t)).

Lemma not_replaced type plain k : k ∉ [js "queuetype"; js "durable"; js "auto_delete"] -> ~ replaced type plain k.
Proof.
  intros Hk [_ [->|(qt & Hqt & Hin)]]; apply Hk; [by left|]. right. by eapply queue_type_keys.
Qed.

(** The parameters and the path of the request. *)
Lemma queue_prepared fields plain vhost name el :
  queue_form fields plain vhost name el -> selectors form = [] -> is_Some (get QUEUE_TYPES (Sync.queue_type form)) ->
  match prepare form (parse_form_params (form_inputs el)) "/queues/:vhost/:name" with
  | Ok (body, path) => says fields plain body /\ exists v n, esc vhost = Ok v /\ v <> [] /\ esc name = Ok n /\ n <> [] /\
      path = "/queues/" ++ v ++ "/" ++ n
  | Throw _ =>
      (exists f, f ∈ fields /\ entry_table [] (entries_of true f.2) = None) \/
      ~ exists v n, esc vhost = Ok v /\ v <> [] /\ esc name = Ok n /\ n <> []
  end.
Proof.
  intros [Hf Hp Hi Hv Hn Hpw _ _ _] Hsel Hqt. unfold prepare, params_magic. rewrite Hsel.
  assert (Hq : js "queuetype" ∈ plain.*1 -> is_Some (get QUEUE_TYPES (Sync.queue_type form)) /\
    (Sync.queue_type form <> js "default" -> js "arguments" ∈ [js "arguments"])) by (intros _; split; [done|intros _; left]).
  pose proof (collapsed_entries (Sync.queue_type form) [js "arguments"] fields plain (form_inputs el) Hf Hp Hi Hq) as H.
  destruct (collapse_multifields _ _) as [body|e]; cbn [mbind res_bind]; [|left; by destruct H].
  destruct H as (Hplain & Htables & Hother). change (maybe_remove_fields [] body) with body.
  assert (Hnone : get body (js "password") = None).
  { apply Hother; [by_decide|done|by_decide|]. apply not_replaced. by_decide. }
  assert (Hcheck : check_password body = Ok body) by (unfold check_password, prop; by rewrite Hnone).
  rewrite Hcheck. cbn [mbind res_bind]. rewrite queue_path.
  rewrite (fill_text body "vhost" vhost) by (apply Hplain; [done|apply not_replaced; by_decide]).
  rewrite (fill_text body "name" name) by (apply Hplain; [done|apply not_replaced; by_decide]).
  assert (Hsays : says fields plain body).
  { split; [done|]. intros f Hin. apply Htables; [done|]. destruct (reachable_ok _ _ Hf) as [Hnames _].
    assert (f.1 ∈ [js "arguments"]) as ->%list_elem_of_singleton by (rewrite <- Hnames; apply list_elem_of_fmap; by exists f).
    apply not_replaced. by_decide. }
  destruct (esc vhost) as [v|e] eqn:Ev; cbn [mbind res_bind]; [|right; naive_solver].
  destruct (decide (v = [])) as [->|Hv0]; cbn [mbind res_bind]; [right; naive_solver|].
  destruct (esc name) as [n|e] eqn:En; cbn [mbind res_bind]; [|right; naive_solver].
  destruct (decide (n = [])) as [->|Hn0]; cbn [mbind res_bind]; [right; naive_solver|].
  split; [done|]. by exists v, n.
Qed.


End Submissions.

(** ** Examples *)

Module SubmissionExamples.
Import RefreshRuns.Page NavigationExamples FormEntryExamples.

Definition top : window := mk_window [] true.
Definition opened : world cookies := session_opened logged_page (mk_query [] None false) CHART_RANGES no_fields.
Definition quorum_form : form_state := mk_form "quorum" [].
Definition step := browse_step (J := cookies) false quorum_form accepting admin true top resolve1.

Definition delete_form : form_element :=
  mk_form_element (Some (js "#/queues")) None (Some (js "delete")) None
    [(js "vhost", js "/"); (js "name", js "a b"); (js "mode", js "delete")].

Definition delete_entry : form_entry :=
  mk_form_entry DELETE "/queues" 18 (mode_is "delete") Ok "DELETE" "/queues/:vhost/:name" (fun _ => []).

Definition credentials : jstr := "Basic Z3Vlc3Q6Z3Vlc3Q=".


(** A new quorum queue, with a list of a number among its arguments. *)
Definition new_queue_inputs : list (jstr * jstr) := (js "vhost", js "/") :: queue_inputs.
Definition new_queue_fields := update_multifields step2.
Definition new_queue_form : form_element :=
  mk_form_element (Some (js "#/queues")) None (Some (js "put")) None (new_queue_inputs ++ fields_inputs new_queue_fields).

Lemma new_queue_form_ok : queue_form top new_queue_fields new_queue_inputs "/" "q1" new_queue_form.
Proof.
  split; try done.
  - apply steps_reachable.
  - split; [split_and!; [by_decide|repeat constructor|by_decide]|by_decide|].
    repeat constructor; by_decide || by vm_compute.
  - left.
  - right; right; left.
  - by_decide.
Qed.


End SubmissionExamples.
