(* ===== verification/Bodies.v ===== *)
(** The bodies of requests (main.js, json2-2016.10.28.js): what a form makes of
    its inputs is data, so the text that is sent is JSON and is read as the
    parameters that were made. *)
From S2P Require Import Prelude JsString JsNum Base64 Uri JsObject JsValue Json JsonFacts Columns Prefs PrefsFacts Requests ChartRanges Escape Format Links Access Forms FormsFacts World Pages Refresh Sync Password Router QueueTypes Multifields FormRows Navigation FormPage FormEntries Routes RefreshFacts RouteFacts Session RefreshRuns Examples Submissions.

(** ** Data is kept by the operations on objects *)

Definition data_obj_ok (o : obj value) : Prop :=
  NoDup (keys_of o) /\ Forall (fun kv => wf_jstr kv.1 /\ json_data kv.2) o.

Lemma data_obj_iff o : json_data (VObj o) <-> data_obj_ok o.
Proof.
  unfold data_obj_ok. split.
  - inversion 1 as [| | | | | | |? Hd Hk Hv]; subst. split; [done|]. unfold keys_of in Hk. rewrite Forall_fmap in Hk.
    apply Forall_and. by split.
  - intros [Hd H]. apply Forall_and in H as [Hk Hv]. constructor; [done| |done]. unfold keys_of. by rewrite Forall_fmap.
Qed.

Lemma Forall_put {A} (P : jstr * A -> Prop) (o : obj A) k v : P (k, v) -> Forall P o -> Forall P (put o k v).
Proof.
  intros Hk. induction 1 as [|[k' v'] o Hx Ho IH]; cbn; [by repeat constructor|].
  case_decide; [subst; by constructor|by constructor].
Qed.

Lemma data_put o k v : data_obj_ok o -> wf_jstr k -> json_data v -> data_obj_ok (put o k v).
Proof. intros [Hd Ho] Hk Hv. split; [by apply NoDup_put|by apply Forall_put]. Qed.

Lemma data_del o k : data_obj_ok o -> data_obj_ok (del o k).
Proof. intros [Hd Ho]. split; [by apply NoDup_del|].
  rewrite Forall_forall in Ho |- *. intros kv [_ Hin]%list_elem_of_filter. by apply Ho.
Qed.

Lemma data_entries o : data_obj_ok o -> data_obj_ok (entries o).
Proof. intros [Hd Ho]. split; [by apply NoDup_entries|by rewrite entries_perm]. Qed.

Lemma data_nil : data_obj_ok [].
Proof. split; constructor. Qed.

Lemma data_get o k v : data_obj_ok o -> get o k = Some v -> wf_jstr k /\ json_data v.
Proof. intros [_ Ho] H. rewrite Forall_forall in Ho. apply (Ho (k, v)). by apply get_In. Qed.

Lemma data_prop o k : data_obj_ok o -> json_data (prop o k).
Proof.
  intros Ho. unfold prop. destruct (get o k) as [v|] eqn:E; [|constructor]. by eapply data_get.
Qed.

#[local] Hint Resolve data_put data_del data_entries data_nil data_prop : core.
#[local] Hint Constructors json_data : core.

Lemma strip_zeros_strip m s : strip_zeros (mant (strip_zeros m s)) (scale (strip_zeros m s)) = strip_zeros m s.
Proof.
  revert m. induction s as [|s IH]; intros m; [done|]. cbn [strip_zeros].
  destruct (m mod 10 =? 0) eqn:E; [apply IH|]. cbn. by rewrite E.
Qed.

Lemma parse_float_data t n : parse_float t = Some n -> json_data (VNum n).
Proof.
  unfold parse_float. destruct (split_sign _) as [sg t']. destruct (frac_digits 0 0 t') as [[m d] t1].
  set (x := match t1 with 46 :: _ => _ | _ => _ end). destruct x as [[m' s'] t2]. case_decide; [done|].
  intros [= <-]. constructor. unfold scaled. case_match; apply strip_zeros_strip.
Qed.

Lemma int_data n : json_data (VInt n).
Proof. by constructor. Qed.

(** ** Texts of data *)

Lemma wf_small t : Forall (fun u => 0 <= u < 65536) t -> wf_jstr t.
Proof. done. Qed.

Lemma num_string_wf x : wf_jstr (num_string x).
Proof.
  rewrite num_string_parts. set (n := _ / _). assert (Hn : 0 <= n) by (apply Z.div_pos; lia).
  assert (Hd : forall ds, forallb is_digit ds = true -> wf_jstr ds).
  { intros ds H. rewrite forallb_forall in H. apply Forall_forall. intros c Hc. apply list_elem_of_In, H in Hc.
    unfold is_digit in Hc. unfold is_code_unit. lia. }
  apply Forall_app. split; [case_match; by_decide|]. apply Forall_app. split; [by apply Hd, dec_digits|].
  case_match; [constructor|]. apply Forall_app. split; [by_decide|]. apply Hd.
  refine (proj1 (pad_digits_digits _ _ [] _ eq_refl)). apply Z.mod_pos_bound, Z.pow_pos_nonneg; lia.
Qed.

Lemma join_wf sep ts : wf_jstr sep -> Forall wf_jstr ts -> wf_jstr (join sep ts).
Proof.
  intros Hs. induction ts as [|t ts IH]; [constructor|]. intros [Ht Hts]%Forall_cons.
  destruct ts as [|t' ts]; [done|]. apply Forall_app. split; [done|]. apply Forall_app. split; [done|by apply IH].
Qed.

Lemma to_str_wf v : json_data v -> wf_jstr (to_str v).
Proof.
  induction v as [| |[]|n| |s|l IH|o IH] using value_ind'; intros Hv; cbn [to_str].
  1-4, 6, 9: by_decide.
  - apply num_string_wf.
  - by inversion Hv.
  - inversion Hv as [| | | | | |? Hl|]; subst. apply join_wf; [by_decide|]. rewrite Forall_forall in IH.
    rewrite Forall_forall in Hl. apply Forall_forall. intros t Hin. apply list_elem_of_fmap in Hin as (x & -> & Hin).
    specialize (IH x Hin (Hl x Hin)). destruct x; try exact IH; by_decide.
Qed.

(** ** The fields of a form *)

Definition cell_data (c : cell) : Prop := match c with Value v => json_data v | Ref _ => True end.

Definition table_ok (t : obj cell) : Prop :=
  NoDup (keys_of t) /\ Forall (fun kv => wf_jstr kv.1 /\ cell_data kv.2) t.

Definition param_data (p : param) : Prop := match p with Plain v => json_data v | Table t => table_ok t end.

Definition arrays_data (a : list ((jstr * jstr) * list cell)) : Prop := Forall (fun x => Forall cell_data x.2) a.

Record build_data (b : build) : Prop := {
  bd_keys : NoDup (keys_of (out b));
  bd_out : Forall (fun kv => wf_jstr kv.1 /\ param_data kv.2) (out b);
  bd_arrays : arrays_data (arrays b);
}.

Lemma array_get_data a i l : arrays_data a -> array_get a i = Some l -> Forall cell_data l.
Proof.
  induction 1 as [|[j m] a Hm _ IH]; [done|]. cbn. case_decide; [by intros [= <-]|exact IH].
Qed.

Lemma array_put_data a i l : arrays_data a -> Forall cell_data l -> arrays_data (array_put a i l).
Proof.
  intros Ha Hl. induction Ha as [|[j m] a Hm Ha IH]; cbn; [by constructor|]. case_decide; by constructor.
Qed.

Lemma reify_data a fuel c : arrays_data a -> cell_data c -> json_data (reify fuel a c).
Proof.
  intros Ha. revert c. induction fuel as [|fuel IH]; intros [v|i] Hc; cbn [reify]; auto. constructor.
  apply Forall_forall. intros x Hin. apply list_elem_of_fmap in Hin as (c & -> & Hin). apply IH.
  destruct (array_get a i) as [l|] eqn:E; [|by apply elem_of_nil in Hin].
  pose proof (array_get_data _ _ _ Ha E) as Hl. rewrite Forall_forall in Hl. by apply Hl.
Qed.

Lemma keys_of_map {A B} (f : jstr * A -> B) (o : obj A) : keys_of (map (fun kv => (kv.1, f kv)) o) = keys_of o.
Proof. unfold keys_of. induction o as [|kv o IH]; [done|]. cbn. by rewrite IH. Qed.

Lemma map_data {A} (f : jstr * A -> value) (o : obj A) (P : A -> Prop) :
  NoDup (keys_of o) -> Forall (fun kv => wf_jstr kv.1 /\ P kv.2) o ->
  (forall k x, P x -> json_data (f (k, x))) -> data_obj_ok (map (fun kv => (kv.1, f kv)) o).
Proof.
  intros Hd Ho Hf. split; [by rewrite keys_of_map|]. rewrite Forall_forall in Ho. apply Forall_forall.
  intros kv Hin. apply list_elem_of_fmap in Hin as ([k x] & -> & Hin). cbn.
  destruct (Ho _ Hin) as [Hk Hx]. split; [done|]. by apply Hf.
Qed.

Lemma reify_param_data a p : arrays_data a -> param_data p -> json_data (reify_param a p).
Proof.
  intros Ha. destruct p as [v|t]; [done|]. intros [Hd Ht]. apply data_obj_iff.
  apply (map_data (fun kv => reify (S (length a)) a kv.2) t cell_data); [done..|].
  intros k x Hx. by apply reify_data.
Qed.

Lemma reify_build_data b : build_data b -> data_obj_ok (reify_build b).
Proof.
  intros [Hd Ho Ha]. apply (map_data (fun kv => reify_param (arrays b) kv.2) (out b) param_data); [done..|].
  intros k x Hx. by apply reify_param_data.
Qed.

Lemma contribute_data k v t top x : json_data v -> contribute k v t top = Ok (Item x) -> json_data x.
Proof.
  intros Hv. unfold contribute. destruct (eq_word t "list"); [done|]. destruct (_ || is_set v); [|done].
  destruct (eq_word t "boolean").
  { destruct (eq_word v "true"); [by intros [= <-]|]. destruct (eq_word v "false"); [by intros [= <-]|done]. }
  destruct (eq_word t "number").
  { destruct (parse_float (to_str v)) as [n|] eqn:E; [|done]. intros [= <-]. by eapply parse_float_data. }
  destruct (nullish v); [done|]. by intros [= <-].
Qed.

Lemma open_table_data b name : wf_jstr name -> build_data b -> build_data (open_table b name).
Proof.
  intros Hn [Hd Ho Ha]. unfold open_table.
  assert (H : build_data (mk_build (put (out b) name (Table [])) (tables b ++ [name])
    (filter (fun a => a.1.1 <> name) (arrays b)))).
  { split; cbn [out arrays]; [by apply NoDup_put| |].
    - apply Forall_put; [|done]. split; [done|]. split; constructor.
    - unfold arrays_data in *. rewrite Forall_forall in Ha |- *. intros x [_ Hx]%list_elem_of_filter. by apply Ha. }
  destruct (get (out b) name) as [[[]|]|]; done.
Qed.

Lemma store_in_table_data b name k c :
  wf_jstr name -> wf_jstr k -> cell_data c -> build_data b -> build_data (store_in_table b name k c).
Proof.
  intros Hn Hk Hc [Hd Ho Ha]. unfold store_in_table. destruct (get (out b) name) as [[v|t]|] eqn:E; try done.
  split; cbn [out arrays]; [by apply NoDup_put| |done]. apply Forall_put; [|done]. split; [done|].
  apply get_In in E. rewrite Forall_forall in Ho. destruct (Ho _ E) as [_ [Htd Ht]].
  split; [by apply NoDup_put|by apply Forall_put].
Qed.

Lemma store_val_data i k b c b' :
  wf_jstr i.1 -> wf_jstr k -> cell_data c -> build_data b -> store_val i k b c = Ok b' -> build_data b'.
Proof.
  intros Hn Hk Hc Hb. unfold store_val. destruct i as [name id]. case_decide.
  - intros [= <-]. by apply store_in_table_data.
  - case_bool_decide; [|done]. destruct (array_get _ _) as [l|] eqn:E; [|done]. intros [= <-].
    destruct Hb as [Hd Ho Ha]. split; [done..|]. apply array_put_data; [done|]. apply Forall_app.
    split; [by eapply array_get_data|by repeat constructor].
Qed.

Lemma collapse_id_data params0 i b b' :
  data_obj_ok params0 -> wf_jstr i.1 -> build_data b -> collapse_id params0 i b = Ok b' -> build_data b'.
Proof.
  intros Hp Hn Hb. unfold collapse_id. destruct i as [name id]. apply (open_table_data _ name Hn) in Hb.
  set (k := prop params0 _). set (v := prop params0 _). set (t := prop params0 _).
  destruct (contribute k v t _) as [c|e] eqn:E; [|done]. cbn [mbind res_bind].
  assert (Hk : wf_jstr (to_str k)) by (by apply to_str_wf, data_prop).
  destruct c as [| |x]; [by intros [= <-]| |].
  - destruct (bool_decide (name ∈ _)); [|done]. apply store_val_data; [done|done|exact I|]. destruct Hb as [Hd Ho Ha].
    split; [done..|]. by apply array_put_data; [|constructor].
  - apply store_val_data; [done|done| |done]. eapply contribute_data; [|exact E]. by apply data_prop.
Qed.

Lemma collapse_loop_data params0 ids b b' :
  data_obj_ok params0 -> Forall (fun i => wf_jstr i.1) ids -> build_data b ->
  collapse_loop params0 ids b = Ok b' -> build_data b'.
Proof.
  intros Hp Hids. revert b. induction Hids as [|i ids Hi _ IH]; intros b Hb; cbn [collapse_loop]; [by intros [= <-]|].
  destruct (collapse_id params0 i b) as [b1|e] eqn:E; [|done]. cbn [mbind res_bind]. apply IH.
  by eapply collapse_id_data.
Qed.

Lemma match_field_name (P : Z -> Prop) key suffix m : match_field key suffix = Some m -> Forall P key -> Forall P m.1.
Proof.
  assert (Hhere : forall s m, match_here s suffix = Some m -> Forall P s -> Forall P m.1).
  { intros s m'. unfold match_here. pose proof (span_split is_lower s) as Hs.
    destruct (Forms.span is_lower s) as [name rest]. cbn in Hs. intros H Hall.
    assert (m'.1 = name) as -> by (repeat case_match; try done; destruct (longest_id _ _ _); [by injection H as <-|done]).
    rewrite <- Hs in Hall. by apply Forall_app in Hall as [? _]. }
  induction key as [|c key IH]; cbn [match_field].
  - destruct (match_here [] suffix) eqn:H; [|done]. intros [= <-] Hall. by eapply Hhere.
  - destruct (match_here (c :: key) suffix) eqn:H; [intros [= <-] Hall; by eapply Hhere|].
    intros Hm Hall. inversion Hall. by apply IH.
Qed.

Lemma plain_fields_data params0 : data_obj_ok params0 -> build_data (mk_build (plain_fields params0) [] []).
Proof.
  intros Hp. apply data_entries in Hp as [_ Hp]. unfold plain_fields.
  assert (H : forall acc, NoDup (keys_of acc) /\ Forall (fun kv => wf_jstr kv.1 /\ param_data kv.2) acc ->
    build_data (mk_build (foldl (fun o kv => match classify kv.1 with
      None => put o kv.1 (Plain kv.2) | Some _ => o end) acc (entries params0)) [] [])).
  { induction Hp as [|[k v] o [Hk Hv] _ IH]; intros acc [Hd Ha]; [by split; [..|constructor]|]. cbn [foldl fst snd] in *.
    apply IH. destruct (classify k); [done|]. split; [by apply NoDup_put|by apply Forall_put]. }
  apply H. split; constructor.
Qed.

Lemma field_ids_data params0 :
  data_obj_ok params0 -> Forall (fun i => wf_jstr i.1) (sort_ids (field_ids params0)).
Proof.
  intros Hp. apply data_entries in Hp as [_ Hp]. rewrite sort_ids_perm. unfold field_ids. apply Forall_forall.
  intros i Hin. apply list_elem_of_omap in Hin as ([k v] & Hin & E). rewrite Forall_forall in Hp.
  destruct (Hp _ Hin) as [Hk _]. cbn [fst] in *. unfold classify in E.
  destruct (match_field k MFTYPE) as [m|] eqn:Em; [injection E as ->; exact (match_field_name is_code_unit k MFTYPE i Em Hk)|].
  by destruct (match_field k MFKEY), (match_field k MFVALUE).
Qed.

(** The parameters of the types of queues are data. *)
Lemma queue_type_data type qt :
  get QUEUE_TYPES type = Some qt -> Forall (fun kv => wf_jstr kv.1 /\ json_data kv.2) (QueueTypes.params qt).
Proof.
  intros H. apply get_In in H. unfold QUEUE_TYPES in H. rewrite !elem_of_cons, elem_of_nil in H.
  repeat destruct H as [[= -> ->]|H]; [..|done];
    repeat (apply List.Forall_cons || apply List.Forall_nil); (split; [by_decide|constructor]).
Qed.

Lemma put_all_data o l : data_obj_ok o -> Forall (fun kv => wf_jstr kv.1 /\ json_data kv.2) l ->
  data_obj_ok (foldl (fun o kv => put o kv.1 kv.2) o l).
Proof.
  intros Ho Hl. revert o Ho. induction Hl as [|[k v] l [Hk Hv] _ IH]; intros o Ho; [done|]. by apply IH, data_put.
Qed.

Lemma set_in_data o name k v o' :
  data_obj_ok o -> wf_jstr name -> wf_jstr k -> json_data v -> set_in o name k v = Ok o' -> data_obj_ok o'.
Proof.
  intros Ho Hn Hk Hv. unfold set_in. pose proof (data_prop o name Ho) as Hp.
  destruct (prop o name) as [| | | | | | |t]; try done; intros [= <-]; try done.
  apply data_put; [done..|]. apply data_obj_iff, data_put; [by apply data_obj_iff|done..].
Qed.

Lemma collapse_data queue_type params0 p :
  wf_jstr queue_type -> data_obj_ok params0 -> collapse_multifields queue_type params0 = Ok p -> data_obj_ok p.
Proof.
  intros Hq Hp. unfold collapse_multifields. destruct (collapse_loop _ _ _) as [b|e] eqn:E; [|done].
  cbn [mbind res_bind]. apply collapse_loop_data in E;
    [|done|by apply field_ids_data|by apply plain_fields_data].
  apply reify_build_data in E. revert E. generalize (reify_build b). clear b. intros o Ho.
  unfold collapse_queue_type. case_bool_decide; [|by intros [= <-]].
  assert (Hd : data_obj_ok (del o "queuetype")) by auto.
  destruct (if decide _ then _ else _) as [o'|e] eqn:E; [|done]. cbn [mbind res_bind].
  assert (Ho' : data_obj_ok o').
  { case_decide; [by injection E as <-|]. eapply set_in_data; [exact Hd|..|exact E]; [by_decide|by_decide|by constructor]. }
  destruct (get QUEUE_TYPES queue_type) as [qt|] eqn:Eq; [|done]. intros [= <-].
  apply put_all_data; [done|by eapply queue_type_data].
Qed.

Lemma remove_fields_data selectors o : data_obj_ok o -> data_obj_ok (maybe_remove_fields selectors o).
Proof.
  unfold maybe_remove_fields. revert o. induction selectors as [|s l IH]; intros o Ho; [done|]. cbn. apply IH.
  unfold remove_fields. apply data_del. revert o Ho. induction (options s) as [|x xs IHx]; intros o Ho; [done|].
  cbn. apply IHx. case_decide; auto.
Qed.

Lemma params_magic_data queue_type selectors params p :
  wf_jstr queue_type -> data_obj_ok params -> params_magic queue_type selectors params = Ok p -> data_obj_ok p.
Proof.
  intros Hq Hp. unfold params_magic. destruct (collapse_multifields _ _) as [o|e] eqn:E; [|done].
  cbn [mbind res_bind]. apply collapse_data in E; [|done..]. apply (remove_fields_data selectors) in E.
  unfold check_password. repeat case_match; try done; intros [= <-]; auto.
Qed.

(** ** Inputs and casts *)

Lemma add_param_data o k v : data_obj_ok o -> wf_jstr k -> json_data v -> data_obj_ok (add_param o k v).
Proof.
  intros Ho Hk Hv. unfold add_param. destruct (get o k) as [x|] eqn:E; [|by apply data_put].
  destruct (data_get _ _ _ Ho E) as [_ Hx]. assert (Hpair : json_data (VArr [x; v])) by (by constructor; repeat constructor).
  destruct x as [| | | | | |l|]; apply data_put; try done.
  constructor. inversion Hx; subst. apply Forall_app. split; [done|by repeat constructor].
Qed.

Lemma parse_form_data inputs :
  Forall (fun kv => wf_jstr kv.1 /\ wf_jstr kv.2) inputs -> data_obj_ok (parse_form_params inputs).
Proof.
  unfold parse_form_params. assert (H : forall o, data_obj_ok o -> Forall (fun kv => wf_jstr kv.1 /\ wf_jstr kv.2) inputs ->
    data_obj_ok (foldl (fun params kv => add_param params kv.1 (VStr kv.2)) o inputs)).
  { intros o Ho Hi. revert o Ho. induction Hi as [|[k v] l [Hk Hv] _ IH]; intros o Ho; [done|].
    cbn. apply IH, add_param_data; [done..|by constructor]. }
  apply H, data_nil.
Qed.

Lemma int_value_data v : json_data (int_value v).
Proof. unfold int_value. case_match; [apply int_data|constructor]. Qed.

Lemma cast_field_data m n b a i v c :
  json_data v -> cast_field m n b a i v = Ok (Some c) -> json_data c.
Proof.
  intros Hv. unfold cast_field. destruct (_ && _); [done|].
  destruct (bool_decide (i ∈ n)); [intros [= <-]; apply int_value_data|].
  destruct (bool_decide (i ∈ b)); [intros [= <-]; constructor|].
  destruct (bool_decide (i ∈ a)); [|by intros [= <-]].
  unfold arrayable. destruct v as [| | | | |s| |]; try done. inversion Hv; subst.
  match goal with H : wf_jstr s |- _ => pose proof (split_on_pieces is_code_unit 32 s H) as Hs end.
  destruct (split_on 32 s) as [|x [|y l]]; intros [= <-].
  - by constructor; constructor.
  - inversion Hs as [|? ? [_ Hx]]; subst. by constructor.
  - constructor. rewrite Forall_forall in Hs. apply Forall_forall. intros z Hin.
    apply (list_elem_of_fmap_1 VStr (x :: y :: l) z) in Hin as (t & -> & Hin). constructor. by apply Hs.
Qed.

Lemma cast_loop_data m n b a fields o p :
  Forall (fun kv => wf_jstr kv.1 /\ json_data kv.2) fields -> data_obj_ok o ->
  cast_loop m n b a fields o = Ok p -> data_obj_ok p.
Proof.
  intros Hf. revert o. induction Hf as [|[i v] fields [Hi Hv] _ IH]; intros o Ho; cbn [cast_loop fst snd] in *.
  - by intros [= <-].
  - case_decide; [by apply IH|]. destruct (cast_field m n b a i v) as [c|e] eqn:E; [|done]. cbn [mbind res_bind].
    apply IH. destruct c as [c|]; [|by apply data_del]. apply data_put; [done..|]. by eapply cast_field_data.
Qed.

Lemma put_cast_data m n b params p : data_obj_ok params -> put_cast_params m n b params = Ok p -> data_obj_ok p.
Proof. intros Hp. apply cast_loop_data; [by apply data_entries|done]. Qed.

Lemma rename_data params from to : wf_jstr to -> data_obj_ok params -> data_obj_ok (rename_multifield params from to).
Proof.
  intros Ht Hp. apply data_entries in Hp as [_ Hp]. unfold rename_multifield.
  assert (H : forall o, data_obj_ok o -> data_obj_ok (foldl (fun o kv => put o (rename_key from to kv.1) kv.2) o (entries params))).
  { induction Hp as [|[k v] l [Hk Hv] _ IH]; intros o Ho; [done|]. cbn. apply IH, data_put; [done| |done]. cbn in Hk.
    unfold rename_key. case_match; [|done]. apply Forall_app. split; [done|by apply Forall_drop]. }
  apply H, data_nil.
Qed.

(** ** What is sent *)

(** [req.send(type == "GET" ? null : JSON.stringify(params))] *)
Definition request_text (e : effect) : option jstr :=
  match e with
  | SyncSend _ _ _ _ (Some params) =>
      match stringify (VObj params) VUndef VUndef with Ok t => t | Throw _ => None end
  | _ => None
  end.

Lemma request_text_read method path h headers body :
  data_obj_ok body ->
  exists text, request_text (SyncSend method path h headers (Some body)) = Some text /\
    json_value text = Some (json_norm (VObj body)).
Proof.
  intros Hb. apply data_obj_iff in Hb.
  destruct (str_defined None [] [] (VObj body) eq_refl) as (t & Ht & _). exists t.
  split; [|by apply (str_round_trip [])]. change (request_text _) with (str None [] [] (VObj body)). exact Ht.
Qed.

Section Bodies.
Context {J : Type} {CJ : CookieJar J} {CK : Clock} {RX : RegExpSyntax} {TP : Templates} {LC : LowerCase}.
Variable oauth_enabled : bool.
Variable form : form_state.
Variable server : jstr -> jstr -> option (obj value) -> response.
Variable s : session.
Variable has_history : bool.
Variable win : window.
Variable resolve : location -> jstr -> location.
Notation browse_step := (browse_step (J := J) oauth_enabled form server s has_history win resolve).
Hypothesis Hvhosts : canAccessVhosts (ui_model s) (access_of s) = true.
Hypothesis Htype : wf_jstr (Sync.queue_type form).

Definition keeps_data (f : form_entry) : Prop :=
  forall ps ps', data_obj_ok ps -> fe_params f ps = Ok ps' -> data_obj_ok ps'.

Lemma fe_params_data : Forall keeps_data (form_table s).
Proof.
  assert (Hlim : forall ps ps', data_obj_ok ps -> Ok (put ps "value" (int_value (prop ps "value"))) = Ok ps' -> data_obj_ok ps').
  { intros ps ps' Hp [= <-]. apply data_put; [done|by_decide|apply int_value_data]. }
  assert (Hpol : forall ps ps', data_obj_ok ps -> policy_params ps = Ok ps' -> data_obj_ok ps').
  { intros ps ps' H. by apply put_cast_data. }
  assert (Hren : forall ps ps', data_obj_ok ps ->
    policy_params (rename_multifield ps "definitionop" "definition") = Ok ps' -> data_obj_ok ps').
  { intros ps ps' H. by apply Hpol, rename_data; [by_decide|]. }
  assert (Hsame : forall ps ps', data_obj_ok ps -> Ok (A := obj value) ps = Ok ps' -> data_obj_ok ps') by (by intros ps ps' ? [= <-]).
  unfold form_table. repeat (apply Forall_cons; split); [..|by constructor];
    first [exact Hsame|exact Hlim|exact Hpol|exact Hren].
Qed.


End Bodies.

(** ** Example *)

Module BodyExamples.
Import RefreshRuns.Page NavigationExamples FormEntryExamples SubmissionExamples.

Definition sent_json : jstr :=
  "{`vhost`:`/`,`name`:`q1`,`durable`:true,`arguments`:{`x-list`:[7],`x-queue-type`:`quorum`},`auto_delete`:false}".


Example queue_json :
  match log (step (NavigationExamples.start, opened) (FormSubmitted [] (fun _ => true) new_queue_form)).2 with
  | e :: _ => request_text e = Some sent_json
  | [] => False
  end.
Proof. by_compute. Qed.

End BodyExamples.
