(* ===== verification/Theme.v ===== *)
(** theme-switcher.js: the choice between the light and the dark style sheets.

    Every page load and every [popstate] (a navigation, since routes are
    fragments of the address) looks for the style sheets and the button again
    and adds one more listener to the button. What a media query matches is the
    browser's: the class [MediaQueries] with the four texts the code uses. *)
From S2P Require Import Prelude JsString.

(** ** The browser *)

(** [media_matches dark m]: whether a sheet with the media [m] applies when the
    system's scheme is dark, or light. An invalid query applies never. *)
Class MediaQueries := { media_matches : bool -> jstr -> bool }.

Definition PREFERS_LIGHT : jstr := "(prefers-color-scheme: light)".
Definition PREFERS_DARK : jstr := "(prefers-color-scheme: dark)".
Definition ALL : jstr := "all".
Definition BOT_ALL : jstr := "bot all".

Class MediaQueriesLaws `{MediaQueries} := {
  media_light : forall dark, media_matches dark PREFERS_LIGHT = negb dark;
  media_dark : forall dark, media_matches dark PREFERS_DARK = dark;
  media_all : forall dark, media_matches dark ALL = true;
  media_none : forall dark, media_matches dark [] = true;
  media_invalid : forall dark, media_matches dark BOT_ALL = false;
}.

(** ** State *)

(** A button of class theme-switcher: three attributes, and how many listeners
    wait for a click on it. *)
Record button := mk_button {
  x_scheme : option jstr;
  title : jstr;
  aria_label : jstr;
  listeners : nat;
}.

(** The stored scheme, the system's, the media of the style sheets and the
    buttons of the document, and the variables of the file: the sheets found
    last (undefined at first) and whether the system's scheme is watched. *)
Record theme := mk_theme {
  color_scheme : option jstr;
  system_dark : bool;
  sheets : list jstr;
  buttons : list button;
  lightStyles : option (list nat);
  darkStyles : option (list nat);
  watched : bool;
}.

Definition set_color_scheme (s : option jstr) (t : theme) : theme :=
  mk_theme s (system_dark t) (sheets t) (buttons t) (lightStyles t) (darkStyles t) (watched t).
Definition set_sheets (l : list jstr) (t : theme) : theme :=
  mk_theme (color_scheme t) (system_dark t) l (buttons t) (lightStyles t) (darkStyles t) (watched t).
Definition set_buttons (l : list button) (t : theme) : theme :=
  mk_theme (color_scheme t) (system_dark t) (sheets t) l (lightStyles t) (darkStyles t) (watched t).

Local Notation H := (M theme).

(** ** The stored scheme and the system's *)

Definition getSystemScheme : H jstr := fun t =>
  if watched t then (Ok (if system_dark t then js "dark" else js "light"), t) else (Throw TypeError, t).

Definition getSavedScheme : H (option jstr) := gets color_scheme.
Definition saveScheme (scheme : jstr) : H unit := modify (set_color_scheme (Some scheme)).
Definition clearScheme : H unit := modify (set_color_scheme None).

(** ** The sheets *)

Definition contains (s p : jstr) : bool := bool_decide (index_of s p <> -1).

(** [querySelectorAll(link[rel=stylesheet][media*=prefers-color-scheme][media*=word])]:
    the places of the sheets it selects. *)
Definition query_sheets (word : jstr) (l : list jstr) : list nat :=
  filter (fun i => contains (default [] (l !! i)) "prefers-color-scheme"
                   && contains (default [] (l !! i)) word = true)
    (seq 0 (length l)).

Definition set_media (m : jstr) (l : list jstr) (places : list nat) : list jstr :=
  foldl (fun l i => <[i := m]> l) l places.

Definition light_media (scheme : jstr) : jstr :=
  if decide (scheme = "auto") then PREFERS_LIGHT
  else if decide (scheme = "light") then ALL else BOT_ALL.
Definition dark_media (scheme : jstr) : jstr :=
  if decide (scheme = "auto") then PREFERS_DARK
  else if decide (scheme = "dark") then ALL else BOT_ALL.

Definition switchMediaScheme (scheme : jstr) : H unit := fun t =>
  match lightStyles t with
  | None => (Throw TypeError, t)
  | Some ls =>
      let t := set_sheets (set_media (light_media scheme) (sheets t) ls) t in
      match darkStyles t with
      | None => (Throw TypeError, t)
      | Some ds => (Ok tt, set_sheets (set_media (dark_media scheme) (sheets t) ds) t)
      end
  end.

Definition setScheme (scheme : jstr) : H unit :=
  switchMediaScheme scheme ;;;
  if decide (scheme = "auto") then clearScheme else saveScheme scheme.

(** ** The button *)

(** The scheme a click chooses; an unknown one, or none, counts as auto. *)
Definition new_scheme (current : option jstr) (systemScheme : jstr) : jstr :=
  if decide (current = Some (js "dark")) then
    if decide (systemScheme = "dark") then "auto" else "light"
  else if decide (current = Some (js "light")) then
    if decide (systemScheme = "light") then "auto" else "dark"
  else if decide (systemScheme = "light") then "dark" else "light".

Definition switch_title (scheme : jstr) : jstr :=
  "Switch between dark and light mode (currently " ++ scheme ++ " mode)".

Definition first_scheme (t : theme) : option jstr :=
  match buttons t with b :: _ => x_scheme b | [] => None end.

(** One listener of the [i]-th button: it reads the first one. *)
Definition on_click (i : nat) : H unit :=
  currentScheme ← gets first_scheme;
  systemScheme ← getSystemScheme;
  let newScheme := new_scheme currentScheme systemScheme in
  setScheme newScheme ;;;
  modify (fun t => set_buttons
    (alter (fun b => mk_button (Some newScheme) (switch_title newScheme) (switch_title newScheme)
                       (listeners b)) i (buttons t)) t).

Definition find_styles (t : theme) : theme :=
  mk_theme (color_scheme t) (system_dark t) (sheets t) (buttons t)
    (Some (query_sheets "light" (sheets t))) (Some (query_sheets "dark" (sheets t))) true.

Definition set_x_scheme (scheme : jstr) (b : button) : button :=
  mk_button (Some scheme) (title b) (aria_label b) (listeners b).
Definition add_listener (b : button) : button :=
  mk_button (x_scheme b) (title b) (aria_label b) (S (listeners b)).

Definition initializeSwitcher : H unit :=
  modify find_styles ;;;
  savedScheme ← getSavedScheme;
  switcherButtons ← gets buttons;
  if decide (length switcherButtons = 0)%nat then skip
  else
    match savedScheme with
    | Some s => modify (fun t => set_buttons (alter (set_x_scheme s) 0%nat (buttons t)) t)
    | None => skip
    end ;;;
    modify (fun t => set_buttons (map add_listener (buttons t)) t).

Definition initializeScheme : H unit :=
  savedScheme ← getSavedScheme;
  systemScheme ← getSystemScheme;
  match savedScheme with
  | None => skip
  | Some s => if decide (s = systemScheme) then skip else setScheme s
  end.

(** The handler of [popstate], and of the document being ready. *)
Definition initialize : H unit := initializeSwitcher ;;; initializeScheme.

(** ** Events *)

(** The page is loaded, with the layout or with the login form; the address
    changes; the layout replaces the login form; a click on a button; the
    system changes its scheme. *)
Inductive theme_event :=
  | Load (dark layout : bool)
  | PopState
  | NewLayout
  | Click (i : nat)
  | SystemChange (dark : bool).

(** The button of layout.ejs and the style sheets of index.html. *)
Definition layout_button : button :=
  mk_button (Some (js "auto")) (switch_title "auto") (switch_title "auto") 0.
Definition index_sheets : list jstr := [PREFERS_LIGHT; PREFERS_DARK; []].

Definition loaded (dark layout : bool) (t : theme) : theme :=
  mk_theme (color_scheme t) dark index_sheets (if layout then [layout_button] else []) None None false.

(** An exception of a listener goes to the console. *)
Definition run_handler (m : H unit) (t : theme) : theme := (m t).2.

Definition handle_theme (t : theme) (e : theme_event) : theme :=
  match e with
  | Load dark layout => run_handler initialize (loaded dark layout t)
  | PopState => run_handler initialize t
  | NewLayout => set_buttons [layout_button] t
  | Click i => Nat.iter (from_option listeners 0%nat (buttons t !! i)) (run_handler (on_click i)) t
  | SystemChange dark =>
      mk_theme (color_scheme t) dark (sheets t) (buttons t) (lightStyles t) (darkStyles t) (watched t)
  end.

Definition run_theme (t : theme) (es : list theme_event) : theme := foldl handle_theme t es.

(** The sheets that apply: light.css, dark.css and main.css of index.html. *)
Definition shown `{MediaQueries} (t : theme) : list bool :=
  map (media_matches (system_dark t)) (sheets t).

(** ** What a scheme switch promises *)

Inductive scheme := Auto | Dark | Light.

#[global] Instance scheme_eq_dec : EqDecision scheme.
Proof. solve_decision. Defined.

Definition scheme_name (s : scheme) : jstr :=
  match s with Auto => "auto" | Dark => "dark" | Light => "light" end.

(** What is stored for a scheme, and the scheme that is stored. *)
Definition stored (s : scheme) : option jstr :=
  match s with Auto => None | s => Some (scheme_name s) end.

(** The schemes in turn: the system's own scheme is left out for [Auto]. *)
Definition next_scheme (dark : bool) (s : scheme) : scheme :=
  match s with
  | Dark => if dark then Auto else Light
  | Light => if dark then Dark else Auto
  | Auto => if dark then Light else Dark
  end.

(** Whether the page is dark. *)
Definition is_dark (dark : bool) (s : scheme) : bool :=
  match s with Auto => dark | Dark => true | Light => false end.

Record spec := mk_spec { chosen : scheme; dark_system : bool }.

(** A user's view: a click chooses the next scheme, a load keeps the choice. *)
Definition spec_step (s : spec) (e : theme_event) : spec :=
  match e with
  | Click _ => mk_spec (next_scheme (dark_system s) (chosen s)) (dark_system s)
  | Load dark _ => mk_spec (chosen s) dark
  | _ => s
  end.

Definition run_spec (s : spec) (es : list theme_event) : spec := foldl spec_step s es.

(** The page shows the scheme of the specification, keeps it and its icon
    tells it. *)
Record implements `{MediaQueries} (t : theme) (s : spec) : Prop := {
  imp_stored : color_scheme t = stored (chosen s);
  imp_icon : first_scheme t = Some (scheme_name (chosen s));
  imp_shown : shown t =
    let d := is_dark (dark_system s) (chosen s) in [negb d; d; true];
}.

(** The events of a user who logs in, reloads and clicks, but does not navigate. *)
Definition stays (e : theme_event) : bool :=
  match e with Load _ layout => layout | Click i => bool_decide (i = 0)%nat | _ => false end.

(** *** The states that represent a specification *)

(** The media of the sheets for a scheme: as in index.html for [Auto], and for
    the system's own scheme right after a load. *)
Definition media_for (s : scheme) : list jstr :=
  [light_media (scheme_name s); dark_media (scheme_name s); []].

Record represents (t : theme) (s : spec) : Prop := {
  rep_stored : color_scheme t = stored (chosen s);
  rep_system : system_dark t = dark_system s;
  rep_sheets : sheets t = media_for (chosen s) \/
    (sheets t = index_sheets /\ is_dark (dark_system s) (chosen s) = dark_system s);
  rep_found : lightStyles t = Some [0%nat] /\ darkStyles t = Some [1%nat] /\ watched t = true;
  rep_button : exists title label,
    buttons t = [mk_button (Some (scheme_name (chosen s))) title label 1];
}.

(** [represents] with the fields of the state spelt out. *)
Lemma represents_intro s d m title label :
  m = media_for s \/ (m = index_sheets /\ is_dark d s = d) ->
  represents (mk_theme (stored s) d m [mk_button (Some (scheme_name s)) title label 1]
                (Some [0%nat]) (Some [1%nat]) true) (mk_spec s d).
Proof. intros Hm. constructor; cbn; eauto. Qed.

Lemma represents_inv t sp : represents t sp ->
  exists m title label,
    (m = media_for (chosen sp) \/ (m = index_sheets /\ is_dark (dark_system sp) (chosen sp) = dark_system sp)) /\
    t = mk_theme (stored (chosen sp)) (dark_system sp) m
          [mk_button (Some (scheme_name (chosen sp))) title label 1]
          (Some [0%nat]) (Some [1%nat]) true.
Proof.
  intros [Hs Hd Hm (Hl & Hk & Hw) (ti & la & Hb)]. destruct t. cbn in *. subst. eauto.
Qed.

Lemma shown_media `{MediaQueriesLaws} d s m :
  m = media_for s \/ (m = index_sheets /\ is_dark d s = d) ->
  map (media_matches d) m = let k := is_dark d s in [negb k; k; true].
Proof.
  intros [->|[-> Hd]]; destruct s; cbn -[media_matches]; cbn in *;
    rewrite ?media_none; unfold light_media, dark_media; repeat case_decide; try done;
    rewrite ?media_light, ?media_dark, ?media_all, ?media_invalid, ?Hd; by destruct d.
Qed.

Lemma represents_implements `{MediaQueriesLaws} t s : represents t s -> implements t s.
Proof.
  intros (m & ti & la & Hm & ->)%represents_inv. constructor; [done|done|].
  by apply shown_media.
Qed.

(** What a load leaves of the sheets. *)
Definition loaded_media (d : bool) (s : scheme) : list jstr :=
  if decide (is_dark d s = d) then index_sheets else media_for s.

Lemma load_state d s t : color_scheme t = stored s ->
  handle_theme t (Load d true) =
  mk_theme (stored s) d (loaded_media d s)
    [mk_button (Some (scheme_name s)) (switch_title "auto") (switch_title "auto") 1]
    (Some [0%nat]) (Some [1%nat]) true.
Proof. intros Hs. unfold handle_theme, loaded. rewrite Hs. by destruct s, d. Qed.

Lemma load_represents d s t : color_scheme t = stored s ->
  represents (handle_theme t (Load d true)) (mk_spec s d).
Proof.
  intros Hs. rewrite (load_state d s) by done. apply represents_intro.
  unfold loaded_media. case_decide; eauto.
Qed.

Lemma click_state d s m ti la :
  m = media_for s \/ m = index_sheets ->
  let n := next_scheme d s in
  handle_theme (mk_theme (stored s) d m [mk_button (Some (scheme_name s)) ti la 1]
                  (Some [0%nat]) (Some [1%nat]) true) (Click 0) =
  mk_theme (stored n) d (media_for n)
    [mk_button (Some (scheme_name n)) (switch_title (scheme_name n)) (switch_title (scheme_name n)) 1]
    (Some [0%nat]) (Some [1%nat]) true.
Proof. intros [->| ->]; by destruct s, d. Qed.

Lemma step_represents t s e : stays e = true -> represents t s ->
  represents (handle_theme t e) (spec_step s e).
Proof.
  intros He Hr. destruct e as [d []| | |i|]; try done.
  - apply load_represents. by destruct Hr.
  - apply bool_decide_eq_true in He as ->.
    apply represents_inv in Hr as (m & ti & la & Hm & ->).
    rewrite click_state by naive_solver. apply represents_intro. by left.
Qed.

Lemma run_represents es : forall t s, forallb stays es = true -> represents t s ->
  represents (run_theme t es) (run_spec s es).
Proof.
  induction es as [|e es IH]; intros t s He Hr; [done|].
  cbn in He. apply andb_true_iff in He as [He Hes].
  by apply IH, step_represents.
Qed.


(** *** Navigation within the page *)

(** After a scheme was chosen, no sheet has a media that a later search finds. *)
Record frozen (t : theme) : Prop := {
  frozen_found : lightStyles t = Some [] /\ darkStyles t = Some [];
  frozen_media : Forall (fun m => contains m "prefers-color-scheme" = false) (sheets t);
}.

Lemma query_none word l :
  Forall (fun m => contains m "prefers-color-scheme" = false) l -> query_sheets word l = [].
Proof.
  intros Hl. unfold query_sheets. rewrite (list_filter_iff _ (fun _ => False)).
  - by induction (seq 0 (length l)).
  - intros i. rewrite Forall_lookup in Hl. destruct (l !! i) as [m|] eqn:Hm.
    + change (default [] (Some m)) with m. by rewrite (Hl i m Hm).
    + done.
Qed.

(** A handler leaves the frozen sheets as they are. *)
Definition keeps_frozen (m : H unit) : Prop :=
  forall t, frozen t -> frozen (m t).2 /\ sheets (m t).2 = sheets t.

Lemma keeps_frozen_bind {A} (m : H A) (k : A -> H unit) :
  (forall t, (m t).2 = t) -> (forall a, keeps_frozen (k a)) -> keeps_frozen (m ≫= k).
Proof.
  intros Hm Hk t Ht. unfold mbind, M_bind. specialize (Hm t).
  destruct (m t) as [[a|e] t']; cbn [snd] in *; subst; [by apply Hk|done].
Qed.

Lemma keeps_frozen_seq (m k : H unit) :
  keeps_frozen m -> keeps_frozen k -> keeps_frozen (m ;;; k).
Proof.
  intros Hm Hk t Ht. unfold mbind, M_bind. specialize (Hm t Ht).
  destruct (m t) as [[[]|e] t']; cbn [snd] in *; [|done].
  destruct Hm as [Hf <-]. by apply Hk.
Qed.

Lemma keeps_frozen_modify f :
  (forall t, sheets (f t) = sheets t /\ lightStyles (f t) = lightStyles t /\
             darkStyles (f t) = darkStyles t) ->
  keeps_frozen (modify f).
Proof.
  intros Hf t [[Hl Hd] Hm]. destruct (Hf t) as (Hs & Hl' & Hd').
  cbn [modify snd]. split; [|done]. split; by rewrite ?Hl', ?Hd', ?Hs.
Qed.

Lemma keeps_frozen_skip : keeps_frozen skip.
Proof. by intros t Ht. Qed.

Lemma keeps_frozen_setScheme s : keeps_frozen (setScheme s).
Proof.
  apply keeps_frozen_seq.
  - intros [] [[Hl Hd] Hm]. cbn in *. subst. done.
  - case_decide; by apply keeps_frozen_modify.
Qed.

Lemma getSystemScheme_state t : (getSystemScheme t).2 = t.
Proof. unfold getSystemScheme. by destruct (watched t). Qed.

Lemma keeps_frozen_click i : keeps_frozen (on_click i).
Proof.
  apply keeps_frozen_bind; [done|intros c]. apply keeps_frozen_bind; [apply getSystemScheme_state|].
  intros s. apply keeps_frozen_seq; [apply keeps_frozen_setScheme|]. by apply keeps_frozen_modify.
Qed.

Lemma keeps_frozen_initialize : keeps_frozen initialize.
Proof.
  apply keeps_frozen_seq.
  - apply keeps_frozen_seq.
    + intros t [_ Hm]. cbn [modify snd]. split; [|done]. split; [|done].
      cbn. by rewrite !query_none.
    + apply keeps_frozen_bind; [done|intros s]. apply keeps_frozen_bind; [done|intros bs].
      case_decide; [apply keeps_frozen_skip|]. apply keeps_frozen_seq.
      * destruct s; [by apply keeps_frozen_modify|apply keeps_frozen_skip].
      * by apply keeps_frozen_modify.
  - apply keeps_frozen_bind; [done|intros s].
    apply keeps_frozen_bind; [apply getSystemScheme_state|intros d].
    destruct s; [|apply keeps_frozen_skip].
    case_decide; [apply keeps_frozen_skip|apply keeps_frozen_setScheme].
Qed.

Definition is_load (e : theme_event) : bool := match e with Load _ _ => true | _ => false end.

Lemma frozen_step t e : is_load e = false -> frozen t ->
  frozen (handle_theme t e) /\ sheets (handle_theme t e) = sheets t.
Proof.
  intros He Ht. destruct e as [| | |i|d]; try done; cbn [handle_theme].
  - by apply keeps_frozen_initialize.
  - destruct Ht. by split.
  - induction (from_option listeners 0%nat (buttons t !! i)) as [|k [IHf IHs]]; [done|].
    destruct (keeps_frozen_click i _ IHf) as [Hf Hs]. split; [exact Hf|etrans; [exact Hs|exact IHs]].
  - destruct Ht. by split.
Qed.

(** Once a chosen scheme was applied and the user navigated, no click, no
    navigation and no change of the system changes the sheets until the page is
    loaded again. *)
Lemma navigation_freezes_sheets t s es :
  sheets t = media_for s -> s <> Auto -> forallb (fun e => negb (is_load e)) es = true ->
  sheets (run_theme t (PopState :: es)) = sheets t.
Proof.
  intros Hs Hne Hes.
  assert (Hm : Forall (fun m => contains m "prefers-color-scheme" = false) (sheets t)).
  { rewrite Hs. destruct s; [done|by repeat constructor..]. }
  assert (Hf : frozen (handle_theme t PopState) /\ sheets (handle_theme t PopState) = sheets t).
  { cbn [handle_theme]. unfold run_handler, initialize, initializeSwitcher.
    set (t' := find_styles t).
    assert (Ht' : frozen t') by (split; [cbn; by rewrite !query_none|done]).
    pose proof (keeps_frozen_initialize t' Ht') as Hk.
    change (sheets t) with (sheets t').
    unfold initialize, initializeSwitcher in Hk. exact Hk. }
  unfold run_theme. cbn [foldl]. destruct Hf as [Hf <-]. revert Hf.
  generalize (handle_theme t PopState) as u. clear -Hes.
  induction es as [|e es IH]; intros u Hu; [done|].
  cbn in Hes. apply andb_true_iff in Hes as [He Hes]. apply negb_true_iff in He.
  destruct (frozen_step u e He Hu) as [Hf Hs]. cbn [foldl]. rewrite <- Hs. by apply IH.
Qed.

(** *** Listeners pile up *)

(** The three schemes follow each other in a circle. *)
Lemma next_scheme_cycle d s : next_scheme d (next_scheme d (next_scheme d s)) = s.
Proof. by destruct d, s. Qed.

Lemma next_scheme_ne d s : next_scheme d s <> s.
Proof. by destruct d, s. Qed.

(** Each navigation adds a listener. *)
Lemma navigation_adds_listener t s ti la k rest :
  buttons t = mk_button (Some s) ti la k :: rest ->
  map listeners (buttons (initializeSwitcher t).2) = map S (map listeners (buttons t)).
Proof.
  intros Hb. unfold initializeSwitcher, mbind, M_bind, getSavedScheme, gets, modify.
  cbn [snd fst buttons find_styles color_scheme]. rewrite Hb. cbn [length].
  case_decide; [lia|]. destruct (color_scheme t).
  - cbn [snd buttons set_buttons find_styles]. rewrite Hb. cbn. by rewrite !map_map.
  - cbn [skip mret M_ret snd buttons set_buttons find_styles]. rewrite Hb. cbn. by rewrite !map_map.
Qed.

(** One listener's work on a page with one button. *)
Lemma on_click_icon d s t b :
  watched t = true -> system_dark t = d -> buttons t = [b] -> x_scheme b = Some (scheme_name s) ->
  is_Some (lightStyles t) -> is_Some (darkStyles t) ->
  let t' := (on_click 0 t).2 in
  watched t' = true /\ system_dark t' = d /\ lightStyles t' = lightStyles t /\
  darkStyles t' = darkStyles t /\
  exists b', buttons t' = [b'] /\ x_scheme b' = Some (scheme_name (next_scheme d s)).
Proof.
  intros Hw Hd Hb Hx [ls Hl] [ds Hk]. destruct t; cbn in *; subst.
  destruct s, d; cbn in *; unfold on_click, mbind, M_bind; cbn; rewrite Hx; cbn; eauto 10.
Qed.

(** With three listeners on the button, as after two navigations, a click does
    not change its scheme; with two it changes it twice. *)
Lemma listeners_repeat_choice d s k : forall t b,
  watched t = true -> system_dark t = d -> buttons t = [b] -> x_scheme b = Some (scheme_name s) ->
  is_Some (lightStyles t) -> is_Some (darkStyles t) -> listeners b = k ->
  first_scheme (handle_theme t (Click 0)) = Some (scheme_name (Nat.iter k (next_scheme d) s)).
Proof.
  intros t b Hw Hd Hb Hx Hl Hk <-. unfold handle_theme. rewrite Hb. cbn [lookup list_lookup from_option].
  generalize (listeners b) as k. intros k.
  assert (exists b', let t' := Nat.iter k (run_handler (on_click 0)) t in
    watched t' = true /\ system_dark t' = d /\ buttons t' = [b'] /\
    x_scheme b' = Some (scheme_name (Nat.iter k (next_scheme d) s)) /\
    is_Some (lightStyles t') /\ is_Some (darkStyles t')) as (b' & H' & H1 & H2 & H3 & H4).
  { induction k as [|k (b' & H1 & H2 & H3 & H4 & H5 & H6)]; [by exists b|].
    destruct (on_click_icon d _ _ _ H1 H2 H3 H4 H5 H6) as (G1 & G2 & G3 & G4 & b2 & G5 & G6).
    exists b2. cbv zeta in *.
    change (Nat.iter (S k) (run_handler (on_click 0)) t)
      with ((on_click 0 (Nat.iter k (run_handler (on_click 0)) t)).2).
    rewrite G3, G4. done. }
  unfold first_scheme. by rewrite H2.
Qed.

Lemma three_listeners_cancel d s t b :
  watched t = true -> system_dark t = d -> buttons t = [b] -> x_scheme b = Some (scheme_name s) ->
  is_Some (lightStyles t) -> is_Some (darkStyles t) -> listeners b = 3%nat ->
  first_scheme (handle_theme t (Click 0)) = first_scheme t.
Proof.
  intros Hw Hd Hb Hx Hl Hk Hn. rewrite (listeners_repeat_choice d s 3 t b) by done.
  replace (Nat.iter 3 (next_scheme d) s) with s by (symmetry; apply next_scheme_cycle).
  unfold first_scheme. by rewrite Hb, Hx.
Qed.

(** A scheme that is the system's own is not applied by a load: the sheets
    follow the system when it changes later, although the stored scheme does not. *)
Lemma saved_scheme_follows_system `{MediaQueriesLaws} (d : bool) (t : theme) :
  let s := if d then Dark else Light in
  color_scheme t = stored s ->
  let t' := run_theme t [Load d true; SystemChange (negb d)] in
  color_scheme t' = stored s /\ shown t' = [d; negb d; true].
Proof.
  intros s Hs. cbv zeta. unfold run_theme. cbn [foldl]. rewrite (load_state d s) by done.
  split; [done|]. unfold shown, loaded_media, s. cbn [handle_theme sheets system_dark].
  rewrite decide_True by (by destruct d). unfold index_sheets. cbn [map].
  rewrite media_light, media_dark, media_none. by destruct d.
Qed.

(** After a load the title of the button tells the mode auto, whatever the scheme. *)
Lemma loaded_title d s t : color_scheme t = stored s ->
  map title (buttons (handle_theme t (Load d true))) = [switch_title "auto"].
Proof. intros Hs. by rewrite (load_state d s). Qed.

(** *** Examples *)

Module ThemeExamples.

(** The queries of the page, matched as a browser does; others are taken as invalid. *)
#[export] Instance browser_media : MediaQueries := {
  media_matches dark m :=
    if decide (m = [] \/ m = ALL) then true
    else if decide (m = PREFERS_DARK) then dark
    else if decide (m = PREFERS_LIGHT) then negb dark
    else false
}.

#[export] Instance browser_media_laws : MediaQueriesLaws.
Proof. split; intros; by vm_compute. Qed.

Definition fresh (saved : option jstr) : theme := mk_theme saved false [] [] None None false.

Definition clicks : list theme_event := [Click 0; Click 0; Load true true; Click 0].

Example dark_light_auto :
  color_scheme (run_theme (fresh None) (Load false true :: [Click 0])) = Some (js "dark") /\
  shown (run_theme (fresh None) (Load false true :: [Click 0])) = [false; true; true] /\
  shown (run_theme (fresh None) (Load false true :: [Click 0; Click 0])) = [true; false; true].
Proof. by vm_compute. Qed.

(** After two navigations a click does nothing. *)
Example navigation_breaks_click :
  let t := run_theme (fresh None) [Load false true; PopState; PopState] in
  color_scheme (handle_theme t (Click 0)) = color_scheme t /\
  shown (handle_theme t (Click 0)) = shown t.
Proof. by vm_compute. Qed.

(** Once dark was chosen and the user navigated, no number of clicks brings the
    light sheet back, although light is stored and shown by the icon. *)
Example navigation_keeps_dark :
  let t := run_theme (fresh None) [Load false true; Click 0; PopState; Click 0; Click 0] in
  color_scheme t = Some (js "light") /\ shown t = [false; true; true].
Proof. by vm_compute. Qed.


End ThemeExamples.
