(* ===== verification/OAuth.v ===== *)
(** oidc-oauth/helper.js: the login with OAuth 2.0. The settings with their
    defaults, which servers of a provider can be used, and the login and the
    logout, whose steps wait for the OIDC library.

    The library (oidc-client-ts) is not part of this code: a call of it is
    recorded, and its promise is answered by an event, with any value. *)
From S2P Require Import Prelude JsString JsNum Base64 Uri JsObject JsValue Columns Prefs Requests ChartRanges Escape Format Links World.
From Stdlib Require Import Sorted.

(** ** The settings *)

(** The settings are an object whose property oauth_resource_servers, when it is
    there, holds one object per resource; they are kept apart here, and so is
    the list the code adds. The dictionary is kept in the order of
    [Object.entries]. *)
Record auth_settings := mk_settings {
  top : obj value;
  oauth_resource_servers : option (obj (obj value));
  resource_servers : list (obj value);
}.

(** [if (!o[k]) o[k] = v] *)
Definition default_field (k : jstr) (v : value) (o : obj value) : obj value :=
  if truthy (prop o k) then o else put o k v.

(** The defaults of the settings themselves. *)
Definition top_defaults (authSettings : obj value) : obj value :=
  if truthy (prop authSettings "oauth_provider_url") then
    default_field "oauth_initiated_logon_type" (VStr "sp_initiated")
      (default_field "oauth_scopes" (VStr "openid profile")
         (default_field "oauth_response_type" (VStr "code") authSettings))
  else authSettings.

Definition default_provider (top rs : obj value) : obj value :=
  default_field "oauth_provider_url" (prop top "oauth_provider_url") rs.

(** A secret is only taken over with a client. *)
Definition default_secret (top rs : obj value) : obj value :=
  if negb (truthy (prop rs "oauth_client_secret")) && truthy (prop rs "oauth_client_id") &&
     truthy (prop top "oauth_client_secret")
  then put rs "oauth_client_secret" (prop top "oauth_client_secret") else rs.

Definition logon_type (top : obj value) : value :=
  if truthy (prop top "oauth_initiated_logon_type")
  then prop top "oauth_initiated_logon_type" else VStr "sp_initiated".

(** The rest of the defaults of a resource that has a provider. *)
Definition server_defaults (top : obj value) (resource_server_id : jstr) (rs : obj value) : obj value :=
  let rs := default_field "oauth_response_type" (prop top "oauth_response_type") rs in
  let rs := default_field "oauth_scopes" (prop top "oauth_scopes") rs in
  let rs := default_field "oauth_client_id" (prop top "oauth_client_id") rs in
  let rs := default_secret top rs in
  let rs := default_field "oauth_initiated_logon_type" (logon_type top) rs in
  let rs := put rs "sp_initiated"
              (VBool (negb (eq_word (prop rs "oauth_initiated_logon_type") "idp_initiated"))) in
  let rs := default_field "oauth_metadata_url" (prop top "metadata_url") rs in
  let rs := default_field "oauth_authorization_endpoint_params"
              (prop top "oauth_authorization_endpoint_params") rs in
  let rs := default_field "oauth_token_endpoint_params" (prop top "oauth_token_endpoint_params") rs in
  put rs "id" (VStr resource_server_id).

(** The loop over the resources: the dictionary with its objects changed, and
    the list of those that were complete. A resource without a provider ends
    the loop. *)
Fixpoint default_servers (top : obj value) (l : obj (obj value))
  : obj (obj value) * list (obj value) :=
  match l with
  | [] => ([], [])
  | (resource_server_id, rs) :: l =>
      let rs := default_provider top rs in
      if truthy (prop rs "oauth_provider_url") then
        let rs := server_defaults top resource_server_id rs in
        let '(l, pushed) := default_servers top l in
        ((resource_server_id, rs) :: l, rs :: pushed)
      else ((resource_server_id, rs) :: l, [])
  end.

Definition auth_settings_apply_defaults (authSettings : auth_settings) : auth_settings :=
  let top := top_defaults (top authSettings) in
  match oauth_resource_servers authSettings with
  | Some servers =>
      let '(servers, pushed) := default_servers top (entries servers) in
      mk_settings top (Some servers) pushed
  | None => mk_settings top None []
  end.

(** ** Addresses *)

Record location := mk_location {
  protocol : jstr;
  hostname : jstr;
  port : jstr;
  pathname : jstr;
}.

(** The first place where [/js/oidc-oauth/] with the rest of the text, or
    slashes up to the end, begin; the text before it. A path has no line breaks. *)
Fixpoint path_prefix (s : jstr) : jstr :=
  match s with
  | [] => []
  | c :: s' =>
      if starts_with s "/js/oidc-oauth/" || forallb (fun c => c =? 47) s then []
      else c :: path_prefix s'
  end.

Definition rabbit_path_prefix (l : location) : jstr := path_prefix (pathname l).

Definition rabbit_port (l : location) : jstr :=
  if decide (port l = []) then [] else ":" ++ port l.

Definition rabbit_base_uri (l : location) : jstr :=
  protocol l ++ "//" ++ hostname l ++ rabbit_port l ++ rabbit_path_prefix l.

Definition readiness_url (resource_server : obj value) : jstr :=
  if truthy (prop resource_server "oauth_metadata_url")
  then to_str (prop resource_server "oauth_metadata_url")
  else to_str (prop resource_server "oauth_provider_url") ++ "/.well-known/openid-configuration".

(** lookup_resource_server; identifiers are texts. *)
Fixpoint lookup_resource_server (resource_server_id : jstr) (l : list (obj value))
  : option (obj value) :=
  match l with
  | [] => None
  | rs :: l =>
      if eq_word (prop rs "id") resource_server_id then Some rs
      else lookup_resource_server resource_server_id l
  end.

(** [if (v) o[k] = v] *)
Definition put_if (b : bool) (k : jstr) (v : value) (o : obj value) : obj value :=
  if b then put o k v else o.

(** oidc_settings_from, without the store of the library. A property that is
    missing is not equal to the empty text, so it is handed over as undefined. *)
Definition oidc_settings_from (l : location) (rs : obj value) : obj value :=
  let s := [(js "authority", prop rs "oauth_provider_url");
            (js "metadataUrl", prop rs "oauth_metadata_url");
            (js "client_id", prop rs "oauth_client_id");
            (js "response_type", prop rs "oauth_response_type");
            (js "scope", prop rs "oauth_scopes");
            (js "redirect_uri", VStr (rabbit_base_uri l ++ "/js/oidc-oauth/login-callback.html"));
            (js "post_logout_redirect_uri", VStr (rabbit_base_uri l ++ "/"));
            (js "automaticSilentRenew", VBool true);
            (js "revokeAccessTokenOnSignout", VBool true)] in
  let s := put_if (negb (eq_empty (prop rs "end_session_endpoint"))) "metadataSeed"
             (VObj [(js "end_session_endpoint", prop rs "end_session_endpoint")]) s in
  let s := put_if (negb (eq_empty (prop rs "oauth_client_secret"))) "client_secret"
             (prop rs "oauth_client_secret") s in
  let s := put_if (truthy (prop rs "oauth_authorization_endpoint_params")) "extraQueryParams"
             (prop rs "oauth_authorization_endpoint_params") s in
  put_if (truthy (prop rs "oauth_token_endpoint_params")) "extraTokenParams"
    (prop rs "oauth_token_endpoint_params") s.

(** ** Which servers can be used *)

(** removeDuplicates (main.js): two objects are the same when they are one
    object; a reference is its number. *)
Definition removeDuplicates {A} (array : list (nat * A)) : list (nat * A) :=
  foldl (fun output item =>
      if decide (item.1 ∈ output.*1) then output else output ++ [item])
    [] array.

Definition is_string (v : value) : bool := match v with VStr _ => true | _ => false end.

(** validate_openid_configuration: the message of the error that is thrown. *)
Definition validate_openid_configuration (payload : value) : res unit :=
  if nullish payload then Throw (Thrown "Payload does not contain openid configuration")
  else
    authorization ← field payload "authorization_endpoint";
    if negb (is_string authorization) then Throw (Thrown "Missing authorization_endpoint")
    else
      token ← field payload "token_endpoint";
      if negb (is_string token) then Throw (Thrown "Missing token_endpoint")
      else
        jwks ← field payload "jwks_uri";
        if negb (is_string jwks) then Throw (Thrown "Missing jwks_uri") else Ok tt.

Definition label (resource : obj value) : value :=
  if nullish (prop resource "label") then prop resource "id" else prop resource "label".

Definition warningMessageOAuthResource (oauthResource : obj value) (reason : jstr) : jstr :=
  "OAuth resource [<b>" ++ to_str (label oauthResource) ++
  "</b>] not available. OpenId Discovery endpoint " ++ readiness_url oauthResource ++ reason.

(** [join]: a value that is missing is empty. *)
Definition join_text (v : value) : jstr := if nullish v then [] else to_str v.

Definition warningMessageOAuthResources (commonProviderURL : jstr) (oauthResources : list (obj value))
  (reason : jstr) : jstr :=
  "OAuth resources [ <b>" ++ join "</b>,<b>" (map (fun r => join_text (label r)) oauthResources) ++
  "</b>] not available. OpenId Discovery endpoint " ++ commonProviderURL ++ reason.

(** The answer to a request, or the end of a promise. *)
Inductive settled := Fulfilled (v : value) | Rejected (e : value).

(** The state of a login with OAuth: the global variable oauth. *)
Record oauth_state := mk_oauth {
  logged_in : bool;
  enabled : value;
  servers : list (obj value);
  oauth_disable_basic_auth : value;
  strict_auth_mechanism : value;
  preferred_auth_mechanism : value;
  sp_initiated : value;
  authority : value;
  declared_resource_servers_count : option Z;
  user_name : value;
  scopes : value;
  expiryDate : option num;      (* of the token, in milliseconds *)
}.

Definition is_sp (resource : obj value) : bool := truthy (prop resource "sp_initiated").

Definition provider (resource : obj value) : value := prop resource "oauth_provider_url".

(** [===] of values other than objects. *)
Definition same_value (v w : value) : bool :=
  match v, w with
  | VUndef, VUndef | VNull, VNull | VNaN, VNaN => true
  | VBool b, VBool c => eqb b c
  | VNum n, VNum m => negb (num_ltb n m) && negb (num_ltb m n)
  | VStr s, VStr t => bool_decide (s = t)
  | _, _ => false
  end.

Definition includes (l : list value) (v : value) : bool := existsb (same_value v) l.

(** The servers whose configuration could not be read, and those whose
    configuration is not one of OpenID. *)
Definition sort_result (acc : list value * list value) (r : settled * obj value)
  : list value * list value :=
  let '(notReady, notCompliant) := acc in
  match r with
  | (Rejected _, server) => (notReady ++ [provider server], notCompliant)
  | (Fulfilled payload, server) =>
      match validate_openid_configuration payload with
      | Ok _ => acc
      | Throw _ => (notReady, notCompliant ++ [provider server])
      end
  end.

Definition sort_results (results : list settled) (oauthServers : list (obj value))
  : list value * list value :=
  foldl sort_result ([], []) (zip results oauthServers).

(** [group[url] = group[url] ?? []; group[url].push(server)]: a name that every
    object inherits is not a list. *)
Definition group_step (group : obj (list (obj value))) (server : obj value)
  : res (obj (list (obj value))) :=
  let url := to_str (provider server) in
  match get group url with
  | Some l => Ok (put group url (l ++ [server]))
  | None => if decide (url ∈ PROTOTYPE) then Throw TypeError else Ok (put group url [server])
  end.

Fixpoint group_servers (group : obj (list (obj value))) (l : list (obj value))
  : res (obj (list (obj value))) :=
  match l with
  | [] => Ok group
  | server :: l => g ← group_step group server; group_servers g l
  end.

Definition warn (url : jstr) (resources : list (obj value)) (reason : jstr) : list jstr :=
  match resources with
  | [] => []
  | [r] => [warningMessageOAuthResource r reason]
  | _ => [warningMessageOAuthResources url resources reason]
  end.

Definition group_warnings (notReady notCompliant : list value) (g : jstr * list (obj value))
  : list jstr :=
  warn g.1 (List.filter (fun r => includes notReady (provider r)) g.2) " not reachable" ++
  warn g.1 (List.filter (fun r => includes notCompliant (provider r)) g.2) " not compliant".

(** [a.index - b.index > 0]; a difference that is not a number counts as 0. *)
Definition index_after (a b : obj value) : bool :=
  match prop a "index", prop b "index" with VNum x, VNum y => num_ltb y x | _, _ => false end.

(** A stable sort by index. *)
Fixpoint insert_by_index (x : obj value) (l : list (obj value)) : list (obj value) :=
  match l with
  | [] => [x]
  | y :: l' => if index_after x y then y :: insert_by_index x l' else x :: l
  end.

Definition sort_by_index (l : list (obj value)) : list (obj value) := foldr insert_by_index [] l.

Definition set_servers (count : Z) (l : list (obj value)) (o : oauth_state) : oauth_state :=
  mk_oauth (logged_in o) (enabled o) l (oauth_disable_basic_auth o) (strict_auth_mechanism o)
    (preferred_auth_mechanism o) (sp_initiated o) (authority o) (Some count) (user_name o)
    (scopes o) (expiryDate o).

(** The servers that are asked for their configuration. *)
Definition asked_servers (o : oauth_state) : list (obj value) :=
  (removeDuplicates (imap pair (List.filter is_sp (servers o)))).*2.

(** hasAnyResourceServerReady, once the answers are there (one per server that
    was asked): what the callback is given. *)
Definition servers_ready (o : oauth_state) (results : list settled) : res (oauth_state * list jstr) :=
  let oauthServers := asked_servers o in
  match oauthServers with
  | [] => Ok (o, [])
  | _ =>
      let '(notReadyServers, notCompliantServers) := sort_results results oauthServers in
      groupByProviderURL ← group_servers [] (List.filter is_sp (servers o));
      let warnings :=
        concat (map (group_warnings notReadyServers notCompliantServers) (entries groupByProviderURL)) in
      let rest := List.filter (fun r => negb (includes notReadyServers (provider r)) &&
                                        negb (includes notCompliantServers (provider r))) (servers o) in
      Ok (set_servers (Z.of_nat (length (servers o))) (sort_by_index rest) o, warnings)
  end.

(** *** Facts of the parts *)

Lemma removeDuplicates_distinct {A} (l : list A) : (removeDuplicates (imap pair l)).*2 = l.
Proof.
  unfold removeDuplicates.
  assert (H : forall k (out : list (nat * A)),
    Forall (fun i => i.1 < k)%nat out ->
    foldl (fun output item => if decide (item.1 ∈ output.*1) then output else output ++ [item])
      out (imap (fun i x => (k + i, x)%nat) l) = out ++ imap (fun i x => (k + i, x)%nat) l).
  { induction l as [|x l IH]; intros k out Hout; [by rewrite app_nil_r|].
    cbn [imap foldl]. rewrite decide_False.
    - rewrite (imap_ext _ (fun i x => (S k + i, x)%nat)); [|intros i y _; unfold compose; f_equal; lia].
      rewrite IH; [by rewrite <- app_assoc|].
      apply Forall_app. split; [eapply Forall_impl; [exact Hout|]; intros y Hy; cbv beta in *; lia|].
      apply Forall_singleton. cbn. lia.
    - cbn. intros (i & Hi & Hin)%list_elem_of_fmap. rewrite Forall_forall in Hout.
      specialize (Hout i Hin). lia. }
  specialize (H 0%nat [] (Forall_nil_2 _)). cbn [app Nat.add] in H.
  change (imap pair l) with (imap (fun i (x : A) => (i, x)) l). rewrite H.
  clear H. rewrite fmap_imap. rewrite (imap_ext _ (fun _ x => x)) by done.
  induction l as [|x l IH]; [done|]. cbn. f_equal. exact IH.
Qed.

Lemma asked_servers_sp o : asked_servers o = List.filter is_sp (servers o).
Proof. apply removeDuplicates_distinct. Qed.

(** A server cannot be used. *)
Definition rejected (r : settled) : bool := match r with Rejected _ => true | _ => false end.
Definition not_compliant (r : settled) : bool :=
  match r with
  | Fulfilled p => match validate_openid_configuration p with Ok _ => false | Throw _ => true end
  | _ => false
  end.

Lemma sort_results_eq results l :
  sort_results results l =
  (map (fun r => provider r.2) (List.filter (fun r => rejected r.1) (zip results l)),
   map (fun r => provider r.2) (List.filter (fun r => not_compliant r.1) (zip results l))).
Proof.
  unfold sort_results.
  assert (H : forall z a b, foldl sort_result (a, b) z =
    (a ++ map (fun r => provider r.2) (List.filter (fun r => rejected r.1) z),
     b ++ map (fun r => provider r.2) (List.filter (fun r => not_compliant r.1) z))).
  { intros z. induction z as [|[r s] z IH]; intros a b; [by rewrite !app_nil_r|].
    cbn [foldl]. rewrite <- 1?IH. destruct r as [p|e]; cbn [sort_result List.filter fst rejected not_compliant].
    - destruct (validate_openid_configuration p); rewrite IH; [done|]. cbn. by rewrite <- app_assoc.
    - rewrite IH. cbn. by rewrite <- app_assoc. }
  by rewrite H.
Qed.

Lemma includes_map (f : settled -> bool) z v :
  includes (map (fun r : settled * obj value => provider r.2) (List.filter (fun r => f r.1) z)) v = true <->
  exists a s, (a, s) ∈ z /\ f a = true /\ same_value v (provider s) = true.
Proof.
  unfold includes. rewrite existsb_exists. setoid_rewrite in_map_iff. setoid_rewrite filter_In.
  setoid_rewrite list_elem_of_In. split.
  - intros (x & ([a s] & <- & Hin & Hf) & Hs). eauto 10.
  - intros (a & s & Hin & Hf & Hs). exists (provider s). split; [|done]. by exists (a, s).
Qed.

Lemma insert_by_index_perm x l : insert_by_index x l ≡ₚ x :: l.
Proof. induction l as [|y l IH]; cbn; [done|]. destruct (index_after x y); [|done]. rewrite IH. constructor. Qed.

Lemma sort_by_index_perm l : sort_by_index l ≡ₚ l.
Proof. induction l as [|x l IH]; [done|]. cbn. by rewrite insert_by_index_perm, IH. Qed.

Definition in_order (a b : obj value) : Prop := index_after a b = false.

Lemma index_after_asym a b : index_after a b = true -> in_order b a.
Proof.
  unfold in_order, index_after. destruct (prop a "index"), (prop b "index"); try done.
  unfold num_ltb. lia.
Qed.

Lemma insert_by_index_sorted x l : Sorted in_order l -> Sorted in_order (insert_by_index x l).
Proof.
  induction 1 as [|y l Hs IH Hhd]; cbn; [by repeat constructor|].
  destruct (index_after x y) eqn:Hxy.
  - constructor; [done|]. destruct Hhd as [|z l Hyz]; cbn.
    + constructor. by apply index_after_asym.
    + destruct (index_after x z); constructor; [done|by apply index_after_asym].
  - repeat constructor; [done|done|done].
Qed.

Lemma sort_by_index_sorted l : Sorted in_order (sort_by_index l).
Proof. induction l; cbn; [constructor|by apply insert_by_index_sorted]. Qed.

(** Every server is in the group of the text of its provider. *)
Lemma group_servers_ok l : forall g,
  (forall s, s ∈ l -> to_str (provider s) ∉ PROTOTYPE) ->
  exists g', group_servers g l = Ok g' /\
    (forall url ls s, get g url = Some ls -> s ∈ ls ->
       exists ls', get g' url = Some ls' /\ s ∈ ls') /\
    forall s, s ∈ l -> exists ls, get g' (to_str (provider s)) = Some ls /\ s ∈ ls.
Proof.
  induction l as [|x l IH]; intros g Hl.
  - exists g. split; [done|]. split; [by eauto|]. by intros s ?%elem_of_nil.
  - cbn [group_servers]. unfold group_step.
    set (url := to_str (provider x)). set (old := default [] (get g url)).
    assert (Hstep : (match get g url with
                     | Some l => Ok (put g url (l ++ [x]))
                     | None => if decide (url ∈ PROTOTYPE) then Throw TypeError
                               else Ok (put g url [x])
                     end) = Ok (put g url (old ++ [x]))).
    { unfold old. destruct (get g url); [done|]. rewrite decide_False; [done|]. apply Hl. left. }
    rewrite Hstep. cbn [mbind res_bind].
    destruct (IH (put g url (old ++ [x]))) as (g' & Hg' & Hold & Hnew).
    { intros s Hs. apply Hl. by right. }
    exists g'. split; [done|]. split.
    + intros u ls s Hget Hin. destruct (decide (u = url)) as [->|Hu].
      * apply (Hold url (old ++ [x])); [by rewrite get_put|].
        unfold old. rewrite Hget. apply elem_of_app. by left.
      * apply (Hold u ls); [by rewrite get_put_ne|done].
    + intros s [->|Hs]%elem_of_cons; [|by apply Hnew].
      apply (Hold url (old ++ [x])); [by rewrite get_put|]. apply elem_of_app. right. by left.
Qed.

Lemma group_servers_nodup l : forall g g',
  NoDup (keys_of g) -> group_servers g l = Ok g' -> NoDup (keys_of g').
Proof.
  induction l as [|x l IH]; intros g g' Hg; cbn [group_servers]; [by intros [= <-]|].
  intros (g1 & H1 & H2)%res_bind_ok. apply (IH g1); [|done].
  revert H1. unfold group_step. destruct (get _ _); [|case_decide]; intros [= <-]; eauto with js_db.
Qed.

(** Some part of the text. *)
Definition mentions (text part : jstr) : Prop := exists a b, text = a ++ part ++ b.

Lemma mentions_app_l a t p : mentions t p -> mentions (a ++ t) p.
Proof. intros (x & y & ->). exists (a ++ x), y. by rewrite <- app_assoc. Qed.
Lemma mentions_app_r a t p : mentions t p -> mentions (t ++ a) p.
Proof. intros (x & y & ->). exists x, (y ++ a). by rewrite <- !app_assoc. Qed.

Lemma mentions_nil t : mentions t [].
Proof. by exists [], t. Qed.
Lemma mentions_here p b : mentions (p ++ b) p.
Proof. by exists [], b. Qed.

Lemma mentions_join sep l p : p ∈ l -> mentions (join sep l) p.
Proof.
  induction l as [|x l IH]; intros Hp; [by apply elem_of_nil in Hp|].
  destruct l as [|y l].
  - apply list_elem_of_singleton in Hp as ->. exists [], []. cbn. by rewrite app_nil_r.
  - change (join sep (x :: y :: l)) with (x ++ sep ++ join sep (y :: l)).
    apply elem_of_cons in Hp as [->|Hp]; [apply mentions_here|].
    by apply mentions_app_l, mentions_app_l, IH.
Qed.

Lemma warn_mentions url l reason s : s ∈ l ->
  exists w, w ∈ warn url l reason /\ mentions w (join_text (label s)).
Proof.
  intros Hs. destruct l as [|x [|y l]]; [by apply elem_of_nil in Hs| |].
  - apply list_elem_of_singleton in Hs as ->. eexists. split; [by left|].
    unfold warningMessageOAuthResource. unfold join_text.
    destruct (nullish (label x)); [apply mentions_nil|]. apply mentions_app_l, mentions_here.
  - eexists. split; [by left|]. unfold warningMessageOAuthResources.
    apply mentions_app_l, mentions_app_r, mentions_join.
    apply (list_elem_of_fmap_2 (fun r => join_text (label r))). exact Hs.
Qed.

(** A resource whose provider did not answer, or not as OpenID asks. *)
Definition answered_badly (a : settled) : bool := rejected a || not_compliant a.

Definition unusable (o : oauth_state) (results : list settled) (s : obj value) : Prop :=
  exists a server, (a, server) ∈ zip results (List.filter is_sp (servers o)) /\
    answered_badly a = true /\ same_value (provider s) (provider server) = true.

Lemma includes_unusable o results s :
  let z := zip results (List.filter is_sp (servers o)) in
  includes (map (fun r => provider r.2) (List.filter (fun r => rejected r.1) z)) (provider s) ||
  includes (map (fun r => provider r.2) (List.filter (fun r => not_compliant r.1) z)) (provider s) = true <->
  unusable o results s.
Proof.
  cbv zeta. rewrite orb_true_iff, !includes_map. unfold unusable, answered_badly.
  setoid_rewrite orb_true_iff. naive_solver.
Qed.

Lemma no_bad_answer o results s :
  Forall (fun a => answered_badly a = false) results -> ~ unusable o results s.
Proof.
  intros Hg (a & sp & Hin & Hb & _). rewrite Forall_forall in Hg.
  apply elem_of_zip_l in Hin. rewrite (Hg a Hin) in Hb. done.
Qed.

Lemma group_warnings_none rejecteds incompliants url l :
  (forall s, s ∈ l -> includes rejecteds (provider s) || includes incompliants (provider s) = false) ->
  group_warnings rejecteds incompliants (url, l) = [].
Proof.
  intros Hl. unfold group_warnings. cbn [fst snd].
  assert (Hf : forall (f : obj value -> bool), (forall s, s ∈ l -> f s = false) -> List.filter f l = []).
  { clear Hl. intros f. induction l as [|x l IH]; intros Hf; [done|]. cbn.
    rewrite Hf by left. apply IH. intros s Hs. apply Hf. by right. }
  rewrite !Hf; [done|..]; intros s Hs; specialize (Hl s Hs); apply orb_false_iff in Hl; by destruct Hl.
Qed.

Lemma group_warnings_mention bad1 bad2 g s : s ∈ g.2 ->
  includes bad1 (provider s) || includes bad2 (provider s) = true ->
  exists w, w ∈ group_warnings bad1 bad2 g /\ mentions w (join_text (label s)).
Proof.
  intros Hs Hb. apply orb_true_iff in Hb. unfold group_warnings. setoid_rewrite elem_of_app.
  destruct Hb as [Hb|Hb].
  - destruct (warn_mentions g.1 (List.filter (fun r => includes bad1 (provider r)) g.2) " not reachable" s)
      as (w & Hw & Hm); [|by eauto].
    apply list_elem_of_In, filter_In. by rewrite <- list_elem_of_In.
  - destruct (warn_mentions g.1 (List.filter (fun r => includes bad2 (provider r)) g.2) " not compliant" s)
      as (w & Hw & Hm); [|by eauto].
    apply list_elem_of_In, filter_In. by rewrite <- list_elem_of_In.
Qed.

(** With an answer for every server that was asked, [servers_ready] computes
    its result from the two kinds of bad answers. *)
Lemma servers_ready_eq o results :
  let sp := List.filter is_sp (servers o) in
  let z := zip results sp in
  let bad1 := map (fun r => provider r.2) (List.filter (fun r => rejected r.1) z) in
  let bad2 := map (fun r => provider r.2) (List.filter (fun r => not_compliant r.1) z) in
  sp <> [] ->
  servers_ready o results =
    g ← group_servers [] sp;
    Ok (set_servers (Z.of_nat (length (servers o)))
          (sort_by_index (List.filter (fun r => negb (includes bad1 (provider r)) &&
                                                negb (includes bad2 (provider r))) (servers o))) o,
        concat (map (group_warnings bad1 bad2) (entries g))).
Proof.
  intros sp z bad1 bad2 Hsp. unfold servers_ready. rewrite asked_servers_sp. fold sp.
  destruct sp as [|x l] eqn:E; [done|]. rewrite sort_results_eq. done.
Qed.

(** The servers offered for the login are those that can be used. Whatever
    the providers answer, the callback is given the resources whose provider is
    not among those that did not answer or not with an OpenID configuration,
    ordered by index; every resource started by the UI that was left out is
    named in a warning; and when all answers are good nothing is left out and
    there is no warning. *)
Theorem servers_ready_spec o results :
  (forall s, s ∈ servers o -> is_sp s = true -> to_str (provider s) ∉ PROTOTYPE) ->
  exists o' warnings,
    servers_ready o results = Ok (o', warnings) /\
    (forall s, s ∈ servers o' <-> s ∈ servers o /\ ~ unusable o results s) /\
    (List.filter is_sp (servers o) <> [] -> Sorted in_order (servers o') /\
       declared_resource_servers_count o' = Some (Z.of_nat (length (servers o)))) /\
    (forall s, s ∈ servers o -> is_sp s = true -> unusable o results s ->
       exists w, w ∈ warnings /\ mentions w (join_text (label s))) /\
    (Forall (fun a => answered_badly a = false) results ->
       warnings = [] /\ servers o' ≡ₚ servers o).
Proof.
  intros Hproto. set (sp := List.filter is_sp (servers o)).
  destruct (decide (sp = [])) as [Hsp|Hsp].
  { exists o, []. unfold servers_ready. rewrite asked_servers_sp. fold sp. rewrite Hsp.
    assert (Hno : forall s, ~ unusable o results s).
    { intros s (a & t & Hin & _). fold sp in Hin. rewrite Hsp in Hin.
      destruct results; by apply elem_of_nil in Hin. }
    split; [done|]. split; [naive_solver|]. split; [by intros []|]. split; [|done].
    intros s _ _ Hs. by destruct (Hno s). }
  rewrite servers_ready_eq by done. fold sp.
  destruct (group_servers_ok sp []) as (g & Hg & _ & Hall).
  { intros s Hs. apply list_elem_of_In, filter_In in Hs as [Hs1 Hs2].
    apply Hproto; [by apply list_elem_of_In|done]. }
  rewrite Hg. cbn [mbind res_bind]. eexists _, _. split; [reflexivity|].
  pose proof (includes_unusable o results) as Hun. cbv zeta in Hun. fold sp in Hun.
  set (bad1 := map _ (List.filter (fun r => rejected r.1) _)) in *.
  set (bad2 := map _ (List.filter (fun r => not_compliant r.1) _)) in *.
  set (kept := fun r : obj value => negb (includes bad1 (provider r)) && negb (includes bad2 (provider r))).
  assert (Hkept : forall s, kept s = true <-> ~ unusable o results s).
  { intros s. rewrite <- Hun. unfold kept. rewrite <- negb_orb, negb_true_iff, not_true_iff_false. done. }
  split_and!.
  - intros s. cbn [servers set_servers]. rewrite sort_by_index_perm, list_elem_of_In, filter_In.
    by rewrite <- list_elem_of_In, Hkept.
  - intros _. split; [apply sort_by_index_sorted|done].
  - intros s Hs Hsps Hs'. apply Hun in Hs'.
    destruct (Hall s) as (ls & Hls & Hin).
    { apply list_elem_of_In, filter_In. by rewrite <- list_elem_of_In. }
    destruct (group_warnings_mention bad1 bad2 (to_str (provider s), ls) s Hin Hs') as (w & Hw & Hm).
    exists w. split; [|done]. apply list_elem_of_In, in_concat.
    exists (group_warnings bad1 bad2 (to_str (provider s), ls)).
    split; [|by apply list_elem_of_In].
    apply in_map, list_elem_of_In. rewrite entries_perm. by apply get_In.
  - intros Hgood.
    assert (Hno : forall s, includes bad1 (provider s) || includes bad2 (provider s) = false).
    { intros s. apply not_true_iff_false. rewrite Hun. by apply no_bad_answer. }
    split.
    + generalize (entries g). intros l. induction l as [|[u ls] l IH]; [done|].
      cbn [map concat]. rewrite IH, group_warnings_none; [done|]. auto.
    + cbn [servers set_servers]. rewrite sort_by_index_perm.
      rewrite forallb_filter_id; [done|]. apply forallb_forall. intros s _.
      apply Hkept. by apply no_bad_answer.
Qed.

(** ** The defaults *)

(** Decides the comparisons of the names of properties. *)
Ltac decide_names :=
  repeat match goal with
  | |- context [bool_decide (?a = ?b)] =>
      let r := eval vm_compute in (bool_decide (a = b)) in
      lazymatch r with true => idtac | false => idtac end;
      change (bool_decide (a = b)) with r
  end.

Lemma prop_put o k v k' : prop (put o k v) k' = if bool_decide (k = k') then v else prop o k'.
Proof. unfold prop. case_bool_decide; subst; [by rewrite get_put|by rewrite get_put_ne]. Qed.

(** The value of a property that has a default. *)
Definition or_default (own v : value) : value := if truthy own then own else v.

Lemma prop_default_field k v o k' :
  prop (default_field k v o) k' =
  if bool_decide (k = k') then or_default (prop o k) v else prop o k'.
Proof.
  unfold default_field, or_default. destruct (truthy (prop o k)) eqn:E; [|apply prop_put].
  case_bool_decide; by subst.
Qed.

Lemma prop_default_secret top rs k :
  prop (default_secret top rs) k =
  if bool_decide (js "oauth_client_secret" = k) then
    if negb (truthy (prop rs "oauth_client_secret")) && truthy (prop rs "oauth_client_id") &&
       truthy (prop top "oauth_client_secret")
    then prop top "oauth_client_secret" else prop rs "oauth_client_secret"
  else prop rs k.
Proof.
  unfold default_secret. destruct (_ && _); [apply prop_put|]. case_bool_decide; by subst.
Qed.

(** The properties that a resource takes over from the settings as they are. *)
Definition inherited : list (jstr * jstr) :=
  [(js "oauth_provider_url", js "oauth_provider_url");
   (js "oauth_response_type", js "oauth_response_type");
   (js "oauth_scopes", js "oauth_scopes");
   (js "oauth_client_id", js "oauth_client_id");
   (js "oauth_metadata_url", js "metadata_url");
   (js "oauth_authorization_endpoint_params", js "oauth_authorization_endpoint_params");
   (js "oauth_token_endpoint_params", js "oauth_token_endpoint_params")].

(** A resource as it is configured: its own values first, those of the settings
    otherwise, and whether the login starts here. *)
Record configured (top : obj value) (id : jstr) (rs0 rs : obj value) : Prop := {
  conf_id : prop rs "id" = VStr id;
  conf_provider : truthy (provider rs) = true;
  conf_inherited : Forall (fun kk => prop rs kk.1 = or_default (prop rs0 kk.1) (prop top kk.2)) inherited;
  conf_logon : prop rs "oauth_initiated_logon_type" =
    or_default (prop rs0 "oauth_initiated_logon_type") (logon_type top);
  conf_sp : prop rs "sp_initiated" =
    VBool (negb (eq_word (prop rs "oauth_initiated_logon_type") "idp_initiated"));
  conf_secret : prop rs "oauth_client_secret" =
    or_default (prop rs0 "oauth_client_secret")
      (if truthy (prop rs "oauth_client_id") && truthy (prop top "oauth_client_secret")
       then prop top "oauth_client_secret" else prop rs0 "oauth_client_secret");
}.

(** Reads properties of an object with defaults and assignments. *)
Ltac read_props :=
  repeat (first [rewrite prop_default_secret | rewrite prop_put | rewrite prop_default_field];
          decide_names; cbv iota).

Lemma server_configured top id rs0 :
  truthy (provider (default_provider top rs0)) = true ->
  configured top id rs0 (server_defaults top id (default_provider top rs0)).
Proof.
  unfold server_defaults, default_provider, provider. intros Hp.
  split; unfold provider.
  - by read_props.
  - revert Hp. by read_props.
  - unfold inherited. repeat apply List.Forall_cons; cbn [fst snd]; [by read_props..|constructor].
  - by read_props.
  - by read_props.
  - read_props. unfold or_default at 2. destruct (truthy (prop rs0 "oauth_client_secret")); [done|].
    cbn [negb andb]. by repeat case_match.
Qed.

(** The settings of each resource. The resources up to the first one that
    has no provider, in the order of the settings, are made ready: each keeps
    its own values and takes over those of the settings it lacks; its login
    starts here unless the provider starts it; it takes over the secret only
    with a client. When the settings have a provider, no resource is left out. *)
Theorem apply_defaults_spec s dict :
  oauth_resource_servers s = Some dict ->
  let t := top_defaults (top s) in
  let ready := resource_servers (auth_settings_apply_defaults s) in
  exists k : nat, (k <= length dict)%nat /\
    Forall2 (fun kv rs => configured t kv.1 kv.2 rs) (take k (entries dict)) ready /\
    (forall id rs, entries dict !! k = Some (id, rs) ->
       truthy (prop rs "oauth_provider_url") = false /\ truthy (prop t "oauth_provider_url") = false) /\
    (truthy (prop t "oauth_provider_url") = true -> k = length dict).
Proof.
  intros Hs t ready. unfold ready, auth_settings_apply_defaults. rewrite Hs. fold t.
  rewrite <- (Permutation_length (entries_perm dict)).
  destruct (default_servers t (entries dict)) as [d pushed] eqn:E. cbn [resource_servers].
  revert d pushed E. induction (entries dict) as [|[id rs] l IH]; intros d pushed E.
  { exists 0%nat. injection E as <- <-. by split_and!. }
  cbn [default_servers] in E.
  destruct (truthy (prop (default_provider t rs) "oauth_provider_url")) eqn:Hp.
  - destruct (default_servers t l) as [d' p'] eqn:E'. injection E as <- <-.
    destruct (IH d' p' eq_refl) as (k & Hk & Hf & Hn & Hall). exists (S k). cbn [length take lookup].
    split; [lia|]. split; [constructor; [by apply server_configured|done]|]. split; [done|].
    intros Ht. by rewrite Hall.
  - injection E as <- <-. exists 0%nat. cbn [length take].
    unfold default_provider in Hp. rewrite prop_default_field in Hp. revert Hp. decide_names.
    cbv iota. unfold or_default. destruct (truthy (prop rs "oauth_provider_url")) eqn:Hr; [congruence|].
    intros Ht. split; [lia|]. split; [constructor|]. split; [|congruence].
    intros id' rs' [= <- <-]. done.
Qed.

(** ** The login as a state machine *)

(** A call of the OIDC library. *)
Inductive oidc_call :=
  | NewManager (settings : obj value)
  | SigninRedirect
  | SigninRedirectCallback
  | GetUser
  | GetEndSessionEndpoint
  | RemoveUser
  | SignoutRedirect
  | SignoutRedirectCallback.

(** What waits for a promise of the library. *)
Inductive oidc_cont :=
  | StatusKnown      (* oauth_initiate *)
  | SigninStarted    (* oauth_initiateLogin: it only writes to the console *)
  | SigninDone       (* oauth_completeLogin *)
  | LogoutUser | LogoutEndpoint | LogoutRemoved      (* oauth_initiateLogout *)
  | LogoutDone.      (* oauth_completeLogout *)

(** The state: that of the page, the settings, the global variable oauth (not
    there before it was initialized), the settings of the manager, and the
    promises that wait. *)
Record site (J : Type) := mk_site {
  base : world J;
  oauth_settings : auth_settings;
  oauth : option oauth_state;
  mgr : option (obj value);
  next_promise : nat;
  promises : list (nat * oidc_cont);
  calls : list oidc_call;
}.
Arguments mk_site {J} _ _ _ _ _ _ _.
Arguments base {J} _.
Arguments oauth_settings {J} _.
Arguments oauth {J} _.
Arguments mgr {J} _.
Arguments next_promise {J} _.
Arguments promises {J} _.
Arguments calls {J} _.

Definition set_base {J : Type} (w : world J) (s : site J) : site J :=
  mk_site w (oauth_settings s) (oauth s) (mgr s) (next_promise s) (promises s) (calls s).
Definition set_settings {J : Type} (a : auth_settings) (s : site J) : site J :=
  mk_site (base s) a (oauth s) (mgr s) (next_promise s) (promises s) (calls s).
Definition set_oauth {J : Type} (o : option oauth_state) (s : site J) : site J :=
  mk_site (base s) (oauth_settings s) o (mgr s) (next_promise s) (promises s) (calls s).
Definition set_mgr {J : Type} (m : obj value) (s : site J) : site J :=
  mk_site (base s) (oauth_settings s) (oauth s) (Some m) (next_promise s) (promises s) (calls s).
Definition add_call {J : Type} (c : oidc_call) (s : site J) : site J :=
  mk_site (base s) (oauth_settings s) (oauth s) (mgr s) (next_promise s) (promises s) (calls s ++ [c]).
Definition add_promise {J : Type} (k : oidc_cont) (s : site J) : site J :=
  mk_site (base s) (oauth_settings s) (oauth s) (mgr s) (S (next_promise s))
    (promises s ++ [(next_promise s, k)]) (calls s).
Definition drop_promise {J : Type} (i : nat) (s : site J) : site J :=
  mk_site (base s) (oauth_settings s) (oauth s) (mgr s) (next_promise s)
    (filter (fun p => p.1 <> i) (promises s)) (calls s).

(** Changes of the variable oauth. *)
Definition set_logged_in (b : bool) (o : oauth_state) : oauth_state :=
  mk_oauth b (enabled o) (servers o) (oauth_disable_basic_auth o) (strict_auth_mechanism o)
    (preferred_auth_mechanism o) (sp_initiated o) (authority o) (declared_resource_servers_count o)
    (user_name o) (scopes o) (expiryDate o).
Definition set_resource (rs : obj value) (o : oauth_state) : oauth_state :=
  mk_oauth (logged_in o) (enabled o) (servers o) (oauth_disable_basic_auth o) (strict_auth_mechanism o)
    (preferred_auth_mechanism o) (prop rs "sp_initiated") (provider rs)
    (declared_resource_servers_count o) (user_name o) (scopes o) (expiryDate o).
Definition set_mechanisms (strict preferred : value) (o : oauth_state) : oauth_state :=
  mk_oauth (logged_in o) (enabled o) (servers o) (oauth_disable_basic_auth o) strict preferred
    (sp_initiated o) (authority o) (declared_resource_servers_count o) (user_name o) (scopes o)
    (expiryDate o).
Definition set_expiry (d : option num) (o : oauth_state) : oauth_state :=
  mk_oauth (logged_in o) (enabled o) (servers o) (oauth_disable_basic_auth o) (strict_auth_mechanism o)
    (preferred_auth_mechanism o) (sp_initiated o) (authority o) (declared_resource_servers_count o)
    (user_name o) (scopes o) d.
Definition set_user_name (n : value) (o : oauth_state) : oauth_state :=
  mk_oauth (logged_in o) (enabled o) (servers o) (oauth_disable_basic_auth o) (strict_auth_mechanism o)
    (preferred_auth_mechanism o) (sp_initiated o) (authority o) (declared_resource_servers_count o)
    n (scopes o) (expiryDate o).
Definition set_scopes (v : value) (o : oauth_state) : oauth_state :=
  mk_oauth (logged_in o) (enabled o) (servers o) (oauth_disable_basic_auth o) (strict_auth_mechanism o)
    (preferred_auth_mechanism o) (sp_initiated o) (authority o) (declared_resource_servers_count o)
    (user_name o) v (expiryDate o).

Section Login.
Context {J : Type} {CJ : CookieJar J} {CK : Clock}.
(** The address of the page, and the text of an exception. *)
Variable here : location.
Variable error_text : exn -> jstr.
Notation H := (M (site J)).

Definition on_base {A} (m : M (world J) A) : H A := fun s =>
  let '(r, w) := m (base s) in (r, set_base w s).
Definition on_page {A} (m : M (page J) A) : H A := on_base (on_prefs m).

(** [location.href = url] *)
Definition go (url : jstr) : H unit := on_base (emit (GoTo url)).

Definition set_oauth_settings (settings : auth_settings) : H unit := modify (set_settings settings).

Definition the_oauth : H oauth_state :=
  o ← gets oauth; match o with Some o => mret o | None => throw TypeError end.
Definition update_oauth (f : oauth_state -> oauth_state) : H unit :=
  o ← the_oauth; modify (set_oauth (Some (f o))).

(** A method of the manager, whose promise [k] waits for. *)
Definition call (c : oidc_call) : H unit :=
  m ← gets mgr; match m with Some _ => modify (add_call c) | None => throw TypeError end.
Definition call_then (c : oidc_call) (k : oidc_cont) : H unit := call c ;;; modify (add_promise k).

(** oauth_initialize_user_manager *)
Definition oauth_initialize_user_manager (resource_server : obj value) : H unit :=
  let s := oidc_settings_from here resource_server in
  modify (add_call (NewManager s)) ;;; modify (set_mgr s).

Definition go_to (path : jstr) : H unit := go (rabbit_path_prefix here ++ "/" ++ path).
Definition go_to_home : H unit := go "/".
Definition go_to_authority : H unit := o ← the_oauth; go (to_str (authority o)).

Definition oauth_redirectToHome : H unit :=
  path ← on_page (get_pref "oauth-return-to");
  on_page (clear_pref "oauth-return-to") ;;;
  go_to (default [] path).

(** [None]: without an error. *)
Definition oauth_redirectToLogin (error : value) : H unit :=
  go (if truthy error then rabbit_path_prefix here ++ "/?error=" ++ to_str error
      else rabbit_path_prefix here ++ "/").

(** oauth_initialize: a fresh variable oauth for the settings. *)
Definition oauth_initialize : H oauth_state :=
  modify (fun s => set_settings (auth_settings_apply_defaults (oauth_settings s)) s) ;;;
  authSettings ← gets oauth_settings;
  let field := prop (top authSettings) in
  let l := resource_servers authSettings in
  let o := mk_oauth false (field "oauth_enabled") l (field "oauth_disable_basic_auth")
             VUndef VUndef VUndef VUndef None VUndef VUndef None in
  if negb (truthy (enabled o)) then mret o
  else
    let o :=
      if bool_decide (1 < length l)%nat || negb (truthy (field "oauth_disable_basic_auth")) then
        if truthy (field "strict_auth_mechanism")
        then set_mechanisms (field "strict_auth_mechanism") VUndef o
        else if truthy (field "preferred_auth_mechanism")
        then set_mechanisms VUndef (field "preferred_auth_mechanism") o
        else o
      else o in
    resource_server ←
      match l with
      | [rs] => mret (Some rs)
      | _ =>
          has ← on_page has_auth_resource;
          if (has : bool) then
            r ← on_page get_auth_resource; mret (lookup_resource_server (null_string r) l)
          else mret None
      end;
    match resource_server with
    | None => mret o
    | Some rs =>
        let o := set_resource rs o in
        (if truthy (prop rs "sp_initiated") then oauth_initialize_user_manager rs else skip) ;;;
        mret o
    end.

(** oauth_initiate, up to the promise. *)
Definition oauth_initiate (o : oauth_state) : H oauth_state :=
  if negb (truthy (enabled o)) then mret o
  else if negb (truthy (sp_initiated o)) then
    b ← on_page (has_auth_credentials None); mret (set_logged_in b o)
  else call_then GetUser StatusKnown ;;; mret o.

Definition oauth_completeLogin : H unit := call_then SigninRedirectCallback SigninDone.

Definition oauth_completeLogout : H unit :=
  on_page clear_auth ;;; call_then SignoutRedirectCallback LogoutDone.

(** oauth_initialize_if_required: [window.oauth] is what it returns. *)
Definition oauth_initialize_if_required (state : jstr) : H unit :=
  o ← oauth_initialize;
  o ← (if negb (truthy (enabled o)) then mret o
       else if decide (state = "login-callback") then oauth_completeLogin ;;; mret o
       else if decide (state = "logout-callback") then oauth_completeLogout ;;; mret o
       else
         b ← on_page (has_auth_credentials (Some BASIC_AUTH_SCHEME));
         if (b : bool) then mret o else oauth_initiate o);
  modify (set_oauth (Some o)).

Definition oauth_initiateLogin (resource_server_id : jstr) : H unit :=
  o ← the_oauth;
  match lookup_resource_server resource_server_id (servers o) with
  | None => skip
  | Some rs =>
      on_page (set_auth_resource resource_server_id) ;;;
      update_oauth (set_resource rs) ;;;
      if truthy (prop rs "sp_initiated") then
        m ← gets mgr;
        (match m with Some _ => skip | None => oauth_initialize_user_manager rs end) ;;;
        call_then SigninRedirect SigninStarted
      else go (to_str (provider rs))
  end.

Definition oauth_initiateLogout : H unit :=
  o ← the_oauth;
  if truthy (sp_initiated o) then call_then GetUser LogoutUser else go_to_authority.

(** A user of the library: none, or one whose token may have expired. *)
Definition is_logged_in (user : value) : res bool :=
  if truthy user then expired ← field user "expired"; Ok (negb (truthy expired)) else Ok false.

(** [new Date(seconds * 1000)], for a number of seconds. *)
Definition epoch_ms (seconds : value) : option num :=
  match seconds with VNum n => Some (Num (mant n * 1000) (scale n)) | _ => None end.

(** What oauth_initiate does with the user. *)
Definition status_known (user : value) : H unit :=
  loggedIn ← lift (is_logged_in user);
  has ← (if (loggedIn : bool) then on_page (has_auth_credentials None) else mret true);
  if loggedIn && negb has then
    update_oauth (set_logged_in false) ;;; oauth_initiateLogout
  else if negb loggedIn then on_page clear_auth
  else
    update_oauth (set_logged_in true) ;;;
    expires ← lift (field user "expires_at");
    update_oauth (set_expiry (epoch_ms expires)) ;;;
    profile ← lift (field user "profile");
    name ← lift (field profile "user_name");
    update_oauth (set_user_name name) ;;;
    (if negb (truthy name) then
       sub ← lift (field profile "sub"); update_oauth (set_user_name sub)
     else skip) ;;;
    sc ← lift (field user "scope");
    update_oauth (set_scopes sc).

(** The token of a user who came back from the provider. *)
Definition signin_done (user : value) : H unit :=
  token ← lift (field user "access_token");
  on_page (set_token_auth (to_str token)) ;;; oauth_redirectToHome.

(** The functions that wait for a promise. An exception of [signin_done] is
    caught like a rejection. *)
Definition continue (k : oidc_cont) (answer : settled) : H unit :=
  match k, answer with
  | StatusKnown, Fulfilled user => status_known user
  | SigninDone, Fulfilled user => fun s =>
      match signin_done user s with
      | (Throw e, s') => oauth_redirectToLogin (VStr (error_text e)) s'
      | r => r
      end
  | SigninDone, Rejected e => oauth_redirectToLogin e
  | LogoutUser, Fulfilled user =>
      if nullish user then on_page clear_auth ;;; go_to_home
      else call_then GetEndSessionEndpoint LogoutEndpoint
  | LogoutEndpoint, Fulfilled endpoint =>
      if nullish endpoint then call_then RemoveUser LogoutRemoved else call SignoutRedirect
  | LogoutRemoved, Fulfilled _ => on_page clear_auth ;;; oauth_redirectToLogin VUndef
  | LogoutDone, Fulfilled _ => oauth_redirectToLogin VUndef
  | _, _ => skip
  end.

(** What happens to a page with OAuth. *)
Inductive oauth_event :=
  | Opened (state : jstr)              (* the page is loaded *)
  | LoginChosen (resource_server_id : jstr)
  | LogoutChosen
  | TokenRenewed (user : value)        (* addUserLoaded *)
  | Settled (promise : nat) (answer : settled).

Definition handle_oauth (e : oauth_event) : H unit :=
  match e with
  | Opened state => oauth_initialize_if_required state
  | LoginChosen id => oauth_initiateLogin id
  | LogoutChosen => oauth_initiateLogout
  | TokenRenewed user =>
      token ← lift (field user "access_token"); on_page (set_token_auth (to_str token))
  | Settled i answer =>
      l ← gets promises;
      match find (fun p => bool_decide (p.1 = i)) l with
      | Some (_, k) => modify (drop_promise i) ;;; continue k answer
      | None => skip
      end
  end.

Definition run_oauth (s : site J) (es : list oauth_event) : site J :=
  foldl (fun s e => (handle_oauth e s).2) s es.

End Login.
