(* ===== verification/OAuthFacts.v ===== *)
(** Theorems about the login and the logout with OAuth (oidc-oauth/helper.js),
    as runs of events. *)
From S2P Require Import Prelude JsString JsNum Base64 Uri JsObject JsValue Columns Prefs PrefsFacts Requests ChartRanges Escape Format Links World OAuth RefreshRuns.

Section Facts.
Context {J : Type} {CJ : CookieJar J} {CL : CookieJarLaws J} {CK : Clock}.
Variable here : location.
Variable error_text : exn -> jstr.
Notation S := (site J).
Notation handle := (handle_oauth here error_text).
Notation run := (run_oauth here error_text).
Implicit Types (s : S) (p : page J).

(** The page has no credentials, now and later. *)
Definition signed_out (p : page J) : Prop :=
  forall t scheme, now p <= t ->
    (has_auth_credentials scheme (at_time t p)).1 = Ok false /\
    (authorization_header (at_time t p)).1 = Ok None.

Lemma clear_auth_signs_out p l :
  local_storage p = Some l ->
  exists p', clear_auth p = (Ok tt, p') /\ signed_out p' /\ local_storage p' = Some (without_auth l).
Proof.
  intros El. destruct (clear_auth_run p l El) as (p' & Hr & Hl & Hn & _ & Hc).
  exists p'. split; [exact Hr|]. split; [|exact Hl]. intros t scheme Ht. rewrite Hn in Ht.
  assert (Hlf : local_storage (at_time t p') = Some (without_auth l)) by exact Hl.
  rewrite (has_auth_run _ _ _ Hlf), (authorization_header_run _ _ Hlf).
  by rewrite !logged_in_unmarked by by apply Hc.
Qed.

(** The state with another page, and with one more place the browser went to. *)
Definition with_page (p : page J) s : S := set_base (set_prefs p (base s)) s.
Definition went (url : jstr) s : S := set_base (set_log (log (base s) ++ [GoTo url]) (base s)) s.

Lemma on_page_site_run {A} (m : M (page J) A) s r p :
  m (prefs (base s)) = (r, p) -> on_page m s = (r, with_page p s).
Proof. intros Hm. unfold on_page, on_base, on_prefs. by rewrite Hm. Qed.

Lemma go_run url s : go url s = (Ok tt, went url s).
Proof. done. Qed.

Lemma call_run c s m : mgr s = Some m -> call c s = (Ok tt, add_call c s).
Proof. intros Hm. unfold call, mbind, M_bind. cbn [gets]. by rewrite Hm. Qed.

Lemma call_then_run c k s m :
  mgr s = Some m -> call_then c k s = (Ok tt, add_promise k (add_call c s)).
Proof. intros Hm. unfold call_then, mbind, M_bind. by rewrite (call_run c s m). Qed.

(** Promises are numbered in the order they are made. *)
Definition promises_ok s : Prop := Forall (fun q => q.1 < next_promise s)%nat (promises s).

Lemma find_fresh s k :
  promises_ok s ->
  find (fun q => bool_decide (q.1 = next_promise s)) (promises s ++ [(next_promise s, k)]) =
  Some (next_promise s, k).
Proof.
  unfold promises_ok. intros Hp. induction Hp as [|x l Hx _ IH]; cbn [app find].
  - by rewrite bool_decide_eq_true_2.
  - rewrite bool_decide_eq_false_2 by (cbv beta in Hx; lia). exact IH.
Qed.

Lemma drop_fresh s k : promises_ok s -> drop_promise (next_promise s) (add_promise k s) =
  mk_site (base s) (oauth_settings s) (oauth s) (mgr s) (Datatypes.S (next_promise s)) (promises s) (calls s).
Proof.
  unfold promises_ok. intros Hp. unfold drop_promise, add_promise. cbn. f_equal.
  rewrite filter_app, filter_cons_False by (cbn; lia). rewrite filter_nil, app_nil_r.
  induction Hp as [|x l Hx _ IH]; [done|]. rewrite filter_cons_True by (cbv beta in Hx; lia). by rewrite IH.
Qed.

(** The answer to the promise made last. *)
Lemma settle_run s k a :
  promises_ok s ->
  handle (Settled (next_promise s) a) (add_promise k s) =
  continue here error_text k a
    (mk_site (base s) (oauth_settings s) (oauth s) (mgr s) (Datatypes.S (next_promise s)) (promises s) (calls s)).
Proof.
  intros Hp. cbn [handle_oauth]. unfold mbind at 1, M_bind at 1. cbn [gets].
  change (promises (add_promise k s)) with (promises s ++ [(next_promise s, k)]).
  rewrite (find_fresh s k Hp). unfold mbind, M_bind. cbn [modify]. by rewrite (drop_fresh s k Hp).
Qed.

(** *** Login *)

(** C31: A login with a provider ends logged in. When the provider sends the user
    back with a token, the page goes to the address it was left at, which is
    forgotten, and every request sends the token as a bearer token until the
    session expires, and nothing afterwards; when it sends an error, the page
    goes to the login with the error and the preferences are as they were. *)
Theorem signin_completes s l i answer :
  local_storage (prefs (base s)) = Some l ->
  find (fun q => bool_decide (q.1 = i)) (promises s) = Some (i, SigninDone) ->
  let '(r, s') := handle (Settled i answer) s in
  let p' := prefs (base s') in
  match answer with
  | Fulfilled user =>
      forall token, field user "access_token" = Ok token ->
      r = Ok tt /\
      log (base s') = log (base s) ++
        [GoTo (rabbit_path_prefix here ++ "/" ++ default [] (l !! rabbit "oauth-return-to"))] /\
      (get_pref "oauth-return-to" p').1 = Ok (Some []) /\
      forall t, now (prefs (base s)) <= t -> (authorization_header (at_time t p')).1 =
        Ok (if decide (t < utc_seconds (add_hours (now (prefs (base s))) 8))
            then Some ("Bearer " ++ to_str token) else None)
  | Rejected e =>
      r = Ok tt /\ p' = prefs (base s) /\
      log (base s') = log (base s) ++
        [GoTo (rabbit_path_prefix here ++
               (if truthy e then "/?error=" ++ to_str e else "/"))]
  end.
Proof.
  intros El Hf. cbn [handle_oauth]. unfold mbind at 1, M_bind at 1. cbn [gets]. rewrite Hf.
  unfold mbind at 1, M_bind at 1. cbn [modify]. set (s0 := drop_promise i s).
  change (base s) with (base s0) in *. clearbody s0. clear Hf s.
  destruct answer as [user|e]; cbn [continue].
  - destruct (signin_done here user s0) as [r1 s1] eqn:E.
    destruct (field user "access_token") as [token|] eqn:Ht; [|by case_match].
    revert E. unfold signin_done. unfold mbind at 1, M_bind at 1, lift. rewrite Ht.
    unfold mbind at 1, M_bind at 1.
    destruct (set_auth_run (prefs (base s0)) l "Bearer" (to_str token)
      (add_hours (now (prefs (base s0))) 8) El) as (p1 & Hr & Hl & Hn & Hc & Hd).
    rewrite (on_page_site_run _ s0 (Ok tt) p1); [|exact Hr].
    set (l1 := <[rabbit AUTH_SCHEME := _]> _) in Hl.
    unfold oauth_redirectToHome. unfold mbind at 1, M_bind at 1.
    assert (Hret : (match l1 !! rabbit "oauth-return-to" with
                    | Some v => Ok (Some v) | None => default_pref (COLUMNS p1) "oauth-return-to" end)
                   = Ok (Some (default [] (l !! rabbit "oauth-return-to")))).
    { unfold l1. rewrite !lookup_insert_ne, !lookup_delete_ne by by apply rabbit_ne.
      by destruct (l !! rabbit "oauth-return-to"). }
    rewrite (on_page_site_run _ (with_page p1 s0) (Ok (Some (default [] (l !! rabbit "oauth-return-to")))) p1)
      by (change (prefs (base (with_page p1 s0))) with p1; rewrite (get_pref_local _ l1 _ Hl); by rewrite Hret).
    unfold mbind at 1, M_bind at 1.
    set (p2 := set_local (delete (rabbit "oauth-return-to") l1) p1).
    rewrite (on_page_site_run _ (with_page p1 (with_page p1 s0)) (Ok tt) p2)
      by (change (prefs (base (with_page p1 (with_page p1 s0)))) with p1;
          unfold clear_pref, clear_local_pref; by rewrite Hl).
    unfold go_to. rewrite go_run. intros [= <- <-]. intros token' [= <-].
    split; [done|]. split; [done|].
    change (prefs (base (went _ _))) with p2. split.
    + rewrite (get_pref_local _ (delete (rabbit "oauth-return-to") l1) _) by done. cbn [fst].
      by rewrite lookup_delete_eq.
    + intros t Hle. rewrite (authorization_header_run _ (delete (rabbit "oauth-return-to") l1)) by done.
      cbn [fst]. unfold PrefsFacts.logged_in.
      change (get (cookie_dict (at_time t p2)) LOGGED_KEY) with (get (cookie_dict (at_time t p1)) LOGGED_KEY).
      rewrite (Hd t Hle). unfold l1.
      rewrite !(lookup_delete_ne _ (rabbit "oauth-return-to")) by by apply rabbit_ne.
      rewrite lookup_insert_eq, lookup_insert_ne, lookup_insert_eq by by apply rabbit_ne.
      by case_decide.
  - unfold oauth_redirectToLogin. rewrite go_run. split; [done|]. split; [done|].
    by destruct (truthy e).
Qed.

(** *** Logout *)

(** The state after the call and the promise of one more step. *)
Definition asked (c : oidc_call) (s : S) : S :=
  mk_site (base s) (oauth_settings s) (oauth s) (mgr s) (Datatypes.S (next_promise s)) (promises s)
    (calls s ++ [c]).

Lemma asked_ok c s : promises_ok s -> promises_ok (asked c s).
Proof. intros Hp. eapply Forall_impl; [exact Hp|]. intros q Hq. cbv beta in *. cbn. lia. Qed.

(** A call is made and its promise is answered. *)
Lemma call_settle c k a s m :
  mgr s = Some m -> promises_ok s ->
  call_then c k s = (Ok tt, add_promise k (add_call c s)) /\
  handle (Settled (next_promise s) a) (add_promise k (add_call c s)) =
  continue here error_text k a (asked c s).
Proof.
  intros Hm Hp. split; [by apply (call_then_run _ _ _ m)|].
  exact (settle_run (add_call c s) k a Hp).
Qed.

(** A logout that ends at a place of the UI. *)
Definition leaves (url : jstr) s0 s : Prop :=
  signed_out (prefs (base s)) /\ log (base s) = log (base s0) ++ [GoTo url].

Lemma clear_and_go url s l :
  local_storage (prefs (base s)) = Some l ->
  leaves url s (((on_page clear_auth ;;; go url) s).2).
Proof.
  intros El. destruct (clear_auth_signs_out _ l El) as (p' & Hr & Ho & _).
  unfold mbind, M_bind. by rewrite (on_page_site_run _ s _ _ Hr).
Qed.


(** *** Demonstrations *)

Lemma the_oauth_run s o : oauth s = Some o -> the_oauth s = (Ok o, s).
Proof. intros Ho. unfold the_oauth, mbind, M_bind. cbn [gets]. by rewrite Ho. Qed.

Lemma update_oauth_run f s o :
  oauth s = Some o -> update_oauth f s = (Ok tt, set_oauth (Some (f o)) s).
Proof. intros Ho. unfold update_oauth, mbind, M_bind. by rewrite (the_oauth_run s o). Qed.

(** The choice of a login that starts here, up to the manager. *)
Lemma initiate_login_run s o id rs l :
  local_storage (prefs (base s)) = Some l -> oauth s = Some o ->
  lookup_resource_server id (servers o) = Some rs -> truthy (prop rs "sp_initiated") = true ->
  exists s1, oauth_initiateLogin here id s =
    ((match mgr s with Some _ => skip | None => oauth_initialize_user_manager here rs end) ;;;
     call_then SigninRedirect SigninStarted) s1 /\
    mgr s1 = mgr s /\ calls s1 = calls s.
Proof.
  intros El Ho Hrs Hsp. unfold oauth_initiateLogin. unfold mbind at 1, M_bind at 1.
  rewrite (the_oauth_run s o Ho), Hrs. unfold mbind at 1, M_bind at 1.
  rewrite (on_page_site_run _ s (Ok tt) (set_local (<[rabbit AUTH_RESOURCE := id]> l) (prefs (base s))))
    by (unfold set_auth_resource, store_local_pref; by rewrite El).
  unfold mbind at 1, M_bind at 1. rewrite (update_oauth_run _ _ o) by exact Ho. rewrite Hsp.
  eexists. split; [reflexivity|]. by split.
Qed.

(** A login chosen while there is a manager, as for the resource that was used
    last, goes to the provider of that manager, not to the one chosen. *)
Lemma stale_manager s o m id rs l :
  local_storage (prefs (base s)) = Some l -> oauth s = Some o -> mgr s = Some m ->
  lookup_resource_server id (servers o) = Some rs -> truthy (prop rs "sp_initiated") = true ->
  let s' := (oauth_initiateLogin here id s).2 in
  calls s' = calls s ++ [SigninRedirect] /\ mgr s' = Some m.
Proof.
  intros El Ho Hm Hrs Hsp. cbv zeta.
  destruct (initiate_login_run s o id rs l El Ho Hrs Hsp) as (s1 & Hr & Hm1 & Hc1).
  rewrite Hr, Hm. unfold mbind, M_bind. cbn [skip mret M_ret].
  rewrite (call_then_run _ _ _ m) by congruence. cbn. by rewrite Hc1, Hm1.
Qed.

(** Without a manager the provider chosen is used. *)
Lemma fresh_manager s o id rs l :
  local_storage (prefs (base s)) = Some l -> oauth s = Some o -> mgr s = None ->
  lookup_resource_server id (servers o) = Some rs -> truthy (prop rs "sp_initiated") = true ->
  let s' := (oauth_initiateLogin here id s).2 in
  calls s' = calls s ++ [NewManager (oidc_settings_from here rs); SigninRedirect] /\
  mgr s' = Some (oidc_settings_from here rs).
Proof.
  intros El Ho Hm Hrs Hsp. cbv zeta.
  destruct (initiate_login_run s o id rs l El Ho Hrs Hsp) as (s1 & Hr & Hm1 & Hc1).
  rewrite Hr, Hm. unfold oauth_initialize_user_manager, mbind, M_bind. cbn [modify].
  rewrite (call_then_run _ _ _ (oidc_settings_from here rs)) by done.
  cbn [snd calls add_promise add_call set_mgr mgr]. by rewrite Hc1, <- app_assoc.
Qed.

End Facts.

(** ** Examples *)

Module OAuthExamples.
Import RefreshRuns.Page.

Definition here : location := mk_location "https:" "broker" "15671" "/js/oidc-oauth/login-callback.html".

Example base_uri : rabbit_base_uri here = js "https://broker:15671".
Proof. by vm_compute. Qed.

Definition resource (provider lbl : jstr) : obj value :=
  [(js "oauth_provider_url", VStr provider); (js "label", VStr lbl)].

(** Two resources of two providers, the second with a provider of its own. *)
Definition settings : auth_settings :=
  mk_settings
    [(js "oauth_enabled", VBool true); (js "oauth_provider_url", VStr "https://uaa");
     (js "oauth_client_id", VStr "ui"); (js "oauth_client_secret", VStr "s3cret")]
    (Some [(js "prod", [(js "label", VStr "Production")]); (js "dev", resource "https://kc" "Dev")]) [].

Lemma apply_defaults_spec_witness :
  exists a b, resource_servers (auth_settings_apply_defaults settings) = [a; b] /\
    configured (top_defaults (top settings)) "prod" [(js "label", VStr "Production")] a /\
    configured (top_defaults (top settings)) "dev" (resource "https://kc" "Dev") b /\
    prop a "oauth_client_secret" = VStr "s3cret" /\ prop b "oauth_scopes" = VStr "openid profile".
Proof.
  set (d := default [] (oauth_resource_servers settings)).
  pose proof (apply_defaults_spec settings d eq_refl) as H. cbv zeta in H.
  remember (resource_servers (auth_settings_apply_defaults settings)) as rs eqn:He.
  destruct H as (k & Hk & Hf & Hn & Hall).
  assert (Hp : truthy (prop (top_defaults (top settings)) "oauth_provider_url") = true) by by vm_compute.
  rewrite (Hall Hp) in Hf.
  assert (Ht : take (length d) (entries d) =
    [(js "prod", [(js "label", VStr "Production")]); (js "dev", resource "https://kc" "Dev")])
    by by vm_compute.
  rewrite Ht in Hf.
  inversion Hf as [|? a ? t Ha Hf1 Ex Ey]. inversion Hf1 as [|? b ? t' Hb Hf2 Ex' Ey'].
  inversion Hf2 as [Ez|]. subst t t'. rewrite <- Ey in He.
  exists a, b. split; [done|]. split; [exact Ha|]. split; [exact Hb|].
  vm_compute in He. injection He as -> ->. by vm_compute.
Defined.

(** Only the resource of the settings without a provider is left when it comes
    second; when it comes first, none is. *)
Example first_without_provider :
  let s dict := resource_servers (auth_settings_apply_defaults (mk_settings [] (Some dict) [])) in
  length (s [(js "a", resource "https://kc" "A"); (js "b", [])]) = 1%nat /\
  s [(js "b", []); (js "a", resource "https://kc" "A")] = [].
Proof. by vm_compute. Qed.

Definition ready_servers : oauth_state :=
  mk_oauth false (VBool true)
    (resource_servers (auth_settings_apply_defaults settings)) VUndef VUndef VUndef VUndef VUndef None VUndef VUndef None.

Definition good_configuration : value :=
  VObj [(js "authorization_endpoint", VStr "https://uaa/a"); (js "token_endpoint", VStr "https://uaa/t");
        (js "jwks_uri", VStr "https://uaa/k")].

(** The second provider does not answer. *)
Definition one_answers : list settled := [Fulfilled good_configuration; Rejected (VStr "Failed to fetch")].

Lemma servers_ready_spec_witness :
  exists o' warnings, servers_ready ready_servers one_answers = Ok (o', warnings) /\
    map label (servers o') = [VStr "Production"] /\
    exists w, w ∈ warnings /\ mentions w "Dev".
Proof.
  destruct (servers_ready_spec ready_servers one_answers) as (o' & ws & Hr & Hs & _ & Hw & _).
  { intros s Hs _. cut (Forall (fun s => to_str (provider s) ∉ PROTOTYPE) (servers ready_servers)).
    - rewrite Forall_forall. auto.
    - by_decide. }
  set (dev := nth 1 (servers ready_servers) []).
  assert (Hin : servers ready_servers !! 1%nat = Some dev) by by vm_compute.
  assert (Hl : label dev = VStr "Dev") by by vm_compute.
  assert (Hsp : is_sp dev = true) by by vm_compute.
  assert (Hz : zip one_answers (List.filter is_sp (servers ready_servers)) !! 1%nat =
               Some (Rejected (VStr "Failed to fetch"), dev)) by by vm_compute.
  assert (Hsame : same_value (provider dev) (provider dev) = true) by by vm_compute.
  assert (Hun : unusable ready_servers one_answers dev).
  { exists (Rejected (VStr "Failed to fetch")), dev. split; [|by split].
    exact (list_elem_of_lookup_2 _ _ _ Hz). }
  destruct (Hw dev (list_elem_of_lookup_2 _ _ _ Hin) Hsp Hun) as (w & Hwin & Hm).
  exists o', ws. split; [exact Hr|]. split.
  - clear -Hr. vm_compute in Hr. injection Hr as <- <-. by vm_compute.
  - exists w. split; [exact Hwin|]. unfold join_text in Hm. rewrite Hl in Hm. exact Hm.
Defined.

Definition signing_in : site cookies :=
  mk_site start settings (Some ready_servers) (Some []) 1 [(0%nat, SigninDone)] [].

Lemma signin_completes_witness :
  let s' := (handle_oauth here (fun _ => []) (Settled 0 (Fulfilled (VObj [(js "access_token", VStr "abc")])))
               signing_in).2 in
  log (base s') = log start ++ [GoTo "/"] /\
  (authorization_header (at_time 6000 (prefs (base s')))).1 = Ok (Some (js "Bearer abc")).
Proof.
  set (l := default ∅ (local_storage (prefs start))).
  assert (El : local_storage (prefs start) = Some l) by by_decide.
  pose proof (signin_completes here (fun _ => []) signing_in l 0
    (Fulfilled (VObj [(js "access_token", VStr "abc")])) El eq_refl) as H.
  destruct (handle_oauth here (fun _ => []) _ signing_in) as [r s'].
  destruct (H (VStr "abc") eq_refl) as (_ & Hlog & _ & Hh). cbn [snd]. split.
  - rewrite Hlog. by vm_compute.
  - assert (Hn : now (prefs (base signing_in)) <= 6000) by by vm_compute.
    rewrite (Hh 6000 Hn). by vm_compute.
Defined.

Definition signed_in : site cookies :=
  mk_site start settings (Some (set_resource [(js "sp_initiated", VBool true)] ready_servers))
    (Some []) 0 [] [].


End OAuthExamples.
