(* ===== verification/Login.v ===== *)
(** The login of the page (main.js, global.js): from the page that was loaded
    to the application that runs, with the controls and the globals it sets.

    What the handlers of the login keep besides the state of [OAuth.site] is the
    record [login]. The answers of the server are values; lists of virtual hosts
    and of nodes are read where the code reads them. *)
From S2P Require Import Prelude JsString JsNum Base64 Uri JsObject JsValue Columns Prefs Requests ChartRanges Escape Format Links World Access Forms Pages Refresh Sync OAuth.

(** ** State *)

(** The two Sammy applications: the login, with or without its form, and the UI. *)
Inductive application_kind := LoginApp (form : bool) | MainApp.

(** The variables that setup_global_vars sets, with the markup it puts into the
    page. *)
Record global_vars := mk_globals {
  rates_mode : value;
  is_op_policy_updating_enabled : value;
  user_tags : list jstr;
  user_administrator : bool;
  is_user_policymaker : bool;
  user_monitor : bool;
  exchange_types : value;
  cluster_item : jstr;
  user_item : jstr;
  versions_html : jstr;
  nodes_interesting : bool;
  rabbit_versions_interesting : bool;
  vhosts_interesting : bool;
  queue_type_var : jstr;
  disable_stats : value;
  enable_queue_totals : value;
}.

(** The address of the page: all of it, its fragment and its path. *)
Record address := mk_address { href : jstr; hash : jstr; path_name : jstr }.

Record login (J : Type) := mk_login {
  site_of : site J;
  user : value;
  app : option application_kind;
  vhosts_of : value;              (* ui_data_model.vhosts *)
  nodes_of : value;               (* ui_data_model.nodes *)
  ac : access;
  display : display_control;
  globals : global_vars;
  loading : list value;           (* the scripts of extensions still to load *)
  here_address : address;
}.
Arguments mk_login {J} _ _ _ _ _ _ _ _ _ _.
Arguments site_of {J} _.
Arguments user {J} _.
Arguments app {J} _.
Arguments vhosts_of {J} _.
Arguments nodes_of {J} _.
Arguments ac {J} _.
Arguments display {J} _.
Arguments globals {J} _.
Arguments loading {J} _.
Arguments here_address {J} _.

Definition set_site {J : Type} (s : site J) (x : login J) : login J :=
  mk_login s (user x) (app x) (vhosts_of x) (nodes_of x) (ac x) (display x) (globals x) (loading x) (here_address x).
Definition set_user {J : Type} (u : value) (x : login J) : login J :=
  mk_login (site_of x) u (app x) (vhosts_of x) (nodes_of x) (ac x) (display x) (globals x) (loading x) (here_address x).
Definition set_app {J : Type} (a : application_kind) (x : login J) : login J :=
  mk_login (site_of x) (user x) (Some a) (vhosts_of x) (nodes_of x) (ac x) (display x) (globals x) (loading x) (here_address x).
Definition set_model_vhosts {J : Type} (v : value) (x : login J) : login J :=
  mk_login (site_of x) (user x) (app x) v (nodes_of x) (ac x) (display x) (globals x) (loading x) (here_address x).
Definition set_model_nodes {J : Type} (v : value) (x : login J) : login J :=
  mk_login (site_of x) (user x) (app x) (vhosts_of x) v (ac x) (display x) (globals x) (loading x) (here_address x).
Definition set_ac {J : Type} (a : access) (x : login J) : login J :=
  mk_login (site_of x) (user x) (app x) (vhosts_of x) (nodes_of x) a (display x) (globals x) (loading x) (here_address x).
Definition set_display {J : Type} (d : display_control) (x : login J) : login J :=
  mk_login (site_of x) (user x) (app x) (vhosts_of x) (nodes_of x) (ac x) d (globals x) (loading x) (here_address x).
Definition set_globals {J : Type} (g : global_vars) (x : login J) : login J :=
  mk_login (site_of x) (user x) (app x) (vhosts_of x) (nodes_of x) (ac x) (display x) g (loading x) (here_address x).
Definition set_loading {J : Type} (l : list value) (x : login J) : login J :=
  mk_login (site_of x) (user x) (app x) (vhosts_of x) (nodes_of x) (ac x) (display x) (globals x) l (here_address x).
Definition set_address {J : Type} (a : address) (x : login J) : login J :=
  mk_login (site_of x) (user x) (app x) (vhosts_of x) (nodes_of x) (ac x) (display x) (globals x) (loading x) a.

(** ** Values of the server *)

(** [v == false]; of the texts, the blank ones and the zeros. *)
Definition eq_false (v : value) : bool :=
  match v with
  | VBool b => negb b
  | VNum n => mant n =? 0
  | VStr s => forallb (fun c => c =? 48) (trim s)
  | VArr _ => eq_empty v
  | _ => false
  end.

(** What a loop up to [v.length] runs through: the elements of a list, or
    nothing for a value without a length. *)
Definition elements (v : value) : res (list value) :=
  match v with VArr l => Ok l | VUndef | VNull => Throw TypeError | _ => Ok [] end.

Fixpoint map_res {A B} (f : A -> res B) (l : list A) : res (list B) :=
  match l with
  | [] => Ok []
  | x :: l => y ← f x; ys ← map_res f l; Ok (y :: ys)
  end.

(** The texts of a property of each element. *)
Definition texts_of (k : jstr) (v : value) : res (list jstr) :=
  l ← elements v; map_res (fun x => to_str <$> field x k) l.

Definition application_of (v : value) : res application :=
  name ← field v "name"; version ← field v "version"; Ok (mk_application (to_str name) (to_str version)).

Definition node_of (v : value) : res node :=
  apps ← field v "applications"; apps ← map_res application_of (for_in apps).*2; Ok (mk_node apps).

(** What the controls read of ui_data_model. *)
Definition ui_of (vhosts nodes : value) : res ui_data :=
  ns ← elements nodes; ns ← map_res node_of ns; names ← texts_of "name" vhosts; Ok (mk_ui_data names ns).

(** The tags of a user. *)
Definition tags_of (user : value) : res (list jstr) :=
  tags ← field user "tags"; l ← elements tags; Ok (map to_str l).

(** A retention policy: the numbers of seconds it keeps. *)
Definition seconds_of (v : value) : Z :=
  match v with VNum n => if decide (scale n = 0)%nat then mant n else -1 | _ => -1 end.

Definition policy_of (srp : value) (range_type : jstr) : res (option (list Z)) :=
  match srp with
  | VObj o => match get o range_type with
              | Some v => l ← elements v; Ok (Some (map seconds_of l))
              | None => Ok None
              end
  | VUndef | VNull => Throw TypeError
  | _ => Ok None
  end.

(** [url.replace(/#token_type.+/gi, ...)] on a text without line breaks. *)
Fixpoint replace_token (s : jstr) : jstr :=
  match s with
  | [] => []
  | c :: s' =>
      if starts_with (map lower_ascii s) "#token_type" && (length (js "#token_type") <? length s)%nat
      then "#/" else c :: replace_token s'
  end.

Section Handlers.
Context {J : Type} {CJ : CookieJar J} {CK : Clock} {RX : RegExpSyntax} {TP : Templates}.
(** The answers of the server, the text of an answer, and the state of the form. *)
Variable server : jstr -> jstr -> option (obj value) -> response.
Variable json_text : option value -> jstr.
Variable form : form_state.
Notation H := (M (login J)).

Definition on_site {A} (m : M (site J) A) : H A := fun x =>
  let '(r, s) := m (site_of x) in (r, set_site s x).
Definition on_world {A} (m : M (world J) A) : H A := on_site (on_base m).
Definition on_page_ {A} (m : M (page J) A) : H A := on_world (on_prefs m).
Definition emits (e : effect) : H unit := on_world (emit e).

Definition oauth_enabled : H bool := o ← on_site the_oauth; mret (truthy (enabled o)).

Definition ask (path : jstr) : H sync_result :=
  b ← oauth_enabled; on_world (sync_get b form server path).
Definition ask_json (path : jstr) : H value := r ← ask path; lift (json_parse r).

(** [replace_content(element, format(template, model))] *)
Definition show_content (element template : jstr) (model : obj value) : H unit :=
  (if renders template model [] then skip else on_world clear_timer) ;;;
  emits (Content element template model).

(** ** The login page *)

(** render_login_oauth: the warnings are texts, or one message. *)
Definition null_or (v : value) : value := if truthy v then v else VNull.

Definition login_model (o : oauth_state) (messages : value) : obj value :=
  [(js "warnings", match messages with VArr l => VArr l | VStr s => VArr [VStr s] | _ => VArr [] end);
   (js "notAuthorized", VBool (match messages with VStr s => bool_decide (s = "Not authorized") | _ => false end));
   (js "resource_servers", VArr (map VObj (servers o)));
   (js "declared_resource_servers_count",
      match declared_resource_servers_count o with Some n => VInt n | None => VUndef end);
   (js "oauth_disable_basic_auth", oauth_disable_basic_auth o);
   (js "strict_auth_mechanism", null_or (strict_auth_mechanism o));
   (js "preferred_auth_mechanism", null_or (preferred_auth_mechanism o))].

Definition render_login_oauth (o : oauth_state) (messages : value) : H unit :=
  show_content "outer" "login_oauth" (login_model o messages) ;;; emits Listeners.

(** check_version: [false] for an answer that was refused. *)
Definition check_version : H unit :=
  curVersion ← ask "/version";
  storedVersion ← on_page_ (get_pref "version");
  let cur := match curVersion with Text b => json_text b | _ => js "false" end in
  let differs :=
    match storedVersion with
    | None => true
    | Some s =>
        bool_decide (s = []) ||
        match curVersion with
        | Text b => negb (bool_decide (s = json_text b))
        | _ => negb (eq_false (VStr s))
        end
    end in
  if differs then on_page_ (store_pref "version" cur) ;;; emits Reload else skip.

(** ** The globals *)

(** The markup setup_global_vars puts beside the button to log out, and the
    versions. *)
Definition cluster_markup (administrator : bool) (cluster_name : jstr) : jstr :=
  "<li>Cluster " ++
  (if administrator then "<a href=`#/cluster-name`>" ++ cluster_name ++ "</a>" else cluster_name) ++ "</li>".

Definition user_markup (link : bool) (user_name : jstr) : jstr :=
  "User " ++
  (if link then "<a href=`#/users/" ++ user_name ++ "`>" ++ user_name ++ "</a>" else user_name).

Definition product_of (overview : obj value) : value :=
  if truthy (prop overview "product_name") && truthy (prop overview "product_version")
  then VStr (to_str (prop overview "product_name") ++ " " ++ to_str (prop overview "product_version"))
  else prop overview "rabbitmq_version".

Definition versions_markup (names : list value) (overview : obj value) : jstr :=
  "<abbr title=`Available exchange types: " ++ join ", " (map join_text names) ++ "`>" ++
  fmt_escape_html (product_of overview) ++ "</abbr>" ++
  "<abbr title=`" ++ fmt_escape_html (prop overview "erlang_full_version") ++ "`>Erlang " ++
  fmt_escape_html (prop overview "erlang_version") ++ "</abbr>".

(** [overview.exchange_types.map(...)] *)
Definition exchange_type_names (v : value) : res (list value) :=
  match v with
  | VArr l => map_res (fun x => field x "name") l
  | _ => Throw TypeError
  end.

Definition set_columns (c : columns) (p : page J) : page J :=
  mk_page (local_storage p) (jar p) (now p) (Some c).

(** setup_global_vars, for an overview that is an object. The variables are set
    together: an exception on the way leaves all of them as they were. *)
Definition setup_global_vars (overview : obj value) : H unit :=
  u ← gets user;
  tags ← lift (tags_of u);
  let user_tags := expand_user_tags tags in
  let administrator := bool_decide (js "administrator" ∈ user_tags) in
  let monitor := bool_decide (js "monitoring" ∈ user_tags) in
  names ← lift (exchange_type_names (prop overview "exchange_types"));
  name ← lift (field u "name");
  internal ← lift (field u "is_internal_user");
  mixed ←
    (if monitor then
       v ← ask_json "/nodes";
       listed ← lift (elements v);
       if (1 <? length listed)%nat then
         m ← gets (fun x => ui_of (vhosts_of x) (nodes_of x));
         m ← lift m;
         mret (true, (foldl version_step ([], false) (nodes m)).2)
       else mret (false, false)
     else mret (false, false));
  vhosts ← gets vhosts_of;
  vhosts ← lift (elements vhosts);
  modify (set_globals (mk_globals
    (prop overview "rates_mode") (prop overview "is_op_policy_updating_enabled")
    user_tags administrator (bool_decide (js "policymaker" ∈ user_tags)) monitor
    (prop overview "exchange_types")
    (cluster_markup administrator (fmt_escape_html (prop overview "cluster_name")))
    (user_markup (administrator && truthy internal) (fmt_escape_html name))
    (versions_markup names overview)
    (fst (mixed : bool * bool)) (snd mixed) (1 <? length vhosts)%nat
    "default" (prop overview "disable_stats") (prop overview "enable_queue_totals"))) ;;;
  vhost ← on_page_ (get_pref "vhost");
  on_world (modify (fun w => set_query (mk_query (default [] vhost) (Requests.current_sort (query w))
                                        (Requests.current_sort_reverse (query w))) w)) ;;;
  on_page_ (modify (set_columns (if truthy (prop overview "disable_stats")
                                 then DISABLED_STATS_COLUMNS else ALL_COLUMNS))) ;;;
  g ← lift (policy_of (prop overview "sample_retention_policies") "global");
  b ← lift (policy_of (prop overview "sample_retention_policies") "basic");
  on_world (modify (fun w => mk_world (prefs w) (query w) (view_of w) (timers_of w) (net_of w)
    (setup_chart_ranges g b (ranges w)) (document w) (log w))).

(** update_vhosts, whose selection fails without a list. *)
Definition update_vhosts : H unit :=
  v ← gets vhosts_of;
  match v with
  | VArr _ => names ← lift (texts_of "name" v); on_world (Sync.update_vhosts names)
  | _ => throw TypeError
  end.

(** ** Extensions *)

(** A property that is one file or a list of files. *)
Definition files_of (v : value) : list value := match v with VArr l => l | v => [v] end.

(** One turn of the loop of setup_extensions: the scripts found so far, and the
    style sheets of the extension, which are loaded at once. *)
Definition extension_files (k : jstr) (extension : value) : list value :=
  match extension with
  | VObj o => match get o k with Some v => files_of v | None => [] end
  | _ => []
  end.

Definition javascript_files (extensions : value) : list value :=
  concat (map (fun kv => extension_files "javascript" kv.2) (for_in extensions)).

(** A file is loaded by an element that is put into the head of the page. *)
Definition dynamic_css_file_load (filename : value) : H unit := emits (StyleLoad ("css/" ++ to_str filename)).
Definition dynamic_css_load (arrayOrString : value) : H unit :=
  for_each dynamic_css_file_load (files_of arrayOrString).
Definition dynamic_javascript_file_load (filename : value) : H unit := emits (ScriptLoad ("js/" ++ to_str filename)).
Definition dynamic_javascript_load (arrayOrString : value) : H unit :=
  for_each dynamic_javascript_file_load (files_of arrayOrString).

Definition load_styles (extensions : value) : H unit :=
  for_each (fun kv =>
      match kv.2 with
      | VObj o => match get o "css" with Some v => dynamic_css_load v | None => skip end
      | _ => skip
      end)
    (for_in extensions).

(** start_app *)
Definition start_address (a : address) : address :=
  if decide (index_of (href a) "#" = -1)
  then mk_address (href a ++ "#/") "#/" (path_name a)
  else if decide (index_of (hash a) "#token_type" <> -1 /\ path_name a = "/")
  then mk_address (replace_token (href a)) "#/" (path_name a)
  else a.

Definition start_app : H unit :=
  old ← gets app;
  (match old with Some _ => emits AppUnload | None => skip end) ;;;
  modify (fun x => set_address (start_address (here_address x)) x) ;;;
  modify (set_app MainApp) ;;;
  emits AppRun.

(** load_javascript_files_sequentially: the next file, or the application. *)
Definition load_next : H unit :=
  l ← gets loading;
  match l with
  | [] => start_app
  | f :: _ => dynamic_javascript_file_load f
  end.

(** A script was loaded, or failed to load. *)
Definition script_loaded : H unit :=
  l ← gets loading;
  match l with
  | [] => skip
  | _ :: rest => modify (set_loading rest) ;;; load_next
  end.

Definition setup_extensions : H unit :=
  extensions ← ask_json "/extensions";
  load_styles extensions ;;;
  modify (set_loading (javascript_files extensions)) ;;;
  load_next.

(** ** check_login *)

(** What is left of a login that was refused. *)
Definition login_refused : H unit :=
  on_page_ clear_auth ;;;
  b ← oauth_enabled;
  if (b : bool) then o ← on_site the_oauth; render_login_oauth o (VStr "Not authorized")
  else emits (Content "login-status" "<p>Login failed</p>" []).

(** What check_login does with an accepted user: the session, the model of the
    controls with the overview, and then the page. *)
Definition begin_session : H unit :=
  check_version ;;;
  emits PopupsHidden ;;;
  show_content "outer" "layout" [] ;;;
  u ← gets user;
  timeout ← lift (field u "login_session_timeout");
  match parse_int (to_str timeout) with
  | Some n => on_page_ (update_login_session_timeout n)
  | None => skip
  end.

Definition load_model : H value :=
  vhosts ← ask_json "/vhosts";
  modify (set_model_vhosts vhosts) ;;;
  u ← gets user;
  tags ← lift (tags_of u);
  modify (fun x => set_ac (ac_update tags (ac x)) x) ;;;
  a ← gets ac;
  (if isMonitoringUser a then nodes ← ask_json "/nodes"; modify (set_model_nodes nodes) else skip) ;;;
  overview ← ask_json "/overview";
  m ← gets (fun x => ui_of (vhosts_of x) (nodes_of x));
  m ← lift m;
  modify (set_display (display_update m a)) ;;;
  mret overview.

(** setup_constant_events, update_vhosts and update_interval. *)
Definition show_page : H unit :=
  emits Listeners ;;; update_vhosts ;;; on_world update_interval.

Definition login_accepted : H unit :=
  begin_session ;;;
  overview ← load_model;
  match overview with
  | VObj o => setup_global_vars o
  | _ => throw TypeError
  end ;;;
  show_page ;;;
  setup_extensions.

Definition check_login : H bool :=
  u ← ask_json "/whoami";
  modify (set_user u) ;;;
  error ← (if eq_false u then mret VUndef else lift (field u "error"));
  if eq_false u || truthy error then login_refused ;;; mret false
  else login_accepted ;;; mret true.

(** start_app_login *)
Definition start_app_login : H unit :=
  o ← on_site the_oauth;
  let b := truthy (enabled o) in
  modify (set_app (LoginApp (negb b || negb (truthy (oauth_disable_basic_auth o))))) ;;;
  has ← on_page_ (has_auth_credentials None);
  if b then
    (if (has : bool) then check_login ;;; skip else emits AppRun)
  else if (has : bool) then
    ok ← check_login; if (ok : bool) then skip else emits AppRun
  else emits AppRun.

(** The route of the login form. *)
Definition submit_login (username password : jstr) : H unit :=
  a ← gets app;
  match a with
  | Some (LoginApp true) => on_page_ (set_basic_auth username password) ;;; check_login ;;; skip
  | _ => skip
  end.

(** ** The page was loaded *)

Definition startWithLoginPage : H unit := show_content "outer" "login" [] ;;; start_app_login.

(** The callback of hasAnyResourceServerReady. *)
Definition servers_answered (results : list settled) : H unit :=
  o ← on_site the_oauth;
  r ← lift (servers_ready o results);
  on_site (modify (set_oauth (Some (fst r)))) ;;;
  render_login_oauth (fst r) (VArr (map VStr (snd r))) ;;;
  start_app_login.

(** startWithOAuthLogin; the servers that can be asked answer later. *)
Definition startWithOAuthLogin : H unit :=
  a ← gets here_address;
  on_page_ (store_pref "oauth-return-to" (hash a)) ;;;
  o ← on_site the_oauth;
  if logged_in o then start_app_login
  else match asked_servers o with [] => servers_answered [] | _ => skip end.

(** The document is ready: the query parameter error, when there is one. *)
Definition document_ready (error : option jstr) : H unit :=
  b ← oauth_enabled;
  match error with
  | Some (_ :: _ as e) =>
      if (b : bool) then o ← on_site the_oauth; render_login_oauth o (VStr (fmt_escape_html (VStr e)))
      else skip
  | _ => if (b : bool) then startWithOAuthLogin else startWithLoginPage
  end.

End Handlers.
