(* ===== verification/LoginFacts.v ===== *)
(** Theorems about the login (main.js, global.js): what an accepted and a refused
    login leave, and the start of the application once the extensions are
    loaded. *)
From S2P Require Import Prelude JsString JsNum Base64 Uri JsObject JsValue Columns Prefs PrefsFacts Requests ChartRanges Escape Format Links World Access Forms Pages Refresh Sync RefreshFacts Router Routes RefreshRuns Examples OAuth OAuthFacts Login.

(** ** Requests without parameters *)

Lemma remove_fields_nil s : remove_fields [] s = [].
Proof.
  unfold remove_fields. assert (H : forall l, foldl (fun (params : obj value) option =>
    if decide (option = selected s) then params else del params option) [] l = []).
  { intros l. induction l as [|o l IH]; [done|]. cbn [foldl]. by case_decide. }
  by rewrite H.
Qed.

Lemma params_magic_nil queue_type selectors : params_magic queue_type selectors [] = Ok [].
Proof.
  unfold params_magic. change (collapse_multifields queue_type []) with (Ok (A := obj value) []).
  cbn [mbind res_bind]. replace (maybe_remove_fields selectors []) with (@nil (jstr * value)); [done|].
  unfold maybe_remove_fields. induction selectors as [|s l IH]; [done|]. cbn [foldl].
  by rewrite remove_fields_nil.
Qed.

Lemma fill_plain params path : 58 ∉ path -> fill_path_template path params = Ok path.
Proof.
  unfold fill_path_template. induction path as [|c path IH]; intros Hp; [done|].
  apply not_elem_of_cons in Hp as [Hc Hp]. cbn [fill_scan].
  destruct (Z.eqb_spec c 58); [congruence|]. by rewrite IH.
Qed.

Lemma prepare_plain form path : 58 ∉ path -> prepare form [] path = Ok ([], path).
Proof. intros Hp. unfold prepare. rewrite params_magic_nil. cbn. by rewrite fill_plain. Qed.

Section Facts.
Context {J : Type} {CJ : CookieJar J} {CL : CookieJarLaws J} {CK : Clock} {RX : RegExpSyntax} {TP : Templates}.
Variable server : jstr -> jstr -> option (obj value) -> response.
Variable json_text : option value -> jstr.
Variable form : form_state.
Notation L := (login J).
Notation ask := (ask server form).
Notation ask_json := (ask_json server form).
Notation check_version := (check_version server json_text form).
Notation setup_global_vars := (setup_global_vars server form).
Notation setup_extensions := (setup_extensions server form).
Notation begin_session := (begin_session server json_text form).
Notation load_model := (load_model server form).
Notation login_accepted := (login_accepted server json_text form).
Notation check_login := (check_login server json_text form).
Implicit Types (x : L).

Definition world_of x : world J := base (site_of x).
Definition prefs_of x : page J := prefs (world_of x).

(** The state with another world, another page, one more effect. *)
Definition with_world (w : world J) x : L := set_site (set_base w (site_of x)) x.
Definition with_prefs (p : page J) x : L := with_world (set_prefs p (world_of x)) x.
Definition logged (e : effect) x : L := with_world (set_log (log (world_of x) ++ [e]) (world_of x)) x.

Lemma on_world_run {A} (m : M (world J) A) x r w :
  m (world_of x) = (r, w) -> on_world m x = (r, with_world w x).
Proof. intros Hm. unfold on_world, on_site, on_base. unfold world_of in Hm. by rewrite Hm. Qed.

Lemma on_page_run {A} (m : M (page J) A) x r p :
  m (prefs_of x) = (r, p) -> on_page_ m x = (r, with_prefs p x).
Proof. intros Hm. apply on_world_run. unfold on_prefs. unfold prefs_of in Hm. by rewrite Hm. Qed.

Lemma emits_run e x : emits e x = (Ok tt, logged e x).
Proof. done. Qed.

Lemma with_prefs_same x : with_prefs (prefs_of x) x = x.
Proof. destruct x as [[w ? ? ? ? ? ?] ? ? ? ? ? ? ? ? ?]. by destruct w. Qed.

Lemma with_world_same x : with_world (world_of x) x = x.
Proof. by destruct x as [[w ? ? ? ? ? ?] ? ? ? ? ? ? ? ? ?]. Qed.

(** The text of the header of authorization. *)
Definition header_text (p : page J) : jstr :=
  match (authorization_header p).1 with Ok h => null_string h | Throw _ => [] end.

(** A request that succeeds. *)
Definition answers (path : jstr) (v : value) : Prop :=
  let r := server "GET" ("api" ++ path) None in success (status r) = true /\ body r = Some v.

Definition request (path : jstr) x : effect :=
  SyncSend "GET" ("api" ++ path) (header_text (prefs_of x)) [] None.

(** The page can make requests: the variable oauth and the local storage are there. *)
Record online (l : gmap jstr jstr) (o : oauth_state) x : Prop := {
  online_storage : local_storage (prefs_of x) = Some l;
  online_oauth : oauth (site_of x) = Some o;
}.

Lemma online_logged l o e x : online l o x -> online l o (logged e x).
Proof. by intros []. Qed.

(** A synchronous request, given how its answer is judged. *)
Lemma sync_get_run l b path x ok w :
  local_storage (prefs_of x) = Some l -> 58 ∉ path ->
  let r := server "GET" ("api" ++ path) None in
  check_bad_response b (update_pages b) false false ("api" ++ path) r (world_of (logged (request path x) x))
    = (Ok ok, w) ->
  sync_get b form server path (world_of x) = (Ok (if (ok : bool) then Text (body r) else Refused), w).
Proof.
  intros Hl Hp r Hr. unfold sync_get, sync_req. rewrite prepare_plain by done.
  unfold mbind at 1, M_bind at 1. unfold on_prefs. change (prefs (world_of x)) with (prefs_of x).
  rewrite (authorization_header_run _ l Hl). unfold mbind at 1, M_bind at 1. cbn [emit modify].
  cbv zeta. rewrite !decide_True by done. unfold mbind, M_bind. fold r.
  match goal with |- context [check_bad_response b _ false false _ r ?w] =>
    assert (Hw : w = world_of (logged (request path x) x)) end.
  { unfold logged, request, header_text. rewrite (authorization_header_run _ l Hl). cbn [fst].
    destruct x as [[w' ? ? ? ? ? ?] ? ? ? ? ? ? ? ? ?]. by destruct w'. }
  rewrite Hw, Hr. unfold mret, M_ret. by destruct ok.
Qed.

Lemma on_oauth_run o x : oauth (site_of x) = Some o -> on_site the_oauth x = (Ok o, x).
Proof.
  intros Ho. unfold on_site. rewrite (the_oauth_run _ o Ho). by destruct x.
Qed.

Lemma oauth_enabled_run o x : oauth (site_of x) = Some o -> oauth_enabled x = (Ok (truthy (enabled o)), x).
Proof. intros Ho. unfold oauth_enabled, mbind, M_bind. by rewrite (on_oauth_run o x Ho). Qed.

Lemma ask_sync l o path x r w :
  online l o x -> sync_get (truthy (enabled o)) form server path (world_of x) = (r, w) ->
  ask path x = (r, with_world w x).
Proof.
  intros [Hl Ho] Hg. unfold Login.ask. unfold mbind, M_bind. rewrite (oauth_enabled_run o x Ho).
  by apply on_world_run.
Qed.

Lemma ask_run l o path v x :
  online l o x -> 58 ∉ path -> answers path v ->
  ask path x = (Ok (Text (Some v)), logged (request path x) x).
Proof.
  intros Hx Hp [Hs Hb]. apply (ask_sync l o path x _ (world_of (logged (request path x) x)) Hx).
  rewrite <- Hb. apply (sync_get_run l _ path x true); [by destruct Hx|done|]. by apply check_success.
Qed.

Lemma ask_json_run l o path v x :
  online l o x -> 58 ∉ path -> answers path v ->
  ask_json path x = (Ok v, logged (request path x) x).
Proof.
  intros Hx Hp Hv. unfold Login.ask_json, mbind, M_bind. by rewrite (ask_run l o path v x Hx Hp Hv).
Qed.

(** ** The steps of an accepted login *)

Lemma check_version_run l o v x :
  online l o x -> answers "/version" v -> json_text (Some v) <> [] ->
  l !! rabbit "version" = Some (json_text (Some v)) ->
  check_version x = (Ok tt, logged (request "/version" x) x).
Proof.
  intros Hx Hv Hne Hl. unfold Login.check_version. unfold mbind at 1, M_bind at 1.
  rewrite (ask_run l o _ v) by (done || by_decide). cbv beta zeta iota.
  set (x1 := logged _ x). assert (Hx1 : online l o x1) by by apply online_logged.
  unfold mbind at 1, M_bind at 1.
  rewrite (on_page_run _ x1 (Ok (Some (json_text (Some v)))) (prefs_of x1))
    by (rewrite (get_pref_local _ l _ (online_storage _ _ _ Hx1)); by rewrite Hl).
  cbv beta zeta iota. rewrite with_prefs_same.
  rewrite (bool_decide_eq_false_2 (json_text _ = [])), bool_decide_eq_true_2 by done. done.
Qed.

Lemma show_content_run element template model x :
  renders template model [] = true ->
  show_content element template model x = (Ok tt, logged (Content element template model) x).
Proof. intros Hr. unfold show_content, mbind, M_bind. by rewrite Hr. Qed.

(** The session timeout only changes the cookie. *)
Lemma update_timeout_run p l n :
  local_storage p = Some l -> 0 <= n ->
  exists p', update_login_session_timeout n p = (Ok tt, p') /\
    local_storage p' = Some l /\ COLUMNS p' = COLUMNS p /\ now p' = now p.
Proof.
  intros El Hn. unfold update_login_session_timeout. unfold mbind at 1, M_bind at 1.
  rewrite (get_cookie_value_run _ _ _ short_key_timeout), default_timeout.
  destruct (get (cookie_dict p) TIMEOUT_KEY); [by exists p|].
  unfold mbind, M_bind, gets. rewrite (has_auth_run p l) by done. unfold mret, M_ret. cbv beta iota.
  destruct (negb _); [by exists p|].
  destruct (store_cookie_value_run p _ (dec n) _ (dec_wf n Hn) short_key_timeout)
    as (p1 & -> & Hl1 & Hn1 & Hc1 & _).
  destruct (store_value_exp_run p1 LOGGED_IN "true" LOGGED_KEY (add_minutes (now p) n))
    as (p2 & -> & Hl2 & Hn2 & Hc2 & _); [by_decide | apply short_key_logged |].
  exists p2. split; [done|]. split; [congruence|]. split; congruence.
Qed.

(** The virtual host that stays selected. *)
Definition kept_vhost (current : jstr) (names : list jstr) : jstr :=
  if decide (current ∈ names) then current else [].

Lemma selected_vhost_kept current names :
  match selected_vhost current names with O => [] | S i => default [] (names !! i) end =
  kept_vhost current names.
Proof.
  unfold selected_vhost, kept_vhost.
  assert (H : forall l k (acc : nat),
    let r := foldl (fun index '(i, n) => if decide (n = current) then S i else index) acc
               (imap (fun i n => (k + i, n)%nat) l) in
    (current ∉ l /\ r = acc) \/ (current ∈ l /\ exists i, r = S (k + i)%nat /\ l !! i = Some current)).
  { induction l as [|n l IH]; intros k acc; [left; split; [apply not_elem_of_nil|done]|].
    cbn [imap foldl]. rewrite (imap_ext _ (fun i n => (S k + i, n)%nat))
      by (intros i y _; unfold compose; f_equal; lia).
    specialize (IH (S k) (if decide (n = current) then S (k + 0) else acc)). cbv zeta in IH.
    destruct IH as [[Hl Hr]|(Hl & i & Hr & Hi)]; rewrite Hr.
    - case_decide as Hd; subst.
      + right. split; [left|]. exists 0%nat. by split.
      + left. split; [|done]. by apply not_elem_of_cons.
    - right. split; [by right|]. exists (S i). split; [lia|done]. }
  specialize (H names 0%nat 0%nat). cbv zeta in H. cbn [Nat.add] in H.
  destruct H as [[Hl Hr]|(Hl & i & Hr & Hi)]; rewrite Hr.
  - by rewrite decide_False.
  - rewrite decide_True by done. by rewrite Hi.
Qed.

(** The world after update_vhosts. *)
Definition vhosts_updated (l : gmap jstr jstr) (names : list jstr) (w : world J) : world J :=
  let q := query w in
  let vhost := kept_vhost (current_vhost q) names in
  set_prefs (set_local (<[rabbit "vhost" := vhost]> l) (prefs w))
    (set_log (log w ++ [VhostMenu names (selected_vhost (current_vhost q) names)])
       (set_query (mk_query vhost (Requests.current_sort q) (Requests.current_sort_reverse q)) w)).

Lemma update_vhosts_run l w names :
  local_storage (prefs w) = Some l ->
  Sync.update_vhosts names w = (Ok tt, vhosts_updated l names w).
Proof.
  intros El. unfold Sync.update_vhosts. unfold mbind at 1, M_bind at 1. cbn [gets].
  rewrite selected_vhost_kept. unfold mbind, M_bind. cbn [modify emit]. unfold on_prefs.
  by rewrite (store_pref_local _ l) by done.
Qed.

Lemma update_interval_run (w : world J) l :
  local_storage (prefs w) = Some l ->
  update_interval w = (Ok tt, set_timers
    (reset_timer_state (mk_timers (next_timer (timers_of w)) (running (timers_of w)) (timer (timers_of w))
       (interval_of (l !! rabbit "interval")) (paused (timers_of w)))) w).
Proof.
  intros El. unfold update_interval. unfold mbind at 1, M_bind at 1. unfold on_prefs.
  rewrite (get_pref_local _ l) by done.
  assert (Hd : (match l !! rabbit "interval" with
                | Some v => Ok (Some v) | None => default_pref (COLUMNS (prefs w)) "interval" end)
               = Ok (l !! rabbit "interval")) by by destruct (l !! rabbit "interval").
  rewrite Hd. by destruct w.
Qed.


(** What setup_global_vars needs of the overview and the user. *)
Record described (u : value) (overview : obj value) (tags : list jstr) (names : list value)
  (name internal : value) (g b : option (list Z)) : Prop := {
  desc_tags : tags_of u = Ok tags;
  desc_types : exchange_type_names (prop overview "exchange_types") = Ok names;
  desc_name : field u "name" = Ok name;
  desc_internal : field u "is_internal_user" = Ok internal;
  desc_global : policy_of (prop overview "sample_retention_policies") "global" = Ok g;
  desc_basic : policy_of (prop overview "sample_retention_policies") "basic" = Ok b;
}.

Definition monitors (tags : list jstr) : bool := bool_decide (js "monitoring" ∈ expand_user_tags tags).
Definition administers (tags : list jstr) : bool := bool_decide (js "administrator" ∈ expand_user_tags tags).

(** Whether there are several nodes, and with several versions. *)
Definition nodes_seen (monitor : bool) (ns : list value) (m : ui_data) : bool * bool :=
  if monitor && (1 <? length ns)%nat then (true, (foldl version_step ([], false) (nodes m)).2)
  else (false, false).

Definition globals_for (overview : obj value) (tags : list jstr) (names : list value)
  (name internal : value) (seen : bool * bool) (vhosts : list value) : global_vars :=
  mk_globals (prop overview "rates_mode") (prop overview "is_op_policy_updating_enabled")
    (expand_user_tags tags) (administers tags) (bool_decide (js "policymaker" ∈ expand_user_tags tags))
    (monitors tags) (prop overview "exchange_types")
    (cluster_markup (administers tags) (fmt_escape_html (prop overview "cluster_name")))
    (user_markup (administers tags && truthy internal) (fmt_escape_html name))
    (versions_markup names overview) seen.1 seen.2 (1 <? length vhosts)%nat
    "default" (prop overview "disable_stats") (prop overview "enable_queue_totals").

(** The world with the columns, the virtual host and the ranges of the overview. *)
Definition globals_world (l : gmap jstr jstr) (overview : obj value) (g b : option (list Z))
  (w : world J) : world J :=
  mk_world
    (set_columns (if truthy (prop overview "disable_stats") then DISABLED_STATS_COLUMNS else ALL_COLUMNS)
       (prefs w))
    (mk_query (default [] (l !! rabbit "vhost")) (Requests.current_sort (query w))
       (Requests.current_sort_reverse (query w)))
    (view_of w) (timers_of w) (net_of w) (setup_chart_ranges g b (ranges w)) (document w) (log w).

(** With the tags of a monitoring user the nodes are asked for once more. *)
Definition nodes_asked (monitor : bool) x : L := if monitor then logged (request "/nodes" x) x else x.

Lemma online_nodes_asked l o b x : online l o x -> online l o (nodes_asked b x).
Proof. intros Hx. destruct b; [by apply online_logged|done]. Qed.

(** The part of setup_global_vars about the nodes. *)
Lemma nodes_seen_run l o ns m x (monitor : bool) :
  online l o x -> (monitor = true -> answers "/nodes" (VArr ns)) ->
  ui_of (vhosts_of x) (nodes_of x) = Ok m ->
  (if monitor then
     v ← ask_json "/nodes";
     listed ← lift (elements v);
     if (1 <? length listed)%nat then
       m ← gets (fun x : L => ui_of (vhosts_of x) (nodes_of x));
       m ← lift m;
       mret (true, (foldl version_step ([], false) (nodes m)).2)
     else mret (false, false)
   else mret (false, false)) x = (Ok (nodes_seen monitor ns m), nodes_asked monitor x).
Proof.
  intros Hx Hn Hm. destruct monitor; [|done]. unfold mbind, M_bind, nodes_seen.
  rewrite (ask_json_run l o _ (VArr ns)) by (done || by_decide || by apply Hn).
  cbn [lift elements andb]. destruct (1 <? length ns)%nat; [|done]. cbn [gets].
  change (vhosts_of (logged _ x)) with (vhosts_of x). change (nodes_of (logged _ x)) with (nodes_of x).
  by rewrite Hm.
Qed.

Lemma setup_global_vars_run l o overview tags names name internal g b vs ns m x :
  online l o x -> described (user x) overview tags names name internal g b ->
  vhosts_of x = VArr vs -> (monitors tags = true -> answers "/nodes" (VArr ns)) ->
  ui_of (vhosts_of x) (nodes_of x) = Ok m ->
  let x1 := nodes_asked (monitors tags) x in
  setup_global_vars overview x = (Ok tt,
    with_world (globals_world l overview g b (world_of x1))
      (set_globals (globals_for overview tags names name internal (nodes_seen (monitors tags) ns m) vs) x1)).
Proof.
  intros Hx [Ht He Hn Hi Hg Hb] Hv Hns Hm x1. unfold Login.setup_global_vars.
  unfold mbind at 1, M_bind at 1. cbn [gets]. unfold lift. unfold mbind at 1, M_bind at 1. rewrite Ht.
  cbv zeta. do 3 (unfold mbind at 1, M_bind at 1; first [rewrite He | rewrite Hn | rewrite Hi]).
  unfold mbind at 1, M_bind at 1. fold (monitors tags).
  pose proof (nodes_seen_run l o ns m x (monitors tags) Hx Hns Hm) as Hs. unfold lift in Hs. rewrite Hs.
  clear Hs. fold x1. assert (Hx1 : online l o x1) by by apply online_nodes_asked.
  assert (Hv1 : vhosts_of x1 = VArr vs) by (rewrite <- Hv; unfold x1; by destruct (monitors tags)).
  unfold mbind at 1, M_bind at 1. cbn [gets]. rewrite Hv1. unfold mbind at 1, M_bind at 1. cbn [elements].
  unfold mbind at 1, M_bind at 1. cbn [modify]. unfold mbind at 1, M_bind at 1.
  set (x2 := set_globals _ x1).
  assert (Hl2 : local_storage (prefs_of x2) = Some l) by exact (online_storage _ _ _ Hx1).
  rewrite (on_page_run _ x2 (Ok (l !! rabbit "vhost")) (prefs_of x2))
    by (rewrite (get_pref_local _ l _ Hl2); by destruct (l !! rabbit "vhost")).
  rewrite with_prefs_same. unfold mbind at 1, M_bind at 1.
  erewrite on_world_run by reflexivity. unfold mbind at 1, M_bind at 1.
  erewrite on_page_run by reflexivity. unfold mbind at 1, M_bind at 1. rewrite Hg.
  unfold mbind at 1, M_bind at 1. rewrite Hb. erewrite on_world_run by reflexivity. done.
Qed.


(** ** Extensions and the start *)

Definition log_all (es : list effect) x : L := with_world (set_log (log (world_of x) ++ es) (world_of x)) x.

Lemma log_all_app es es' x : log_all es' (log_all es x) = log_all (es ++ es') x.
Proof.
  unfold log_all. cbn [world_of with_world set_site site_of base set_base set_log log].
  by rewrite <- app_assoc.
Qed.

Lemma log_all_nil x : log_all [] x = x.
Proof.
  unfold log_all. rewrite app_nil_r. destruct x as [[w ? ? ? ? ? ?] ? ? ? ? ? ? ? ? ?]. by destruct w.
Qed.

Lemma for_each_log {A} (f : A -> M L unit) (es : A -> list effect) l : forall x,
  (forall a y, f a y = (Ok tt, log_all (es a) y)) ->
  for_each f l x = (Ok tt, log_all (concat (map es l)) x).
Proof.
  induction l as [|a l IH]; intros x Hf; cbn [for_each map concat].
  - by rewrite log_all_nil.
  - unfold mbind, M_bind. rewrite Hf, IH by done. by rewrite log_all_app.
Qed.

(** The effects of the style sheets of the extensions, in their order. *)
Definition style_effects (extensions : value) : list effect :=
  concat (map (fun kv => concat (map (fun f => [StyleLoad ("css/" ++ to_str f)])
    (extension_files "css" kv.2))) (for_in extensions)).

Lemma load_styles_run extensions x :
  load_styles extensions x = (Ok tt, log_all (style_effects extensions) x).
Proof.
  apply (for_each_log _ (fun kv => concat (map (fun f => [StyleLoad ("css/" ++ to_str f)])
    (extension_files "css" kv.2)))). intros kv y.
  assert (Hnone : skip y = (Ok tt, log_all [] y)) by by rewrite log_all_nil.
  unfold extension_files. destruct (kv.2) as [| | | | | | |o]; try exact Hnone.
  destruct (get o "css") as [v|]; [|exact Hnone].
  by apply (for_each_log dynamic_css_file_load (fun f => [StyleLoad ("css/" ++ to_str f)])).
Qed.

Definition script_effect (f : value) : effect := ScriptLoad ("js/" ++ to_str f).

(** The effects of start_app. *)
Definition start_effects x : list effect :=
  match app x with Some _ => [AppUnload; AppRun] | None => [AppRun] end.

Lemma start_app_run x :
  start_app x = (Ok tt, log_all (start_effects x)
    (set_app MainApp (set_address (start_address (here_address x)) x))).
Proof.
  unfold start_app, start_effects, mbind, M_bind. cbn [gets].
  destruct (app x); cbn [modify]; [|done].
  rewrite emits_run. cbn. unfold log_all, with_world, logged. cbn. by rewrite <- app_assoc.
Qed.

(** What load_next does with a list of scripts. *)
Definition next_loaded x : L :=
  match loading x with
  | [] => log_all (start_effects x) (set_app MainApp (set_address (start_address (here_address x)) x))
  | f :: _ => logged (script_effect f) x
  end.

Lemma load_next_run x : load_next x = (Ok tt, next_loaded x).
Proof.
  unfold load_next, next_loaded, mbind, M_bind. cbn [gets].
  destruct (loading x); [apply start_app_run|done].
Qed.

Lemma setup_extensions_run l o v x :
  online l o x -> answers "/extensions" v ->
  setup_extensions x = (Ok tt, next_loaded (set_loading (javascript_files v)
    (log_all (style_effects v) (logged (request "/extensions" x) x)))).
Proof.
  intros Hx Hv. unfold Login.setup_extensions. unfold mbind at 1, M_bind at 1.
  rewrite (ask_json_run l o _ v) by (done || by_decide). unfold mbind at 1, M_bind at 1.
  rewrite load_styles_run. unfold mbind, M_bind. cbn [modify]. apply load_next_run.
Qed.

(** One script more is there. *)
Definition script_step x : L := (script_loaded x).2.

Lemma script_step_cons f rest x :
  loading x = f :: rest -> script_step x = next_loaded (set_loading rest x).
Proof.
  intros Hl. unfold script_step, script_loaded, mbind, M_bind. cbn [gets]. rewrite Hl. cbn [modify].
  by rewrite load_next_run.
Qed.

(** C35: The extensions are loaded and the application starts. The scripts that
    the extensions name are loaded one after the other, in their order: before
    the last one is there (or has failed) the application that runs stays, and
    with it the UI starts, once; there is no script the start does not wait for. *)
Theorem scripts_then_start k : forall x files,
  loading x = files -> (0 < k <= length files)%nat ->
  let x' := Nat.iter k script_step x in
  loading x' = drop k files /\
  log (world_of x') = log (world_of x) ++ map script_effect (take k (drop 1 files)) ++
    (if decide (k = length files) then start_effects x else []) /\
  app x' = if decide (k = length files) then Some MainApp else app x.
Proof.
  induction k as [|k IH]; intros x files Hl Hk; [lia|].
  destruct files as [|f files]; [cbn in Hk; lia|]. cbv zeta.
  rewrite Nat.iter_succ_r, (script_step_cons f files x Hl).
  destruct k as [|k].
  - cbn [Nat.iter]. unfold next_loaded. cbn [loading set_loading drop take].
    destruct files as [|f' files]; cbn [length map app take].
    + rewrite !decide_True by done. by split_and!.
    + rewrite !decide_False by lia. split; [done|]. by split.
  - assert (Hf : (0 < S k <= length files)%nat) by (cbn [length] in Hk; lia).
    destruct files as [|f' files]; [cbn in Hf; lia|].
    unfold next_loaded. cbn [loading set_loading].
    set (x1 := logged (script_effect f') (set_loading (f' :: files) x)).
    destruct (IH x1 (f' :: files) eq_refl Hf) as (H1 & H2 & H3).
    rewrite H1, H2, H3. split; [done|].
    change (log (world_of x1)) with (log (world_of x) ++ [script_effect f']).
    change (start_effects x1) with (start_effects x). change (Login.app x1) with (Login.app x).
    rewrite <- app_assoc. split.
    + f_equal. cbn [drop take map app length]. rewrite (decide_ext (S (S k) = S (S (length files))) (S k = S (length files))) by lia.
      done.
    + rewrite (decide_ext (S (S k) = length (f :: f' :: files)) (S k = length (f' :: files))) by (cbn [length]; lia).
      done.
Qed.


(** ** The accepted login *)

(** A user that the server accepts, with answers of the form the login expects. *)
Record grants (l : gmap jstr jstr) x (u : value) (tags hosts : list jstr) (names : list value)
  (name internal : value) (g b : option (list Z)) (vs ns : list value) (m : ui_data)
  (overview : obj value) (extensions : value) : Prop := {
  gr_user : answers "/whoami" u;
  gr_true : eq_false u = false;
  gr_error : exists e, field u "error" = Ok e /\ truthy e = false;
  gr_version : exists v, answers "/version" v /\ json_text (Some v) <> [] /\
    l !! rabbit "version" = Some (json_text (Some v));
  gr_layout : renders "layout" [] [] = true;
  gr_timeout : exists t, field u "login_session_timeout" = Ok t /\
    forall n, parse_int (to_str t) = Some n -> 0 <= n;
  gr_vhosts : answers "/vhosts" (VArr vs);
  gr_hosts : texts_of "name" (VArr vs) = Ok hosts;
  gr_nodes : monitors tags = true -> answers "/nodes" (VArr ns);
  gr_ui : ui_of (VArr vs) (if monitors tags then VArr ns else nodes_of x) = Ok m;
  gr_overview : answers "/overview" (VObj overview);
  gr_described : described u overview tags names name internal g b;
  gr_extensions : answers "/extensions" extensions;
}.

Lemma begin_session_run l o x v t :
  online l o x -> answers "/version" v -> json_text (Some v) <> [] ->
  l !! rabbit "version" = Some (json_text (Some v)) -> renders "layout" [] [] = true ->
  field (user x) "login_session_timeout" = Ok t -> (forall n, parse_int (to_str t) = Some n -> 0 <= n) ->
  exists p, begin_session x = (Ok tt, with_prefs p
      (log_all [request "/version" x; PopupsHidden; Content "outer" "layout" []] x)) /\
    local_storage p = Some l.
Proof.
  intros Hx Hv Hne Hl Hr Ht Hn. unfold Login.begin_session. unfold mbind at 1, M_bind at 1.
  rewrite (check_version_run l o v x) by done. unfold mbind at 1, M_bind at 1. rewrite emits_run.
  unfold mbind at 1, M_bind at 1. rewrite show_content_run by done. unfold mbind, M_bind. cbn [gets].
  set (x1 := logged _ (logged _ (logged _ x))).
  assert (E : x1 = log_all [request "/version" x; PopupsHidden; Content "outer" "layout" []] x).
  { change x1 with (log_all [Content "outer" "layout" []]
      (log_all [PopupsHidden] (log_all [request "/version" x] x))). by rewrite !log_all_app. }
  rewrite <- E. change (user x1) with (user x). rewrite Ht. cbn [lift].
  assert (Hx1 : local_storage (prefs_of x1) = Some l) by exact (online_storage _ _ _ Hx).
  destruct (parse_int (to_str t)) as [n|].
  - destruct (update_timeout_run (prefs_of x1) l n Hx1 (Hn n eq_refl)) as (p & Hp & Hlp & _).
    exists p. split; [by apply on_page_run|done].
  - exists (prefs_of x1). by rewrite with_prefs_same.
Qed.

(** The state after load_model. *)
Definition model_loaded (tags : list jstr) (vs ns : list value) (m : ui_data) x : L :=
  let x1 := set_ac (ac_update tags (ac x)) (set_model_vhosts (VArr vs) (logged (request "/vhosts" x) x)) in
  let x2 := if monitors tags then set_model_nodes (VArr ns) (logged (request "/nodes" x1) x1) else x1 in
  set_display (display_update m (ac x1)) (logged (request "/overview" x2) x2).

Lemma load_model_run l o x tags vs ns m overview :
  online l o x -> tags_of (user x) = Ok tags -> answers "/vhosts" (VArr vs) ->
  (monitors tags = true -> answers "/nodes" (VArr ns)) -> answers "/overview" overview ->
  ui_of (VArr vs) (if monitors tags then VArr ns else nodes_of x) = Ok m ->
  load_model x = (Ok overview, model_loaded tags vs ns m x).
Proof.
  intros Hx Ht Hv Hn Ho Hm. unfold Login.load_model, model_loaded. unfold mbind at 1, M_bind at 1.
  rewrite (ask_json_run l o _ (VArr vs)) by (done || by_decide).
  do 3 (unfold mbind at 1, M_bind at 1; cbn [gets modify lift]).
  change (user (set_model_vhosts _ _)) with (user x). rewrite Ht.
  unfold mbind at 1, M_bind at 1; cbn [modify]. unfold mbind at 1, M_bind at 1; cbn [gets].
  set (x1 := set_ac _ (set_model_vhosts _ _)). assert (Hx1 : online l o x1) by by destruct Hx.
  change (ac_update tags (ac (set_model_vhosts _ _))) with (ac x1).
  change (isMonitoringUser (ac x1)) with (monitors tags). cbv zeta.
  unfold mbind at 1, M_bind at 1.
  set (x2 := if monitors tags then set_model_nodes (VArr ns) (logged (request "/nodes" x1) x1) else x1).
  assert (Hx2 : online l o x2) by (unfold x2; destruct (monitors tags); by destruct Hx1).
  assert (Hstep : (if monitors tags then nodes ← ask_json "/nodes"; modify (set_model_nodes nodes) else skip) x1
                  = (Ok tt, x2)).
  { unfold x2. destruct (monitors tags); [|done]. unfold mbind, M_bind.
    by rewrite (ask_json_run l o _ (VArr ns)) by (done || by_decide || by apply Hn). }
  rewrite Hstep. unfold mbind at 1, M_bind at 1.
  rewrite (ask_json_run l o _ overview) by (done || by_decide). unfold mbind, M_bind. cbn [gets].
  assert (Hui : ui_of (vhosts_of (logged (request "/overview" x2) x2))
                      (nodes_of (logged (request "/overview" x2) x2)) = Ok m).
  { rewrite <- Hm. unfold x2. by destruct (monitors tags). }
  by rewrite Hui.
Qed.


(** The paths of the synchronous requests. *)
Definition asked_paths (es : list effect) : list jstr :=
  omap (fun e => match e with SyncSend _ path _ _ _ => Some path | _ => None end) es.

Lemma asked_paths_app es es' : asked_paths (es ++ es') = asked_paths es ++ asked_paths es'.
Proof. apply omap_app. Qed.

Lemma asked_paths_styles extensions : asked_paths (style_effects extensions) = [].
Proof.
  unfold style_effects. induction (for_in extensions) as [|kv l IH]; [done|].
  cbn [map concat]. rewrite asked_paths_app, IH, app_nil_r.
  induction (extension_files "css" kv.2) as [|f fs IHf]; [done|]. exact IHf.
Qed.

Lemma asked_paths_log_all es x :
  asked_paths (log (world_of (log_all es x))) = asked_paths (log (world_of x)) ++ asked_paths es.
Proof. apply asked_paths_app. Qed.

Lemma asked_paths_next x :
  asked_paths (log (world_of (next_loaded x))) = asked_paths (log (world_of x)).
Proof.
  unfold next_loaded. destruct (loading x).
  - rewrite asked_paths_log_all. unfold start_effects. destruct (app x); apply app_nil_r.
  - change (logged ?e ?y) with (log_all [e] y). rewrite asked_paths_log_all. apply app_nil_r.
Qed.

(** The end of an accepted login: the page, once its globals are set. *)
Definition page_set_up (l : gmap jstr jstr) (hosts : list jstr) (x : L) : L :=
  let x1 := with_world (vhosts_updated l hosts (world_of (logged Listeners x))) (logged Listeners x) in
  let t := timers_of (world_of x1) in
  with_world (set_timers (reset_timer_state (mk_timers (next_timer t) (running t) (timer t)
    (interval_of (l !! rabbit "interval")) (paused t))) (world_of x1)) x1.

Lemma page_set_up_run l x vs hosts :
  local_storage (prefs_of x) = Some l -> vhosts_of x = VArr vs -> texts_of "name" (VArr vs) = Ok hosts ->
  show_page x = (Ok tt, page_set_up l hosts x).
Proof.
  intros Hl Hv Hh. unfold show_page. unfold mbind at 1, M_bind at 1. rewrite emits_run.
  unfold mbind at 1, M_bind at 1. unfold update_vhosts. unfold mbind at 1, M_bind at 1. cbn [gets].
  change (vhosts_of (logged Listeners x)) with (vhosts_of x). rewrite Hv. unfold mbind at 1, M_bind at 1.
  rewrite Hh. cbn [lift].
  rewrite (on_world_run _ _ (Ok tt) (vhosts_updated l hosts (world_of (logged Listeners x))))
    by (apply update_vhosts_run; exact Hl).
  apply on_world_run. rewrite (update_interval_run _ (<[rabbit "vhost" := kept_vhost
    (current_vhost (query (world_of (logged Listeners x)))) hosts]> l)) by done.
  by rewrite lookup_insert_ne by by apply rabbit_ne.
Qed.

(** The paths asked so far, step by step. *)
Definition asked x : list jstr := asked_paths (log (world_of x)).

Lemma asked_logged e x : asked (logged e x) = asked x ++ asked_paths [e].
Proof. apply asked_paths_app. Qed.

Lemma asked_request path x y :
  asked (logged (request path y) x) = asked x ++ [js "api" ++ path].
Proof. unfold asked. change (logged ?e ?y) with (log_all [e] y). by rewrite asked_paths_log_all. Qed.

Lemma asked_model_loaded tags vs ns m x :
  asked (model_loaded tags vs ns m x) = asked x ++ map (fun p => js "api" ++ p)
    ([js "/vhosts"] ++ (if monitors tags then [js "/nodes"] else []) ++ [js "/overview"]).
Proof.
  unfold model_loaded. cbv zeta. set (x1 := set_ac _ _).
  assert (H1 : asked x1 = asked x ++ [js "api" ++ js "/vhosts"]) by apply asked_request.
  change (asked (set_display ?d ?y)) with (asked y). rewrite asked_request.
  destruct (monitors tags).
  - change (asked (set_model_nodes ?v ?y)) with (asked y). rewrite asked_request, H1, <- !app_assoc. done.
  - rewrite H1, <- app_assoc. done.
Qed.

Lemma asked_page_set_up l hosts x : asked (page_set_up l hosts x) = asked x.
Proof.
  unfold page_set_up. cbv zeta. change (asked (with_world ?w ?y)) with (asked_paths (log w)).
  change (asked_paths ((log (world_of x) ++ [Listeners]) ++ [VhostMenu hosts (selected_vhost (current_vhost
    (query (world_of x))) hosts)]) = asked x).
  rewrite !asked_paths_app. cbn [asked_paths omap list_omap]. by rewrite !app_nil_r.
Qed.

(** The parts of the state that the loading of extensions leaves. *)
Lemma next_loaded_same x :
  user (next_loaded x) = user x /\ ac (next_loaded x) = ac x /\ display (next_loaded x) = display x /\
  globals (next_loaded x) = globals x /\ prefs_of (next_loaded x) = prefs_of x /\
  query (world_of (next_loaded x)) = query (world_of x) /\
  timers_of (world_of (next_loaded x)) = timers_of (world_of x) /\
  loading (next_loaded x) = loading x /\
  Login.app (next_loaded x) = if decide (loading x = []) then Some MainApp else Login.app x.
Proof.
  unfold next_loaded. destruct (loading x) eqn:E.
  - rewrite decide_True by done. rewrite <- E. by split_and!.
  - rewrite decide_False by done. rewrite <- E. by split_and!.
Qed.

(** What each stage of an accepted login leaves. *)
Lemma model_loaded_facts l o x tags vs ns m :
  online l o x -> ui_of (VArr vs) (if monitors tags then VArr ns else nodes_of x) = Ok m ->
  let x' := model_loaded tags vs ns m x in
  online l o x' /\ vhosts_of x' = VArr vs /\ ui_of (vhosts_of x') (nodes_of x') = Ok m /\
  user x' = user x /\ ac x' = ac_update tags (ac x) /\ display x' = display_update m (ac x') /\
  Login.app x' = Login.app x /\ timers_of (world_of x') = timers_of (world_of x).
Proof. intros [] <-. unfold model_loaded. destruct (monitors tags); by split_and!. Qed.

(** The state after setup_global_vars. *)
Definition globals_set (l : gmap jstr jstr) (overview : obj value) (tags : list jstr)
  (names : list value) (name internal : value) (g b : option (list Z)) (ns : list value) (m : ui_data)
  (vs : list value) x : L :=
  let x1 := nodes_asked (monitors tags) x in
  with_world (globals_world l overview g b (world_of x1))
    (set_globals (globals_for overview tags names name internal (nodes_seen (monitors tags) ns m) vs) x1).

Lemma globals_set_facts l o overview tags names name internal g b ns m vs x :
  online l o x ->
  let x' := globals_set l overview tags names name internal g b ns m vs x in
  online l o x' /\ vhosts_of x' = vhosts_of x /\ user x' = user x /\ ac x' = ac x /\
  display x' = display x /\ Login.app x' = Login.app x /\
  timers_of (world_of x') = timers_of (world_of x) /\
  globals x' = globals_for overview tags names name internal (nodes_seen (monitors tags) ns m) vs /\
  COLUMNS (prefs_of x') = Some (if truthy (prop overview "disable_stats")
                                then DISABLED_STATS_COLUMNS else ALL_COLUMNS) /\
  current_vhost (query (world_of x')) = default [] (l !! rabbit "vhost").
Proof. intros []. unfold globals_set, nodes_asked. destruct (monitors tags); by split_and!. Qed.

Lemma asked_globals_set l overview tags names name internal g b ns m vs x :
  asked (globals_set l overview tags names name internal g b ns m vs x) =
  asked x ++ map (fun p => js "api" ++ p) (if monitors tags then [js "/nodes"] else []).
Proof.
  unfold globals_set. cbv zeta. change (asked (with_world ?w ?y)) with (asked_paths (log w)).
  cbn [log globals_world]. change (asked_paths (log (world_of ?y))) with (asked y).
  unfold nodes_asked. destruct (monitors tags); [apply asked_request|by rewrite app_nil_r].
Qed.

(** The end: extensions. *)
Definition extensions_set (extensions : value) x : L :=
  next_loaded (set_loading (javascript_files extensions)
    (log_all (style_effects extensions) (logged (request "/extensions" x) x))).

Lemma asked_extensions_set extensions x :
  asked (extensions_set extensions x) = asked x ++ [js "api" ++ js "/extensions"].
Proof.
  unfold extensions_set, asked. rewrite asked_paths_next.
  change (log (world_of (set_loading ?f ?y))) with (log (world_of y)).
  rewrite asked_paths_log_all, asked_paths_styles, app_nil_r. apply asked_request.
Qed.

(** An accepted login, stage by stage. *)
Lemma login_accepted_run l o x u tags hosts names name internal g b vs ns m overview extensions :
  online l o x -> user x = u ->
  grants l x u tags hosts names name internal g b vs ns m overview extensions ->
  exists x2, begin_session x = (Ok tt, x2) /\ online l o x2 /\ user x2 = u /\ ac x2 = ac x /\
    Login.app x2 = Login.app x /\ timers_of (world_of x2) = timers_of (world_of x) /\
    nodes_of x2 = nodes_of x /\ asked x2 = asked x ++ [js "api" ++ js "/version"] /\
    login_accepted x = (Ok tt, extensions_set extensions (page_set_up l hosts
      (globals_set l overview tags names name internal g b ns m vs (model_loaded tags vs ns m x2)))).
Proof.
  intros Hx <- Hg. destruct Hg as [_ _ _ (v & Hv & Hne & Hver) Hlay (t & Ht & Hn)
    Hvs Hho Hns Hui Hov Hd Hext].
  destruct (begin_session_run l o x v t Hx Hv Hne Hver Hlay Ht Hn) as (p & Hb & Hlp).
  set (x2 := with_prefs p (log_all _ x)) in Hb. exists x2. split; [exact Hb|].
  assert (Hx2 : online l o x2) by by destruct Hx.
  do 6 (split; [done|]). split.
  { unfold asked. exact (asked_paths_log_all [request "/version" x; PopupsHidden; Content "outer" "layout" []] x). }
  unfold Login.login_accepted. unfold mbind at 1, M_bind at 1. rewrite Hb. unfold mbind at 1, M_bind at 1.
  rewrite (load_model_run l o x2 tags vs ns m (VObj overview) Hx2 (desc_tags _ _ _ _ _ _ _ _ Hd) Hvs Hns Hov Hui).
  destruct (model_loaded_facts l o x2 tags vs ns m Hx2 Hui) as (Hx3 & Hv3 & Hui3 & Hu3 & _).
  set (x3 := model_loaded tags vs ns m x2) in *.
  change (user x2) with (user x) in Hu3. rewrite <- Hu3 in Hd. unfold mbind at 1, M_bind at 1.
  rewrite (setup_global_vars_run l o overview tags names name internal g b vs ns m x3 Hx3 Hd Hv3 Hns Hui3).
  fold (globals_set l overview tags names name internal g b ns m vs x3).
  destruct (globals_set_facts l o overview tags names name internal g b ns m vs x3 Hx3) as (Hx4 & Hv4 & _).
  set (x4 := globals_set l overview tags names name internal g b ns m vs x3) in *.
  unfold mbind at 1, M_bind at 1. rewrite Hv3 in Hv4.
  rewrite (page_set_up_run l x4 vs hosts (online_storage _ _ _ Hx4) Hv4 Hho).
  apply (setup_extensions_run (<[rabbit "vhost" := kept_vhost (current_vhost (query (world_of x4))) hosts]> l) o);
    [by destruct Hx4; split|done].
Qed.

(** C34: A login that the server accepts sets up the page. The requests are asked
    in the order of the program (the nodes only for a user who monitors); the
    controls, the display and the globals are those of the tags of the user and
    of the overview; the columns are those of the statistics that are on; the
    virtual host is the one kept when it is still there, else all; one refresh
    timer runs with the interval the user chose; and the scripts of the
    extensions are loaded, or without any the application starts. *)
Theorem check_login_accepts l o x u tags hosts names name internal g b vs ns m overview extensions :
  online l o x ->
  grants l x u tags hosts names name internal g b vs ns m overview extensions ->
  exists x', check_login x = (Ok true, x') /\
    user x' = u /\ ac x' = ac_update tags (ac x) /\ display x' = display_update m (ac x') /\
    globals x' = globals_for overview tags names name internal (nodes_seen (monitors tags) ns m) vs /\
    COLUMNS (prefs_of x') = Some (if truthy (prop overview "disable_stats")
                                  then DISABLED_STATS_COLUMNS else ALL_COLUMNS) /\
    current_vhost (query (world_of x')) = kept_vhost (default [] (l !! rabbit "vhost")) hosts /\
    (let t := timers_of (world_of x) in
     timers_of (world_of x') = reset_timer_state (mk_timers (next_timer t) (running t) (timer t)
       (interval_of (l !! rabbit "interval")) (paused t))) /\
    asked_paths (log (world_of x')) = asked_paths (log (world_of x)) ++
      map (fun p => js "api" ++ p) ([js "/whoami"; js "/version"; js "/vhosts"] ++
        (if monitors tags then [js "/nodes"] else []) ++ [js "/overview"] ++
        (if monitors tags then [js "/nodes"] else []) ++ [js "/extensions"]) /\
    loading x' = javascript_files extensions /\
    Login.app x' = (if decide (javascript_files extensions = []) then Some MainApp else Login.app x).
Proof.
  intros Hx Hg. pose proof Hg as Hg'. destruct Hg' as [Hu Hf (e & He & Hfe) _ _ _ _ _ _ Hui _ _ _].
  unfold Login.check_login. unfold mbind at 1, M_bind at 1.
  rewrite (ask_json_run l o _ u) by (done || by_decide). unfold mbind at 1, M_bind at 1. cbn [modify].
  rewrite Hf. unfold mbind at 1, M_bind at 1. unfold lift. rewrite He. cbn [orb]. rewrite Hfe.
  set (x1 := set_user u (logged (request "/whoami" x) x)). assert (Hx1 : online l o x1) by by destruct Hx.
  assert (Hg1 : grants l x1 u tags hosts names name internal g b vs ns m overview extensions)
    by by destruct Hg; split.
  destruct (login_accepted_run l o x1 u _ _ _ _ _ _ _ _ _ _ _ _ Hx1 eq_refl Hg1)
    as (x2 & _ & Hx2 & Hu2 & Hac2 & Happ2 & Ht2 & Hn2 & Hask2 & Hrun).
  unfold mbind, M_bind. rewrite Hrun. eexists. split; [reflexivity|].
  change (nodes_of x) with (nodes_of x1) in Hui. rewrite <- Hn2 in Hui.
  destruct (model_loaded_facts l o x2 tags vs ns m Hx2 Hui) as (Hx3 & _ & _ & Hu3 & Hac3 & Hd3 & Happ3 & Ht3).
  pose proof (asked_model_loaded tags vs ns m x2) as Hask3. set (x3 := model_loaded tags vs ns m x2) in *.
  destruct (globals_set_facts l o overview tags names name internal g b ns m vs x3 Hx3)
    as (Hx4 & _ & Hu4 & Hac4 & Hd4 & Happ4 & Ht4 & Hgl4 & Hc4 & Hq4).
  pose proof (asked_globals_set l overview tags names name internal g b ns m vs x3) as Hask4.
  set (x4 := globals_set l overview tags names name internal g b ns m vs x3) in *.
  pose proof (asked_page_set_up l hosts x4) as Hask5. set (x5 := page_set_up l hosts x4) in *.
  pose proof (asked_extensions_set extensions x5) as Hask6. unfold asked in Hask6.
  destruct (next_loaded_same (set_loading (javascript_files extensions)
    (log_all (style_effects extensions) (logged (request "/extensions" x5) x5))))
    as (N1 & N2 & N3 & N4 & N5 & N6 & N7 & N8 & N9).
  fold (extensions_set extensions x5) in *. rewrite N1, N2, N3, N4, N5, N6, N7, N8, N9, Hask6.
  split; [exact (eq_trans Hu4 (eq_trans Hu3 Hu2))|]. split.
  { change (ac x4 = ac_update tags (ac x)). rewrite Hac4, Hac3, Hac2. done. }
  split; [change (display x4 = display_update m (ac x4)); by rewrite Hd4, Hac4|].
  split; [exact Hgl4|]. split; [exact Hc4|]. split.
  { change (kept_vhost (current_vhost (query (world_of x4))) hosts =
            kept_vhost (default [] (l !! rabbit "vhost")) hosts). by rewrite Hq4. }
  assert (Htim : timers_of (world_of x4) = timers_of (world_of x)) by (rewrite Ht4, Ht3, Ht2; done).
  split; [rewrite <- Htim; reflexivity|]. split.
  { change (asked_paths (log (world_of x5))) with (asked x5).
    rewrite Hask5, Hask4, Hask3, Hask2. change (asked x1) with (asked (logged (request "/whoami" x) x)).
    rewrite asked_request. rewrite <- !app_assoc. unfold asked. f_equal.
    by destruct (monitors tags). }
  split; [done|].
  replace (Login.app x) with (Login.app x4) by exact (eq_trans Happ4 (eq_trans Happ3 Happ2)).
  reflexivity.
Qed.


(** ** The refused login *)

(** A user that check_login does not take. *)
Definition no_user (u : value) : Prop :=
  eq_false u = true \/ eq_false u = false /\ exists e, field u "error" = Ok e /\ truthy e = true.

(** An answer that refuses the login: a good one without a user, or, without
    OAuth, that the user is not authorised. *)
Inductive refusal (with_oauth : bool) (r : response) : Prop :=
  | RefusedUser u :
      success (status r) = true -> body r = Some u -> no_user u -> refusal with_oauth r
  | RefusedStatus answer :
      with_oauth = false -> status r = 401 -> body r = Some (VObj answer) ->
      is_word (prop answer "error") "not_authorised" = true \/
      is_word (prop answer "error") "not_authorized" = true ->
      refusal with_oauth r.

Lemma check_unauthorised up url r answer (w : world J) :
  status r = 401 -> body r = Some (VObj answer) ->
  is_word (prop answer "error") "not_authorised" = true \/
  is_word (prop answer "error") "not_authorized" = true ->
  exists es, check_bad_response false up false false url r w = (Ok false, set_log (log w ++ es) w) /\
    asked_paths es = [].
Proof.
  intros Hs Hb He. unfold check_bad_response, mbind, M_bind. cbn [gets]. rewrite Hs.
  change (success 401) with false. cbv iota.
  destruct (password_change_in_progress (net_of w)).
  { exists []. rewrite app_nil_r. split; [by destruct w|done]. }
  unfold client_error, lift. rewrite Hb. unfold mbind, M_bind, field.
  change (default VUndef (get answer "error")) with (prop answer "error").
  change (default VUndef (get answer "reason")) with (prop answer "reason").
  match goal with |- context [if ?c then _ else when _ _] => assert (Hc : c = true) end.
  { destruct He as [-> | ->]; by rewrite ?orb_true_r. }
  rewrite Hc. rewrite Hs. exists [reason_popup (prop answer "reason")].
  split; [done|]. unfold reason_popup. by destruct (prop answer "reason").
Qed.

(** Whoever the server does not take, the login has a false user or an error. *)
Lemma refused_whoami l o x :
  online l o x -> refusal (truthy (enabled o)) (server "GET" (js "api" ++ js "/whoami") None) ->
  exists u es, ask_json "/whoami" x = (Ok u, log_all es x) /\ no_user u /\
    asked_paths es = [js "api" ++ js "/whoami"].
Proof.
  intros Hx Hr. destruct Hr as [u Hs Hb Hu|answer Ho Hs Hb He].
  - exists u, [request "/whoami" x]. split; [|by split].
    apply (ask_json_run l o); [done|by_decide|by split].
  - destruct (check_unauthorised (update_pages false) (js "api" ++ js "/whoami") _ answer
      (world_of (logged (request "/whoami" x) x)) Hs Hb He) as (es & Hc & Hes).
    exists (VBool false), (request "/whoami" x :: es). split; [|split; [by left|by rewrite <- Hes]].
    pose proof (sync_get_run l false "/whoami" x false _ (online_storage _ _ _ Hx) ltac:(by_decide) Hc) as Hg.
    unfold Login.ask_json, mbind, M_bind. rewrite <- Ho in Hg at 1. rewrite (ask_sync l o _ x _ _ Hx Hg).
    unfold lift. cbn [json_parse]. f_equal. change (request "/whoami" x :: es) with ([request "/whoami" x] ++ es).
    by rewrite <- log_all_app.
Qed.

(** A login that the server refuses leaves nothing of it. When the answer to
    who the user is has no user, or refuses one, the login asks nothing else,
    the credentials are cleared for good, and the application, the controls and
    the globals stay as they were. *)
Theorem check_login_refuses l o x :
  online l o x -> renders "login_oauth" (login_model o (VStr "Not authorized")) [] = true ->
  refusal (truthy (enabled o)) (server "GET" (js "api" ++ js "/whoami") None) ->
  exists x', check_login x = (Ok false, x') /\ signed_out (prefs_of x') /\
    asked x' = asked x ++ [js "api" ++ js "/whoami"] /\
    Login.app x' = Login.app x /\ ac x' = ac x /\ display x' = display x /\ globals x' = globals x /\
    timers_of (world_of x') = timers_of (world_of x).
Proof.
  intros Hx Hren Hr. destruct (refused_whoami l o x Hx Hr) as (u & es & Ha & Hu & Hes).
  unfold Login.check_login. unfold mbind at 1, M_bind at 1. rewrite Ha.
  unfold mbind at 1, M_bind at 1. cbn [modify]. set (x1 := set_user u (log_all es x)).
  assert (Hx1 : online l o x1) by by destruct Hx.
  assert (Hstep : exists e, (if eq_false u then mret VUndef else lift (field u "error")) x1 = (Ok e, x1) /\
    eq_false u || truthy e = true).
  { destruct Hu as [Hf|(Hf & e & He & Ht)]; rewrite Hf; [by exists VUndef|].
    exists e. unfold lift. by rewrite He. }
  destruct Hstep as (e & He & Hcond). unfold mbind at 1, M_bind at 1. rewrite He, Hcond.
  unfold mbind at 1, M_bind at 1.
  destruct (clear_auth_signs_out (prefs_of x1) l (online_storage _ _ _ Hx1)) as (p & Hc & Hout & Hl).
  assert (Hrun : exists x', login_refused x1 = (Ok tt, x') /\ prefs_of x' = p /\ asked x' = asked x1 /\
    Login.app x' = Login.app x1 /\ ac x' = ac x1 /\ display x' = display x1 /\ globals x' = globals x1 /\
    timers_of (world_of x') = timers_of (world_of x1)).
  { unfold login_refused. unfold mbind at 1, M_bind at 1. rewrite (on_page_run _ x1 _ _ Hc).
    set (x2 := with_prefs p x1). assert (Ho2 : oauth (site_of x2) = Some o) by by destruct Hx.
    unfold mbind at 1, M_bind at 1. rewrite (oauth_enabled_run o x2 Ho2).
    destruct (truthy (enabled o)).
    - unfold mbind at 1, M_bind at 1. rewrite (on_oauth_run o x2 Ho2). unfold render_login_oauth.
      unfold mbind, M_bind. rewrite show_content_run by exact Hren. rewrite emits_run.
      eexists. split; [reflexivity|]. split; [done|]. split; [|done].
      etrans; [apply asked_logged|]. rewrite app_nil_r. etrans; [apply asked_logged|]. apply app_nil_r.
    - eexists. split; [reflexivity|]. split; [done|]. split; [|done].
      etrans; [apply asked_logged|]. apply app_nil_r. }
  destruct Hrun as (x' & Hrun & Hp & Hask & Hrest). rewrite Hrun. exists x'. split; [done|].
  rewrite Hp, Hask. split; [exact Hout|]. split; [|exact Hrest].
  change (asked x1) with (asked_paths (log (world_of (log_all es x)))). by rewrite asked_paths_log_all, Hes.
Qed.

End Facts.

(** ** Examples *)

Module LoginExamples.
Import RefreshRuns.Page.

(** The answers of a broker of one node to an administrator, with one extension. *)
Definition guest : value :=
  VObj [(js "name", VStr "guest"); (js "tags", VArr [VStr "administrator"]); (js "is_internal_user", VBool true)].
Definition one_vhost : list value := [VObj [(js "name", VStr "/")]].
Definition one_node : list value :=
  [VObj [(js "applications", VArr [VObj [(js "name", VStr "rabbit"); (js "version", VStr "4.0")]])]].
Definition the_overview : obj value :=
  [(js "rates_mode", VStr "basic"); (js "exchange_types", VArr [VObj [(js "name", VStr "direct")]]);
   (js "cluster_name", VStr "a<b"); (js "rabbitmq_version", VStr "4.0"); (js "erlang_version", VStr "27");
   (js "sample_retention_policies", VObj [(js "global", VArr [VInt 600])])].
Definition the_extensions : value := VArr [VObj [(js "javascript", VStr "shovel.js")]].

Definition broker (method path : jstr) (b : option (obj value)) : response :=
  mk_response 200
    (if decide (path = "api/whoami") then Some guest
     else if decide (path = "api/version") then Some (VStr "4.0")
     else if decide (path = "api/vhosts") then Some (VArr one_vhost)
     else if decide (path = "api/nodes") then Some (VArr one_node)
     else if decide (path = "api/overview") then Some (VObj the_overview)
     else if decide (path = "api/extensions") then Some the_extensions
     else None).

Definition plain_text (v : option value) : jstr := default [] (to_str <$> v).

Definition no_oauth : oauth_state :=
  mk_oauth false (VBool false) [] VUndef VUndef VUndef VUndef VUndef None VUndef VUndef None.

Definition no_globals : global_vars :=
  mk_globals VUndef VUndef [] false false false VUndef [] [] [] false false false [] VUndef VUndef.

(** A page whose user is logged in and whose version was stored. *)
Definition login_page : page cookies := (store_pref "version" "4.0" logged_page).2.

Definition login0 : login cookies :=
  mk_login (mk_site (set_prefs login_page start) (mk_settings [] None []) (Some no_oauth) None 0 [] [])
    VUndef None (VArr []) (VArr []) new_access new_display no_globals []
    (mk_address "http://broker/" [] "/").

Definition storage : gmap jstr jstr := default ∅ (local_storage login_page).

Lemma online0 : online storage no_oauth login0.
Proof. split; [by by_decide|done]. Qed.

Lemma check_login_accepts_witness :
  exists x', check_login broker plain_text (mk_form [] []) login0 = (Ok true, x') /\
    user_administrator (globals x') = true /\ current_vhost (query (world_of x')) = [] /\
    loading x' = [VStr "shovel.js"] /\ Login.app x' = None.
Proof.
  assert (Hg : grants broker plain_text storage login0 guest [js "administrator"] [js "/"] [VStr "direct"]
    (VStr "guest") (VBool true) (Some [600]) None one_vhost one_node
    (mk_ui_data [js "/"] [mk_node [mk_application "rabbit" "4.0"]]) the_overview the_extensions).
  { assert (Hv : storage !! rabbit "version" = Some (plain_text (Some (VStr "4.0")))) by by_decide.
    assert (Ht : field guest "login_session_timeout" = Ok VUndef) by by vm_compute.
    split.
    - split; by vm_compute.
    - by vm_compute.
    - exists VUndef. split; by vm_compute.
    - exists (VStr "4.0"). split; [split; by vm_compute|]. split; [by vm_compute|exact Hv].
    - done.
    - exists VUndef. split; [exact Ht|]. intros n Hn. by vm_compute in Hn.
    - split; by vm_compute.
    - by vm_compute.
    - intros _. split; by vm_compute.
    - by vm_compute.
    - split; by vm_compute.
    - split; by vm_compute.
    - split; by vm_compute. }
  destruct (check_login_accepts broker plain_text (mk_form [] []) _ _ _ _ _ _ _ _ _ _ _ _ _ _ _ _ online0 Hg)
    as (x' & Hr & _ & _ & _ & Hgl & _ & Hq & _ & _ & Hl & Ha).
  assert (Hv : storage !! rabbit "vhost" = None) by by_decide.
  exists x'. split; [exact Hr|]. split; [rewrite Hgl; by vm_compute|].
  split; [rewrite Hq, Hv; by vm_compute|]. split; [rewrite Hl; by vm_compute|].
  rewrite Ha. by vm_compute.
Defined.

(** The script of the extension is there: the UI starts. *)
Definition loading_one : login cookies := set_loading [VStr "shovel.js"] login0.

Lemma scripts_then_start_witness :
  Login.app (script_step loading_one) = Some MainApp /\
  log (world_of (script_step loading_one)) = log (world_of loading_one) ++ [AppRun].
Proof.
  assert (Hk : (0 < 1 <= length [VStr (js "shovel.js")])%nat) by (cbn; lia).
  destruct (scripts_then_start 1 loading_one [VStr "shovel.js"] eq_refl Hk) as (_ & Hl & Ha).
  split; [exact Ha|exact Hl].
Defined.

(** A broker that knows nobody. *)
Definition closed_broker (method path : jstr) (b : option (obj value)) : response :=
  mk_response 401 (Some (VObj [(js "error", VStr "not_authorised"); (js "reason", VStr "Not_Authorized")])).

Lemma check_login_refuses_witness :
  exists x', check_login closed_broker plain_text (mk_form [] []) login0 = (Ok false, x') /\
    signed_out (prefs_of x') /\ Login.app x' = None.
Proof.
  assert (Hr : refusal (truthy (enabled no_oauth)) (closed_broker "GET" (js "api" ++ js "/whoami") None)).
  { eapply RefusedStatus; [done|done|reflexivity|]. left. by vm_compute. }
  assert (Hren : renders "login_oauth" (login_model no_oauth (VStr "Not authorized")) [] = true) by done.
  destruct (check_login_refuses closed_broker plain_text (mk_form [] []) _ _ login0 online0 Hren Hr)
    as (x' & Hc & Ho & _ & Ha & _).
  exists x'. split; [exact Hc|]. split; [exact Ho|exact Ha].
Defined.

(** A version that cannot be read makes the page load again, whatever was stored. *)
Example refused_version_reloads :
  let x := (check_version closed_broker plain_text (mk_form [] []) login0).2 in
  let x' := (check_version closed_broker plain_text (mk_form [] []) x).2 in
  log (world_of x') = log (world_of x) ++ (drop (length (log (world_of login0))) (log (world_of x))).
Proof. by vm_compute. Qed.

(** The link to the user in the header is not encoded for an address: the name
    a/b leads to no page, and the name a%b throws. *)
Example header_link_broken :
  user_markup true (fmt_escape_html (VStr "a/b")) = "User <a href=`#/users/a/b`>a/b</a>" /\
  runRoute GET "/#/users/a/b" [] (routes (J := cookies) false plain_form accepting admin) = Ok None /\
  runRoute GET "/#/users/a%b" [] (routes (J := cookies) false plain_form accepting admin) = Throw URIError.
Proof. split_and!; by vm_compute. Qed.

End LoginExamples.
