(* ===== verification/Doubles.v ===== *)
(** Numbers of the language as doubles: the values and the arithmetic are those of
    the Standard Library's specification of floating-point numbers (binary64,
    round to nearest even); here are the conversions, the comparisons and the
    functions on numbers that the UI uses, all exact. *)
From Stdlib Require SpecFloat.
From S2P Require Import Prelude JsString JsNum Uri JsObject JsValue.

Notation double := SpecFloat.spec_float.
Notation finite := SpecFloat.S754_finite.
Notation infinite := SpecFloat.S754_infinity.
Notation dnan := SpecFloat.S754_nan.
Notation dzero := SpecFloat.S754_zero.

(** ** Arithmetic and comparison *)

Definition ddiv : double -> double -> double := SpecFloat.SFdiv 53 1024.
Definition dmul : double -> double -> double := SpecFloat.SFmul 53 1024.
Definition dsub : double -> double -> double := SpecFloat.SFsub 53 1024.
Definition dadd : double -> double -> double := SpecFloat.SFadd 53 1024.
Definition dlt : double -> double -> bool := SpecFloat.SFltb.
Definition dle : double -> double -> bool := SpecFloat.SFleb.
Definition deq : double -> double -> bool := SpecFloat.SFeqb.

(** The double nearest to a fraction with a positive denominator. *)
Definition of_fraction (n : Z) (d : positive) : double :=
  match n with
  | Z0 => dzero false
  | Zpos p => ddiv (finite false p 0) (finite false d 0)
  | Zneg p => ddiv (finite true p 0) (finite false d 0)
  end.

Definition of_int (n : Z) : double := of_fraction n 1.

(** A decimal, as a numeral denotes it. *)
Definition double_of (n : num) : double := of_fraction (mant n) (Z.to_pos (10 ^ Z.of_nat (scale n))).

(** [typeof v == "number"], and the number. *)
Definition number_of (v : value) : option double :=
  match v with VNum n => Some (double_of n) | VNaN => Some dnan | _ => None end.

(** ** Texts as numbers *)

(** The digits at the start of a text are dropped: how many, and the rest. *)
Fixpoint skip_digits (t : jstr) : nat * jstr :=
  match t with
  | c :: t' => if is_digit c then let '(n, r) := skip_digits t' in (S n, r) else (O, t)
  | [] => (O, [])
  end.

(** A text that is a decimal literal as a whole: digits, a point, an exponent. *)
Definition decimal_literal (t : jstr) : bool :=
  let '(d, t) := skip_digits (split_sign t).2 in
  let '(f, t) := match t with 46 :: t' => skip_digits t' | _ => (O, t) end in
  (0 <? d + f)%nat &&
  match t with
  | [] => true
  | c :: t' =>
      ((c =? 101) || (c =? 69)) &&
      (let '(x, t) := skip_digits (split_sign t').2 in (0 <? x)%nat && bool_decide (t = []))
  end.

(** The value of all the digits of a text in a base. *)
Fixpoint based (base acc : Z) (t : jstr) : option Z :=
  match t with
  | [] => Some acc
  | c :: t =>
      match hex_val c with
      | Some d => if d <? base then based base (base * acc + d) t else None
      | None => None
      end
  end.

Definition radix (c : Z) : option Z :=
  if (c =? 120) || (c =? 88) then Some 16
  else if (c =? 111) || (c =? 79) then Some 8
  else if (c =? 98) || (c =? 66) then Some 2
  else None.

(** [Number(s)] of a text: blank is 0, then the words for the infinities, the
    integers in another base, the decimals; all else is not a number. *)
Definition string_number (s : jstr) : double :=
  let t := trim s in
  if decide (t = []) then dzero false
  else if decide (t = js "Infinity" \/ t = js "+Infinity") then infinite false
  else if decide (t = js "-Infinity") then infinite true
  else
    match t with
    | 48 :: c :: _ :: _ =>
        match radix c with
        | Some b => match based b 0 (drop 2 t) with Some n => of_int n | None => dnan end
        | None =>
            if decimal_literal t
            then match parse_float t with Some n => double_of n | None => dnan end else dnan
        end
    | _ =>
        if decimal_literal t
        then match parse_float t with Some n => double_of n | None => dnan end else dnan
    end.

(** A value as a number, where one is computed or compared with. *)
Definition to_number (v : value) : double :=
  match v with
  | VUndef | VNaN => dnan
  | VNull => dzero false
  | VBool b => if b then of_int 1 else dzero false
  | VNum n => double_of n
  | VStr s => string_number s
  | VArr _ | VObj _ => string_number (to_str v)
  end.

Example string_numbers :
  map string_number [js " 12 "; js ""; js "0x1F"; js "1e1"; js ".5"; js "."; js "1 2"; js "5k"] =
  [of_int 12; dzero false; of_int 31; of_int 10; double_of (Num 5 1); dnan; dnan; dnan].
Proof. by vm_compute. Qed.

(** ** Rounding to integers *)

(** The integer nearest to [m * 2 ^ e * k], the larger of two; [m >= 0]. *)
Definition nearest (m : Z) (e : Z) (k : Z) : Z :=
  if 0 <=? e then m * 2 ^ e * k else (2 * m * k + 2 ^ (- e)) / 2 ^ (- e + 1).

(** The largest integer that is not above [m * 2 ^ e + 1 / 2], for any [m]:
    [Math.round]. *)
Definition round_half_up (m e : Z) : Z :=
  if 0 <=? e then m * 2 ^ e else (2 * m + 2 ^ (- e)) / 2 ^ (- e + 1).

Definition signed (s : bool) (m : positive) : Z := if s then Zneg m else Zpos m.

(** [Math.round(x)], as a number: not a number and the infinities stay. *)
Definition math_round (x : double) : double :=
  match x with finite s m e => of_int (round_half_up (signed s m) e) | _ => x end.

(** [Math.floor(x)] *)
Definition math_floor (x : double) : double :=
  match x with
  | finite s m e => of_int (if 0 <=? e then signed s m * 2 ^ e else signed s m / 2 ^ (- e))
  | _ => x
  end.

(** ** Numbers as texts *)

(** [m * 2 ^ e < 10 ^ n], by integers. *)
Definition below_power (m e n : Z) : bool :=
  m * 2 ^ Z.max e 0 * 10 ^ Z.max (- n) 0 <? 10 ^ Z.max n 0 * 2 ^ Z.max (- e) 0.

(** The first exponent of ten, from a low estimate, that is above. *)
Fixpoint decimal_exponent (fuel : nat) (m e n : Z) : Z :=
  match fuel with
  | O => n
  | S fuel => if below_power m e n then n else decimal_exponent fuel m e (n + 1)
  end.

(** Whether [s * 10 ^ t] is read as the double [m * 2 ^ e]: it lies between the
    points halfway to the neighbours, which count when [m] is even. *)
Definition reads_as (m e s t : Z) : bool :=
  let v := 4 * s * 10 ^ Z.max t 0 * 2 ^ Z.max (- e) 0 in
  let u := 2 ^ Z.max e 0 * 10 ^ Z.max (- t) 0 in
  let low := (4 * m - (if (m =? 2 ^ 52) && (-1074 <? e) then 1 else 2)) * u in
  let high := (4 * m + 2) * u in
  if Z.even m then (low <=? v) && (v <=? high) else (low <? v) && (v <? high).

(** The shortest digits [s] and the exponent [n] with [0.s * 10 ^ n] read as the
    double: at most 17 digits are tried. *)
Fixpoint shortest (fuel : nat) (m e n k : Z) : Z * Z :=
  let t := n - k in
  let a := m * 2 ^ Z.max e 0 * 10 ^ Z.max (- t) 0 in
  let b := 2 ^ Z.max (- e) 0 * 10 ^ Z.max t 0 in
  let s := (2 * a + b) / (2 * b) in
  let '(s, n) := if s =? 10 ^ k then (10 ^ (k - 1), n + 1) else (s, n) in
  match fuel with
  | O => (s, n)
  | S fuel => if reads_as m e s (n - k) then (s, n) else shortest fuel m e n (k + 1)
  end.

Definition zeros (n : Z) : jstr := repeat 48 (Z.to_nat n).

(** The layout of Number.prototype.toString for digits and an exponent. *)
Definition layout (d : jstr) (n : Z) : jstr :=
  let k := Z.of_nat (length d) in
  if (k <=? n) && (n <=? 21) then d ++ zeros (n - k)
  else if (0 <? n) && (n <=? 21) then take (Z.to_nat n) d ++ "." ++ drop (Z.to_nat n) d
  else if (-6 <? n) && (n <=? 0) then "0." ++ zeros (- n) ++ d
  else
    let x := (if n - 1 <? 0 then js "-" else js "+") ++ dec (Z.abs (n - 1)) in
    take 1 d ++ (if k =? 1 then [] else "." ++ drop 1 d) ++ "e" ++ x.

Definition positive_text (m : positive) (e : Z) : jstr :=
  let m := Zpos m in
  let n := decimal_exponent 6 m e ((Z.log2 m + e) * 1233 / 4096 - 1) in
  let '(s, n) := shortest 16 m e n 1 in
  layout (dec s) n.

(** ["" + x] *)
Definition number_text (x : double) : jstr :=
  match x with
  | dnan => "NaN"
  | dzero _ => "0"
  | infinite s => (if s then js "-" else []) ++ "Infinity"
  | finite s m e => (if s then js "-" else []) ++ positive_text m e
  end.

(** A number of digits after the point: [n] is the number times [10 ^ f]. *)
Definition fixed_text (n : Z) (f : nat) : jstr :=
  match f with
  | O => dec n
  | _ => let p := 10 ^ Z.of_nat f in dec (n / p) ++ "." ++ pad_digits f (n mod p) []
  end.

(** [x.toFixed(f)]; from 10 ^ 21 on it is the number as a text. *)
Definition to_fixed (x : double) (f : nat) : jstr :=
  match x with
  | dzero _ => fixed_text 0 f
  | finite s m e =>
      if below_power (Zpos m) e 21
      then (if s then js "-" else []) ++ fixed_text (nearest (Zpos m) e (10 ^ Z.of_nat f)) f
      else number_text x
  | _ => number_text x
  end.

Example to_fixed_examples :
  map (fun n => to_fixed (double_of n) 1) [Num 105 2; Num 145 2; Num (-4) 2; num_of 1000] =
  [js "1.1"; js "1.4"; js "-0.0"; js "1000.0"].
Proof. by vm_compute. Qed.

Example number_text_examples :
  map (fun n => number_text (double_of n))
    [Num 1 1; num_of (10 ^ 23); num_of (10 ^ 21); num_of 123456789; Num 1 6; Num 1 7; Num (-3141) 3;
     Num 5 324; num_of (2 ^ 53 + 1)] =
  [js "0.1"; js "1e+23"; js "1e+21"; js "123456789"; js "0.000001"; js "1e-7"; js "-3.141";
   js "5e-324"; js "9007199254740992"].
Proof. by vm_compute. Qed.

Example third : number_text (ddiv (of_int 1) (of_int 3)) = js "0.3333333333333333".
Proof. by vm_compute. Qed.
