(* ===== verification/CryptoJs.v ===== *)
(** The crypto-js part of oidc-oauth/oidc-client-ts.js: arrays of words with
    their encodings, the buffered hasher, SHA-256, base64 texts, and CryptoUtils:
    the identifiers, code verifiers and code challenges of sign-ins.

    Words are what the code keeps in arrays of numbers: mostly signed 32-bit
    integers, but sums are not truncated until a bitwise operator reads them
    ([Sha256.sums_exact] bounds them). An element that is missing or undefined is
    read as 0 by these operators, and is 0 here. The module-level array [W] is
    shared by all blocks: it is passed on. The parameters are [pow] (Math.pow,
    which the language only approximates) and [random], the successive values of
    the generator of the browser. *)
From Stdlib Require SpecFloat.
From S2P Require Import Prelude JsString JsNum JsBits Uri Base64 JsObject JsValue Doubles.

Module CryptoJS.

(** [words[i]] in the operand of a bitwise operator, and [words[i] = v]. *)
Definition word (words : list Z) (i : Z) : Z := default 0 (words !! Z.to_nat i).

Definition put (i v : Z) (words : list Z) : list Z :=
  let n := Z.to_nat i in
  if decide (n < length words)%nat then <[n := v]> words
  else words ++ replicate (n - length words) 0 ++ [v].

(** WordArray *)
Record WordArray := { words : list Z; sigBytes : Z }.

Definition init : WordArray := {| words := []; sigBytes := 0 |}.
Definition of_words (ws : list Z) : WordArray :=
  {| words := ws; sigBytes := Z.of_nat (length ws) * 4 |}.

(** The byte [words[i >>> 2] >>> 24 - i % 4 * 8 & 255]. *)
Definition byte_at (ws : list Z) (i : Z) : Z := band (ushr (word ws (ushr i 2)) (24 - i mod 4 * 8)) 255.

(** WordArray.clamp *)
Definition clamp (wa : WordArray) : WordArray :=
  let i := ushr (sigBytes wa) 2 in
  let ws := put i (band (word (words wa) i) (sll 4294967295 (32 - sigBytes wa mod 4 * 8))) (words wa) in
  {| words := take (Z.to_nat ((sigBytes wa + 3) / 4)) ws; sigBytes := sigBytes wa |}.

(** WordArray.concat *)
Definition concat (this that : WordArray) : WordArray :=
  let n := sigBytes this in
  let ws := words (clamp this) in
  let ws :=
    if decide (n mod 4 ≠ 0) then
      foldl (fun ws i =>
        let j := ushr (n + i) 2 in
        put j (bor (word ws j) (sll (byte_at (words that) i) (24 - (n + i) mod 4 * 8))) ws)
        ws (seqZ 0 (sigBytes that))
    else
      foldl (fun ws k => put (ushr (n + 4 * k) 2) (word (words that) (ushr (4 * k) 2)) ws)
        ws (seqZ 0 ((sigBytes that + 3) / 4)) in
  {| words := ws; sigBytes := n + sigBytes that |}.

(** Hex.stringify *)
Definition Hex_stringify (wa : WordArray) : jstr :=
  flat_map (fun i => let bite := byte_at (words wa) i in
      to_string 16 (ushr bite 4) ++ to_string 16 (band bite 15))
    (seqZ 0 (sigBytes wa)).

(** Latin1.parse: the loop over the units of the text, from unit [i]. *)
Fixpoint latin1_loop (i : Z) (s : jstr) (ws : list Z) : list Z :=
  match s with
  | [] => ws
  | c :: s =>
      latin1_loop (i + 1) s
        (put (ushr i 2) (bor (word ws (ushr i 2)) (sll (band c 255) (24 - i mod 4 * 8))) ws)
  end.

Definition Latin1_parse (s : jstr) : WordArray :=
  {| words := latin1_loop 0 s []; sigBytes := Z.of_nat (length s) |}.

(** Utf8.parse *)
Definition Utf8_parse (s : jstr) : res WordArray := Latin1_parse <$> encode_utf8 s.

(** ** The constants of SHA-256 *)

Section constants.
Variable pow : double -> double -> double.

(** [x | 0] of a number that may have a fraction. *)
Definition int32_of (x : double) : Z :=
  match x with
  | finite s m e =>
      to_int32 ((if s then -1 else 1) * (if 0 <=? e then Zpos m * 2 ^ e else Zpos m / 2 ^ (- e)))
  | _ => 0
  end.

Definition dsqrt : double -> double := SpecFloat.SFsqrt 53 1024.

(** isPrime: the loop over the factors. *)
Fixpoint factors (fuel : nat) (n factor : Z) (sqrtN : double) : bool :=
  match fuel with
  | O => true
  | S fuel =>
      if dle (of_int factor) sqrtN then
        if n mod factor =? 0 then false else factors fuel n (factor + 1) sqrtN
      else true
  end.

Definition isPrime (n : Z) : bool := factors (Z.to_nat n) n 2 (dsqrt (of_int n)).

Definition getFractionalBits (x : double) : Z :=
  int32_of (dmul (dsub x (of_int (int32_of x))) (of_int 4294967296)).

(** What is kept of the roots of a number. *)
Definition sqrt_bits (n : Z) : Z := getFractionalBits (pow (of_int n) (ddiv (of_int 1) (of_int 2))).
Definition cbrt_bits (n : Z) : Z := getFractionalBits (pow (of_int n) (ddiv (of_int 1) (of_int 3))).

End constants.

(** The loop that fills [H] and [K], from number [n] with [nPrime] primes found. *)
Fixpoint constants_loop (sqrt_bits cbrt_bits : Z -> Z) (fuel : nat) (n nPrime : Z) (H K : list Z) :
    list Z * list Z :=
  match fuel with
  | O => (H, K)
  | S fuel =>
      if nPrime <? 64 then
        if isPrime n then
          constants_loop sqrt_bits cbrt_bits fuel (n + 1) (nPrime + 1)
            (if nPrime <? 8 then put nPrime (sqrt_bits n) H else H) (put nPrime (cbrt_bits n) K)
        else constants_loop sqrt_bits cbrt_bits fuel (n + 1) nPrime H K
      else (H, K)
  end.

(** The 64th prime is 311. *)
Definition constants (pow : double -> double -> double) : list Z * list Z :=
  constants_loop (sqrt_bits pow) (cbrt_bits pow) 311 2 0 [] [].

(** ** SHA-256 *)

Section SHA256.
Variables H K : list Z.

(** The expansion of the message: [W[i]] for [i >= 16]. *)
Definition gamma0 (x : Z) : Z :=
  bxor (bxor (bor (sll x 25) (ushr x 7)) (bor (sll x 14) (ushr x 18))) (ushr x 3).
Definition gamma1 (x : Z) : Z :=
  bxor (bxor (bor (sll x 15) (ushr x 17)) (bor (sll x 13) (ushr x 19))) (ushr x 10).

Definition expand (M : list Z) (offset i : Z) (W : list Z) : list Z :=
  put i (if i <? 16 then bor (word M (offset + i)) 0
         else gamma0 (word W (i - 15)) + word W (i - 7) + gamma1 (word W (i - 2)) + word W (i - 16)) W.

(** The working variables, and one round on them. *)
Record vars := { va : Z; vb : Z; vc : Z; vd : Z; ve : Z; vf : Z; vg : Z; vh : Z }.

Definition t1 (v : vars) (Ki Wi : Z) : Z :=
  let ch := bxor (band (ve v) (vf v)) (band (bnot (ve v)) (vg v)) in
  let sigma1 := bxor (bxor (bor (sll (ve v) 26) (ushr (ve v) 6)) (bor (sll (ve v) 21) (ushr (ve v) 11)))
                     (bor (sll (ve v) 7) (ushr (ve v) 25)) in
  vh v + sigma1 + ch + Ki + Wi.

Definition t2 (v : vars) : Z :=
  let maj := bxor (bxor (band (va v) (vb v)) (band (va v) (vc v))) (band (vb v) (vc v)) in
  let sigma0 := bxor (bxor (bor (sll (va v) 30) (ushr (va v) 2)) (bor (sll (va v) 19) (ushr (va v) 13)))
                     (bor (sll (va v) 10) (ushr (va v) 22)) in
  sigma0 + maj.

Definition round (v : vars) (Ki Wi : Z) : vars :=
  {| va := bor (t1 v Ki Wi + t2 v) 0; vb := va v; vc := vb v; vd := vc v;
     ve := bor (vd v + t1 v Ki Wi) 0; vf := ve v; vg := vf v; vh := vg v |}.

Definition step (M : list Z) (offset : Z) (st : list Z * vars) (i : Z) : list Z * vars :=
  let W := expand M offset i st.1 in (W, round st.2 (word K i) (word W i)).

Definition load (hash : list Z) : vars :=
  {| va := word hash 0; vb := word hash 1; vc := word hash 2; vd := word hash 3;
     ve := word hash 4; vf := word hash 5; vg := word hash 6; vh := word hash 7 |}.

Definition add_to (hash : list Z) (v : vars) : list Z :=
  foldl (fun hash '(i, x) => put i (bor (word hash i + x) 0) hash) hash
    [(0, va v); (1, vb v); (2, vc v); (3, vd v); (4, ve v); (5, vf v); (6, vg v); (7, vh v)].

(** _doProcessBlock: the shared [W] and the hash, after block [offset] of [M]. *)
Definition doProcessBlock (M : list Z) (st : list Z * list Z) (offset : Z) : list Z * list Z :=
  let '(W, v) := foldl (step M offset) (st.1, load st.2) (seqZ 0 64) in
  (W, add_to st.2 v).

(** A hasher: what is buffered, how much was given, the hash so far; with [W]. *)
Record hasher := { data : WordArray; nDataBytes : Z; hash : list Z; shared : list Z }.

(** reset and _doReset *)
Definition reset (W : list Z) : hasher := {| data := init; nDataBytes := 0; hash := H; shared := W |}.

(** _append *)
Definition append (s : jstr) (h : hasher) : res hasher :=
  d ← Utf8_parse s;
  Ok {| data := concat (data h) d; nDataBytes := nDataBytes h + sigBytes d; hash := hash h; shared := shared h |}.

(** _process, whose blocks have 16 words and which keeps none back *)
Definition process (doFlush : bool) (h : hasher) : hasher :=
  let sig := sigBytes (data h) in
  let nBlocksReady := if doFlush then (sig + 63) / 64 else Z.max (to_int32 (sig / 64)) 0 in
  let nWordsReady := nBlocksReady * 16 in
  let nBytesReady := Z.min (nWordsReady * 4) sig in
  if nWordsReady =? 0 then h
  else
    let '(W, hs) := foldl (doProcessBlock (words (data h))) (shared h, hash h)
                      (map (Z.mul 16) (seqZ 0 nBlocksReady)) in
    {| data := {| words := drop (Z.to_nat nWordsReady) (words (data h)); sigBytes := sig - nBytesReady |};
       nDataBytes := nDataBytes h; hash := hs; shared := W |}.

(** _doFinalize *)
Definition doFinalize (h : hasher) : hasher :=
  let nBitsTotal := nDataBytes h * 8 in
  let nBitsLeft := sigBytes (data h) * 8 in
  let ws := words (data h) in
  let i := ushr nBitsLeft 5 in
  let ws := put i (bor (word ws i) (sll 128 (24 - nBitsLeft mod 32))) ws in
  let j := sll (ushr (nBitsLeft + 64) 9) 4 in
  let ws := put (j + 14) (nBitsTotal / 4294967296) ws in
  let ws := put (j + 15) nBitsTotal ws in
  process false
    {| data := of_words ws; nDataBytes := nDataBytes h; hash := hash h; shared := shared h |}.

(** SHA256(message): a new hasher, finalized; with [W] as it was left. *)
Definition SHA256 (message : jstr) (W : list Z) : res (WordArray * list Z) :=
  h ← (if decide (message = []) then Ok (reset W) else append message (reset W));
  let h := doFinalize h in
  Ok (of_words (hash h), shared h).

End SHA256.

(** ** Base64 texts *)

(** Base64._map *)
Definition map64 : jstr := "ABCDEFGHIJKLMNOPQRSTUVWXYZabcdefghijklmnopqrstuvwxyz0123456789+/=".

(** The digits of three bytes, [sig] of which are left from [i] on. *)
Definition digits_of (ws : list Z) (sig i : Z) : jstr :=
  let triplet := bor (bor (shl (byte_at ws i) 16) (shl (byte_at ws (i + 1)) 8)) (byte_at ws (i + 2)) in
  flat_map (fun j => if 4 * i + 3 * j <? 4 * sig
      then char_at map64 (Z.to_nat (band (ushr triplet (6 * (3 - j))) 63)) else [])
    [0; 1; 2; 3].

(** Base64.stringify, with the padding up to a multiple of four. *)
Definition Base64_stringify (wa : WordArray) : jstr :=
  let ws := words (clamp wa) in
  let chars := flat_map (fun k => digits_of ws (sigBytes wa) (3 * k)) (seqZ 0 ((sigBytes wa + 2) / 3)) in
  chars ++ mjoin (replicate (Z.to_nat (- Z.of_nat (length chars) mod 4)) (char_at map64 64)).

(** ** CryptoUtils *)

Section CryptoUtils.
Variable random : nat -> Z.

(** WordArray.random, after [n] values of the generator. *)
Definition random_words (nBytes : Z) (n : nat) : WordArray * nat :=
  let k := Z.to_nat ((nBytes + 3) / 4) in
  ({| words := map random (seq n k); sigBytes := nBytes |}, (n + k)%nat).

(** CryptoUtils._randomWord *)
Definition randomWord (n : nat) : Z * nat :=
  let '(wa, n) := random_words 1 n in (word (words wa) 0, n).

Definition UUID_V4_TEMPLATE : jstr := "10000000-1000-4000-8000-100000000000".

(** The replacement of each 0, 1 and 8 of the template. *)
Fixpoint fill (t : jstr) (n : nat) : jstr * nat :=
  match t with
  | [] => ([], n)
  | c :: t =>
      if bool_decide (c ∈ [48; 49; 56]) then
        let d := c - 48 in
        let '(r, n) := randomWord n in
        let x := to_string 16 (bxor d (band r (shr 15 (d / 4)))) in
        let '(rest, n) := fill t n in (x ++ rest, n)
      else let '(rest, n) := fill t n in (c :: rest, n)
  end.

Definition generateUUIDv4 (n : nat) : jstr * nat :=
  let '(uuid, n) := fill UUID_V4_TEMPLATE n in (replace_unit 45 [] uuid, n).

Definition generateCodeVerifier (n : nat) : jstr * nat :=
  let '(a, n) := generateUUIDv4 n in
  let '(b, n) := generateUUIDv4 n in
  let '(c, n) := generateUUIDv4 n in (a ++ b ++ c, n).

End CryptoUtils.

(** [s.replace(/=+$/, "")] *)
Definition drop_pads (s : jstr) : jstr :=
  rev ((fix go t := match t with c :: t' => if c =? 61 then go t' else t | [] => [] end) (rev s)).

(** CryptoUtils.generateCodeChallenge *)
Definition generateCodeChallenge (H K : list Z) (code_verifier : jstr) (W : list Z) : res (jstr * list Z) :=
  '(hashed, W) ← SHA256 H K code_verifier W;
  Ok (drop_pads (replace_unit 47 "_" (replace_unit 43 "-" (Base64_stringify hashed))), W).

(** CryptoUtils.generateBasicAuth *)
Definition generateBasicAuth (client_id client_secret : jstr) : res jstr :=
  Base64_stringify <$> Utf8_parse (client_id ++ ":" ++ client_secret).

End CryptoJS.
