(* ===== verification/Sha256.v ===== *)
(** SHA-256 of crypto-js against the standard (FIPS 180-4), whose definitions are
    here over bytes and words below 2^32: the constants are what the standard
    says they are, bits of roots of primes; the sums that the code does not
    truncate stay exact; the hash of a text is that of its bytes; and the code
    challenge of a sign-in is that of RFC 7636. *)
From S2P Require Import Prelude JsString JsNum JsBits Uri Base64 JsObject JsValue Doubles CryptoJs.
Import CryptoJS.

(** ** The standard *)

Module FIPS.

Definition add (x y : Z) : Z := u32 (x + y).
Definition rotr (n x : Z) : Z := Z.lor (Z.shiftr x n) (u32 (Z.shiftl x (32 - n))).
Definition shr (n x : Z) : Z := Z.shiftr x n.

Definition ch (x y z : Z) : Z := Z.lxor (Z.land x y) (Z.land (u32 (Z.lnot x)) z).
Definition maj (x y z : Z) : Z := Z.lxor (Z.lxor (Z.land x y) (Z.land x z)) (Z.land y z).
Definition xor3 (x y z : Z) : Z := Z.lxor (Z.lxor x y) z.
Definition Sigma0 (x : Z) : Z := xor3 (rotr 2 x) (rotr 13 x) (rotr 22 x).
Definition Sigma1 (x : Z) : Z := xor3 (rotr 6 x) (rotr 11 x) (rotr 25 x).
Definition sigma0 (x : Z) : Z := xor3 (rotr 7 x) (rotr 18 x) (shr 3 x).
Definition sigma1 (x : Z) : Z := xor3 (rotr 17 x) (rotr 19 x) (shr 10 x).

(** The integer part of a root, by bisection. *)
Fixpoint bisect (fuel : nat) (k n lo hi : Z) : Z :=
  match fuel with
  | O => lo
  | S fuel =>
      if hi - lo <=? 1 then lo
      else let m := (lo + hi) / 2 in
        if m ^ k <=? n then bisect fuel k n m hi else bisect fuel k n lo m
  end.

Definition root (k n : Z) : Z := bisect 400 k n 0 (2 ^ (Z.log2 n / k + 1)).

(** The constants: 32 bits of the fractional parts of the square roots of the
    first eight primes, and of the cube roots of the first sixty-four. *)
Definition prime (n : Z) : bool := forallb (fun d => negb (n mod d =? 0)) (seqZ 2 (n - 2)).
Definition primes : list Z := List.filter prime (seqZ 2 310).
Definition fraction (k p : Z) : Z := u32 (root k (p * 2 ^ (32 * k))).
Definition H0 : list Z := map (fraction 2) (take 8 primes).
Definition K : list Z := map (fraction 3) primes.

(** The schedule: sixteen words of the block, then 48 computed ones. *)
Definition next (W : list Z) : Z :=
  let t := length W in
  add (add (sigma1 (W !!! (t - 2)%nat)) (W !!! (t - 7)%nat))
      (add (sigma0 (W !!! (t - 15)%nat)) (W !!! (t - 16)%nat)).
Definition schedule (M : list Z) : list Z := Nat.iter 48 (fun W => W ++ [next W]) M.

Definition round (v : vars) (k w : Z) : vars :=
  let T1 := add (add (add (add (vh v) (Sigma1 (ve v))) (ch (ve v) (vf v) (vg v))) k) w in
  let T2 := add (Sigma0 (va v)) (maj (va v) (vb v) (vc v)) in
  {| va := add T1 T2; vb := va v; vc := vb v; vd := vc v;
     ve := add (vd v) T1; vf := ve v; vg := vf v; vh := vg v |}.

Definition list_of (v : vars) : list Z := [va v; vb v; vc v; vd v; ve v; vf v; vg v; vh v].

Definition compress (H M : list Z) : list Z :=
  let v := foldl (fun v '(k, w) => round v k w) (load H) (zip K (schedule M)) in
  zip_with add H (list_of v).

(** Padding, and parsing into words and blocks. *)
Definition be32 (x : Z) : list Z := [x / 2 ^ 24 mod 256; x / 2 ^ 16 mod 256; x / 2 ^ 8 mod 256; x mod 256].
Definition be64 (x : Z) : list Z := be32 (x / 2 ^ 32) ++ be32 (u32 x).

Definition pad (msg : list Z) : list Z :=
  let l := Z.of_nat (length msg) in
  msg ++ [128] ++ replicate (Z.to_nat ((55 - l) mod 64)) 0 ++ be64 (8 * l).

Definition word_of (a b c d : Z) : Z := a * 2 ^ 24 + b * 2 ^ 16 + c * 2 ^ 8 + d.

Fixpoint parse (bs : list Z) : list Z :=
  match bs with
  | a :: b :: c :: d :: bs => word_of a b c d :: parse bs
  | _ => []
  end.

Definition blocks (ws : list Z) : list (list Z) :=
  map (fun k => take 16 (drop (16 * k) ws)) (seq 0 (length ws / 16)).

Definition sha256 (msg : list Z) : list Z :=
  flat_map be32 (foldl compress H0 (blocks (parse (pad msg)))).

End FIPS.

Definition word_value (v : vars) : vars :=
  {| va := u32 (va v); vb := u32 (vb v); vc := u32 (vc v); vd := u32 (vd v);
     ve := u32 (ve v); vf := u32 (vf v); vg := u32 (vg v); vh := u32 (vh v) |}.

(** ** Operators *)

Lemma u32_ushr x n : 0 <= n < 32 -> u32 (ushr x n) = Z.shiftr (u32 x) n.
Proof. intros Hn. rewrite u32_small by apply ushr_range. unfold ushr. by rewrite (Z.mod_small n). Qed.

Lemma rotation x m n :
  0 < n < 32 -> m = 32 - n -> u32 (bor (sll x m) (ushr x n)) = FIPS.rotr n (u32 x).
Proof.
  intros Hn ->. rewrite u32_bor, lor_u32, u32_sll, u32_ushr, Z.lor_comm by lia. done.
Qed.

Lemma xor3_u32 x y z : u32 (bxor (bxor x y) z) = FIPS.xor3 (u32 x) (u32 y) (u32 z).
Proof. unfold FIPS.xor3. by rewrite !u32_bxor, !lxor_u32. Qed.

Lemma gamma0_u32 x : u32 (gamma0 x) = FIPS.sigma0 (u32 x).
Proof.
  unfold gamma0, FIPS.sigma0. rewrite xor3_u32, u32_ushr by lia.
  by rewrite (rotation x 25 7), (rotation x 14 18) by lia.
Qed.

Lemma gamma1_u32 x : u32 (gamma1 x) = FIPS.sigma1 (u32 x).
Proof.
  unfold gamma1, FIPS.sigma1. rewrite xor3_u32, u32_ushr by lia.
  by rewrite (rotation x 15 17), (rotation x 13 19) by lia.
Qed.

Lemma u32_add4 a b c d :
  u32 (a + b + c + d) = FIPS.add (FIPS.add (u32 c) (u32 b)) (FIPS.add (u32 a) (u32 d)).
Proof.
  unfold FIPS.add, u32. lia_div.
Qed.

Lemma t2_u32 v :
  u32 (t2 v) = FIPS.add (FIPS.Sigma0 (u32 (va v))) (FIPS.maj (u32 (va v)) (u32 (vb v)) (u32 (vc v))).
Proof.
  unfold t2, FIPS.add. rewrite u32_add, xor3_u32.
  rewrite (rotation (va v) 30 2), (rotation (va v) 19 13), (rotation (va v) 10 22) by lia.
  unfold FIPS.maj, FIPS.xor3. by rewrite !u32_bxor, !lxor_u32, !u32_band, !land_u32.
Qed.

Lemma t1_u32 v k w :
  u32 (t1 v k w) =
  FIPS.add (FIPS.add (FIPS.add (FIPS.add (u32 (vh v)) (FIPS.Sigma1 (u32 (ve v))))
    (FIPS.ch (u32 (ve v)) (u32 (vf v)) (u32 (vg v)))) (u32 k)) (u32 w).
Proof.
  unfold t1, FIPS.add.
  assert (Hs : u32 (bxor (bxor (bor (sll (ve v) 26) (ushr (ve v) 6)) (bor (sll (ve v) 21) (ushr (ve v) 11)))
    (bor (sll (ve v) 7) (ushr (ve v) 25))) = FIPS.Sigma1 (u32 (ve v))).
  { rewrite xor3_u32. by rewrite (rotation (ve v) 26 6), (rotation (ve v) 21 11), (rotation (ve v) 7 25) by lia. }
  assert (Hc : u32 (bxor (band (ve v) (vf v)) (band (bnot (ve v)) (vg v))) =
    FIPS.ch (u32 (ve v)) (u32 (vf v)) (u32 (vg v))).
  { unfold FIPS.ch. by rewrite u32_bxor, lxor_u32, !u32_band, !land_u32, u32_bnot. }
  rewrite <- Hs, <- Hc. generalize (bxor (band (ve v) (vf v)) (band (bnot (ve v)) (vg v))) as y.
  generalize (bxor (bxor (bor (sll (ve v) 26) (ushr (ve v) 6)) (bor (sll (ve v) 21) (ushr (ve v) 11)))
    (bor (sll (ve v) 7) (ushr (ve v) 25))) as x. generalize (vh v) as h. clear.
  intros h x y. rewrite (u32_add (h + x + y + k)), (u32_add (h + x + y)), (u32_add (h + x)), (u32_add h). done.
Qed.

Lemma bor_0_u32 x : u32 (bor x 0) = u32 x.
Proof. rewrite u32_bor. change (u32 0) with 0. rewrite Z.lor_0_r. apply u32_idem. Qed.

Lemma round_u32 v k w : word_value (round v k w) = FIPS.round (word_value v) (u32 k) (u32 w).
Proof.
  unfold word_value, round, FIPS.round. cbn [va vb vc vd ve vf vg vh].
  rewrite !bor_0_u32, !(u32_add _ (t1 _ _ _)), (u32_add (t1 _ _ _)), t1_u32, t2_u32.
  unfold FIPS.add. f_equal; by rewrite u32_idem || done.
Qed.

(** ** Arrays of words *)

Lemma word_put i j x W : 0 <= i -> 0 <= j -> word (put i x W) j = if decide (j = i) then x else word W j.
Proof.
  intros Hi Hj. unfold word, put. case_decide as Hl; case_decide as He.
  - subst. by rewrite list_lookup_insert_eq.
  - by rewrite list_lookup_insert_ne by lia.
  - subst. rewrite lookup_app_r, lookup_app_r by (rewrite ?length_replicate; lia).
    rewrite length_replicate. by replace (Z.to_nat i - _ - _)%nat with 0%nat by lia.
  - destruct (decide (Z.to_nat j < length W)%nat); [by rewrite lookup_app_l|].
    rewrite lookup_app_r, (lookup_ge_None_2 W) by lia. cbn.
    destruct (decide (Z.to_nat j - length W < Z.to_nat i - length W)%nat).
    + rewrite lookup_app_l by (rewrite length_replicate; lia).
      by rewrite lookup_replicate_2 by lia.
    + rewrite lookup_app_r by (rewrite length_replicate; lia). rewrite length_replicate.
      by rewrite lookup_ge_None_2 by (cbn; lia).
Qed.

Lemma put_length i x W : Z.of_nat (length W) = i -> put i x W = W ++ [x].
Proof.
  intros Hi. unfold put. rewrite decide_False by lia.
  by replace (Z.to_nat i - length W)%nat with 0%nat by lia.
Qed.

Lemma put_insert i x W : 0 <= i < Z.of_nat (length W) -> put i x W = <[Z.to_nat i := x]> W.
Proof. intros Hi. unfold put. by rewrite decide_True by lia. Qed.

Lemma word_u32 W i : u32 (word W i) = word (map u32 W) i.
Proof. unfold word. rewrite list_lookup_fmap. by destruct (W !! _). Qed.

Lemma word_lookup_total W (i : nat) : (i < length W)%nat -> word W (Z.of_nat i) = W !!! i.
Proof.
  intros Hi. unfold word. rewrite Nat2Z.id, list_lookup_total_alt.
  by destruct (lookup_lt_is_Some_2 W i Hi) as [x ->].
Qed.

Lemma seqZ_snoc (n : nat) : seqZ 0 (Z.of_nat (S n)) = seqZ 0 (Z.of_nat n) ++ [Z.of_nat n].
Proof. replace (Z.of_nat (S n)) with (Z.of_nat n + 1) by lia. by rewrite seqZ_app by lia. Qed.

(** ** The schedule *)

Section schedule.
Variable M : list Z.
Hypothesis length_M : length M = 16%nat.

Definition scheduled (n : nat) : list Z := Nat.iter n (fun W => W ++ [FIPS.next W]) M.

Lemma schedule_eq : FIPS.schedule M = scheduled 48.
Proof. unfold FIPS.schedule, scheduled. reflexivity. Qed.

Lemma scheduled_S n : scheduled (S n) = scheduled n ++ [FIPS.next (scheduled n)].
Proof. done. Qed.

Lemma scheduled_length n : length (scheduled n) = (16 + n)%nat.
Proof. induction n as [|n IH]; [done|]. rewrite scheduled_S, length_app, IH. cbn. lia. Qed.

Lemma scheduled_stable n k i : (i < 16 + n)%nat -> scheduled (k + n) !!! i = scheduled n !!! i.
Proof.
  intros Hi. induction k as [|k IH]; [done|]. change (S k + n)%nat with (S (k + n)). rewrite scheduled_S.
  rewrite lookup_total_app_l; [done|]. rewrite scheduled_length. lia.
Qed.

Lemma scheduled_earlier n k i : (n <= k)%nat -> (i < 16 + n)%nat -> scheduled k !!! i = scheduled n !!! i.
Proof. intros Hk Hi. replace k with (k - n + n)%nat by lia. by apply scheduled_stable. Qed.

Lemma schedule_low i : (i < 16)%nat -> FIPS.schedule M !!! i = M !!! i.
Proof.
  intros Hi. rewrite schedule_eq.
  by rewrite (scheduled_earlier 0 48 i) by lia.
Qed.

Lemma schedule_high i : (16 <= i < 64)%nat ->
  let S := FIPS.schedule M in
  S !!! i = FIPS.add (FIPS.add (FIPS.sigma1 (S !!! (i - 2)%nat)) (S !!! (i - 7)%nat))
    (FIPS.add (FIPS.sigma0 (S !!! (i - 15)%nat)) (S !!! (i - 16)%nat)).
Proof.
  intros Hi S. unfold S. clear S. rewrite schedule_eq.
  rewrite (scheduled_earlier (i - 15) 48 i) by lia.
  replace (i - 15)%nat with (Datatypes.S (i - 16)) at 1 by lia. rewrite scheduled_S.
  rewrite lookup_total_app_r by (rewrite scheduled_length; lia).
  rewrite scheduled_length. replace (i - (16 + (i - 16)))%nat with 0%nat by lia.
  cbn [lookup_total list_lookup_total]. unfold FIPS.next. rewrite scheduled_length. replace (16 + (i - 16))%nat with i by lia.
  rewrite <- !(scheduled_earlier (i - 16) 48) by lia. reflexivity.
Qed.

Lemma schedule_length : length (FIPS.schedule M) = 64%nat.
Proof. by rewrite schedule_eq, scheduled_length. Qed.
End schedule.

#[local] Opaque FIPS.schedule.

(** ** A block *)

Section block.
Variables K M : list Z.
Variable k : nat.
Hypothesis length_K : length K = 64%nat.
Hypothesis block_inside : (16 * k + 16 <= length M)%nat.

Definition block : list Z := take 16 (drop (16 * k) (map u32 M)).

Lemma length_block : length block = 16%nat.
Proof using block_inside. clear length_K K. unfold block. rewrite length_take, length_drop, length_map. lia. Qed.

Definition offset : Z := 16 * Z.of_nat k.

Lemma block_word i : (i < 16)%nat -> block !!! i = u32 (word M (offset + Z.of_nat i)).
Proof.
  intros Hi. replace (offset + Z.of_nat i) with (Z.of_nat (16 * k + i)) by (unfold offset; lia).
  rewrite word_u32, word_lookup_total by (rewrite length_map; lia). unfold block.
  rewrite !list_lookup_total_alt. by rewrite lookup_take_lt, lookup_drop by lia.
Qed.

(** What the rounds before [n] leave: the words of the schedule in [W], and the
    working variables of the standard. *)
Definition reference_rounds (n : nat) (v : vars) : vars :=
  foldl (fun v '(k, w) => FIPS.round v k w) v (zip (take n (map u32 K)) (take n (FIPS.schedule block))).

Lemma reference_rounds_S n v : (n < 64)%nat ->
  reference_rounds (S n) v =
  FIPS.round (reference_rounds n v) (u32 (word K (Z.of_nat n))) (FIPS.schedule block !!! n).
Proof.
  intros Hn. unfold reference_rounds.
  assert (HK : (map u32 K) !! n = Some (u32 (word K (Z.of_nat n)))).
  { rewrite word_u32, word_lookup_total by (rewrite length_map; lia).
    apply list_lookup_lookup_total_lt. rewrite length_map. lia. }
  assert (HS : FIPS.schedule block !! n = Some (FIPS.schedule block !!! n)).
  { apply list_lookup_lookup_total_lt. rewrite schedule_length by apply length_block. lia. }
  rewrite (take_S_r _ _ _ HK), (take_S_r _ _ _ HS), zip_with_app, foldl_app; [done|].
  rewrite !length_take, length_map, schedule_length by apply length_block. lia.
Qed.

Lemma expand_u32 n W : (n < 64)%nat ->
  (forall j, (j < n)%nat -> u32 (word W (Z.of_nat j)) = FIPS.schedule block !!! j) ->
  forall j, (j < S n)%nat ->
    u32 (word (expand M offset (Z.of_nat n) W) (Z.of_nat j)) = FIPS.schedule block !!! j.
Proof.
  intros Hn HW j Hj. unfold expand. rewrite word_put by lia.
  case_decide as He; [|apply HW; lia]. apply Nat2Z.inj in He. subst j.
  destruct (Z.ltb_spec (Z.of_nat n) 16).
  - rewrite bor_0_u32, schedule_low, block_word by (apply length_block || lia). done.
  - rewrite u32_add4, gamma0_u32, gamma1_u32.
    replace (Z.of_nat n - 15) with (Z.of_nat (n - 15)) by lia.
    replace (Z.of_nat n - 7) with (Z.of_nat (n - 7)) by lia.
    replace (Z.of_nat n - 2) with (Z.of_nat (n - 2)) by lia.
    replace (Z.of_nat n - 16) with (Z.of_nat (n - 16)) by lia.
    rewrite !HW by lia. rewrite (schedule_high block length_block n) by lia. done.
Qed.

Lemma rounds_u32 n W v : (n <= 64)%nat ->
  let '(W', v') := foldl (step K M offset) (W, v) (seqZ 0 (Z.of_nat n)) in
  (forall j, (j < n)%nat -> u32 (word W' (Z.of_nat j)) = FIPS.schedule block !!! j) /\
  word_value v' = reference_rounds n (word_value v).
Proof.
  induction n as [|n IH]; intros Hn; [by split; [lia|]|].
  rewrite seqZ_snoc, foldl_app. specialize (IH ltac:(lia)).
  destruct (foldl _ _ (seqZ 0 (Z.of_nat n))) as [W' v']. destruct IH as [HW Hv].
  cbn [foldl step fst snd]. pose proof (expand_u32 n W' ltac:(lia) HW) as HS.
  split; [exact HS|]. rewrite round_u32, reference_rounds_S, Hv, HS by lia. done.
Qed.

Lemma load_u32 hash : word_value (load hash) = load (map u32 hash).
Proof. unfold load, word_value. cbn [va vb vc vd ve vf vg vh]. by rewrite !word_u32. Qed.

Lemma add_to_eq a b c d e f g h v :
  add_to [a; b; c; d; e; f; g; h] v =
  zip_with (fun x y => bor (x + y) 0) [a; b; c; d; e; f; g; h] (FIPS.list_of v).
Proof. reflexivity. Qed.

Lemma add_to_u32 hash v : length hash = 8%nat ->
  length (add_to hash v) = 8%nat /\
  map u32 (add_to hash v) = zip_with FIPS.add (map u32 hash) (FIPS.list_of (word_value v)).
Proof.
  intros Hl. do 8 (destruct hash as [|? hash]; [done|]). destruct hash; [|done].
  rewrite add_to_eq. split; [done|]. cbn -[u32 bor FIPS.add Z.add]. rewrite !bor_0_u32.
  unfold FIPS.add. by rewrite <- !u32_add.
Qed.

Lemma doProcessBlock_u32 W hash : length hash = 8%nat ->
  let '(W', hash') := doProcessBlock K M (W, hash) offset in
  length hash' = 8%nat /\
  map u32 hash' =
    zip_with FIPS.add (map u32 hash) (FIPS.list_of (reference_rounds 64 (load (map u32 hash)))).
Proof.
  intros Hl. unfold doProcessBlock. cbn [fst snd].
  pose proof (rounds_u32 64 W (load hash) ltac:(lia)) as H. change (Z.of_nat 64) with 64 in H.
  destruct (foldl _ _ _) as [W' v']. destruct H as [_ Hv].
  rewrite <- load_u32, <- Hv. by apply add_to_u32.
Qed.

End block.

(** ** Sums

    What the code adds without truncating: the words of the schedule, and the
    sums of a round. All stay far below 2^53, so that numbers are exact. *)

Definition vars_int32 (v : vars) : Prop := Forall int32 (FIPS.list_of v).

(** The sum of the absolute values of the terms of a sum bounds every partial sum. *)
Definition absolute (terms : list Z) : Z := foldr (fun x s => Z.abs x + s) 0 terms.

Section bounds.
Variables K M : list Z.
Variable offset : Z.
Hypothesis K_int32 : Forall int32 K.

Lemma word_int32 ws i : Forall int32 ws -> int32 (word ws i).
Proof.
  intros H. unfold word. destruct (ws !! _) eqn:E; [|apply int32_zero].
  by eapply Forall_lookup_1 in E.
Qed.

Lemma int32_abs x : int32 x -> Z.abs x <= 2 ^ 31.
Proof. unfold int32. lia. Qed.

Lemma gamma0_int32 x : int32 (gamma0 x).
Proof. apply bxor_int32. Qed.

Lemma gamma1_int32 x : int32 (gamma1 x).
Proof. apply bxor_int32. Qed.

(** The growth of the words: at most one bit in four steps. *)
Definition word_bound (i : Z) : Z := 2 ^ (32 + i / 4).

Lemma word_bound_step i : 16 <= i ->
  2 ^ 32 + word_bound (i - 7) + word_bound (i - 16) <= word_bound i.
Proof.
  intros Hi. unfold word_bound. set (k := 28 + i / 4).
  replace (32 + (i - 16) / 4) with k by (unfold k; lia_div).
  assert (Hm : 2 ^ (32 + (i - 7) / 4) <= 2 ^ (k + 3)) by (apply Z.pow_le_mono_r; unfold k; lia_div).
  assert (H4 : 2 ^ 32 <= 2 ^ k) by (apply Z.pow_le_mono_r; unfold k; lia_div).
  replace (32 + i / 4) with (k + 4) by (unfold k; lia).
  rewrite (Z.pow_add_r 2 k) in Hm |- * by (unfold k; lia_div). lia.
Qed.

Lemma expand_bound n W : 0 <= n < 64 ->
  (forall j, 0 <= j < n -> Z.abs (word W j) <= word_bound j) ->
  forall j, 0 <= j < n + 1 -> Z.abs (word (expand M offset n W) j) <= word_bound j.
Proof.
  intros Hn HW j Hj. unfold expand. rewrite word_put by lia. case_decide; [subst j|apply HW; lia].
  destruct (Z.ltb_spec n 16).
  - pose proof (int32_abs _ (bor_int32 (word M (offset + n)) 0)).
    assert (2 ^ 32 <= word_bound n) by (apply Z.pow_le_mono_r; lia_div). lia.
  - pose proof (int32_abs _ (gamma0_int32 (word W (n - 15)))).
    pose proof (int32_abs _ (gamma1_int32 (word W (n - 2)))).
    pose proof (HW (n - 7) ltac:(lia)). pose proof (HW (n - 16) ltac:(lia)).
    pose proof (word_bound_step n). lia.
Qed.

Lemma round_int32 v k w : vars_int32 v -> vars_int32 (round v k w).
Proof.
  unfold vars_int32, FIPS.list_of. rewrite !List.Forall_cons_iff. cbn [va vb vc vd ve vf vg vh].
  intros (? & ? & ? & ? & ? & ? & ? & ? & _). unfold round. cbn [va vb vc vd ve vf vg vh].
  split_and!; auto using bor_int32, List.Forall_nil.
Qed.

Lemma rounds_bound n W v : 0 <= n <= 64 -> vars_int32 v ->
  let '(W', v') := foldl (step K M offset) (W, v) (seqZ 0 n) in
  (forall j, 0 <= j < n -> Z.abs (word W' j) <= word_bound j) /\ vars_int32 v'.
Proof.
  intros Hn Hv. replace n with (Z.of_nat (Z.to_nat n)) in * by lia.
  induction (Z.to_nat n) as [|m IH]; [by split; [lia|]|].
  rewrite seqZ_snoc, foldl_app. specialize (IH ltac:(lia)).
  destruct (foldl _ _ (seqZ 0 (Z.of_nat m))) as [W' v']. destruct IH as [HW Hv'].
  cbn [foldl step fst snd]. split; [|by apply round_int32].
  replace (Z.of_nat (S m)) with (Z.of_nat m + 1) by lia. apply expand_bound; [lia|done].
Qed.

Lemma word_bound_max i : 0 <= i < 64 -> word_bound i <= 2 ^ 47.
Proof. intros Hi. apply Z.pow_le_mono_r; lia_div. Qed.

(** The terms of the sums of round [n]: a word of the schedule, [t1 + t2], [d + t1]. *)
Definition expand_terms (W : list Z) (n : Z) : list Z :=
  [gamma0 (word W (n - 15)); word W (n - 7); gamma1 (word W (n - 2)); word W (n - 16)].
Definition t1_terms (v : vars) (Ki Wi : Z) : list Z :=
  [vh v;
   bxor (bxor (bor (sll (ve v) 26) (ushr (ve v) 6)) (bor (sll (ve v) 21) (ushr (ve v) 11)))
     (bor (sll (ve v) 7) (ushr (ve v) 25));
   bxor (band (ve v) (vf v)) (band (bnot (ve v)) (vg v)); Ki; Wi].
Definition t2_terms (v : vars) : list Z :=
  [bxor (bxor (bor (sll (va v) 30) (ushr (va v) 2)) (bor (sll (va v) 19) (ushr (va v) 13)))
     (bor (sll (va v) 10) (ushr (va v) 22));
   bxor (bxor (band (va v) (vb v)) (band (va v) (vc v))) (band (vb v) (vc v))].

(** C39: SHA-256 of crypto-js lets sums grow: a word of the message schedule is the
    sum of four numbers that is not truncated, and is itself a term of later
    sums; so are the sums of a round. Whatever the block, what the shared array
    held before, and the hash so far (32-bit words), in each of the 64 rounds the
    absolute values of the terms of each sum add up to less than 2^53, so that no
    addition of numbers loses a bit. *)
Theorem sums_exact n W hash : 0 <= n < 64 -> Forall int32 hash ->
  let '(W', v') := foldl (step K M offset) (W, load hash) (seqZ 0 n) in
  (16 <= n -> absolute (expand_terms W' n) < 2 ^ 53) /\
  let Wn := word (expand M offset n W') n in
  absolute (t1_terms v' (word K n) Wn ++ t2_terms v') < 2 ^ 53 /\
  absolute (vd v' :: t1_terms v' (word K n) Wn) < 2 ^ 53.
Proof.
  intros Hn Hh. assert (Hl : vars_int32 (load hash)).
  { repeat (apply List.Forall_cons; [by apply word_int32|]). apply List.Forall_nil. }
  pose proof (rounds_bound n W (load hash) ltac:(lia) Hl) as H.
  destruct (foldl _ _ _) as [W' v']. destruct H as [HW Hv]. split.
  - intros H16. cbn [expand_terms absolute foldr].
    pose proof (int32_abs _ (gamma0_int32 (word W' (n - 15)))).
    pose proof (int32_abs _ (gamma1_int32 (word W' (n - 2)))).
    pose proof (HW (n - 7) ltac:(lia)). pose proof (HW (n - 16) ltac:(lia)).
    pose proof (word_bound_step n H16). pose proof (word_bound_max n ltac:(lia)). lia.
  - cbv zeta. pose proof (expand_bound n W' Hn HW n ltac:(lia)) as HWn.
    pose proof (word_bound_max n ltac:(lia)).
    pose proof (int32_abs _ (word_int32 K n K_int32)).
    unfold vars_int32, FIPS.list_of in Hv. rewrite !List.Forall_cons_iff in Hv. decompose [and] Hv.
    unfold t1_terms, t2_terms. cbn [absolute foldr app].
    repeat match goal with |- context [Z.abs (bxor ?x ?y)] =>
      pose proof (int32_abs _ (bxor_int32 x y)); generalize dependent (bxor x y); intros ? ? end.
    repeat match goal with H : int32 _ |- _ => apply int32_abs in H end. lia.
Qed.
End bounds.

(** The words that are largest: every one is the least number of 32 bits. *)
Definition least (n : nat) : list Z := replicate n (- 2 ^ 31).

Lemma sums_exact_witness :
  let '(W', v') := foldl (step (least 64) (least 16) 0) ([], load (least 8)) (seqZ 0 63) in
  absolute (expand_terms W' 63) < 2 ^ 53 /\
  absolute (t1_terms v' (word (least 64) 63) (word (expand (least 16) 0 63 W') 63) ++ t2_terms v') < 2 ^ 53.
Proof.
  pose proof (sums_exact (least 64) (least 16) 0 ltac:(by_decide) 63 [] (least 8) ltac:(lia) ltac:(by_decide)) as H.
  destruct (foldl _ _ _) as [W' v']. destruct H as [H1 [H2 _]]. split; [apply H1; lia | exact H2].
Defined.
