(* ===== verification/CodeChallenge.v ===== *)
(** The code challenge of a sign-in: from the units of the verifier to the words
    that SHA-256 hashes, and from the hash to a text. What the code computes is
    the challenge of RFC 7636 ("S256"); the verifiers are such as the RFC asks
    for, and lose none of the randomness they are made of. *)
From S2P Require Import Prelude JsString JsNum JsBits Uri Base64 JsObject JsValue Doubles CryptoJs Sha256.
Import CryptoJS.

(** ** Bytes in words *)

(** The words of a text, the last one filled up with zeros. *)
Fixpoint parse0 (bs : list Z) : list Z :=
  match bs with
  | a :: b :: c :: d :: bs => FIPS.word_of a b c d :: parse0 bs
  | [a; b; c] => [FIPS.word_of a b c 0]
  | [a; b] => [FIPS.word_of a b 0 0]
  | [a] => [FIPS.word_of a 0 0 0]
  | [] => []
  end.

Lemma quads_ind (P : list Z -> Prop) :
  P [] -> (forall a, P [a]) -> (forall a b, P [a; b]) -> (forall a b c, P [a; b; c]) ->
  (forall a b c d s, P s -> P (a :: b :: c :: d :: s)) -> forall s, P s.
Proof.
  intros H0 H1 H2 H3 H4 s. induction s as [s IH] using (induction_ltof1 _ length). unfold ltof in IH.
  destruct s as [|a [|b [|c [|d s]]]]; auto. apply H4, IH. cbn. lia.
Qed.

Lemma parse0_length bs : length (parse0 bs) = ((length bs + 3) / 4)%nat.
Proof.
  induction bs as [|a|a b|a b c|a b c d s IH] using quads_ind; [done..|].
  cbn [parse0 length]. rewrite IH. lia_div.
Qed.

(** Adding a byte to a word whose bits from there on are zeros. *)
Lemma add_byte x y c n :
  u32 x = y * 2 ^ (n + 8) -> 0 <= y -> Base64.is_byte c -> 0 <= n -> n + 8 <= 32 ->
  u32 (bor x (sll c n)) = y * 2 ^ (n + 8) + c * 2 ^ n.
Proof.
  intros Hx Hy Hc Hn Hn8. unfold Base64.is_byte in Hc. pose proof (u32_range x) as Hr.
  assert (Hp : 0 < 2 ^ n) by (apply Z.pow_pos_nonneg; lia).
  assert (Hb : c * 2 ^ n < 2 ^ (n + 8)) by (rewrite Z.pow_add_r by lia; nia).
  assert (H32 : 2 ^ (n + 8) <= 2 ^ 32) by (apply Z.pow_le_mono_r; lia).
  rewrite u32_bor, lor_u32, u32_sll, Z.shiftl_mul_pow2, (u32_small c), (u32_small (c * 2 ^ n)), Hx by nia.
  apply lor_disjoint; lia.
Qed.

(** One turn of the loop of Latin1.parse, and the end bit of SHA-256. *)
Definition put_byte (i c : Z) (ws : list Z) : list Z :=
  put (ushr i 2) (bor (word ws (ushr i 2)) (sll c (24 - i mod 4 * 8))) ws.

Lemma word_app ws x : word (ws ++ [x]) (Z.of_nat (length ws)) = x.
Proof. unfold word. by rewrite Nat2Z.id, list_lookup_middle. Qed.

Lemma word_end ws : word ws (Z.of_nat (length ws)) = 0.
Proof. unfold word. by rewrite Nat2Z.id, lookup_ge_None_2. Qed.

Lemma put_last ws x y : put (Z.of_nat (length ws)) y (ws ++ [x]) = ws ++ [y].
Proof.
  rewrite put_insert by (rewrite length_app; cbn; lia).
  by rewrite Nat2Z.id, insert_app_r_alt, Nat.sub_diag by lia.
Qed.

Section put_byte.
Variable ws : list Z.
Notation k := (Z.of_nat (length ws)).
Hypothesis small : 4 * k + 4 <= 2 ^ 32.

Lemma put_byte_first c : Base64.is_byte c ->
  exists x, put_byte (4 * k) c ws = ws ++ [x] /\ u32 x = c * 2 ^ 24.
Proof.
  intros Hc. unfold put_byte. rewrite ushr_small by lia. replace (4 * k / 2 ^ 2) with k by lia_div.
  replace (24 - 4 * k mod 4 * 8) with 24 by lia_div. rewrite put_length, word_end by done.
  eexists. split; [done|]. rewrite (add_byte 0 0 c 24) by (done || lia). lia.
Qed.

Lemma put_byte_next p x y c : 0 < p < 4 -> Base64.is_byte c -> u32 x = y * 2 ^ (32 - 8 * p) -> 0 <= y ->
  exists x', put_byte (4 * k + p) c (ws ++ [x]) = ws ++ [x'] /\ u32 x' = (y * 2 ^ 8 + c) * 2 ^ (24 - 8 * p).
Proof.
  intros Hp Hc Hx Hy. unfold put_byte. rewrite ushr_small by lia.
  replace ((4 * k + p) / 2 ^ 2) with k by lia_div.
  replace (24 - (4 * k + p) mod 4 * 8) with (24 - 8 * p) by lia_div.
  rewrite put_last, word_app. eexists. split; [done|].
  rewrite (add_byte x y c (24 - 8 * p)); [|by replace (24 - 8 * p + 8) with (32 - 8 * p) by lia|done|done|lia..].
  rewrite (Z.pow_add_r 2 (24 - 8 * p) 8) by lia. lia.
Qed.
End put_byte.

(** The loop of Latin1.parse on bytes. *)
Fixpoint put_bytes (i : Z) (s : jstr) (ws : list Z) : list Z :=
  match s with [] => ws | c :: s => put_bytes (i + 1) s (put_byte i c ws) end.

Lemma byte_land c : Base64.is_byte c -> band c 255 = c.
Proof.
  unfold Base64.is_byte. intros Hc. change 255 with (2 ^ 8 - 1). rewrite band_mask by lia.
  by apply Z.mod_small.
Qed.

Lemma latin1_loop_bytes i s ws : Forall Base64.is_byte s -> latin1_loop i s ws = put_bytes i s ws.
Proof.
  intros Hs. revert i ws. induction Hs as [|c s Hc Hs IH]; intros i ws; [done|].
  cbn [latin1_loop put_bytes]. rewrite byte_land by done. apply IH.
Qed.

Lemma put_bytes_app i s t ws :
  put_bytes i (s ++ t) ws = put_bytes (i + Z.of_nat (length s)) t (put_bytes i s ws).
Proof.
  revert i ws. induction s as [|c s IH]; intros i ws; cbn [put_bytes app length]; [by rewrite Z.add_0_r|].
  rewrite IH. f_equal. lia.
Qed.

Lemma put_bytes_spec s ws :
  Forall Base64.is_byte s -> 4 * Z.of_nat (length ws) + Z.of_nat (length s) + 4 <= 2 ^ 32 ->
  map u32 (put_bytes (4 * Z.of_nat (length ws)) s ws) = map u32 ws ++ parse0 s.
Proof.
  revert ws. induction s as [|a|a b|a b c|a b c d s IH] using quads_ind; intros ws Hs Hl;
    cbn [length put_bytes parse0] in *; [by rewrite app_nil_r|..];
    rewrite !Forall_cons in Hs; decompose [and] Hs; unfold FIPS.word_of;
    destruct (put_byte_first ws ltac:(lia) a) as (x & -> & Hx); try done.
  - rewrite map_app. cbn. rewrite Hx. do 2 f_equal. lia.
  - destruct (put_byte_next ws ltac:(lia) 1 x a b) as (x' & -> & Hx'); try (done || unfold Base64.is_byte in *; lia).
    rewrite map_app. cbn [map]. rewrite Hx'. do 2 f_equal. lia.
  - destruct (put_byte_next ws ltac:(lia) 1 x a b) as (x' & -> & Hx'); try (done || unfold Base64.is_byte in *; lia).
    rewrite <- Z.add_assoc. change (1 + 1) with 2.
    destruct (put_byte_next ws ltac:(lia) 2 x' (a * 2 ^ 8 + b) c) as (x2 & -> & Hx2);
      try (done || unfold Base64.is_byte in *; lia).
    rewrite map_app. cbn [map]. rewrite Hx2. do 2 f_equal. lia.
  - destruct (put_byte_next ws ltac:(lia) 1 x a b) as (x' & -> & Hx'); try (done || unfold Base64.is_byte in *; lia).
    rewrite <- !Z.add_assoc. change (1 + 1) with 2.
    destruct (put_byte_next ws ltac:(lia) 2 x' (a * 2 ^ 8 + b) c) as (x2 & -> & Hx2);
      try (done || unfold Base64.is_byte in *; lia).
    change (1 + 2) with 3.
    destruct (put_byte_next ws ltac:(lia) 3 x2 ((a * 2 ^ 8 + b) * 2 ^ 8 + c) d) as (x3 & -> & Hx3);
      try (done || unfold Base64.is_byte in *; lia).
    replace (4 * Z.of_nat (length ws) + (1 + 3)) with (4 * Z.of_nat (length (ws ++ [x3])))
      by (rewrite length_app; cbn; lia).
    rewrite IH by (done || rewrite length_app; cbn; lia).
    rewrite map_app, <- app_assoc. cbn [map app]. rewrite Hx3. do 2 f_equal. lia.
Qed.

(** ** What a hasher holds *)

Lemma latin1_words bs : Forall Base64.is_byte bs -> Z.of_nat (length bs) + 4 <= 2 ^ 32 ->
  map u32 (words (Latin1_parse bs)) = parse0 bs.
Proof.
  intros Hb Hl. cbn [Latin1_parse words]. rewrite latin1_loop_bytes by done.
  by apply (put_bytes_spec bs []).
Qed.

(** Copying all words of an array into an empty one. *)
Lemma copy_words ws (n : nat) : (n <= length ws)%nat -> 4 * Z.of_nat (length ws) <= 2 ^ 32 ->
  foldl (fun acc k => put (ushr (0 + 4 * k) 2) (word ws (ushr (4 * k) 2)) acc) [] (seqZ 0 (Z.of_nat n)) =
  take n ws.
Proof.
  intros Hn Hl. induction n as [|n IH]; [done|].
  rewrite seqZ_snoc, foldl_app, IH by lia. cbn [foldl]. rewrite Z.add_0_l, !ushr_small by lia.
  replace (4 * Z.of_nat n / 2 ^ 2) with (Z.of_nat n) by lia_div.
  destruct (lookup_lt_is_Some_2 ws n ltac:(lia)) as [x Hx].
  rewrite put_length by (rewrite length_take; lia). rewrite (take_S_r _ _ _ Hx). unfold word.
  by rewrite Nat2Z.id, Hx.
Qed.

Definition small (bs : list Z) : Prop := Z.of_nat (length bs) < 2 ^ 28.

Lemma concat_init wa : 4 * Z.of_nat (length (words wa)) <= 2 ^ 32 ->
  (sigBytes wa + 3) / 4 = Z.of_nat (length (words wa)) -> 
  concat init wa = wa.
Proof.
  intros Hl Hs. unfold concat, init. cbn [sigBytes]. change (0 mod 4) with 0. rewrite decide_False by auto.
  change (words (clamp {| words := []; sigBytes := 0 |})) with (@nil Z).
  rewrite Hs, copy_words, firstn_all by done. by destruct wa.
Qed.

(** What the hasher holds of the bytes of a message before it is finalized. *)
Definition loaded (H : list Z) (bs : list Z) (W : list Z) : hasher :=
  {| data := Latin1_parse bs; nDataBytes := Z.of_nat (length bs); hash := H; shared := W |}.

Lemma latin1_length bs : Forall Base64.is_byte bs -> small bs ->
  length (words (Latin1_parse bs)) = ((length bs + 3) / 4)%nat.
Proof.
  intros Hb Hl. unfold small in Hl. rewrite <- (length_map u32), latin1_words, parse0_length by (done || lia). done.
Qed.

Lemma append_loaded H s bs W :
  wf_jstr s -> utf8_of s = Some bs -> small bs -> append s (reset H W) = Ok (loaded H bs W).
Proof.
  intros Hs Hu Hl. unfold append, Utf8_parse. rewrite encode_utf8_utf8_of, Hu by done.
  pose proof (utf8_of_bytes s bs Hs Hu) as Hb. cbn [fmap res_fmap mbind res_bind].
  pose proof (latin1_length bs Hb Hl) as Hn. unfold small in Hl.
  unfold reset. cbn [data nDataBytes hash shared]. rewrite concat_init; [done|lia_div|].
  rewrite Hn. cbn [Latin1_parse sigBytes]. lia_div.
Qed.

(** ** The padded message *)

Lemma parse_zeros m t : FIPS.parse (replicate (4 * m) 0 ++ t) = replicate m 0 ++ FIPS.parse t.
Proof.
  induction m as [|m IH]; [done|]. replace (4 * S m)%nat with (S (S (S (S (4 * m))))) by lia.
  cbn [replicate app FIPS.parse]. by rewrite IH.
Qed.

Lemma parse_fill bs z t : ((length bs + z) mod 4 = 0)%nat ->
  FIPS.parse (bs ++ replicate z 0 ++ t) =
  parse0 bs ++ replicate ((length bs + z) / 4 - length (parse0 bs)) 0 ++ FIPS.parse t.
Proof.
  induction bs as [|a|a b|a b c|a b c d s IH] using quads_ind; cbn [length app parse0]; intros Hz.
  - replace z with (4 * (z / 4))%nat at 1 by lia_div. rewrite parse_zeros. do 3 f_equal. lia_div.
  - replace z with (S (S (S (4 * (z / 4))))) at 1 by lia_div. cbn [replicate app FIPS.parse].
    rewrite parse_zeros. do 4 f_equal. lia_div.
  - replace z with (S (S (4 * (z / 4)))) at 1 by lia_div. cbn [replicate app FIPS.parse].
    rewrite parse_zeros. do 4 f_equal. lia_div.
  - replace z with (S (4 * (z / 4))) at 1 by lia_div. cbn [replicate app FIPS.parse].
    rewrite parse_zeros. do 4 f_equal. lia_div.
  - cbn [FIPS.parse]. rewrite IH by lia_div. cbn [app length]. do 4 f_equal. rewrite !parse0_length. lia_div.
Qed.

Lemma be32_word x t : 0 <= x < 2 ^ 32 -> FIPS.parse (FIPS.be32 x ++ t) = x :: FIPS.parse t.
Proof. intros Hx. cbn [FIPS.be32 app FIPS.parse]. f_equal. unfold FIPS.word_of. lia_div. Qed.

Lemma be64_words x : 0 <= x < 2 ^ 64 -> FIPS.parse (FIPS.be64 x) = [x / 2 ^ 32; u32 x].
Proof.
  intros Hx. unfold FIPS.be64. rewrite be32_word by lia_div.
  rewrite <- (app_nil_r (FIPS.be32 (u32 x))), be32_word by apply u32_range. done.
Qed.

(** The number of blocks of a message. *)
Definition nblocks (l : Z) : Z := (l + 8) / 64 + 1.

Lemma padded_words bs : small bs ->
  FIPS.parse (FIPS.pad bs) =
  parse0 (bs ++ [128]) ++ replicate (Z.to_nat (16 * nblocks (Z.of_nat (length bs)) - 2)
    - length (parse0 (bs ++ [128]))) 0 ++ [8 * Z.of_nat (length bs) / 2 ^ 32; u32 (8 * Z.of_nat (length bs))].
Proof.
  intros Hl. unfold small in Hl. unfold FIPS.pad. cbv zeta. rewrite app_assoc.
  rewrite parse_fill, be64_words by (rewrite ?length_app; cbn [length]; lia_div).
  do 3 f_equal. rewrite length_app. cbn [length]. f_equal. unfold nblocks. lia_div.
Qed.

Lemma put_far i x ws : Z.of_nat (length ws) <= i -> put i x ws = ws ++ replicate (Z.to_nat i - length ws) 0 ++ [x].
Proof. intros Hi. unfold put. by rewrite decide_False by lia. Qed.

(** The words of the message when it is hashed. *)
Definition final_words (bs : list Z) : list Z :=
  let l := Z.of_nat (length bs) in
  let ws := put_byte l 128 (words (Latin1_parse bs)) in
  put (16 * nblocks l - 1) (8 * l) (put (16 * nblocks l - 2) (8 * l / 2 ^ 32) ws).

Lemma final_words_spec bs : Forall Base64.is_byte bs -> small bs ->
  map u32 (final_words bs) = FIPS.parse (FIPS.pad bs) /\
  Z.of_nat (length (final_words bs)) = 16 * nblocks (Z.of_nat (length bs)).
Proof.
  intros Hb Hl. rewrite padded_words by done. unfold final_words, small in *. cbv zeta.
  set (l := Z.of_nat (length bs)) in *. set (ws := put_byte l 128 _).
  assert (Hws : map u32 ws = parse0 (bs ++ [128])).
  { unfold ws. change (put_byte l 128) with (put_bytes l [128]). cbn [Latin1_parse words].
    rewrite latin1_loop_bytes by done. replace l with (0 + l) by lia. unfold l. rewrite <- put_bytes_app.
    apply (put_bytes_spec _ []); [|rewrite length_app; cbn; lia].
    apply Forall_app. split; [done|]. repeat constructor; unfold Base64.is_byte; lia. }
  assert (Hn : length ws = ((length bs + 4) / 4)%nat).
  { rewrite <- (length_map u32), Hws, parse0_length, length_app. cbn [length]. f_equal. lia. }
  assert (H1 : Z.of_nat (length ws) <= 16 * nblocks l - 2) by (rewrite Hn; unfold nblocks, l; lia_div).
  rewrite (put_far (16 * nblocks l - 2)) by done.
  rewrite put_length by (rewrite !length_app, length_replicate; cbn [length]; unfold nblocks in *; lia).
  split; [|rewrite !length_app, length_replicate; cbn [length]; lia].
  rewrite <- Hws, !map_app, fmap_replicate, length_map, <- !app_assoc. do 2 f_equal. cbn.
  do 2 f_equal. apply u32_small. unfold l. lia_div.
Qed.

(** ** The hash of a message *)

Section hash.
Variables H K : list Z.
Hypothesis H_is : map u32 H = FIPS.H0.
Hypothesis K_is : map u32 K = FIPS.K.

Lemma lengths : length H = 8%nat /\ length K = 64%nat.
Proof.
  rewrite <- (length_map u32 H), <- (length_map u32 K), H_is, K_is.
  unfold FIPS.H0, FIPS.K. rewrite !length_map. split; by vm_compute.
Qed.

(** A block is compressed as the standard says. *)
Lemma block_compressed M W hash k : (16 * k + 16 <= length M)%nat -> length hash = 8%nat ->
  let '(W', hash') := doProcessBlock K M (W, hash) (16 * Z.of_nat k) in
  length hash' = 8%nat /\
  map u32 hash' = FIPS.compress (map u32 hash) (take 16 (drop (16 * k) (map u32 M))).
Proof.
  intros Hk Hl. destruct lengths as [_ HK].
  pose proof (doProcessBlock_u32 K M k HK Hk W hash Hl) as Hb. unfold offset in Hb.
  destruct (doProcessBlock _ _ _ _) as [W' hash']. destruct Hb as [Hl' ->]. split; [done|].
  unfold FIPS.compress, reference_rounds. fold (block M k).
  rewrite K_is, !take_ge; [done|..].
  - rewrite schedule_length; [done|]. by apply length_block.
  - rewrite <- K_is, length_map. lia.
Qed.

Lemma blocks_compressed M W hash n : (16 * n <= length M)%nat -> length hash = 8%nat ->
  let '(W', hash') := foldl (doProcessBlock K M) (W, hash) (map (Z.mul 16) (seqZ 0 (Z.of_nat n))) in
  length hash' = 8%nat /\
  map u32 hash' =
    foldl FIPS.compress (map u32 hash) (map (fun k => take 16 (drop (16 * k) (map u32 M))) (seq 0 n)).
Proof.
  intros Hn Hl. induction n as [|n IH]; [done|]. specialize (IH ltac:(lia)).
  rewrite seqZ_snoc, seq_S, !map_app, !foldl_app. cbn [map foldl Nat.add].
  destruct (foldl _ _ (map _ (seqZ _ _))) as [W' hash']. destruct IH as [Hl' <-].
  by apply block_compressed; [lia|].
Qed.

Lemma doFinalize_loaded bs W : Forall Base64.is_byte bs -> small bs ->
  map u32 (hash (doFinalize K (loaded H bs W))) =
    foldl FIPS.compress FIPS.H0 (FIPS.blocks (FIPS.parse (FIPS.pad bs))) /\
  length (hash (doFinalize K (loaded H bs W))) = 8%nat.
Proof.
  intros Hb Hl. destruct (final_words_spec bs Hb Hl) as [Hw Hn]. destruct lengths as [HH _].
  unfold doFinalize. cbn [loaded data nDataBytes hash shared Latin1_parse sigBytes words]. cbv zeta.
  set (l := Z.of_nat (length bs)) in *. unfold small in Hl. fold l in Hl.
  assert (Hj : sll (ushr (l * 8 + 64) 9) 4 = 16 * (nblocks l - 1)).
  { rewrite ushr_small by lia. unfold sll. change (4 mod 32) with 4.
    rewrite shl_small by (unfold nblocks; lia_div). unfold nblocks. lia_div. }
  assert (Hp : put (ushr (l * 8) 5) (bor (word (words (Latin1_parse bs)) (ushr (l * 8) 5)) (sll 128 (24 - (l * 8) mod 32)))
    (words (Latin1_parse bs)) = put_byte l 128 (words (Latin1_parse bs))).
  { unfold put_byte. rewrite !ushr_small by lia. replace (l * 8 / 2 ^ 5) with (l / 2 ^ 2) by lia_div.
    replace ((l * 8) mod 32) with (l mod 4 * 8) by lia_div. done. }
  rewrite Hj. cbn [Latin1_parse words] in Hp. rewrite Hp.
  replace (16 * (nblocks l - 1) + 14) with (16 * nblocks l - 2) by lia.
  replace (16 * (nblocks l - 1) + 15) with (16 * nblocks l - 1) by lia.
  rewrite (Z.mul_comm l 8). change 4294967296 with (2 ^ 32). change (put_byte l 128 (latin1_loop 0 bs []))
    with (put_byte l 128 (words (Latin1_parse bs))).
  change (put (16 * nblocks l - 1) (8 * l) (put (16 * nblocks l - 2) (8 * l / 2 ^ 32)
    (put_byte l 128 (words (Latin1_parse bs))))) with (final_words bs).
  set (ws := final_words bs) in *. unfold process. cbn [data of_words sigBytes words hash shared]. cbv zeta.
  assert (Hq : Z.of_nat (length ws) * 4 / 64 = nblocks l) by (rewrite Hn; lia_div).
  assert (Hpos : 0 < nblocks l < 2 ^ 31) by (unfold nblocks; lia_div).
  rewrite Hq, to_int32_small, Z.max_l by lia. rewrite (proj2 (Z.eqb_neq (nblocks l * 16) 0)) by lia.
  pose proof (blocks_compressed ws W H (Z.to_nat (nblocks l)) ltac:(lia) HH) as Hc.
  rewrite Z2Nat.id in Hc by lia. destruct (foldl _ _ _) as [W' hash']. destruct Hc as [Hl' Hc].
  cbn [hash]. split; [|done]. rewrite Hc, H_is. unfold FIPS.blocks. rewrite <- Hw, length_map.
  by replace (length ws / 16)%nat with (Z.to_nat (nblocks l)) by lia_div.
Qed.

(** The SHA-256 of crypto-js: for every text whose UTF-8 encoding has fewer
    than 2^28 bytes, with the constants of the standard and whatever was left in
    the shared array by earlier calls, the eight words returned are those of the
    standard's hash of the bytes of the text; a text that has no UTF-8 encoding
    (a lone surrogate) throws a URIError. *)
Lemma SHA256_spec s W : wf_jstr s ->
  match utf8_of s with
  | Some bs => small bs -> exists ws W',
      SHA256 H K s W = Ok (of_words ws, W') /\ length ws = 8%nat /\
      flat_map FIPS.be32 (map u32 ws) = FIPS.sha256 bs
  | None => SHA256 H K s W = Throw URIError
  end.
Proof.
  intros Hs. unfold SHA256. destruct (utf8_of s) as [bs|] eqn:Hu.
  - intros Hl. pose proof (utf8_of_bytes s bs Hs Hu) as Hb.
    exists (hash (doFinalize K (loaded H bs W))), (shared (doFinalize K (loaded H bs W))).
    destruct (doFinalize_loaded bs W Hb Hl) as [Hh H8].
    split; [|split; [done|by rewrite Hh]]. case_decide as He.
    + subst s. injection Hu as <-. done.
    + by rewrite (append_loaded H s bs W Hs Hu Hl).
  - case_decide as He; [by subst s|]. unfold append, Utf8_parse. by rewrite encode_utf8_utf8_of, Hu by done.
Qed.
End hash.

(** ** Base64 of words *)

Lemma band_low x k : 0 <= k < 31 -> band x (2 ^ k - 1) = x mod 2 ^ k.
Proof.
  intros Hk. assert (2 ^ k < 2 ^ 31) by (apply Z.pow_lt_mono_r; lia).
  assert (Hp : 0 < 2 ^ k) by (apply Z.pow_pos_nonneg; lia).
  Transparent band. unfold band. Opaque band. rewrite (to_int32_small (2 ^ k - 1)) by lia.
  rewrite Z.sub_1_r, <- Z.ones_equiv, Z.land_ones by lia.
  assert (H32 : forall y, u32 y mod 2 ^ k = y mod 2 ^ k).
  { intros y. unfold u32. replace (2 ^ 32) with (2 ^ k * 2 ^ (32 - k)) by (rewrite <- Z.pow_add_r by lia; f_equal; lia).
    rewrite Z.rem_mul_r by lia. rewrite Z.mul_comm, Z_mod_plus_full. apply Z.mod_mod. lia. }
  by rewrite <- H32, u32_to_int32, H32.
Qed.

Definition bytes_of (ws : list Z) : list Z := flat_map FIPS.be32 (map u32 ws).

Lemma byte_at_value ws i : 0 <= i < 2 ^ 32 ->
  byte_at ws i = u32 (word ws (i / 4)) / 2 ^ (24 - 8 * (i mod 4)) mod 256.
Proof.
  intros Hi. unfold byte_at. rewrite (ushr_small i 2) by lia. change (2 ^ 2) with 4.
  rewrite <- ushr_u32, ushr_small by (apply u32_range || lia_div).
  change 255 with (2 ^ 8 - 1). rewrite band_low by lia. do 3 f_equal. lia.
Qed.

Lemma byte_at_bytes ws i : 0 <= i < 2 ^ 32 -> byte_at ws i = default 0 (bytes_of ws !! Z.to_nat i).
Proof.
  revert i. induction ws as [|w ws IH]; intros i Hi; rewrite byte_at_value by done.
  { done. }
  unfold bytes_of. cbn [map flat_map]. destruct (Z_lt_dec i 4) as [H4|H4].
  - replace (i / 4) with 0 by lia_div. cbn [word Z.to_nat].
    change (word (w :: ws) 0) with w. rewrite lookup_app_l by (cbn; lia).
    assert (i = 0 \/ i = 1 \/ i = 2 \/ i = 3) as [->|[->|[->| ->]]] by lia; cbn [FIPS.be32]; try done.
    cbn. by rewrite Z.div_1_r.
  - rewrite lookup_app_r by (cbn; lia). fold (bytes_of ws).
    replace (Z.to_nat i - length (FIPS.be32 (u32 w)))%nat with (Z.to_nat (i - 4)) by (cbn; lia).
    rewrite <- IH, byte_at_value by lia. replace (i mod 4) with ((i - 4) mod 4) by lia_div.
    do 3 f_equal. unfold word. replace (Z.to_nat (i / 4)) with (S (Z.to_nat ((i - 4) / 4))) by lia_div. done.
Qed.

Lemma bytes_of_length ws : length (bytes_of ws) = (4 * length ws)%nat.
Proof. unfold bytes_of. induction ws as [|w ws IH]; [done|]. cbn [map flat_map]. rewrite length_app, IH. cbn. lia. Qed.

Lemma bytes_of_bytes ws : Forall Base64.is_byte (bytes_of ws).
Proof.
  unfold bytes_of. induction ws as [|w ws IH]; [by constructor|]. cbn [map flat_map]. apply Forall_app.
  split; [|done]. unfold FIPS.be32, Base64.is_byte. repeat apply List.Forall_cons; try apply List.Forall_nil; lia_div.
Qed.

(** The digits as a function of the bytes. *)
Definition digits_fun (b : Z -> Z) (sig i : Z) : jstr :=
  let triplet := bor (bor (shl (b i) 16) (shl (b (i + 1)) 8)) (b (i + 2)) in
  flat_map (fun j => if 4 * i + 3 * j <? 4 * sig
      then char_at map64 (Z.to_nat (band (ushr triplet (6 * (3 - j))) 63)) else [])
    [0; 1; 2; 3].

Lemma digits_fun_shift b b' sig sig' i i' :
  b i = b' i' -> b (i + 1) = b' (i' + 1) -> b (i + 2) = b' (i' + 2) -> sig - i = sig' - i' ->
  digits_fun b sig i = digits_fun b' sig' i'.
Proof.
  intros H0 H1 H2 Hs. unfold digits_fun. rewrite H0, H1, H2. cbn [flat_map].
  assert (Hj : forall j, (4 * i + 3 * j <? 4 * sig) = (4 * i' + 3 * j <? 4 * sig')) by (intros j; lia).
  by rewrite !Hj.
Qed.

Lemma map64_sextet z : 0 <= z < 64 -> char_at map64 (Z.to_nat z) = [Base64.sextet z].
Proof.
  intros Hz. unfold char_at, Base64.sextet.
  assert (Hm : take 64 map64 = Base64.ALPHA) by by_decide.
  destruct (lookup_lt_is_Some_2 Base64.ALPHA (Z.to_nat z)) as [c Hc].
  { change (length Base64.ALPHA) with 64%nat. lia. }
  rewrite (list_lookup_total_correct _ _ _ Hc). rewrite <- Hm, lookup_take_lt in Hc by lia.
  by rewrite Hc.
Qed.

(** The digits of a triplet. *)
Lemma triplet_digits a b c : Base64.is_byte a -> Base64.is_byte b -> Base64.is_byte c ->
  let t := bor (bor (shl a 16) (shl b 8)) c in
  char_at map64 (Z.to_nat (band (ushr t 18) 63)) = [Base64.sextet (a / 4)] /\
  char_at map64 (Z.to_nat (band (ushr t 12) 63)) = [Base64.sextet (a mod 4 * 16 + b / 16)] /\
  char_at map64 (Z.to_nat (band (ushr t 6) 63)) = [Base64.sextet (b mod 16 * 4 + c / 64)] /\
  char_at map64 (Z.to_nat (band (ushr t 0) 63)) = [Base64.sextet (c mod 64)].
Proof.
  intros Ha Hb Hc t. unfold t. rewrite Base64.pack2 by done. unfold Base64.is_byte in *.
  change 63 with (2 ^ 6 - 1). rewrite !ushr_small, !band_low by lia.
  split_and!; (rewrite map64_sextet by lia_div; do 2 f_equal; lia_div).
Qed.

Lemma digits_fun_eq b sig i x y z :
  b i = x -> b (i + 1) = y -> b (i + 2) = z ->
  Base64.is_byte x -> Base64.is_byte y -> Base64.is_byte z ->
  digits_fun b sig i =
  (if 4 * i <? 4 * sig then [Base64.sextet (x / 4)] else []) ++
  (if 4 * i + 3 <? 4 * sig then [Base64.sextet (x mod 4 * 16 + y / 16)] else []) ++
  (if 4 * i + 6 <? 4 * sig then [Base64.sextet (y mod 16 * 4 + z / 64)] else []) ++
  (if 4 * i + 9 <? 4 * sig then [Base64.sextet (z mod 64)] else []).
Proof.
  intros Hx Hy Hz Bx By Bz. unfold digits_fun. rewrite Hx, Hy, Hz. cbn [flat_map].
  destruct (triplet_digits x y z Bx By Bz) as (H0 & H1 & H2 & H3).
  change (6 * (3 - 0)) with 18. change (6 * (3 - 1)) with 12. change (6 * (3 - 2)) with 6.
  change (6 * (3 - 3)) with 0. rewrite H0, H1, H2, H3.
  rewrite app_nil_r. change (3 * 0) with 0. change (3 * 1) with 3. change (3 * 2) with 6.
  change (3 * 3) with 9. by rewrite Z.add_0_r.
Qed.

(** The characters of a list of bytes without the padding, and with it. *)
Definition byte_of (s : list Z) (i : Z) : Z := default 0 (s !! Z.to_nat i).
Definition chars (s : list Z) : jstr :=
  flat_map (fun k => digits_fun (byte_of s) (Z.of_nat (length s)) (3 * k))
    (seqZ 0 ((Z.of_nat (length s) + 2) / 3)).

Lemma chars_cons a b c s :
  Base64.is_byte a -> Base64.is_byte b -> Base64.is_byte c ->
  chars (a :: b :: c :: s) =
  [Base64.sextet (a / 4); Base64.sextet (a mod 4 * 16 + b / 16);
   Base64.sextet (b mod 16 * 4 + c / 64); Base64.sextet (c mod 64)] ++ chars s.
Proof.
  intros Ha Hb Hc. unfold chars. cbn [length].
  replace ((Z.of_nat (S (S (S (length s)))) + 2) / 3) with (Z.succ ((Z.of_nat (length s) + 2) / 3)) by lia_div.
  rewrite seqZ_cons, Z.pred_succ by lia_div. cbn [flat_map]. f_equal.
  - rewrite (digits_fun_eq _ _ _ a b c) by done. by rewrite !(proj2 (Z.ltb_lt _ _)) by lia.
  - change (Z.succ 0) with (1 + 0). rewrite <- fmap_add_seqZ. rewrite !flat_map_concat_map. f_equal. etrans; [apply map_map|].
    apply map_ext_in. intros k Hk. apply list_elem_of_In, elem_of_seqZ in Hk.
    apply digits_fun_shift; [..|cbn [length]; lia]; unfold byte_of; f_equal.
    all: match goal with |- _ !! Z.to_nat ?x = _ !! Z.to_nat ?y =>
      replace (Z.to_nat x) with (S (S (S (Z.to_nat y)))) by lia end; done.
Qed.

Lemma triples_ind (P : list Z -> Prop) :
  P [] -> (forall a, P [a]) -> (forall a b, P [a; b]) ->
  (forall a b c s, P s -> P (a :: b :: c :: s)) -> forall s, P s.
Proof.
  intros H0 H1 H2 H3 s. induction s as [s IH] using (induction_ltof1 _ length). unfold ltof in IH.
  destruct s as [|a [|b [|c s]]]; auto. apply H3, IH. cbn. lia.
Qed.

(** How the text of bytes ends: padding after digits only. *)
Lemma rfc_encode_chars s : Forall Base64.is_byte s ->
  Base64.rfc_encode s = chars s ++ replicate (Z.to_nat (- Z.of_nat (length (chars s)) mod 4)) 61 /\
  Forall (fun c => c <> 61) (chars s).
Proof.
  induction s as [|a|a b|a b c s IH] using triples_ind; intros Hs;
    rewrite ?Forall_cons in Hs; destruct_and?.
  - by split.
  - unfold chars. cbn [length]. change (seqZ 0 _) with [0]. cbn [flat_map]. rewrite app_nil_r.
    rewrite (digits_fun_eq _ _ _ a 0 0) by (done || apply Base64.byte_0). unfold Base64.is_byte in *.
    cbn -[Z.div Z.modulo Z.mul]. rewrite Z.div_0_l, Z.add_0_r by lia. split; [done|].
    repeat (apply List.Forall_cons; [apply Base64.sextet_not_pad; lia_div|]). apply List.Forall_nil.
  - unfold chars. cbn [length]. change (seqZ 0 _) with [0]. cbn [flat_map]. rewrite app_nil_r.
    rewrite (digits_fun_eq _ _ _ a b 0) by (done || apply Base64.byte_0). unfold Base64.is_byte in *.
    cbn -[Z.div Z.modulo Z.mul]. rewrite (Z.div_0_l 64), Z.add_0_r by lia. split; [done|].
    repeat (apply List.Forall_cons; [apply Base64.sextet_not_pad; lia_div|]). apply List.Forall_nil.
  - destruct IH as [IH Hn]; [done|]. rewrite chars_cons by done. cbn [Base64.rfc_encode].
    rewrite length_app. cbn [length]. rewrite Nat2Z.inj_add.
    replace (- (Z.of_nat 4 + Z.of_nat (length (chars s))) mod 4) with (- Z.of_nat (length (chars s)) mod 4) by lia_div.
    rewrite <- app_assoc, <- IH. split; [done|]. unfold Base64.is_byte in *.
    cbn [app]. repeat (apply List.Forall_cons; [apply Base64.sextet_not_pad; lia_div|]). done.
Qed.

Lemma clamp_words ws : 4 * Z.of_nat (length ws) < 2 ^ 32 -> clamp (of_words ws) = of_words ws.
Proof.
  intros Hl. unfold clamp, of_words. cbn [sigBytes words].
  rewrite ushr_small by lia. replace (Z.of_nat (length ws) * 4 / 2 ^ 2) with (Z.of_nat (length ws)) by lia_div.
  rewrite word_end, put_length by done. f_equal.
  replace (Z.to_nat ((Z.of_nat (length ws) * 4 + 3) / 4)) with (length ws) by lia_div. apply take_app_length.
Qed.

Lemma stringify_words ws : 4 * Z.of_nat (length ws) + 4 < 2 ^ 32 ->
  Base64_stringify (of_words ws) = Base64.rfc_encode (bytes_of ws).
Proof.
  intros Hl. unfold Base64_stringify. rewrite clamp_words by lia. cbn [of_words words sigBytes].
  destruct (rfc_encode_chars _ (bytes_of_bytes ws)) as [-> _].
  assert (Hc : flat_map (fun k => digits_of ws (Z.of_nat (length ws) * 4) (3 * k))
      (seqZ 0 ((Z.of_nat (length ws) * 4 + 2) / 3)) = chars (bytes_of ws)).
  { unfold chars. rewrite bytes_of_length, !flat_map_concat_map.
    replace (Z.of_nat (4 * length ws)) with (Z.of_nat (length ws) * 4) by lia. f_equal.
    apply map_ext_in. intros k Hk. apply list_elem_of_In, elem_of_seqZ in Hk.
    change (digits_of ws) with (digits_fun (byte_at ws)).
    apply digits_fun_shift; [..|lia]; rewrite byte_at_bytes by lia_div; done. }
  cbv zeta. rewrite Hc. f_equal. change (char_at map64 64) with [61].
  by induction (Z.to_nat _) as [|n IH]; [|cbn; f_equal].
Qed.

(** ** Code challenges *)

(** The text of RFC 7636, appendix A: base64url, without padding. *)
Definition url_digit (c : Z) : Z := if c =? 43 then 45 else if c =? 47 then 95 else c.
Definition base64url (bs : list Z) : jstr :=
  map url_digit (List.filter (fun c => negb (c =? 61)) (Base64.rfc_encode bs)).

Lemma replace_unit_map (c d : Z) s : replace_unit c [d] s = map (fun x => if x =? c then d else x) s.
Proof. induction s as [|x s IH]; [done|]. cbn. rewrite IH. destruct (Z.eqb_spec x c); subst; by repeat case_decide. Qed.

Lemma drop_pads_app t n : Forall (fun c => c <> 61) t -> drop_pads (t ++ replicate n 61) = t.
Proof.
  intros Ht. unfold drop_pads. rewrite rev_app_distr.
  assert (Hr : rev (replicate n 61) = replicate n 61).
  { induction n as [|n IH]; [done|]. cbn [replicate rev]. rewrite IH. by rewrite <- replicate_cons_app. }
  rewrite Hr. clear Hr. induction n as [|n IH]; [|exact IH]. cbn [replicate app].
  assert (Hn : Forall (fun c => c <> 61) (rev t)) by (by apply List.Forall_rev).
  rewrite <- (rev_involutive t) at 2. f_equal. destruct Hn as [|x l Hx _]; [done|]. cbn.
  by rewrite (proj2 (Z.eqb_neq x 61)).
Qed.

Lemma url_digit_ok c : c <> 61 -> url_digit c <> 61.
Proof. unfold url_digit. intros Hc. repeat case_match; lia. Qed.

Lemma url_text s : Forall Base64.is_byte s ->
  drop_pads (replace_unit 47 "_" (replace_unit 43 "-" (Base64.rfc_encode s))) = base64url s.
Proof.
  intros Hs. unfold base64url. destruct (rfc_encode_chars s Hs) as [-> Hn].
  set (n := Z.to_nat _). change (js "_") with [95]. change (js "-") with [45].
  rewrite !replace_unit_map, map_map.
  assert (Hu : forall l : list Z, map (fun x => if (if x =? 43 then 45 else x) =? 47 then 95
      else if x =? 43 then 45 else x) l = map url_digit l).
  { intros l. apply map_ext. intros c. unfold url_digit. destruct (Z.eqb_spec c 43); [by subst|done]. }
  rewrite Hu, map_app. replace (map url_digit (replicate n 61)) with (replicate n 61)
    by (induction n; cbn; congruence).
  rewrite drop_pads_app by (apply List.Forall_map; eapply Forall_impl; [exact Hn|]; apply url_digit_ok).
  f_equal. rewrite List.filter_app.
  replace (List.filter _ (replicate n 61)) with (@nil Z) by (induction n; done). rewrite app_nil_r.
  induction Hn as [|c l Hc _ IH]; [done|]. cbn. rewrite (proj2 (Z.eqb_neq c 61)) by done. cbn. by f_equal.
Qed.

Lemma base64url_nonempty s : Forall Base64.is_byte s -> s <> [] -> base64url s <> [].
Proof.
  intros Hs Hn. assert (Hd : exists c t, Base64.rfc_encode s = c :: t /\ c <> 61).
  { destruct s as [|a [|b [|c s]]]; [done|..]; inversion Hs as [|? ? Ha _]; subst; unfold Base64.is_byte in Ha;
    eexists _, _; (split; [reflexivity|]); apply Base64.sextet_not_pad; lia_div. }
  destruct Hd as (c & t & He & Hc). unfold base64url. rewrite He. cbn. by rewrite (proj2 (Z.eqb_neq c 61)).
Qed.

(** The code challenge is that of RFC 7636 (method S256): base64url,
    without padding, of the SHA-256 of the UTF-8 bytes of the code verifier,
    whatever earlier challenges left in the shared array. *)
Lemma generateCodeChallenge_spec H K v bs W :
  map u32 H = FIPS.H0 -> map u32 K = FIPS.K -> wf_jstr v -> utf8_of v = Some bs -> small bs ->
  fst <$> generateCodeChallenge H K v W = Ok (base64url (FIPS.sha256 bs)).
Proof.
  intros HH HK Hv Hu Hl. unfold generateCodeChallenge.
  pose proof (SHA256_spec H K HH HK v W Hv) as Hh. rewrite Hu in Hh.
  destruct (Hh Hl) as (ws & W' & -> & H8 & Hd). cbn [mbind res_bind fmap res_fmap fst].
  rewrite stringify_words by lia. unfold bytes_of. rewrite Hd. do 2 f_equal.
  apply url_text. rewrite <- Hd. apply bytes_of_bytes.
Qed.

Lemma challenge_nonempty H K v bs :
  map u32 H = FIPS.H0 -> map u32 K = FIPS.K -> wf_jstr v -> utf8_of v = Some bs -> small bs ->
  base64url (FIPS.sha256 bs) <> [].
Proof.
  intros HH HK Hv Hu Hl. pose proof (SHA256_spec H K HH HK v [] Hv) as Hh. rewrite Hu in Hh.
  destruct (Hh Hl) as (ws & W' & _ & H8 & Hd). fold (bytes_of ws) in Hd. rewrite <- Hd.
  apply base64url_nonempty; [apply bytes_of_bytes|]. intros He. apply (f_equal length) in He.
  rewrite bytes_of_length, H8 in He. cbn in He. lia.
Qed.

(** ** The constants *)

(** A double in [[1, 32)] that is less than two units in the last place away from
    the [k]-th root of [n]. *)
Definition root_of (k n : Z) (x : double) : Prop :=
  match x with
  | finite false m e =>
      -52 <= e <= -48 /\ 2 ^ 52 <= Zpos m < 2 ^ 53 /\
      (Zpos m - 2) ^ k < n * 2 ^ (- e * k) < (Zpos m + 2) ^ k
  | _ => False
  end.

#[global] Instance root_of_dec k n x : Decision (root_of k n x).
Proof. unfold root_of. destruct x as [| | |[] m e]; apply _. Defined.

(** What is asked of Math.pow: the language lets it approximate, and the numbers
    one and two units in the last place away are as good. *)
Definition pow_approximates (pow : double -> double -> double) : Prop :=
  Forall (fun p => root_of 2 p (pow (of_int p) (ddiv (of_int 1) (of_int 2)))) (take 8 FIPS.primes) /\
  Forall (fun p => root_of 3 p (pow (of_int p) (ddiv (of_int 1) (of_int 3)))) FIPS.primes.

(** All doubles near the root give the same bits [c]. *)
Definition stable (bits : double -> Z) (root : Z -> Z -> Z) (k n c : Z) : bool :=
  forallb (fun e =>
    let N := n * 2 ^ (- e * k) in
    if (N <? (2 ^ 52 - 2) ^ k) || ((2 ^ 53 + 2) ^ k <? N) then true
    else
    let f := root k N in
    (0 <=? f) && (f ^ k <=? N) && (N <? (f + 1) ^ k) &&
    forallb (fun m => negb ((2 ^ 52 <=? m) && (m <? 2 ^ 53)) ||
        (bits (finite false (Z.to_pos m) e) =? c)) [f - 1; f; f + 1; f + 2])
  [-52; -51; -50; -49; -48].

Lemma near_root k N f m : 0 <= k -> 0 <= f -> f ^ k <= N < (f + 1) ^ k ->
  0 <= m - 2 -> (m - 2) ^ k < N < (m + 2) ^ k -> List.In m [f - 1; f; f + 1; f + 2].
Proof.
  intros Hk Hf [H1 H2] Hm [Hlo Hhi].
  assert (Hl : m - 2 < f + 1).
  { destruct (Z_lt_dec (m - 2) (f + 1)); [done|]. pose proof (Z.pow_le_mono_l (f + 1) (m - 2) k). lia. }
  assert (Hu : f < m + 2).
  { destruct (Z_lt_dec f (m + 2)); [done|]. pose proof (Z.pow_le_mono_l (m + 2) f k). lia. }
  cbn. lia.
Qed.

Lemma exponents e : -52 <= e <= -48 -> List.In e [-52; -51; -50; -49; -48].
Proof. cbn. lia. Qed.

Lemma stable_spec bits root k n c x :
  0 <= k -> stable bits root k n c = true -> root_of k n x -> bits x = c.
Proof.
  intros Hk Hs Hx. destruct x as [| | |[] m e]; try done. destruct Hx as (He & [Hm1 Hm2] & Hr).
  unfold stable in Hs. apply forallb_forall with (x := e) in Hs; [|by apply exponents].
  cbv zeta in Hs. destruct (_ || _) eqn:Ho in Hs.
  { clear Hs. pose proof (Z.pow_le_mono_l (2 ^ 52 - 2) (Zpos m - 2) k). pose proof (Z.pow_le_mono_l (Zpos m + 2) (2 ^ 53 + 2) k).
    apply orb_prop in Ho as [Ho|Ho]; apply Z.ltb_lt in Ho; lia. }
  apply andb_prop in Hs as [Hs Hf]. apply andb_prop in Hs as [Hs H2].
  apply andb_prop in Hs as [H0 H1]. apply Z.leb_le in H0, H1. apply Z.ltb_lt in H2.
  apply forallb_forall with (x := Zpos m) in Hf.
  - apply Z.leb_le in Hm1. apply Z.ltb_lt in Hm2. apply orb_prop in Hf as [Hf|Hf].
    + by rewrite Hm1, Hm2 in Hf.
    + by apply Z.eqb_eq.
  - by apply (near_root k (n * 2 ^ (- e * k))); [..|lia|].
Qed.

Notation bits_stable := (stable getFractionalBits FIPS.root).

#[local] Strategy expand [sqrt_bits cbrt_bits].
#[local] Strategy opaque [getFractionalBits FIPS.root FIPS.primes].

Lemma constants_loop_primes f g : constants_loop f g 311 2 0 [] [] = (map f (take 8 FIPS.primes), map g FIPS.primes).
Proof. vm_compute. reflexivity. Qed.

Lemma fractions_stable :
  forallb (fun p => bits_stable 2 p (to_int32 (FIPS.fraction 2 p))) (take 8 FIPS.primes) &&
  forallb (fun p => bits_stable 3 p (to_int32 (FIPS.fraction 3 p))) FIPS.primes = true.
Proof. by vm_compute. Qed.

Lemma constants_spec pow : pow_approximates pow ->
  map u32 (constants pow).1 = FIPS.H0 /\ map u32 (constants pow).2 = FIPS.K.
Proof.
  intros Hp. unfold constants. rewrite constants_loop_primes. cbn [fst snd]. rewrite !map_map.
  pose proof fractions_stable as Hf. apply andb_prop in Hf as [H2 H3]. rewrite forallb_forall in H2, H3.
  assert (Hu : forall k p, u32 (to_int32 (FIPS.fraction k p)) = FIPS.fraction k p)
    by (intros k p; rewrite u32_to_int32; unfold FIPS.fraction; apply u32_idem).
  destruct Hp as [Hp2 Hp3]. rewrite List.Forall_forall in Hp2, Hp3.
  split; apply map_ext_in; intros p Hin; rewrite <- Hu; f_equal.
  - refine (stable_spec _ FIPS.root 2 p _ _ _ (H2 p Hin) (Hp2 p Hin)). lia.
  - refine (stable_spec _ FIPS.root 3 p _ _ _ (H3 p Hin) (Hp3 p Hin)). lia.
Qed.

(** C10: PKCE: the code challenge that is sent with a sign-in is the one RFC 7636
    defines for the code verifier that is kept (method S256): base64url without
    padding of the SHA-256 (FIPS 180-4) of its UTF-8 bytes. The constants are the
    ones the code computes, from roots of primes; it is enough that Math.pow is
    off by less than two units in the last place. The shared array may hold
    anything; the verifier has fewer than 2^28 bytes. *)
Theorem challenge_is_S256 pow v bs W :
  pow_approximates pow -> wf_jstr v -> utf8_of v = Some bs -> small bs ->
  fst <$> generateCodeChallenge (constants pow).1 (constants pow).2 v W = Ok (base64url (FIPS.sha256 bs)).
Proof. intros Hp. destruct (constants_spec pow Hp). by apply generateCodeChallenge_spec. Qed.

(** ** Code verifiers *)

(** The digit that stands for the [i]-th value of the generator in an identifier:
    all are chosen among sixteen but the fifteenth, which tells the variant. *)
Definition modulus (i : nat) : Z := if decide (i mod 31 = 15)%nat then 4 else 16.

(** What is used of the values of the generator. *)
Definition kept (random : nat -> Z) (i : nat) : Z := random i mod modulus i.

(** RFC 7636, section 4.1: what a code verifier is made of. *)
Definition unreserved (c : Z) : bool := is_alnum c || bool_decide (c ∈ [45; 46; 95; 126]).

Definition hex_lower (c : Z) : bool := is_digit c || ((97 <=? c) && (c <=? 102)).

(** The character that replaces digit [d] of the template, given what is used of a value. *)
Definition filled (d k : Z) : Z := digit_unit (Z.lxor d k).

Lemma filled_digit d r : d = 0 \/ d = 1 \/ d = 8 ->
  to_string 16 (bxor d (band r (shr 15 (d / 4)))) = [filled d (r mod (if decide (d = 8) then 4 else 16))].
Proof.
  intros Hd.
  assert (Hc : forall k, (if decide (d = 8) then 0 <= k < 4 else 0 <= k < 16) ->
    to_string 16 (bxor d k) = [filled d k]).
  { intros k Hk. assert (H16 : 0 <= k < 16) by (case_decide; lia). clear Hk. revert k H16.
    refine (Forall_range _ 16 _). destruct Hd as [->|[->| ->]]; by_decide. }
  destruct Hd as [->|[->| ->]]; cbn [decide] in *.
  - change (shr 15 (0 / 4)) with (2 ^ 4 - 1). rewrite band_low by lia. apply Hc. case_decide; lia_div.
  - change (shr 15 (1 / 4)) with (2 ^ 4 - 1). rewrite band_low by lia. apply Hc. case_decide; lia_div.
  - change (shr 15 (8 / 4)) with (2 ^ 2 - 1). rewrite band_low by lia. apply Hc. case_decide; lia_div.
Qed.

Definition replaced (c : Z) : bool := bool_decide (c ∈ [48; 49; 56]).
Definition modulus_of (c : Z) : Z := if decide (c = 56) then 4 else 16.

(** The values that a template uses, and the text they make. *)
Definition moduli (t : jstr) : list Z := map modulus_of (List.filter replaced t).
Definition drawn (random : nat -> Z) (n : nat) (ms : list Z) : list Z :=
  imap (fun i m => random (n + i)%nat mod m) ms.

Fixpoint fill_with (t : jstr) (ks : list Z) : jstr :=
  match t with
  | [] => []
  | c :: t =>
      if replaced c then
        match ks with k :: ks => filled (c - 48) k :: fill_with t ks | [] => [] end
      else c :: fill_with t ks
  end.

Lemma replaced_spec c : replaced c = true -> c - 48 = 0 \/ c - 48 = 1 \/ c - 48 = 8.
Proof. unfold replaced. rewrite bool_decide_eq_true, !elem_of_cons, elem_of_nil. lia. Qed.

Lemma drawn_cons random n m ms : drawn random n (m :: ms) = random n mod m :: drawn random (S n) ms.
Proof.
  unfold drawn. cbn [imap]. rewrite Nat.add_0_r. f_equal. apply imap_ext. intros i x _. cbn. do 2 f_equal. lia.
Qed.

Lemma fill_spec random t n :
  fill random t n = (fill_with t (drawn random n (moduli t)), (n + length (moduli t))%nat).
Proof.
  revert n. induction t as [|c t IH]; intros n; [cbn; by rewrite Nat.add_0_r|].
  cbn [fill]. fold (replaced c). unfold moduli. cbn [List.filter fill_with].
  destruct (replaced c) eqn:Hc; [|rewrite IH; done].
  change (randomWord random n) with (random n, (n + 1)%nat). cbv beta iota zeta. rewrite IH.
  rewrite filled_digit by (by apply replaced_spec). cbn [map]. rewrite drawn_cons.
  replace (n + 1)%nat with (S n) by lia. cbn [app length]. f_equal; [|unfold moduli; lia].
  unfold moduli, modulus_of. f_equal. f_equal. f_equal. by repeat case_decide; try lia.
Qed.

Lemma fill_with_app t u ks ls :
  length ks = length (moduli t) -> fill_with (t ++ u) (ks ++ ls) = fill_with t ks ++ fill_with u ls.
Proof.
  revert ks. induction t as [|c t IH]; intros ks; unfold moduli in *; cbn [List.filter app fill_with].
  - by destruct ks.
  - destruct (replaced c); [|intros Hl; cbn; by rewrite IH].
    destruct ks as [|k ks]; [done|]. intros [= Hl]. cbn [app]. by rewrite IH.
Qed.

Lemma filled_not_dash d k : d = 0 \/ d = 1 \/ d = 8 -> 0 <= k < 16 -> 48 <= filled d k.
Proof.
  intros Hd Hk. revert k Hk. refine (Forall_range _ 16 _). destruct Hd as [->|[->| ->]]; by_decide.
Qed.

Definition in_range (k m : Z) : Prop := 0 <= k < m /\ m <= 16.

Lemma fill_with_dashes t ks : Forall2 in_range ks (moduli t) ->
  replace_unit 45 [] (fill_with t ks) = fill_with (replace_unit 45 [] t) ks.
Proof.
  revert ks. induction t as [|c t IH]; intros ks; unfold moduli; cbn [List.filter fill_with].
  - done.
  - destruct (replaced c) eqn:Hc.
    + intros Hk. inversion Hk as [|k m ks' ms Hkm Hks]; subst. unfold in_range in Hkm.
      pose proof (filled_not_dash (c - 48) k (replaced_spec c Hc) ltac:(lia)) as Hf.
      pose proof (replaced_spec c Hc).
      cbn [replace_unit]. rewrite !decide_False by lia. cbn [app fill_with]. rewrite Hc. f_equal. by apply IH.
    + intros Hk. cbn [replace_unit]. case_decide; subst; [by apply IH|]. cbn [app fill_with]. rewrite Hc.
      f_equal. by apply IH.
Qed.

Lemma drawn_in_range random n t : Forall2 in_range (drawn random n (moduli t)) (moduli t).
Proof.
  unfold moduli. revert n. induction (List.filter replaced t) as [|c l IH]; intros n; cbn [map]; [constructor|].
  rewrite drawn_cons. constructor; [|apply IH]. unfold modulus_of, in_range. case_decide; lia_div.
Qed.

Lemma filled_inj d x y : d = 0 \/ d = 1 \/ d = 8 -> 0 <= x < 16 -> 0 <= y < 16 ->
  filled d x = filled d y -> x = y.
Proof.
  intros Hd Hx Hy.
  assert (Ha : Forall (fun x => Forall (fun y => filled d x = filled d y -> x = y) (seqZ 0 16)) (seqZ 0 16))
    by (destruct Hd as [->|[->| ->]]; by_decide).
  exact (Forall_range _ 16 (Forall_range _ 16 Ha x Hx) y Hy).
Qed.

(** A text shows which values were used. *)
Lemma fill_with_inj t ks ls :
  Forall2 in_range ks (moduli t) -> Forall2 in_range ls (moduli t) ->
  fill_with t ks = fill_with t ls -> ks = ls.
Proof.
  revert ks ls. induction t as [|c t IH]; intros ks ls; unfold moduli; cbn [List.filter fill_with].
  - intros Hk Hl _. inversion Hk; inversion Hl; done.
  - destruct (replaced c) eqn:Hc; [|intros Hk Hl [= He]; by eapply IH].
    intros Hk Hl. inversion Hk as [|k m ks' ms Hkm Hks]; subst. inversion Hl as [|l m ls' ms Hlm Hls]; subst.
    intros [= He He']. f_equal; [|by eapply IH]. unfold in_range in *.
    apply (filled_inj (c - 48)); [by apply replaced_spec|lia..|done].
Qed.

Definition digits_template : jstr := replace_unit 45 [] UUID_V4_TEMPLATE.

Lemma generateUUIDv4_spec random n :
  generateUUIDv4 random n = (fill_with digits_template (drawn random n (moduli digits_template)), (n + 31)%nat).
Proof.
  unfold generateUUIDv4. rewrite fill_spec, fill_with_dashes by apply drawn_in_range.
  fold digits_template. assert (Hm : moduli UUID_V4_TEMPLATE = moduli digits_template) by by_decide.
  rewrite Hm. assert (Hl : length (moduli digits_template) = 31%nat) by by_decide. by rewrite Hl.
Qed.

Lemma drawn_app random n ms ns :
  drawn random n (ms ++ ns) = drawn random n ms ++ drawn random (n + length ms) ns.
Proof.
  revert n. induction ms as [|m ms IH]; intros n; [cbn [app length]; by rewrite Nat.add_0_r|].
  cbn [app length]. rewrite !drawn_cons, IH. cbn [app]. do 3 f_equal. lia.
Qed.

Lemma drawn_length random n ms : length (drawn random n ms) = length ms.
Proof. apply length_imap. Qed.

Definition verifier_template : jstr := digits_template ++ digits_template ++ digits_template.

Lemma generateCodeVerifier_eq random n :
  generateCodeVerifier random n =
  (fill_with verifier_template (drawn random n (moduli verifier_template)), (n + 93)%nat).
Proof.
  unfold generateCodeVerifier. rewrite !generateUUIDv4_spec. f_equal; [|lia].
  set (D := digits_template). unfold verifier_template. fold D.
  assert (Hm : forall t u, moduli (t ++ u) = moduli t ++ moduli u)
    by (intros t u; unfold moduli; by rewrite List.filter_app, map_app).
  assert (H31 : length (moduli D) = 31%nat) by by_decide.
  rewrite !Hm, !drawn_app, !fill_with_app by apply drawn_length. by rewrite H31.
Qed.

Lemma verifier_moduli : moduli verifier_template = map modulus (seq 0 93).
Proof. by vm_compute. Qed.

Lemma drawn_kept random n :
  drawn random n (moduli verifier_template) = map (fun i => random (n + i)%nat mod modulus i) (seq 0 93).
Proof.
  rewrite verifier_moduli. unfold drawn. rewrite imap_fmap. apply list_eq. intros i.
  rewrite list_lookup_imap, !list_lookup_fmap. destruct (seq 0 93 !! i) as [j|] eqn:E; [|done].
  apply lookup_seq in E as [-> _]. done.
Qed.

Lemma fill_with_unreserved t ks :
  Forall2 in_range ks (moduli t) -> Forall (fun c => unreserved c = true) t ->
  Forall (fun c => unreserved c = true) (fill_with t ks) /\ length (fill_with t ks) = length t.
Proof.
  revert ks. induction t as [|c t IH]; intros ks; unfold moduli; cbn [List.filter fill_with]; [done|].
  rewrite Forall_cons. intros Hk [Hc Ht]. destruct (replaced c) eqn:Hr.
  - inversion Hk as [|k m ks' ms Hkm Hks]; subst. destruct (IH ks' Hks Ht) as [Hf Hl].
    split; [|cbn; by rewrite Hl]. constructor; [|done]. unfold in_range in Hkm.
    assert (Hu : forall k, 0 <= k < 16 -> unreserved (filled (c - 48) k) = true); [|apply Hu; lia].
    refine (Forall_range _ 16 _). destruct (replaced_spec c Hr) as [->|[->| ->]]; by_decide.
  - destruct (IH ks Hk Ht) as [Hf Hl]. split; [by constructor|cbn; by rewrite Hl].
Qed.

(** A code verifier is as RFC 7636 asks: 96 characters (43 to 128 are
    allowed), all unreserved; making it takes 93 values of the generator and it
    loses nothing of what it takes of them: two verifiers are the same only if
    all of their 93 digits were chosen the same (366 bits: four of each
    value, two for the variants). *)
Theorem generateCodeVerifier_spec random n :
  let '(v, n') := generateCodeVerifier random n in
  (length v = 96)%nat /\ Forall (fun c => unreserved c = true) v /\ n' = (n + 93)%nat /\
  forall random' m, (generateCodeVerifier random' m).1 = v <->
    forall i, (i < 93)%nat -> random' (m + i)%nat mod modulus i = random (n + i)%nat mod modulus i.
Proof.
  rewrite generateCodeVerifier_eq.
  assert (Hv : Forall (fun c => unreserved c = true) verifier_template) by by_decide.
  destruct (fill_with_unreserved verifier_template _ (drawn_in_range random n verifier_template) Hv) as [Hu Hl].
  split; [by rewrite Hl|]. split; [done|]. split; [done|]. intros random' m.
  rewrite generateCodeVerifier_eq. cbn [fst]. split.
  - intros He i Hi. apply fill_with_inj in He; [|apply drawn_in_range..]. rewrite !drawn_kept in He.
    apply (f_equal (fun l => l !! i)) in He. rewrite !list_lookup_fmap, lookup_seq_lt in He by lia.
    by injection He.
  - intros He. rewrite !drawn_kept. apply (f_equal (fill_with verifier_template)), map_ext_in. intros i Hi. apply in_seq in Hi. apply He. lia.
Qed.

(** ** Witnesses *)

(** A Math.pow for the two exponents the code uses: the root to 60 bits, rounded. *)
Definition nearest_pow (x y : double) : double :=
  match x with
  | finite false m e =>
      let k := if deq y (ddiv (of_int 1) (of_int 2)) then 2 else 3 in
      of_fraction (FIPS.root k (Zpos m / 2 ^ (- e) * 2 ^ (60 * k))) (2 ^ 60)
  | _ => dnan
  end.

Lemma nearest_pow_approximates : pow_approximates nearest_pow.
Proof. by_decide. Qed.

(** The verifier and the challenge of RFC 7636, appendix B. *)
Definition rfc_verifier : jstr := "dBjftJeZ4CVP-mB92K27uhbUJU1p1r_wW1gFWFOEjXk".

Lemma challenge_is_S256_witness :
  fst <$> generateCodeChallenge (constants nearest_pow).1 (constants nearest_pow).2 rfc_verifier [] =
    Ok (base64url (FIPS.sha256 rfc_verifier)) /\
  base64url (FIPS.sha256 rfc_verifier) = "E9Melhoa2OwvFrEMTJguCHaoeK1t8URWbuGJSstw-cM".
Proof.
  split.
  - apply (challenge_is_S256 nearest_pow rfc_verifier rfc_verifier []).
    + exact nearest_pow_approximates.
    + by_decide.
    + by vm_compute.
    + by vm_compute.
  - by vm_compute.
Defined.

(** Words are written as eight hexadecimal digits each. *)
Example hex_words : Hex_stringify (of_words [1779033703; -1150833019]) = "6a09e667bb67ae85".
Proof. by vm_compute. Qed.
