(* ===== verification/OidcTimers.v ===== *)
(** Events and timers of the OpenID Connect client (oidc-client-ts.js, the
    readable copy): Event, Timer, AccessTokenEvents, UserManagerEvents, and how
    SilentRenewService registers its handlers.

    A timer of the library is an interval of the browser and the second at which
    it is over; the intervals that run are part of the state, so that one that is
    lost or forgotten is seen. Handlers are names; what is called is recorded. *)
From S2P Require Import Prelude JsString JsNum Uri JsObject JsValue Json Doubles.

(** ** Numbers *)

(** ToNumber of values other than objects, on decimals; [None] is NaN. *)
Definition to_num (v : value) : option num :=
  match v with
  | VNum n => Some n
  | VNull => Some (num_of 0)
  | VBool b => Some (num_of (if b then 1 else 0))
  | VStr s =>
      let t := trim s in
      if decide (t = []) then Some (num_of 0) else if decimal_literal t then parse_float t else None
  | _ => None
  end.

Definition pow10 (n : num) : Z := 10 ^ Z.of_nat (scale n).
Definition plus (n : num) (z : Z) : num := Num (mant n + z * pow10 n) (scale n).
Definition floor (n : num) : Z := mant n / pow10 n.
Definition is_positive (n : num) : bool := 0 <? mant n.

(** Timer.getEpochTime at a time in milliseconds *)
Definition getEpochTime (ms : Z) : Z := ms / 1000.

(** ** State *)

Inductive timer_name := Expiring | Expired | Retry.
Inductive event_name :=
  | TimerOver (t : timer_name)
  | UserLoaded | UserUnloaded | SilentRenewError | UserSignedIn | UserSignedOut | UserSessionChanged.

#[global] Instance timer_name_eq_dec : EqDecision timer_name.
Proof. solve_decision. Defined.
#[global] Instance event_name_eq_dec : EqDecision event_name.
Proof. solve_decision. Defined.

(** A handler: the one of SilentRenewService, or one of a client of the library. *)
Inductive handler := TokenExpiring | Handler (n : nat).

#[global] Instance handler_eq_dec : EqDecision handler.
Proof. solve_decision. Defined.

(** Timer: its interval, and the second it is over ([None]: NaN). *)
Record timer := { timerHandle : option nat; expiration : option Z }.

Record interval := { handle : nat; owner : timer_name; period : option Z }.

Record events := {
  timers : timer_name -> timer;
  callbacks : event_name -> list handler;
  intervals : list interval;            (* of the browser *)
  next_handle : nat;
  called : list (event_name * handler); (* latest last *)
  isStarted : bool;                     (* SilentRenewService *)
}.

Definition initial : events :=
  {| timers := fun _ => {| timerHandle := None; expiration := Some 0 |};
     callbacks := fun _ => []; intervals := []; next_handle := 1; called := []; isStarted := false |}.

Definition set_timer (t : timer_name) (x : timer) (s : events) : events :=
  {| timers := fun u => if decide (u = t) then x else timers s u; callbacks := callbacks s;
     intervals := intervals s; next_handle := next_handle s; called := called s; isStarted := isStarted s |}.
Definition set_callbacks (e : event_name) (l : list handler) (s : events) : events :=
  {| timers := timers s; callbacks := fun f => if decide (f = e) then l else callbacks s f;
     intervals := intervals s; next_handle := next_handle s; called := called s; isStarted := isStarted s |}.
Definition set_intervals (l : list interval) (n : nat) (s : events) : events :=
  {| timers := timers s; callbacks := callbacks s; intervals := l; next_handle := n;
     called := called s; isStarted := isStarted s |}.
Definition set_called (l : list (event_name * handler)) (s : events) : events :=
  {| timers := timers s; callbacks := callbacks s; intervals := intervals s; next_handle := next_handle s;
     called := l; isStarted := isStarted s |}.
Definition set_started (b : bool) (s : events) : events :=
  {| timers := timers s; callbacks := callbacks s; intervals := intervals s; next_handle := next_handle s;
     called := called s; isStarted := b |}.

(** setInterval and clearInterval *)
Definition setInterval (t : timer_name) (ms : option Z) (s : events) : nat * events :=
  (next_handle s,
   set_intervals (intervals s ++ [{| handle := next_handle s; owner := t; period := ms |}]) (S (next_handle s)) s).
Definition clearInterval (h : nat) (s : events) : events :=
  set_intervals (filter (fun i => handle i <> h) (intervals s)) (next_handle s) s.

(** ** Event *)

Definition addHandler (e : event_name) (cb : handler) (s : events) : events :=
  set_callbacks e (callbacks s e ++ [cb]) s.

(** [lastIndexOf] and [splice]: the last occurrence is removed. *)
Fixpoint remove_first (cb : handler) (l : list handler) : list handler :=
  match l with [] => [] | x :: l => if decide (x = cb) then l else x :: remove_first cb l end.
Definition removeHandler (e : event_name) (cb : handler) (s : events) : events :=
  set_callbacks e (rev (remove_first cb (rev (callbacks s e)))) s.

Definition raise (e : event_name) (s : events) : events :=
  set_called (called s ++ map (pair e) (callbacks s e)) s.

(** ** Timer *)

Definition cancel (t : timer_name) (s : events) : events :=
  match timerHandle (timers s t) with
  | Some h =>
      set_timer t {| timerHandle := None; expiration := expiration (timers s t) |} (clearInterval h s)
  | None => s
  end.

(** Timer.init, at time [ms], for a duration in seconds *)
Definition init (ms : Z) (t : timer_name) (durationInSeconds : option num) (s : events) : events :=
  let duration := (fun d => Z.max (floor d) 1) <$> durationInSeconds in
  let expiration' := (fun d => getEpochTime ms + d) <$> duration in
  if bool_decide (is_Some expiration' /\ expiration (timers s t) = expiration') &&
     bool_decide (is_Some (timerHandle (timers s t))) then s
  else
    let s := cancel t s in
    let '(h, s) := setInterval t ((fun d => Z.min d 5 * 1000) <$> duration) s in
    set_timer t {| timerHandle := Some h; expiration := expiration' |} s.

(** The callback of a timer: over when its second has come. *)
Definition callback (ms : Z) (t : timer_name) (s : events) : events :=
  match expiration (timers s t) with
  | Some e => if e <=? getEpochTime ms then raise (TimerOver t) (cancel t s) else s
  | None => s
  end.

(** The browser runs the callback of an interval that is set. *)
Definition tick (ms : Z) (h : nat) (s : events) : events :=
  match list_find (fun i => handle i = h) (intervals s) with
  | Some (_, i) => callback ms (owner i) s
  | None => s
  end.

(** ** AccessTokenEvents and UserManagerEvents *)

Section manager.
Variable expiringNotificationTimeInSeconds : Z.

(** AccessTokenEvents.load *)
Definition load_token (ms : Z) (access_token expires_in : value) (s : events) : events :=
  if truthy access_token && defined expires_in then
    let duration := to_num expires_in in
    let s :=
      match duration with
      | Some d =>
          if is_positive d then
            let expiring := plus d (- expiringNotificationTimeInSeconds) in
            init ms Expiring (Some (if is_positive expiring then expiring else num_of 1)) s
          else cancel Expiring s
      | None => cancel Expiring s
      end in
    init ms Expired ((fun d => plus d 1) <$> duration) s
  else cancel Expired (cancel Expiring s).

(** AccessTokenEvents.unload *)
Definition unload_token (s : events) : events := cancel Expired (cancel Expiring s).

(** UserManagerEvents.load and unload *)
Definition load (ms : Z) (access_token expires_in : value) (raiseEvent : bool) (s : events) : events :=
  let s := load_token ms access_token expires_in s in
  if raiseEvent then raise UserLoaded s else s.

Definition unload (s : events) : events := raise UserUnloaded (unload_token s).

(** ** SilentRenewService: what start and stop register *)

Definition start_renew (s : events) : events :=
  if isStarted s then s
  else addHandler (TimerOver Retry) TokenExpiring (addHandler (TimerOver Expiring) TokenExpiring (set_started true s)).

Definition stop_renew (s : events) : events :=
  if isStarted s then
    set_started false
      (removeHandler (TimerOver Expiring) TokenExpiring
         (removeHandler (TimerOver Retry) TokenExpiring (cancel Retry s)))
  else s.

(** What happens to the events: calls of the library, and time with its ticks. *)
Inductive happening :=
  | Load (access_token expires_in : value) (raiseEvent : bool)
  | Unload
  | Retry_in (seconds : num)             (* a timeout of a silent renewal *)
  | Add (e : event_name) (h : handler)
  | Remove (e : event_name) (h : handler)
  | Raise (e : event_name)
  | Start | Stop
  | Tick (h : nat).

Definition happen (ms : Z) (x : happening) (s : events) : events :=
  match x with
  | Load a e r => load ms a e r s
  | Unload => unload s
  | Retry_in d => init ms Retry (Some d) s
  | Add e h => addHandler e h s
  | Remove e h => removeHandler e h s
  | Raise e => raise e s
  | Start => start_renew s
  | Stop => stop_renew s
  | Tick h => tick ms h s
  end.

Definition run (l : list (Z * happening)) (s : events) : events :=
  foldl (fun s '(ms, x) => happen ms x s) s l.

End manager.

(** ** The intervals of timers *)

(** Every interval that runs is the one its timer knows, and a timer that knows
    an interval has it running: none is lost, none is left behind. *)
Record timers_ok (s : events) : Prop := {
  known : forall i, i ∈ intervals s -> timerHandle (timers s (owner i)) = Some (handle i);
  running : forall t h, timerHandle (timers s t) = Some h ->
    exists i, i ∈ intervals s /\ handle i = h /\ owner i = t;
  distinct : NoDup (map handle (intervals s));
  fresh : Forall (fun i => (handle i < next_handle s)%nat) (intervals s);
}.

Lemma initial_ok : timers_ok initial.
Proof. split; cbn; [by intros i ?%elem_of_nil|done|constructor|constructor]. Qed.

(** What does not touch timers and intervals keeps them right. *)
Lemma timers_ok_ext s s' :
  timers s' = timers s -> intervals s' = intervals s -> next_handle s' = next_handle s ->
  timers_ok s -> timers_ok s'.
Proof. intros Ht Hi Hn [H1 H2 H3 H4]. split; rewrite ?Ht, ?Hi, ?Hn; done. Qed.

Lemma known_unique s i j : timers_ok s -> i ∈ intervals s -> j ∈ intervals s -> owner i = owner j -> handle i = handle j.
Proof. intros Hs Hi Hj Ho. pose proof (known s Hs i Hi) as H1. pose proof (known s Hs j Hj). congruence. Qed.

Lemma filter_map_NoDup (P : interval -> Prop) `{forall x, Decision (P x)} l :
  NoDup (map handle l) -> NoDup (map handle (filter P l)).
Proof.
  induction l as [|x l IH]; [done|]. cbn [map]. rewrite NoDup_cons. intros [Hx Hl].
  rewrite filter_cons. case_decide; [|by apply IH]. cbn [map]. apply NoDup_cons. split; [|by apply IH].
  intros Hin. apply Hx. apply list_elem_of_fmap in Hin as (y & Hy & Hin). apply list_elem_of_fmap.
  exists y. split; [done|]. by apply list_elem_of_filter in Hin as [_ Hin].
Qed.

Lemma cancel_ok t s : timers_ok s -> timers_ok (cancel t s).
Proof.
  intros Hs. unfold cancel. destruct (timerHandle (timers s t)) as [h|] eqn:Hh; [|done].
  destruct (running s Hs t h Hh) as (i & Hi & Hih & Hit). pose proof Hs as [H1 H2 H3 H4]. split; cbn.
  - intros j [Hj Hjs]%list_elem_of_filter. case_decide as Ht; [|by apply H1].
    destruct Hj. rewrite <- Hih. apply (known_unique s); congruence.
  - intros u h'. case_decide as Ht; [done|]. intros Hu. destruct (H2 u h' Hu) as (j & Hj & <- & <-).
    exists j. split; [|done]. apply list_elem_of_filter. split; [|done]. intros He. apply Ht.
    assert (i = j); [|by subst]. rewrite <- Hih in He. clear -He H3 Hi Hj.
    induction (intervals s) as [|x l IH]; [by apply elem_of_nil in Hi|]. cbn in H3. apply NoDup_cons in H3 as [Hx Hl].
    apply elem_of_cons in Hi as [->|Hi]; apply elem_of_cons in Hj as [->|Hj]; try done; try by apply IH.
    + destruct Hx. apply list_elem_of_fmap. by exists j.
    + destruct Hx. apply list_elem_of_fmap. by exists i.
  - by apply filter_map_NoDup.
  - apply Forall_forall. intros j [_ Hj]%list_elem_of_filter. rewrite Forall_forall in H4. by apply H4.
Qed.

Lemma cancel_none t s : timerHandle (timers (cancel t s) t) = None.
Proof.
  unfold cancel. destruct (timerHandle (timers s t)) as [h|] eqn:Hh; [|exact Hh]. cbn. by rewrite decide_True.
Qed.

Lemma cancel_other t u s : u <> t -> timers (cancel t s) u = timers s u.
Proof. intros Hu. unfold cancel. destruct (timerHandle _); [|done]. cbn. by rewrite decide_False. Qed.

(** A new interval for a timer that has none. *)
Lemma set_ok t ms e s : timers_ok s -> timerHandle (timers s t) = None ->
  let '(h, s') := setInterval t ms s in timers_ok (set_timer t {| timerHandle := Some h; expiration := e |} s').
Proof.
  intros [H1 H2 H3 H4] Hn. unfold setInterval. rewrite Forall_forall in H4. split; cbn.
  - intros i [Hi| ->%list_elem_of_singleton]%elem_of_app; [|cbn; by rewrite decide_True].
    case_decide as Ho; [|by apply H1]. pose proof (H1 i Hi) as Hk. rewrite Ho in Hk. congruence.
  - intros u h. case_decide as Hu.
    + intros [= <-]. eexists. split; [apply elem_of_app; right; by apply list_elem_of_singleton|]. done.
    + intros Hh. destruct (H2 u h Hh) as (i & Hi & ? & ?). exists i. split; [|done]. apply elem_of_app. by left.
  - rewrite map_app. apply NoDup_app. split; [done|]. split; [|cbn; apply NoDup_singleton].
    intros x Hx Hy%list_elem_of_singleton. subst x. apply list_elem_of_fmap in Hx as (i & Hi & Hin).
    specialize (H4 i Hin). cbn in Hi. lia.
  - apply Forall_forall. intros i [Hi| ->%list_elem_of_singleton]%elem_of_app; [|cbn; lia]. specialize (H4 i Hi). lia.
Qed.

Lemma init_ok ms t d s : timers_ok s -> timers_ok (init ms t d s).
Proof.
  intros Hs. unfold init. destruct (_ && _); [done|].
  pose proof (set_ok t ((fun d => Z.min d 5 * 1000) <$> ((fun d => Z.max (floor d) 1) <$> d))
    ((fun d => getEpochTime ms + d) <$> ((fun d => Z.max (floor d) 1) <$> d)) (cancel t s)
    (cancel_ok t s Hs) (cancel_none t s)) as H.
  by destruct (setInterval _ _ _).
Qed.

Lemma raise_ok e s : timers_ok s -> timers_ok (raise e s).
Proof. by apply timers_ok_ext. Qed.

Lemma callback_ok ms t s : timers_ok s -> timers_ok (callback ms t s).
Proof.
  intros Hs. unfold callback. destruct (expiration _); [|done]. destruct (_ <=? _); [|done].
  by apply raise_ok, cancel_ok.
Qed.

Lemma unload_token_ok s : timers_ok s -> timers_ok (unload_token s).
Proof. intros Hs. by apply cancel_ok, cancel_ok. Qed.

Lemma load_token_ok n ms a e s : timers_ok s -> timers_ok (load_token n ms a e s).
Proof.
  intros Hs. unfold load_token. destruct (_ && _); [|by apply cancel_ok, cancel_ok].
  apply init_ok. destruct (to_num e) as [d|]; [|by apply cancel_ok].
  destruct (is_positive d); [by apply init_ok|by apply cancel_ok].
Qed.

Lemma happen_ok n ms x s : timers_ok s -> timers_ok (happen n ms x s).
Proof.
  intros Hs. destruct x as [a e r| |d|e h|e h|e| | |h]; cbn [happen].
  - unfold load. pose proof (load_token_ok n ms a e s Hs). destruct r; [by apply raise_ok|done].
  - by apply raise_ok, unload_token_ok.
  - by apply init_ok.
  - by apply (timers_ok_ext s).
  - by apply (timers_ok_ext s).
  - by apply raise_ok.
  - unfold start_renew. destruct (isStarted s); [done|]. by apply (timers_ok_ext s).
  - unfold stop_renew. destruct (isStarted s); [|done]. by apply (timers_ok_ext (cancel Retry s)), cancel_ok.
  - unfold tick. destruct (list_find _ _) as [[]|]; [by apply callback_ok|done].
Qed.

Lemma timers_run_ok n l s : timers_ok s -> timers_ok (run n l s).
Proof.
  revert s. induction l as [|[ms x] l IH]; intros s Hs; [done|]. cbn. by apply IH, happen_ok.
Qed.

Lemma owners_distinct s : timers_ok s -> NoDup (map owner (intervals s)).
Proof.
  intros Hs. assert (Hu : forall i j, i ∈ intervals s -> j ∈ intervals s -> owner i = owner j -> handle i = handle j)
    by (intros; by apply (known_unique s)).
  pose proof (distinct s Hs) as Hd. revert Hu Hd. induction (intervals s) as [|i l IH]; intros Hu Hd; [constructor|].
  cbn in *. apply NoDup_cons in Hd as [Hi Hd]. apply NoDup_cons. split.
  - intros (j & Hj & Hin)%list_elem_of_fmap. apply Hi. apply list_elem_of_fmap. exists j. split; [|done].
    apply Hu; [by left|by right|done].
  - apply IH; [|done]. intros j k Hj Hk. apply Hu; by right.
Qed.

(** *** When handlers are called *)

(** The calls a happening makes. *)
Definition calls (n ms : Z) (x : happening) (s : events) : list (event_name * handler) :=
  drop (length (called s)) (called (happen n ms x s)).

Lemma cancel_called t s : called (cancel t s) = called s.
Proof. unfold cancel. by destruct (timerHandle _). Qed.

Lemma cancel_callbacks t s : callbacks (cancel t s) = callbacks s.
Proof. unfold cancel. by destruct (timerHandle _). Qed.

Lemma init_called ms t d s : called (init ms t d s) = called s.
Proof.
  unfold init. destruct (_ && _); [done|]. cbn. apply cancel_called.
Qed.

Lemma load_token_called n ms a e s : called (load_token n ms a e s) = called s.
Proof.
  unfold load_token. destruct (_ && _); [|by rewrite !cancel_called].
  rewrite init_called. destruct (to_num e) as [d|]; [|apply cancel_called].
  destruct (is_positive d); [apply init_called|apply cancel_called].
Qed.

Lemma cancel_expiration t u s : expiration (timers (cancel t s) u) = expiration (timers s u).
Proof. unfold cancel. destruct (timerHandle _); [|done]. cbn. by case_decide; subst. Qed.

Lemma init_set ms t d s :
  let x := timers (init ms t (Some d) s) t in
  is_Some (timerHandle x) /\ expiration x = Some (getEpochTime ms + Z.max (floor d) 1).
Proof.
  unfold init. cbn [fmap option_fmap option_map]. destruct (bool_decide _) eqn:H1; cbn [andb].
  - destruct (bool_decide (is_Some (timerHandle _))) eqn:H2; cbn.
    + apply bool_decide_eq_true in H1 as [_ H1]. apply bool_decide_eq_true in H2. done.
    + by rewrite decide_True by done.
  - cbn. by rewrite decide_True by done.
Qed.

Lemma init_other ms t u d s : u <> t -> timers (init ms t d s) u = timers s u.
Proof.
  intros Hu. unfold init. destruct (_ && _); [done|]. cbn. rewrite decide_False by done. by apply cancel_other.
Qed.

(** *** Ticks *)

Lemma tick_own ms t h s : timers_ok s -> timerHandle (timers s t) = Some h -> tick ms h s = callback ms t s.
Proof.
  intros Hs Hh. destruct (running s Hs t h Hh) as (i & Hi & Hih & Hit). unfold tick.
  destruct (list_find _ _) as [[k j]|] eqn:Hf.
  - apply list_find_Some in Hf as (Hk & Hj & _). apply list_elem_of_lookup_2 in Hk.
    f_equal. rewrite <- Hit. assert (i = j); [|by subst].
    pose proof (distinct s Hs) as Hd. clear -Hd Hi Hk Hih Hj.
    induction (intervals s) as [|x l IH]; [by apply elem_of_nil in Hi|]. cbn in Hd. apply NoDup_cons in Hd as [Hx Hl].
    apply elem_of_cons in Hi as [->|Hi]; apply elem_of_cons in Hk as [->|Hk]; try done; try by apply IH.
    + destruct Hx. apply list_elem_of_fmap. exists j. split; [congruence|done].
    + destruct Hx. apply list_elem_of_fmap. exists i. split; [congruence|done].
  - apply list_find_None in Hf. rewrite Forall_forall in Hf. by destruct (Hf i Hi).
Qed.

Lemma tick_cases ms h s : timers_ok s ->
  tick ms h s = s \/ exists t, timerHandle (timers s t) = Some h /\ tick ms h s = callback ms t s.
Proof.
  intros Hs. destruct (list_find (fun i => handle i = h) (intervals s)) as [[k i]|] eqn:Hf.
  - right. apply list_find_Some in Hf as (Hk & Hh & _). apply list_elem_of_lookup_2 in Hk.
    exists (owner i). pose proof (known s Hs i Hk) as Ht. rewrite Hh in Ht. split; [done|]. by apply tick_own.
  - left. unfold tick. by rewrite Hf.
Qed.

(** The calls of the handlers of a timer. *)
Definition calls_of (t : timer_name) (s : events) : list (event_name * handler) :=
  filter (fun c => c.1 = TimerOver t) (called s).

Lemma calls_of_raise t e s :
  calls_of t (raise e s) = calls_of t s ++ if decide (e = TimerOver t) then map (pair e) (callbacks s e) else [].
Proof.
  unfold calls_of, raise. cbn [called set_called]. rewrite filter_app. f_equal.
  induction (callbacks s e) as [|h l IH]; [by case_decide|]. cbn [map]. rewrite filter_cons, IH. cbn [fst].
  by repeat case_decide.
Qed.

Lemma calls_of_cancel t u s : calls_of t (cancel u s) = calls_of t s.
Proof. unfold calls_of. by rewrite cancel_called. Qed.

(** A tick of another timer changes nothing of this one. *)
Lemma callback_other ms t u s : u <> t ->
  timers (callback ms u s) t = timers s t /\ calls_of t (callback ms u s) = calls_of t s /\
  callbacks (callback ms u s) = callbacks s.
Proof.
  intros Hu. unfold callback. destruct (expiration _); [|done]. destruct (_ <=? _); [|done].
  split; [by apply cancel_other|]. split; [|apply cancel_callbacks].
  rewrite calls_of_raise, calls_of_cancel, decide_False by congruence. apply app_nil_r.
Qed.

Definition ticks (l : list (Z * nat)) : list (Z * happening) := map (fun '(ms, h) => (ms, Tick h)) l.

Lemma ticks_silent n t l s : timers_ok s -> timerHandle (timers s t) = None ->
  calls_of t (run n (ticks l) s) = calls_of t s.
Proof.
  revert s. induction l as [|[ms h] l IH]; intros s Hs Ht; [done|].
  change (run n (ticks ((ms, h) :: l)) s) with (run n (ticks l) (tick ms h s)).
  pose proof (happen_ok n ms (Tick h) s Hs) as Hok. cbn [happen] in Hok.
  destruct (tick_cases ms h s Hs) as [->|(u & Hu & He)]; [by apply IH|]. rewrite He in *.
  assert (Hut : u <> t) by congruence. destruct (callback_other ms t u s Hut) as (Ht' & Hc & _).
  rewrite IH; [done|done|by rewrite Ht'].
Qed.

Lemma ticks_notice n t h E l s :
  timers_ok s -> timers s t = {| timerHandle := Some h; expiration := Some E |} ->
  calls_of t (run n (ticks l) s) =
  calls_of t s ++
    if existsb (fun '(ms, h') => (h' =? h)%nat && (E <=? getEpochTime ms)) l
    then map (pair (TimerOver t)) (callbacks s (TimerOver t)) else [].
Proof.
  revert s. induction l as [|[ms h'] l IH]; intros s Hs Ht; [by rewrite app_nil_r|].
  change (run n (ticks ((ms, h') :: l)) s) with (run n (ticks l) (tick ms h' s)).
  pose proof (happen_ok n ms (Tick h') s Hs) as Hok. cbn [happen existsb] in Hok |- *.
  destruct (Nat.eqb_spec h' h) as [->|Hh].
  - rewrite (tick_own ms t h s Hs) in * by (by rewrite Ht). revert Hok. unfold callback. rewrite Ht. cbn [expiration andb].
    destruct (E <=? getEpochTime ms); cbn [orb]; intros Hok; [|by apply IH].
    rewrite ticks_silent; [|done|apply cancel_none].
    by rewrite calls_of_raise, calls_of_cancel, cancel_callbacks, decide_True.
  - cbn [andb orb]. destruct (tick_cases ms h' s Hs) as [->|(u & Hu & He)]; [by apply IH|]. rewrite He in *.
    assert (Hut : u <> t) by (intros ->; rewrite Ht in Hu; cbn in Hu; congruence).
    destruct (callback_other ms t u s Hut) as (Ht' & Hc & Hb). rewrite IH, Hc, Hb; [done|done|by rewrite Ht'].
Qed.

(** When the notice of a token is due, and when it is over. *)
Definition due (n ms : Z) (d : num) : Z :=
  getEpochTime ms + Z.max (floor (if is_positive (plus d (- n)) then plus d (- n) else num_of 1)) 1.

Lemma load_token_set n ms a d s : timers_ok s -> truthy a = true -> is_positive d = true ->
  let s' := load_token n ms a (VNum d) s in
  exists h h', timers s' Expiring = {| timerHandle := Some h; expiration := Some (due n ms d) |} /\
    timers s' Expired = {| timerHandle := Some h'; expiration := Some (getEpochTime ms + Z.max (floor (plus d 1)) 1) |}.
Proof.
  intros Hs Ha Hd s'. unfold s', load_token. rewrite Ha. cbn [defined andb to_num]. rewrite Hd. cbn [fmap option_fmap option_map].
  set (e := if is_positive (plus d (- n)) then plus d (- n) else num_of 1). set (s1 := init ms Expiring (Some e) s).
  pose proof (init_set ms Expiring e s) as H1. fold s1 in H1. pose proof (init_set ms Expired (plus d 1) s1) as H2.
  cbv zeta in H1, H2. rewrite (init_other ms Expired Expiring) by done.
  destruct H1 as [[h Hh] He], H2 as [[h' Hh'] He']. exists h, h'. split.
  - destruct (timers s1 Expiring). cbn in Hh, He. by subst.
  - destruct (timers (init _ _ _ s1) Expired). cbn in Hh', He'. by subst.
Qed.

Lemma load_token_callbacks n ms a e s : callbacks (load_token n ms a e s) = callbacks s.
Proof.
  assert (Hi : forall t d s, callbacks (init ms t d s) = callbacks s).
  { intros t d s'. unfold init. destruct (_ && _); [done|]. cbn. apply cancel_callbacks. }
  unfold load_token. destruct (_ && _); [|by rewrite !cancel_callbacks].
  rewrite Hi. destruct (to_num e) as [d|]; [|apply cancel_callbacks].
  destruct (is_positive d); [apply Hi|apply cancel_callbacks].
Qed.

(** The calls that ticks make of the handlers of a timer that is over at second [E]. *)
Definition over (l : list (Z * nat)) (cbs : list handler) (t : timer_name) (h : nat) (E : Z) :
    list (event_name * handler) :=
  if existsb (fun '(ms, k) => (k =? h)%nat && (E <=? getEpochTime ms)) l
  then map (pair (TimerOver t)) cbs else [].

(** C11: timers of tokens: after any sequence of loads and unloads of users,
    timeouts, handlers added and removed, starts and stops of the silent renewal,
    and ticks of the browser at any times, no timer has two intervals. When a token
    of positive lifetime is then loaded, each of its two timers has one interval;
    whatever ticks follow, the handlers of "access token expiring" are called once
    by the first tick of theirs at or after the second the notice is due (the
    notification time before the end of the token), those of "access token
    expired" a second after the end, never earlier and never twice; and after an
    unload, no tick calls them. *)
Theorem token_timers n history ms a d l : truthy a = true -> is_positive d = true ->
  let s := run n history initial in
  let s' := load_token n ms a (VNum d) s in
  NoDup (map owner (intervals s)) /\
  (exists h h',
    timerHandle (timers s' Expiring) = Some h /\ timerHandle (timers s' Expired) = Some h' /\
    calls_of Expiring (run n (ticks l) s') =
      calls_of Expiring s ++ over l (callbacks s (TimerOver Expiring)) Expiring h (due n ms d) /\
    calls_of Expired (run n (ticks l) s') =
      calls_of Expired s ++ over l (callbacks s (TimerOver Expired)) Expired h'
        (getEpochTime ms + Z.max (floor (plus d 1)) 1)) /\
  (forall t, t <> Retry -> calls_of t (run n (ticks l) (unload_token s)) = calls_of t s).
Proof.
  intros Ha Hd s s'. assert (Hs : timers_ok s) by apply timers_run_ok, initial_ok.
  assert (Hs' : timers_ok s') by (by apply load_token_ok).
  split; [by apply owners_distinct|]. split.
  - destruct (load_token_set n ms a d s Hs Ha Hd) as (h & h' & H1 & H2). fold s' in H1, H2.
    exists h, h'. rewrite H1, H2. split; [done|]. split; [done|].
    rewrite (ticks_notice n Expiring h _ l s' Hs' H1), (ticks_notice n Expired h' _ l s' Hs' H2).
    unfold s'. rewrite load_token_callbacks. unfold calls_of. by rewrite load_token_called.
  - intros t Ht. rewrite ticks_silent; [|by apply unload_token_ok|].
    + unfold unload_token. by rewrite !calls_of_cancel.
    + unfold unload_token. destruct t; [|apply cancel_none|done].
      rewrite cancel_other by done. apply cancel_none.
Qed.

(** A token of a minute and a half: the notice comes at the first tick after
    thirty seconds, and the end is told after 91. *)
Lemma token_timers_witness :
  let history := [(0, Start); (0, Add (TimerOver Expired) (Handler 7))] in
  let l := [(5000, 1%nat); (30000, 1%nat); (35000, 1%nat); (95000, 2%nat)] in
  let s := run 60 history initial in
  (NoDup (map owner (intervals s)) /\
   calls_of Expiring (run 60 (ticks l) (load_token 60 1 (VStr "t") (VInt 90) s)) = [(TimerOver Expiring, TokenExpiring)]) /\
  calls_of Expired (run 60 (ticks l) (load_token 60 1 (VStr "t") (VInt 90) s)) = [(TimerOver Expired, Handler 7)].
Proof.
  cbv zeta.
  destruct (token_timers 60 [(0, Start); (0, Add (TimerOver Expired) (Handler 7))] 1 (VStr "t") (num_of 90)
    [(5000, 1%nat); (30000, 1%nat); (35000, 1%nat); (95000, 2%nat)] eq_refl eq_refl) as (H & _ & _).
  split; [split; [exact H|]|]; by vm_compute.
Defined.
