(* ===== verification/OidcWorld.v ===== *)
(** The OpenID Connect client kept beside the page (oidc-client-ts.js, the
    readable copy, version 2.0.3): its errors, its storages, its network and its
    metadata.

    An asynchronous function is a program over the state of the client
    ([world]): the storages of the browser, the clock, the values taken from the
    random generator, the metadata that was loaded, and the requests sent. What
    happens while a request is under way is part of the parameter [fetch]: it
    answers, and it may change the world as it likes (time passes, other pages
    write to the storages). Between two requests a program is not interrupted.
    Logs are left out. *)
From S2P Require Import Prelude JsString JsNum JsObject JsValue Json JsonFacts CryptoJs OAuth OidcTimers.

(** ** Errors *)

(** ErrorResponse: what the server or the provider said. *)
Record error_response := {
  form : option (list (jstr * jstr));
  message : jstr;
  error : value;
  error_description : value;
  error_uri : value;
  state_data : value;
  session_state : value;
}.

Inductive failure :=
  | Exn (e : exn)
  | ErrorResponse (r : error_response)
  | ErrorTimeout (m : jstr)
  | Unreachable (v : value).   (* what the network rejects with *)

(** [throw new Error(m)] *)
Notation Error m := (Exn (JsError m)).

Inductive outcome (A : Type) := Done (a : A) | Failed (f : failure).
Arguments Done {A} a.
Arguments Failed {A} f.

(** ** Storages *)

(** The storages of the browser: window.localStorage and window.sessionStorage,
    texts by key. *)
Inductive area := Local | Session.

#[global] Instance area_eq_dec : EqDecision area.
Proof. solve_decision. Defined.

Record request := {
  method : jstr;
  url : jstr;
  headers : list (jstr * jstr);
  body : option (list (jstr * jstr));   (* URLSearchParams *)
  timeout : value;
}.

Record world := {
  storage : area -> obj jstr;
  clock : Z;                      (* Date.now() *)
  drawn : nat;                    (* values taken from the generator *)
  shared_array : list Z;          (* of SHA-256 *)
  metadata : value;               (* of the MetadataService: null or an object *)
  signingKeys : value;
  sent : list request;            (* latest first *)
  user_events : OidcTimers.events;
}.

Definition IO (A : Type) : Type := world -> outcome A * world.

#[global] Instance IO_ret : MRet IO := fun A a w => (Done a, w).
#[global] Instance IO_bind : MBind IO := fun A B f m w =>
  match m w with
  | (Done a, w') => f a w'
  | (Failed e, w') => (Failed e, w')
  end.

#[global] Instance IO_fmap : FMap IO := fun A B f m w =>
  match m w with (Done a, w') => (Done (f a), w') | (Failed e, w') => (Failed e, w') end.

Definition fail {A} (f : failure) : IO A := fun w => (Failed f, w).
Definition from_res {A} (r : res A) : IO A := fun w =>
  match r with Ok a => (Done a, w) | Throw e => (Failed (Exn e), w) end.
Definition read {A} (f : world -> A) : IO A := fun w => (Done (f w), w).
Definition change (f : world -> world) : IO unit := fun w => (Done tt, f w).

(** [try { m } catch (e) { h(e) }] *)
Definition catch {A} (m : IO A) (h : failure -> IO A) : IO A := fun w =>
  match m w with (Done a, w') => (Done a, w') | (Failed e, w') => h e w' end.

(** [if (b) throw f] *)
Definition throw_if (b : bool) (f : failure) : IO unit := if b then fail f else mret tt.

Definition set_storage (a : area) (o : obj jstr) (w : world) : world :=
  {| storage := fun b => if decide (b = a) then o else storage w b; clock := clock w; drawn := drawn w;
     shared_array := shared_array w; metadata := metadata w; signingKeys := signingKeys w; sent := sent w; user_events := user_events w |}.
Definition set_metadata (m : value) (w : world) : world :=
  {| storage := storage w; clock := clock w; drawn := drawn w; shared_array := shared_array w;
     metadata := m; signingKeys := signingKeys w; sent := sent w; user_events := user_events w |}.
Definition set_signingKeys (k : value) (w : world) : world :=
  {| storage := storage w; clock := clock w; drawn := drawn w; shared_array := shared_array w;
     metadata := metadata w; signingKeys := k; sent := sent w; user_events := user_events w |}.
Definition set_random (n : nat) (ws : list Z) (w : world) : world :=
  {| storage := storage w; clock := clock w; drawn := n; shared_array := ws;
     metadata := metadata w; signingKeys := signingKeys w; sent := sent w; user_events := user_events w |}.
Definition add_sent (r : request) (w : world) : world :=
  {| storage := storage w; clock := clock w; drawn := drawn w; shared_array := shared_array w;
     metadata := metadata w; signingKeys := signingKeys w; sent := r :: sent w; user_events := user_events w |}.

Definition set_events (e : OidcTimers.events) (w : world) : world :=
  {| storage := storage w; clock := clock w; drawn := drawn w; shared_array := shared_array w;
     metadata := metadata w; signingKeys := signingKeys w; sent := sent w; user_events := e |}.

(** Timer.getEpochTime *)
Definition epoch (w : world) : Z := OidcTimers.getEpochTime (clock w).
Definition epoch_now : IO Z := read epoch.

(** WebStorageStateStore *)
Record state_store := { prefix : jstr; store : area }.

Definition default_store (a : area) : state_store := {| prefix := "oidc."; store := a |}.

Module Store.
Definition set (s : state_store) (key value : jstr) : IO unit :=
  change (fun w => set_storage (store s) (put (storage w (store s)) (prefix s ++ key) value) w).

Definition get (s : state_store) (key : jstr) : IO (option jstr) :=
  read (fun w => JsObject.get (storage w (store s)) (prefix s ++ key)).

Definition remove (s : state_store) (key : jstr) : IO (option jstr) :=
  item ← get s key;
  change (fun w => set_storage (store s) (del (storage w (store s)) (prefix s ++ key)) w) ≫= fun _ =>
  mret item.

Definition getAllKeys (s : state_store) : IO (list jstr) :=
  read (fun w =>
    omap (fun key => if negb (bool_decide (key = [])) && (index_of key (prefix s) =? 0)
        then Some (drop (length (prefix s)) key) else None)
      (keys_of (storage w (store s)))).
End Store.

(** ** Values *)

(** [{ p = d } = args]: a default stands in for undefined. *)
Definition or_default (v d : value) : value := match v with VUndef => d | _ => v end.

(** [v ?? d] *)
Definition or_else (v d : value) : value := if nullish v then d else v.

(** [{ ...o, ...p }] and Object.assign on plain objects *)
Definition spread (o p : obj value) : obj value := foldl (fun o '(k, v) => put o k v) o (entries p).

(** JSON.parse and JSON.stringify of the language *)
Definition JSON_parse (t : jstr) : IO value :=
  match json_value t with Some v => mret v | None => fail (Exn SyntaxError) end.
Definition JSON_text (v : value) : jstr := default (js "undefined") (str None [] [] v).

(** ErrorResponse, the constructor *)
Definition new_ErrorResponse (args : value) (form : option (list (jstr * jstr))) : IO failure :=
  description ← from_res (field args "error_description");
  error ← from_res (field args "error");
  if negb (truthy error) then mret (Error "No error passed")
  else
    error_uri ← from_res (field args "error_uri");
    userState ← from_res (field args "userState");
    session_state ← from_res (field args "session_state");
    mret (ErrorResponse
      {| form := form; message := to_str (if truthy description then description else error);
         error := error; error_description := or_else description VNull; error_uri := or_else error_uri VNull;
         state_data := userState; session_state := or_else session_state VNull |}).

(** ** Requests *)

Record response := {
  ok : bool;
  status : Z;
  statusText : jstr;
  content_type : option jstr;   (* the header Content-Type *)
  text : jstr;
}.

Inductive reply :=
  | Answered (r : response)
  | Aborted              (* by the controller, after the timeout *)
  | Rejected_with (v : value).

Section network.
Variable fetch : request -> world -> reply * world.

(** JsonService.fetchWithTimeout *)
Definition fetchWithTimeout (r : request) : IO response := fun w =>
  let '(reply, w) := fetch r (add_sent r w) in
  match reply with
  | Answered resp => (Done resp, w)
  | Aborted =>
      if truthy (timeout r) then (Failed (ErrorTimeout "Network timed out"), w)
      else (Failed (Unreachable VUndef), w)
  | Rejected_with v => (Failed (Unreachable v), w)
  end.

(** JsonService: the content types it accepts, and what reads tokens *)
Record json_service := {
  contentTypes : list jstr;
  jwtHandler : option (jstr -> IO value);
}.

Definition new_JsonService (additional : list jstr) (handler : option (jstr -> IO value)) : json_service :=
  {| contentTypes := additional ++ [js "application/json"] ++
       match handler with Some _ => [js "application/jwt"] | None => [] end;
     jwtHandler := handler |}.

Definition invalid_content_type (s : json_service) (contentType : option jstr) : bool :=
  match contentType with
  | Some t => negb (bool_decide (t = [])) && negb (existsb (starts_with t) (contentTypes s))
  | None => false
  end.

Definition content_type_error (r : response) (url : jstr) : failure :=
  Error ("Invalid response Content-Type: " ++ default (js "undefined") (content_type r) ++ ", from URL: " ++ url).

Definition status_line (r : response) : jstr := statusText r ++ " (" ++ dec (status r) ++ ")".

(** An answer that is not ok, with what it holds. *)
Definition server_error {A} (r : response) (json : value) (form : option (list (jstr * jstr))) : IO A :=
  error ← from_res (field json "error");
  if truthy error then f ← new_ErrorResponse json form; fail f
  else fail (Error (status_line r ++ ": " ++ JSON_text json)).

(** The text of an answer as JSON: a text that is none is an error of the text
    when the answer was ok, and of the answer when it was not. *)
Definition parse_answer (r : response) : IO value :=
  match json_value (text r) with
  | Some v => mret v
  | None => fail (if ok r then Exn SyntaxError else Error (status_line r))
  end.

(** JsonService.getJson *)
Definition getJson (s : json_service) (url : jstr) (token : value) : IO value :=
  let headers := [(js "Accept", join ", " (contentTypes s))] ++
    (if truthy token then [(js "Authorization", "Bearer " ++ to_str token)] else []) in
  response ← fetchWithTimeout
    {| method := "GET"; url := url; headers := headers; body := None; timeout := VUndef |};
  throw_if (invalid_content_type s (content_type response)) (content_type_error response url) ≫= fun _ =>
  match jwtHandler s with
  | Some handler =>
      if ok response && match content_type response with Some t => starts_with t "application/jwt" | None => false end
      then handler (text response)
      else
        json ← parse_answer response;
        if ok response then mret json else server_error response json None
  | None =>
      json ← parse_answer response;
      if ok response then mret json else server_error response json None
  end.

(** JsonService.postForm *)
Definition postForm (s : json_service) (url : jstr) (params : list (jstr * jstr)) (basicAuth : option jstr)
    (timeoutInSeconds : value) : IO value :=
  let headers := [(js "Accept", join ", " (contentTypes s));
      (js "Content-Type", js "application/x-www-form-urlencoded")] ++
    match basicAuth with Some a => [(js "Authorization", "Basic " ++ a)] | None => [] end in
  response ← fetchWithTimeout
    {| method := "POST"; url := url; headers := headers; body := Some params; timeout := timeoutInSeconds |};
  throw_if (invalid_content_type s (content_type response)) (content_type_error response url) ≫= fun _ =>
  json ← (if decide (text response = []) then mret (VObj []) else parse_answer response);
  if ok response then mret json else server_error response json (Some params).

(** ** Metadata *)

Section metadata.
Variable settings : obj value.

(** MetadataService: its constructor, as the values the fields start with *)
Definition initial_metadata : value :=
  if truthy (prop settings "metadata") then prop settings "metadata" else VNull.
Definition initial_signingKeys : value :=
  if truthy (prop settings "signingKeys") then prop settings "signingKeys" else VNull.

Definition metadata_service : json_service := new_JsonService [js "application/jwk-set+json"] None.

Definition resetSigningKeys : IO unit := change (set_signingKeys VNull).

(** The properties that Object.assign copies. *)
Definition own (v : value) : obj value := match v with VObj o => entries o | _ => for_in v end.

Definition getMetadata : IO value :=
  cached ← read metadata;
  if truthy cached then mret cached
  else if negb (truthy (prop settings "metadataUrl")) then
    fail (Error "No authority or metadataUrl configured on settings")
  else
    remote ← getJson metadata_service (to_str (prop settings "metadataUrl")) VUndef;
    let merged := VObj (spread (spread [] (own (prop settings "metadataSeed"))) (own remote)) in
    change (set_metadata merged) ≫= fun _ => mret merged.

Definition getMetadataProperty (name : jstr) (optional : bool) : IO value :=
  metadata ← getMetadata;
  v ← from_res (field metadata name);
  match v with
  | VUndef => if optional then mret VUndef else fail (Error ("Metadata does not contain property " ++ name))
  | _ => mret v
  end.

Definition getIssuer : IO value := getMetadataProperty "issuer" false.
Definition getAuthorizationEndpoint : IO value := getMetadataProperty "authorization_endpoint" false.
Definition getUserInfoEndpoint : IO value := getMetadataProperty "userinfo_endpoint" false.
Definition getTokenEndpoint (optional : bool) : IO value := getMetadataProperty "token_endpoint" optional.
Definition getCheckSessionIframe : IO value := getMetadataProperty "check_session_iframe" true.
Definition getEndSessionEndpoint : IO value := getMetadataProperty "end_session_endpoint" true.
Definition getRevocationEndpoint (optional : bool) : IO value := getMetadataProperty "revocation_endpoint" optional.
Definition getKeysEndpoint (optional : bool) : IO value := getMetadataProperty "jwks_uri" optional.

Definition getSigningKeys : IO value :=
  cached ← read signingKeys;
  if truthy cached then mret cached
  else
    jwks_uri ← getKeysEndpoint false;
    keySet ← getJson metadata_service (to_str jwks_uri) VUndef;
    keys ← from_res (field keySet "keys");
    match keys with
    | VArr _ => change (set_signingKeys keys) ≫= fun _ => mret keys
    | _ => fail (Error "Missing keys on keyset")
    end.
End metadata.
End network.
