(* ===== verification/OidcTokens.v ===== *)
(** Tokens of the OpenID Connect client (oidc-client-ts.js, the readable copy):
    the settings, the reading of tokens (jwt_decode, JwtUtils), UserInfoService,
    TokenClient and ResponseValidator.

    [atob] is the browser's decoder of base64. A stored value that is not a text
    where the code expects one (a code verifier) is an error of types here; the
    client only stores texts. *)
From S2P Require Import Prelude JsString JsNum Uri JsObject JsValue Json JsonFacts Router Doubles CryptoJs OAuth OidcTimers OidcWorld.

(** ** Settings *)

(** The settings with their defaults, and the stores. *)
Record settings := {
  fields : obj value;
  stateStore : state_store;
  userStore : state_store;
}.

Definition setting (s : settings) (k : jstr) : value := prop (fields s) k.

(** A key with its value, or its default. *)
Definition with_default (args : obj value) (k : jstr) (d : value) : jstr * value := (k, or_default (prop args k) d).
Definition same_key (args : obj value) (k : jstr) : jstr * value := (k, prop args k).

Definition ends_with_slash (s : jstr) : bool := bool_decide (last s = Some 47).

(** The address of the metadata, from the authority when it is not given. *)
Definition metadata_url (args : obj value) : value :=
  if truthy (prop args "metadataUrl") then prop args "metadataUrl"
  else if truthy (prop args "authority") then
    let authority := to_str (prop args "authority") in
    VStr (authority ++ (if ends_with_slash authority then [] else js "/") ++ ".well-known/openid-configuration")
  else prop args "authority".

(** OidcClientSettingsStore: the constructor; the store of states is local
    storage when it is not given. *)
Definition new_OidcClientSettingsStore (args : obj value) (given : option state_store) : settings :=
  {| fields :=
      [same_key args "authority"; (js "metadataUrl", metadata_url args);
       same_key args "metadata"; same_key args "metadataSeed"; same_key args "signingKeys";
       same_key args "client_id"; same_key args "client_secret";
       with_default args "response_type" (VStr "code"); with_default args "scope" (VStr "openid");
       same_key args "redirect_uri"; same_key args "post_logout_redirect_uri";
       with_default args "client_authentication" (VStr "client_secret_post");
       same_key args "prompt"; same_key args "display"; same_key args "max_age"; same_key args "ui_locales";
       same_key args "acr_values"; same_key args "resource";
       with_default args "response_mode" (VStr "query");
       (js "filterProtocolClaims", VBool (truthy (or_default (prop args "filterProtocolClaims") (VBool true))));
       (js "loadUserInfo", VBool (truthy (or_default (prop args "loadUserInfo") (VBool false))));
       with_default args "staleStateAgeInSeconds" (VInt 900);
       with_default args "clockSkewInSeconds" (VInt 300);
       with_default args "userInfoJwtIssuer" (VStr "OP");
       (js "mergeClaims", VBool (truthy (or_default (prop args "mergeClaims") (VBool false))));
       with_default args "extraQueryParams" (VObj []); with_default args "extraTokenParams" (VObj [])];
     stateStore := default (default_store Local) given;
     userStore := default_store Session |}.

(** UserManagerSettingsStore: the constructor; the store of users is the storage
    of the session when it is not given. *)
Definition new_UserManagerSettingsStore (args : obj value) (given_state given_user : option state_store) : settings :=
  let s := new_OidcClientSettingsStore args given_state in
  {| fields := fields s ++
      [with_default args "popup_redirect_uri" (prop args "redirect_uri");
       with_default args "popup_post_logout_redirect_uri" (prop args "post_logout_redirect_uri");
       with_default args "popupWindowFeatures"
         (VObj [(js "location", VBool false); (js "toolbar", VBool false); (js "height", VInt 640)]);
       with_default args "popupWindowTarget" (VStr "_blank");
       with_default args "redirectMethod" (VStr "assign");
       with_default args "silent_redirect_uri" (prop args "redirect_uri");
       with_default args "silentRequestTimeoutInSeconds" (VInt 10);
       with_default args "automaticSilentRenew" (VBool true);
       with_default args "validateSubOnSilentRenew" (VBool true);
       with_default args "includeIdTokenInSilentRenew" (VBool false);
       with_default args "monitorSession" (VBool false);
       with_default args "monitorAnonymousSession" (VBool false);
       with_default args "checkSessionIntervalInSeconds" (VInt 2);
       with_default args "stopCheckSessionOnError" (VBool true);
       with_default args "query_status_response_type" (VStr "code");
       with_default args "revokeTokenTypes" (VArr [VStr "access_token"; VStr "refresh_token"]);
       with_default args "revokeTokensOnSignout" (VBool false);
       with_default args "accessTokenExpiringNotificationTimeInSeconds" (VInt 60)];
     stateStore := stateStore s;
     userStore := default (default_store Session) given_user |}.

(** ** Tokens *)

Section tokens.
Variable atob : jstr -> option jstr.

(** What jwt_decode catches: an exception of the language or of the browser's
    atob, whose texts are [message_of], or the text it throws itself, which has no
    message. *)
Variable message_of : option exn -> jstr.

Inductive token_error := NoText | Because (e : option exn) | IllegalBase64url.

Definition token_failure (e : token_error) : failure :=
  match e with
  | NoText => Error "Invalid token specified"
  | Because e => Error ("Invalid token specified: " ++ message_of e)
  | IllegalBase64url => Error "Invalid token specified: undefined"
  end.

(** [.] of a regular expression *)
Definition line_unit (c : Z) : bool := negb (bool_decide (c ∈ [10; 13; 8232; 8233])).

(** Each character of decoded base64 as an escape: its code in at least two
    hexadecimal digits. *)
Definition percent_encoded (s : jstr) : jstr :=
  flat_map (fun c =>
    if line_unit c then
      let t := map (fun d => if (97 <=? d) && (d <=? 122) then d - 32 else d) (to_string 16 c) in
      [37] ++ (if (length t <? 2)%nat then 48 :: t else t)
    else [c]) s.

(** The decoding of base64url: as UTF-8 when it is, as bytes when it is not. *)
Definition base64url_decode (s : jstr) : jstr + token_error :=
  let t := replace_unit 95 "/" (replace_unit 45 "+" s) in
  let padded :=
    match (length t mod 4)%nat with
    | 0%nat => Some t
    | 2%nat => Some (t ++ "==")
    | 3%nat => Some (t ++ "=")
    | _ => None
    end in
  match padded with
  | None => inr IllegalBase64url
  | Some t =>
      match atob t with
      | Some bytes =>
          match decodeURIComponent (percent_encoded bytes) with
          | Ok text => inl text
          | Throw _ => inl bytes
          end
      | None => inr (Because None)    (* atob, called again, throws again *)
      end
  end.

(** jwt_decode, and JwtUtils.decode: the second part of a token, as JSON *)
Definition decode_token (token : value) : IO value :=
  match token with
  | VStr s =>
      match split_on 46 s !! 1%nat with
      | None => fail (token_failure (Because (Some TypeError)))
      | Some part =>
          match base64url_decode part with
          | inr e => fail (token_failure e)
          | inl text =>
              match json_value text with
              | Some v => mret v
              | None => fail (token_failure (Because (Some SyntaxError)))
              end
          end
      end
  | _ => fail (token_failure NoText)
  end.

(** ** UserInfoService *)

Section network.
Variable fetch : request -> world -> reply * world.
Variable st : settings.

Definition userinfo_service : json_service :=
  new_JsonService [] (Some (fun responseText => decode_token (VStr responseText))).

Definition getClaims (token : value) : IO value :=
  throw_if (negb (truthy token)) (Error "No token passed") ≫= fun _ =>
  url ← getUserInfoEndpoint fetch (fields st);
  getJson fetch userinfo_service (to_str url) token.

(** ** TokenClient *)

Definition token_service : json_service := new_JsonService [] None.

(** URLSearchParams.set: the first parameter of the name is changed, the others
    are dropped. *)
Fixpoint set_param (k v : jstr) (l : list (jstr * jstr)) : list (jstr * jstr) :=
  match l with
  | [] => [(k, v)]
  | (k', v') :: l =>
      if decide (k' = k) then (k, v) :: filter (fun kv => kv.1 <> k) l else (k', v') :: set_param k v l
  end.

(** The members of an object that are not null, as parameters. *)
Definition set_params (args : obj value) (l : list (jstr * jstr)) : list (jstr * jstr) :=
  foldl (fun l '(k, v) => if nullish v then l else set_param k (to_str v) l) l (entries args).

(** What the client adds to show who it is: a header, or parameters. *)
Definition client_credentials (client_id client_secret : value) (params : list (jstr * jstr)) :
    IO (option jstr * list (jstr * jstr)) :=
  match setting st "client_authentication" with
  | VStr m =>
      if decide (m = "client_secret_basic") then
        if negb (truthy client_secret) then fail (Error "A client_secret is required")
        else
          auth ← from_res (CryptoJS.generateBasicAuth (to_str client_id) (to_str client_secret));
          mret (Some auth, params)
      else if decide (m = "client_secret_post") then
        mret (None, params ++ [(js "client_id", to_str client_id)] ++
          (if truthy client_secret then [(js "client_secret", to_str client_secret)] else []))
      else mret (None, params)
  | _ => mret (None, params)
  end.

(** The members of an object other than some. *)
Definition rest (ks : list jstr) (args : obj value) : obj value := filter (fun kv => kv.1 ∉ ks) args.

Definition exchangeCode (args : obj value) : IO value :=
  let grant_type := or_default (prop args "grant_type") (VStr "authorization_code") in
  let redirect_uri := or_default (prop args "redirect_uri") (setting st "redirect_uri") in
  let client_id := or_default (prop args "client_id") (setting st "client_id") in
  let client_secret := or_default (prop args "client_secret") (setting st "client_secret") in
  let args := rest [js "grant_type"; js "redirect_uri"; js "client_id"; js "client_secret"] args in
  throw_if (negb (truthy client_id)) (Error "A client_id is required") ≫= fun _ =>
  throw_if (negb (truthy redirect_uri)) (Error "A redirect_uri is required") ≫= fun _ =>
  throw_if (negb (truthy (prop args "code"))) (Error "A code is required") ≫= fun _ =>
  throw_if (negb (truthy (prop args "code_verifier"))) (Error "A code_verifier is required") ≫= fun _ =>
  let params := [(js "grant_type", to_str grant_type); (js "redirect_uri", to_str redirect_uri)] in
  let params := set_params args params in
  '(basicAuth, params) ← client_credentials client_id client_secret params;
  url ← getTokenEndpoint fetch (fields st) false;
  postForm fetch token_service (to_str url) params basicAuth VUndef.

Definition exchangeRefreshToken (args : obj value) : IO value :=
  let grant_type := or_default (prop args "grant_type") (VStr "refresh_token") in
  let client_id := or_default (prop args "client_id") (setting st "client_id") in
  let client_secret := or_default (prop args "client_secret") (setting st "client_secret") in
  let timeoutInSeconds := prop args "timeoutInSeconds" in
  let args := rest [js "grant_type"; js "client_id"; js "client_secret"; js "timeoutInSeconds"] args in
  throw_if (negb (truthy client_id)) (Error "A client_id is required") ≫= fun _ =>
  throw_if (negb (truthy (prop args "refresh_token"))) (Error "A refresh_token is required") ≫= fun _ =>
  let params := set_params args [(js "grant_type", to_str grant_type)] in
  '(basicAuth, params) ← client_credentials client_id client_secret params;
  url ← getTokenEndpoint fetch (fields st) false;
  postForm fetch token_service (to_str url) params basicAuth timeoutInSeconds.

Definition revoke (args : obj value) : IO unit :=
  throw_if (negb (truthy (prop args "token"))) (Error "A token is required") ≫= fun _ =>
  url ← getRevocationEndpoint fetch (fields st) false;
  let params := set_params args [] in
  let params := set_param "client_id" (to_str (setting st "client_id")) params in
  let params := if truthy (setting st "client_secret")
    then set_param "client_secret" (to_str (setting st "client_secret")) params else params in
  postForm fetch token_service (to_str url) params None VUndef ≫= fun _ => mret tt.

(** ** ResponseValidator: claims *)

Definition ProtocolClaims : list jstr :=
  [js "iss"; js "aud"; js "exp"; js "nbf"; js "iat"; js "jti"; js "auth_time"; js "nonce"; js "acr"; js "amr";
   js "azp"; js "at_hash"].

(** ResponseValidator._filterProtocolClaims *)
Definition filterProtocolClaims (claims : value) : obj value :=
  let result := spread [] (own claims) in
  if truthy (setting st "filterProtocolClaims") then foldl del result ProtocolClaims else result.

(** [===] *)
Definition strict_equal (v w : value) : bool :=
  match v, w with VNaN, _ | _, VNaN => false | _, _ => same_value v w end.

Definition is_object (v : value) : bool := match v with VNull | VArr _ | VObj _ => true | _ => false end.

(** One value for a claim; [merge] merges it, when it is an object, into what was there. *)
Definition add_claim (claim : jstr) (value : value) (merge : JsValue.value -> res JsValue.value)
    (result : obj JsValue.value) : res (obj JsValue.value) :=
  let previousValue := prop result claim in
  if negb (truthy previousValue) then Ok (put result claim value)
  else match previousValue with
  | VArr l =>
      if includes l value then Ok result else Ok (put result claim (VArr (l ++ [value])))
  | _ =>
      if strict_equal previousValue value then Ok result
      else if is_object value && truthy (setting st "mergeClaims") then
        merged ← merge previousValue; Ok (put result claim merged)
      else Ok (put result claim (VArr [previousValue; value]))
  end.

(** ResponseValidator._mergeClaims: the second claims into the first. *)
Fixpoint mergeClaims (claims2 : value) (claims1 : value) : res value :=
  let add (r : res (obj value)) (kv : jstr * list (value * (value -> res value))) : res (obj value) :=
    foldl (fun r '(x, merge) => result ← r; add_claim kv.1 x merge result) r kv.2 in
  match claims2 with
  | VUndef | VNull => Throw TypeError
  | VObj o =>
      VObj <$> foldl add (Ok (spread [] (own claims1)))
        (entries (map (fun kv => (kv.1,
           match kv.2 with VArr l => map (fun x => (x, mergeClaims x)) l | _ => [(kv.2, mergeClaims kv.2)] end)) o))
  | VArr l =>
      VObj <$> foldl add (Ok (spread [] (own claims1)))
        (imap (fun i items => (dec (Z.of_nat i), items))
          (map (fun v => match v with VArr l => map (fun x => (x, mergeClaims x)) l | _ => [(v, mergeClaims v)] end) l))
  | VStr s =>
      VObj <$> foldl add (Ok (spread [] (own claims1)))
        (imap (fun i c => (dec (Z.of_nat i), [(VStr [c], fun _ => Throw TypeError)])) s)
  | _ => Ok (VObj (spread [] (own claims1)))
  end.
End network.
End tokens.
