(* ===== verification/OidcSignin.v ===== *)
(** Sign-in and sign-out of the OpenID Connect client (oidc-client-ts.js, the
    readable copy): State, SigninState, the requests and the responses, the rest
    of ResponseValidator, and OidcClient.

    Objects of the classes are objects of the model, except the states, which are
    records. [append_params] and [read_params] are URL and URLSearchParams of the
    browser: an address with more parameters, and the parameters of an address or
    of its fragment; [random] and [pow] are as in [CryptoJs]. *)
From S2P Require Import Prelude JsString JsNum JsObject JsValue Json JsonFacts Router Doubles CryptoJs OAuth OidcTimers OidcWorld OidcTokens.

Section client.
Variable random : nat -> Z.
Variable pow : double -> double -> double.
Variable atob : jstr -> option jstr.
Variable message_of : option exn -> jstr.
Variable append_params : jstr -> list (jstr * jstr) -> option jstr.
Variable read_params : bool -> jstr -> option (list (jstr * jstr)).
Variable fetch : request -> world -> reply * world.

(** ** States *)

Record State := {
  id : value;
  data : value;
  created : value;
  request_type : value;
}.

Definition generateUUID : IO jstr := fun w =>
  let '(uuid, n) := CryptoJS.generateUUIDv4 random (drawn w) in (Done uuid, set_random n (shared_array w) w).
Definition generateVerifier : IO jstr := fun w =>
  let '(v, n) := CryptoJS.generateCodeVerifier random (drawn w) in (Done v, set_random n (shared_array w) w).
Definition generateChallenge (v : jstr) : IO jstr := fun w =>
  match CryptoJS.generateCodeChallenge (CryptoJS.constants pow).1 (CryptoJS.constants pow).2 v (shared_array w) with
  | Ok (c, W) => (Done c, set_random (drawn w) W w)
  | Throw e => (Failed (Exn e), w)
  end.

(** State, the constructor *)
Definition new_State (args : value) : IO State :=
  id ← from_res (field args "id");
  id ← (if truthy id then mret id else VStr <$> generateUUID);
  data ← from_res (field args "data");
  created ← from_res (field args "created");
  now ← epoch_now;
  request_type ← from_res (field args "request_type");
  mret {| id := id; data := data;
          created := if truthy created && match to_num created with Some n => is_positive n | None => false end
                     then created else VInt now;
          request_type := request_type |}.

Definition state_members (s : State) : obj value :=
  [(js "id", id s); (js "data", data s); (js "created", created s); (js "request_type", request_type s)].

Definition State_toStorageString (s : State) : jstr := JSON_text (VObj (state_members s)).
Definition State_fromStorageString (t : jstr) : IO State := JSON_parse t ≫= new_State.

(** State.clearStaleState: one key *)
Definition clear_key (storage : state_store) (cutoff : option num) (key : jstr) : IO unit :=
  item ← Store.get storage key;
  remove ←
    match item with
    | Some ((_ :: _) as item) =>
        catch (state ← State_fromStorageString item;
               mret match to_num (created state), cutoff with Some n, Some c => num_leb n c | _, _ => false end)
              (fun _ => mret true)
    | _ => mret true
    end;
  if (remove : bool) then Store.remove storage key ≫= fun _ => mret tt else mret tt.

Fixpoint for_keys (f : jstr -> IO unit) (l : list jstr) : IO unit :=
  match l with [] => mret tt | k :: l => f k ≫= fun _ => for_keys f l end.

(** State.clearStaleState, with an age in seconds *)
Definition clearStaleState (storage : state_store) (age : option num) : IO unit :=
  now ← epoch_now;
  let cutoff := (fun a => Num (now * pow10 a - mant a) (scale a)) <$> age in
  keys ← Store.getAllKeys storage;
  for_keys (clear_key storage cutoff) keys.

Record SigninState := {
  base : State;
  code_verifier : value;
  code_challenge : value;
  authority : value;
  client_id : value;
  redirect_uri : value;
  scope : value;
  client_secret : value;
  extraTokenParams : value;
  response_mode : value;
  skipUserInfo : value;
}.

(** SigninState, the constructor *)
Definition new_SigninState (args : value) : IO SigninState :=
  base ← new_State args;
  verifier ← from_res (field args "code_verifier");
  verifier ←
    match verifier with
    | VBool true => VStr <$> generateVerifier
    | v => mret (if truthy v then v else VUndef)
    end;
  challenge ←
    (if truthy verifier then
       match verifier with VStr v => VStr <$> generateChallenge v | _ => fail (Exn TypeError) end
     else mret VUndef);
  authority ← from_res (field args "authority");
  client_id ← from_res (field args "client_id");
  redirect_uri ← from_res (field args "redirect_uri");
  scope ← from_res (field args "scope");
  client_secret ← from_res (field args "client_secret");
  extraTokenParams ← from_res (field args "extraTokenParams");
  response_mode ← from_res (field args "response_mode");
  skipUserInfo ← from_res (field args "skipUserInfo");
  mret {| base := base; code_verifier := verifier; code_challenge := challenge; authority := authority;
          client_id := client_id; redirect_uri := redirect_uri; scope := scope; client_secret := client_secret;
          extraTokenParams := extraTokenParams; response_mode := response_mode; skipUserInfo := skipUserInfo |}.

Definition signin_members (s : SigninState) : obj value :=
  state_members (base s) ++
  [(js "code_verifier", code_verifier s); (js "authority", authority s); (js "client_id", client_id s);
   (js "redirect_uri", redirect_uri s); (js "scope", scope s); (js "client_secret", client_secret s);
   (js "extraTokenParams", extraTokenParams s); (js "response_mode", response_mode s);
   (js "skipUserInfo", skipUserInfo s)].

Definition SigninState_toStorageString (s : SigninState) : jstr := JSON_text (VObj (signin_members s)).
Definition SigninState_fromStorageString (t : jstr) : IO SigninState := JSON_parse t ≫= new_SigninState.

(** ** Requests *)

(** What is appended to an address for the members that are not null. *)
Definition extra_params (o : obj value) : list (jstr * jstr) :=
  omap (fun '(k, v) => if nullish v then None else Some (k, to_str v)) (entries o).

Definition url_of (url : value) (params : list (jstr * jstr)) : IO jstr :=
  match append_params (to_str url) params with Some u => mret u | None => fail (Exn TypeError) end.

Record SigninRequest := { signin_url : jstr; signin_state : SigninState }.

Definition required (args : obj value) (k : jstr) : IO unit :=
  throw_if (negb (truthy (prop args k))) (Error k).

(** The parameters of SigninRequest's constructor that are not optional ones. *)
Definition request_keys : list jstr :=
  [js "url"; js "authority"; js "client_id"; js "redirect_uri"; js "response_type"; js "scope"; js "state_data";
   js "response_mode"; js "request_type"; js "client_secret"; js "nonce"; js "skipUserInfo";
   js "extraQueryParams"; js "extraTokenParams"].

Definition new_SigninRequest (args : obj value) : IO SigninRequest :=
  required args "url" ≫= fun _ => required args "client_id" ≫= fun _ =>
  required args "redirect_uri" ≫= fun _ => required args "response_type" ≫= fun _ =>
  required args "scope" ≫= fun _ => required args "authority" ≫= fun _ =>
  state ← new_SigninState (VObj
    [(js "data", prop args "state_data"); (js "request_type", prop args "request_type");
     (js "code_verifier", VBool true); (js "client_id", prop args "client_id");
     (js "authority", prop args "authority"); (js "redirect_uri", prop args "redirect_uri");
     (js "response_mode", prop args "response_mode"); (js "client_secret", prop args "client_secret");
     (js "scope", prop args "scope"); (js "extraTokenParams", prop args "extraTokenParams");
     (js "skipUserInfo", prop args "skipUserInfo")]);
  let optional := spread (spread [(js "response_mode", prop args "response_mode")] (rest request_keys args))
                    (own (prop args "extraQueryParams")) in
  url ← url_of (prop args "url")
    ([(js "client_id", to_str (prop args "client_id")); (js "redirect_uri", to_str (prop args "redirect_uri"));
      (js "response_type", to_str (prop args "response_type")); (js "scope", to_str (prop args "scope"))] ++
     (if truthy (prop args "nonce") then [(js "nonce", to_str (prop args "nonce"))] else []) ++
     [(js "state", to_str (id (base state)))] ++
     (if truthy (code_challenge state) then
        [(js "code_challenge", to_str (code_challenge state)); (js "code_challenge_method", js "S256")] else []) ++
     extra_params optional);
  mret {| signin_url := url; signin_state := state |}.

Record SignoutRequest := { signout_url : jstr; signout_state : option State }.

Definition new_SignoutRequest (args : obj value) : IO SignoutRequest :=
  required args "url" ≫= fun _ =>
  let hint := if truthy (prop args "id_token_hint")
    then [(js "id_token_hint", to_str (prop args "id_token_hint"))] else [] in
  '(params, state) ←
    (if truthy (prop args "post_logout_redirect_uri") then
       let redirect := [(js "post_logout_redirect_uri", to_str (prop args "post_logout_redirect_uri"))] in
       if truthy (prop args "state_data") then
         state ← new_State (VObj [(js "data", prop args "state_data"); (js "request_type", prop args "request_type")]);
         mret (redirect ++ [(js "state", to_str (id state))], Some state)
       else mret (redirect, None)
     else mret ([], None));
  url ← url_of (prop args "url") (hint ++ params ++ extra_params (spread [] (own (prop args "extraQueryParams"))));
  mret {| signout_url := url; signout_state := state |}.

(** ** Responses *)

(** [params.get(k)] *)
Definition param (params : list (jstr * jstr)) (k : jstr) : value :=
  match get params k with Some v => VStr v | None => VNull end.

(** SigninResponse and SignoutResponse, the constructors *)
Definition new_SigninResponse (params : list (jstr * jstr)) : obj value :=
  [(js "access_token", VStr []); (js "token_type", VStr []); (js "profile", VObj []);
   (js "state", param params "state"); (js "session_state", param params "session_state");
   (js "error", param params "error"); (js "error_description", param params "error_description");
   (js "error_uri", param params "error_uri"); (js "code", param params "code")].

Definition new_SignoutResponse (params : list (jstr * jstr)) : obj value :=
  [(js "state", param params "state"); (js "error", param params "error");
   (js "error_description", param params "error_description"); (js "error_uri", param params "error_uri")].

(** The getter and the setter of expires_in *)
Definition get_expires_in (now : Z) (o : obj value) : value :=
  match prop o "expires_at" with
  | VUndef => VUndef
  | v => match to_num v with Some n => VNum (plus n (- now)) | None => VNaN end
  end.
Definition set_expires_in (now : Z) (v : value) (o : obj value) : obj value :=
  match v with
  | VUndef => o
  | _ =>
      match to_num v with
      | Some n => if 0 <=? mant n then put o "expires_at" (VInt (floor n + now)) else o
      | None => o
      end
  end.

(** Object.assign(response, o): expires_in has a setter, isOpenId has none. *)
Definition assign_response (now : Z) (o : value) (response : obj value) : res (obj value) :=
  foldl (fun r '(k, v) =>
    response ← r;
    if decide (k = js "expires_in") then Ok (set_expires_in now v response)
    else if decide (k = js "isOpenId") then Throw TypeError
    else Ok (put response k v)) (Ok response) (own o).

(** The getter of isOpenId *)
Definition isOpenId (response : obj value) : res bool :=
  let with_token := truthy (prop response "id_token") in
  match prop response "scope" with
  | VUndef | VNull => Ok with_token
  | VStr s => Ok (bool_decide (js "openid" ∈ split_on 32 s) || with_token)
  | _ => Throw TypeError
  end.

(** UrlUtils.readParams *)
Definition readParams (url : jstr) (responseMode : value) : IO (list (jstr * jstr)) :=
  match read_params (eq_word responseMode "fragment") url with
  | Some l => mret l
  | None => fail (Exn TypeError)
  end.

(** ** ResponseValidator *)

Variable st : settings.

(** [o.k ??= v] *)
Definition assign_missing (k : jstr) (v : value) (o : obj value) : obj value :=
  if nullish (prop o k) then put o k v else o.

Definition processSigninState (response : obj value) (state : SigninState) : IO (obj value) :=
  throw_if (negb (strict_equal (id (base state)) (prop response "state"))) (Error "State does not match") ≫= fun _ =>
  throw_if (negb (truthy (client_id state))) (Error "No client_id on state") ≫= fun _ =>
  throw_if (negb (truthy (authority state))) (Error "No authority on state") ≫= fun _ =>
  throw_if (negb (strict_equal (setting st "authority") (authority state)))
    (Error "authority mismatch on settings vs. signin state") ≫= fun _ =>
  throw_if (truthy (setting st "client_id") && negb (strict_equal (setting st "client_id") (client_id state)))
    (Error "client_id mismatch on settings vs. signin state") ≫= fun _ =>
  let response := assign_missing "scope" (scope state) (put response "userState" (data (base state))) in
  (if truthy (prop response "error") then new_ErrorResponse (VObj response) None ≫= fail else mret tt) ≫= fun _ =>
  throw_if (truthy (code_verifier state) && negb (truthy (prop response "code")))
    (Error "Expected code in response") ≫= fun _ =>
  throw_if (negb (truthy (code_verifier state)) && truthy (prop response "code"))
    (Error "Unexpected code in response") ≫= fun _ =>
  mret response.

(** _processCode: the code is exchanged for tokens. *)
Definition code_args (response : obj value) (state : SigninState) : obj value :=
  spread [(js "client_id", client_id state); (js "client_secret", client_secret state);
          (js "code", prop response "code"); (js "redirect_uri", redirect_uri state);
          (js "code_verifier", code_verifier state)] (own (extraTokenParams state)).

Definition processCode (response : obj value) (state : SigninState) : IO (obj value) :=
  if truthy (prop response "code") then
    tokens ← exchangeCode fetch st (code_args response state);
    now ← epoch_now;
    from_res (assign_response now tokens response)
  else mret response.

(** _validateIdTokenAttributes *)
Definition claim (v : value) (k : jstr) : IO value := from_res (field v k).

Definition validateIdTokenAttributes (response : obj value) (currentToken : value) : IO (obj value) :=
  profile ← decode_token atob message_of (or_else (prop response "id_token") (VStr []));
  sub ← claim profile "sub";
  throw_if (negb (truthy sub)) (Error "ID Token is missing a subject claim") ≫= fun _ =>
  (if truthy currentToken then
     current ← decode_token atob message_of currentToken;
     current_sub ← claim current "sub";
     throw_if (negb (strict_equal current_sub sub)) (Error "sub in id_token does not match current sub") ≫= fun _ =>
     current_auth_time ← claim current "auth_time"; auth_time ← claim profile "auth_time";
     throw_if (truthy current_auth_time && negb (strict_equal current_auth_time auth_time))
       (Error "auth_time in id_token does not match original auth_time") ≫= fun _ =>
     current_azp ← claim current "azp"; azp ← claim profile "azp";
     throw_if (truthy current_azp && negb (strict_equal current_azp azp))
       (Error "azp in id_token does not match original azp") ≫= fun _ =>
     throw_if (negb (truthy current_azp) && truthy azp)
       (Error "azp not in id_token, but present in original id_token")
   else mret tt) ≫= fun _ =>
  mret (put response "profile" profile).

(** _processClaims *)
Definition processClaims (response : obj value) (skipUserInfo validateSub : bool) : IO (obj value) :=
  let response := put response "profile" (VObj (filterProtocolClaims st (prop response "profile"))) in
  if skipUserInfo || negb (truthy (setting st "loadUserInfo")) || negb (truthy (prop response "access_token"))
  then mret response
  else
    claims ← getClaims atob message_of fetch st (prop response "access_token");
    sub ← claim claims "sub";
    profile_sub ← claim (prop response "profile") "sub";
    throw_if (validateSub && negb (strict_equal sub profile_sub))
      (Error "subject from UserInfo response does not match subject in ID Token") ≫= fun _ =>
    merged ← from_res (mergeClaims st (VObj (filterProtocolClaims st claims)) (prop response "profile"));
    mret (put response "profile" merged).

Definition validateSigninResponse (response : obj value) (state : SigninState) : IO (obj value) :=
  response ← processSigninState response state;
  response ← processCode response state;
  open_id ← from_res (isOpenId response);
  response ← (if open_id : bool then validateIdTokenAttributes response VUndef else mret response);
  open_id ← from_res (isOpenId response);
  processClaims response (truthy (or_default (skipUserInfo state) (VBool false))) open_id.

(** What is kept of a user while its tokens are refreshed. *)
Record RefreshState := { refresh_token : value; old_id_token : value; old_scope : value; old_data : value }.

Definition validateRefreshResponse (response : obj value) (state : RefreshState) : IO (obj value) :=
  let response := assign_missing "scope" (old_scope state) (put response "userState" (old_data state)) in
  open_id ← from_res (isOpenId response);
  let hasIdToken := (open_id : bool) && truthy (prop response "id_token") in
  response ← (if hasIdToken then validateIdTokenAttributes response (old_id_token state) else mret response);
  processClaims response false hasIdToken.

Definition validateSignoutResponse (response : obj value) (state : State) : IO (obj value) :=
  throw_if (negb (strict_equal (id state) (prop response "state"))) (Error "State does not match") ≫= fun _ =>
  let response := put response "userState" (data state) in
  (if truthy (prop response "error") then new_ErrorResponse (VObj response) None ≫= fail else mret tt) ≫= fun _ =>
  mret response.

(** ** OidcClient *)

(** An argument, or the setting of the same name. *)
Definition or_setting (args : obj value) (k : jstr) : value := or_default (prop args k) (setting st k).

Definition createSigninRequest (args : obj value) : IO SigninRequest :=
  let response_type := or_setting args "response_type" in
  throw_if (negb (eq_word response_type "code"))
    (Error "Only the Authorization Code flow (with PKCE) is supported") ≫= fun _ =>
  url ← getAuthorizationEndpoint fetch (fields st);
  request ← new_SigninRequest
    [(js "url", url); (js "authority", setting st "authority"); (js "client_id", setting st "client_id");
     (js "redirect_uri", or_setting args "redirect_uri"); (js "response_type", response_type);
     (js "scope", or_setting args "scope"); (js "state_data", prop args "state");
     (js "prompt", or_setting args "prompt"); (js "display", or_setting args "display");
     (js "max_age", or_setting args "max_age"); (js "ui_locales", or_setting args "ui_locales");
     (js "id_token_hint", prop args "id_token_hint"); (js "login_hint", prop args "login_hint");
     (js "acr_values", or_setting args "acr_values"); (js "resource", or_setting args "resource");
     (js "request", prop args "request"); (js "request_uri", prop args "request_uri");
     (js "extraQueryParams", or_setting args "extraQueryParams");
     (js "extraTokenParams", or_setting args "extraTokenParams");
     (js "request_type", prop args "request_type"); (js "response_mode", or_setting args "response_mode");
     (js "client_secret", setting st "client_secret"); (js "skipUserInfo", prop args "skipUserInfo");
     (js "nonce", prop args "nonce")];
  let state := signin_state request in
  Store.set (stateStore st) (to_str (id (base state))) (SigninState_toStorageString state) ≫= fun _ =>
  mret request.

(** The text stored for a state, removed or not *)
Definition stored_state (removeState : bool) (state : value) : IO jstr :=
  item ← (if removeState then Store.remove (stateStore st) (to_str state)
          else Store.get (stateStore st) (to_str state));
  match item with
  | Some ((_ :: _) as t) => mret t
  | _ => fail (Error "No matching state found in storage")
  end.

Definition readSigninResponseState (url : jstr) (removeState : bool) : IO (SigninState * obj value) :=
  params ← readParams url (setting st "response_mode");
  let response := new_SigninResponse params in
  throw_if (negb (truthy (prop response "state"))) (Error "No state in response") ≫= fun _ =>
  storedStateString ← stored_state removeState (prop response "state");
  state ← SigninState_fromStorageString storedStateString;
  mret (state, response).

Definition processSigninResponse (url : jstr) : IO (obj value) :=
  '(state, response) ← readSigninResponseState url true;
  validateSigninResponse response state.

Definition useRefreshToken (state : RefreshState) (timeoutInSeconds : value) : IO (obj value) :=
  result ← exchangeRefreshToken fetch st
    [(js "refresh_token", refresh_token state); (js "scope", old_scope state);
     (js "timeoutInSeconds", timeoutInSeconds)];
  now ← epoch_now;
  response ← from_res (assign_response now result (new_SigninResponse []));
  validateRefreshResponse response state.

Definition createSignoutRequest (args : obj value) : IO SignoutRequest :=
  url ← getEndSessionEndpoint fetch (fields st);
  throw_if (negb (truthy url)) (Error "No end session endpoint") ≫= fun _ =>
  request ← new_SignoutRequest
    [(js "url", url); (js "id_token_hint", prop args "id_token_hint");
     (js "post_logout_redirect_uri", or_setting args "post_logout_redirect_uri");
     (js "state_data", prop args "state"); (js "extraQueryParams", or_setting args "extraQueryParams");
     (js "request_type", prop args "request_type")];
  match signout_state request with
  | Some state => Store.set (stateStore st) (to_str (id state)) (State_toStorageString state)
  | None => mret tt
  end ≫= fun _ => mret request.

Definition readSignoutResponseState (url : jstr) (removeState : bool) : IO (option State * obj value) :=
  params ← readParams url (setting st "response_mode");
  let response := new_SignoutResponse params in
  if negb (truthy (prop response "state")) then
    if truthy (prop response "error") then new_ErrorResponse (VObj response) None ≫= fail
    else mret (None, response)
  else
    storedStateString ← stored_state removeState (prop response "state");
    state ← State_fromStorageString storedStateString;
    mret (Some state, response).

Definition processSignoutResponse (url : jstr) : IO (obj value) :=
  '(state, response) ← readSignoutResponseState url true;
  match state with
  | Some state => validateSignoutResponse response state
  | None => mret response
  end.

Definition client_clearStaleState : IO unit :=
  clearStaleState (stateStore st) (to_num (setting st "staleStateAgeInSeconds")).

Definition revokeToken (token type : value) : IO unit :=
  revoke fetch st [(js "token", token); (js "token_type_hint", type)].

End client.
