(* ===== verification/OidcUser.v ===== *)
(** Users of the OpenID Connect client (oidc-client-ts.js, the readable copy):
    User, UserManager and the renewal of SilentRenewService.

    The windows of the browser (the page itself, a popup, a hidden frame) are
    parameters: [prepare] gives a window, [navigate] sends it to an address and
    gives what it answers (the address it came back with, or null for a page that
    is left), [close_window] closes it, and [notify] passes an address on to the
    window that waits for it. *)
From S2P Require Import Prelude JsString JsNum JsObject JsValue Json JsonFacts Doubles CryptoJs OAuth OidcTimers OidcWorld OidcTokens OidcSignin.

(** ** User *)

(** User, the constructor *)
Definition new_User (args : value) : IO (obj value) :=
  let own_field k := from_res (field args k) in
  id_token ← own_field "id_token";
  session_state ← own_field "session_state";
  access_token ← own_field "access_token";
  refresh_token ← own_field "refresh_token";
  token_type ← own_field "token_type";
  scope ← own_field "scope";
  profile ← own_field "profile";
  expires_at ← own_field "expires_at";
  userState ← own_field "userState";
  mret [(js "id_token", id_token); (js "session_state", or_else session_state VNull);
        (js "access_token", access_token); (js "refresh_token", refresh_token);
        (js "token_type", token_type); (js "scope", scope); (js "profile", profile);
        (js "expires_at", expires_at); (js "state", userState)].

(** The setter of expires_in, and the getters of expired and scopes *)
Definition user_set_expires_in (now : Z) (v : value) (u : obj value) : obj value :=
  match v with
  | VUndef => u
  | _ => put u "expires_at" (match to_num v with Some n => VInt (floor n + now) | None => VNaN end)
  end.

Definition expired (now : Z) (u : obj value) : value :=
  match get_expires_in now u with
  | VUndef => VUndef
  | VNum n => VBool (negb (is_positive n))
  | _ => VBool false
  end.

Definition scopes (u : obj value) : res (list jstr) :=
  match prop u "scope" with
  | VUndef | VNull => Ok []
  | VStr s => Ok (split_on 32 s)
  | _ => Throw TypeError
  end.

Definition user_members (u : obj value) : obj value :=
  map (fun k => (k, prop u k))
    [js "id_token"; js "session_state"; js "access_token"; js "refresh_token"; js "token_type"; js "scope";
     js "profile"; js "expires_at"].

Definition User_toStorageString (u : obj value) : jstr := JSON_text (VObj (user_members u)).
Definition User_fromStorageString (t : jstr) : IO (obj value) := JSON_parse t ≫= new_User.

(** RefreshState, the constructor *)
Definition new_RefreshState (u : obj value) : RefreshState :=
  {| refresh_token := prop u "refresh_token"; old_id_token := prop u "id_token"; old_scope := prop u "scope";
     old_data := prop u "state" |}.

Definition refresh_members (s : RefreshState) : obj value :=
  [(js "refresh_token", refresh_token s); (js "id_token", old_id_token s); (js "scope", old_scope s);
   (js "data", old_data s)].

(** ** UserManager *)

Inductive navigator := Redirect | Popup | Frame.

Section manager.
Variable random : nat -> Z.
Variable pow : double -> double -> double.
Variable atob : jstr -> option jstr.
Variable message_of : option exn -> jstr.
Variable append_params : jstr -> list (jstr * jstr) -> option jstr.
Variable read_params : bool -> jstr -> option (list (jstr * jstr)).
Variable fetch : request -> world -> reply * world.
Variable window : Type.
Variable prepare : navigator -> obj value -> IO window.
Variable navigate : window -> obj value -> IO value.
Variable close_window : window -> IO unit.
Variable notify : navigator -> jstr -> bool -> IO unit.
Variable st : settings.

Notation createSigninRequest := (createSigninRequest random pow append_params fetch st).
Notation processSigninResponse := (processSigninResponse random pow atob message_of read_params fetch st).
Notation readSigninResponseState := (readSigninResponseState random pow read_params st).
Notation readSignoutResponseState := (readSignoutResponseState random read_params st).
Notation createSignoutRequest := (createSignoutRequest random append_params fetch st).
Notation processSignoutResponse := (processSignoutResponse random read_params st).
Notation useRefreshToken := (useRefreshToken atob message_of fetch st).
Notation revokeToken := (revokeToken fetch st).

(** The notification time; a setting that is no number is not treated. *)
Definition notification_time : Z :=
  match to_num (setting st "accessTokenExpiringNotificationTimeInSeconds") with Some n => floor n | None => 60 end.

Definition load_user (u : obj value) (raiseEvent : bool) : IO unit :=
  change (fun w => set_events
    (load notification_time (clock w) (prop u "access_token") (get_expires_in (epoch w) u) raiseEvent (user_events w)) w).
Definition unload_user : IO unit := change (fun w => set_events (unload (user_events w)) w).
Definition raise_event (e : event_name) : IO unit := change (fun w => set_events (raise e (user_events w)) w).

Definition userStoreKey : jstr :=
  "user:" ++ to_str (setting st "authority") ++ ":" ++ to_str (setting st "client_id").

Definition loadUser : IO (option (obj value)) :=
  storageString ← Store.get (userStore st) userStoreKey;
  match storageString with
  | Some ((_ :: _) as t) => Some <$> User_fromStorageString t
  | _ => mret None
  end.

Definition storeUser (user : option (obj value)) : IO unit :=
  match user with
  | Some u => Store.set (userStore st) userStoreKey (User_toStorageString u)
  | None => Store.remove (userStore st) userStoreKey ≫= fun _ => mret tt
  end.

Definition getUser : IO (option (obj value)) :=
  user ← loadUser;
  match user with
  | Some u => load_user u false ≫= fun _ => mret (Some u)
  | None => mret None
  end.

Definition removeUser : IO unit := storeUser None ≫= fun _ => unload_user.

Definition signinStart (args : obj value) (handle : window) : IO value :=
  catch (request ← createSigninRequest args;
         navigate handle [(js "url", VStr (signin_url request)); (js "state", id (base (signin_state request)));
                          (js "response_mode", response_mode (signin_state request))])
        (fun e => close_window handle ≫= fun _ => fail e).

Definition signinEnd (url : jstr) (verifySub : value) : IO (obj value) :=
  response ← processSigninResponse url;
  user ← new_User (VObj response);
  (if truthy verifySub then
     sub ← from_res (field (prop user "profile") "sub");
     if strict_equal verifySub sub then mret tt
     else new_ErrorResponse (VObj (put response "error" (VStr "login_required"))) None ≫= fail
   else mret tt) ≫= fun _ =>
  storeUser (Some user) ≫= fun _ =>
  load_user user true ≫= fun _ =>
  mret user.

Definition url_of_response (navResponse : value) : IO jstr :=
  url ← from_res (field navResponse "url"); mret (to_str url).

Definition signin (args : obj value) (handle : window) (verifySub : value) : IO (obj value) :=
  navResponse ← signinStart args handle;
  url ← url_of_response navResponse;
  signinEnd url verifySub.

Definition signinRedirect (args : obj value) : IO unit :=
  handle ← prepare Redirect [(js "redirectMethod", prop args "redirectMethod")];
  signinStart (spread [(js "request_type", VStr "si:r")] (rest [js "redirectMethod"] args)) handle ≫= fun _ => mret tt.

Definition signinRedirectCallback (url : jstr) : IO (obj value) := signinEnd url VUndef.

Definition signinPopup (args : obj value) : IO (obj value) :=
  let url := setting st "popup_redirect_uri" in
  throw_if (negb (truthy url)) (Error "No popup_redirect_uri configured") ≫= fun _ =>
  handle ← prepare Popup [(js "popupWindowFeatures", prop args "popupWindowFeatures");
                          (js "popupWindowTarget", prop args "popupWindowTarget")];
  signin (spread [(js "request_type", VStr "si:p"); (js "redirect_uri", url); (js "display", VStr "popup")]
            (rest [js "popupWindowFeatures"; js "popupWindowTarget"] args)) handle VUndef.

Definition signinPopupCallback (url : jstr) (keepOpen : bool) : IO unit := notify Popup url keepOpen.

Definition useRefreshToken' (state : RefreshState) : IO (obj value) :=
  response ← useRefreshToken state (setting st "silentRequestTimeoutInSeconds");
  user ← new_User (VObj (spread (refresh_members state) response));
  storeUser (Some user) ≫= fun _ =>
  load_user user true ≫= fun _ =>
  mret user.

Definition signinSilent (args : obj value) : IO (obj value) :=
  user ← loadUser;
  let token := match user with Some u => prop u "refresh_token" | None => VUndef end in
  match user with
  | Some u =>
      if truthy token then useRefreshToken' (new_RefreshState u)
      else
        let url := setting st "silent_redirect_uri" in
        throw_if (negb (truthy url)) (Error "No silent_redirect_uri configured") ≫= fun _ =>
        verifySub ← (if truthy (setting st "validateSubOnSilentRenew")
                     then from_res (field (prop u "profile") "sub") else mret VUndef);
        handle ← prepare Frame [(js "silentRequestTimeoutInSeconds", prop args "silentRequestTimeoutInSeconds")];
        signin (spread [(js "request_type", VStr "si:s"); (js "redirect_uri", url); (js "prompt", VStr "none");
                        (js "id_token_hint", if truthy (setting st "includeIdTokenInSilentRenew")
                                             then prop u "id_token" else VUndef)]
                  (rest [js "silentRequestTimeoutInSeconds"] args)) handle verifySub
  | None =>
      let url := setting st "silent_redirect_uri" in
      throw_if (negb (truthy url)) (Error "No silent_redirect_uri configured") ≫= fun _ =>
      handle ← prepare Frame [(js "silentRequestTimeoutInSeconds", prop args "silentRequestTimeoutInSeconds")];
      signin (spread [(js "request_type", VStr "si:s"); (js "redirect_uri", url); (js "prompt", VStr "none");
                      (js "id_token_hint", VUndef)]
                (rest [js "silentRequestTimeoutInSeconds"] args)) handle VUndef
  end.

Definition signinSilentCallback (url : jstr) : IO unit := notify Frame url false.

(** signinCallback: the user, or undefined *)
Definition signinCallback (url : jstr) : IO (option (obj value)) :=
  '(state, _) ← readSigninResponseState url false;
  let kind_is t := eq_word (request_type (base state)) t in
  if kind_is "si:r" then Some <$> signinRedirectCallback url
  else if kind_is "si:p" then signinPopupCallback url false ≫= fun _ => mret None
  else if kind_is "si:s" then signinSilentCallback url ≫= fun _ => mret None
  else fail (Error "invalid response_type in state").

Definition signoutEnd (url : jstr) : IO (obj value) := processSignoutResponse url.
Definition signoutRedirectCallback (url : jstr) : IO (obj value) := signoutEnd url.
Definition signoutPopupCallback (url : jstr) (keepOpen : bool) : IO unit := notify Popup url keepOpen.

Definition signoutCallback (url : jstr) (keepOpen : bool) : IO unit :=
  '(state, _) ← readSignoutResponseState url false;
  match state with
  | None => mret tt
  | Some state =>
      let kind_is t := eq_word (request_type state) t in
      if kind_is "so:r" then signoutRedirectCallback url ≫= fun _ => mret tt
      else if kind_is "so:p" then signoutPopupCallback url keepOpen
      else fail (Error "invalid response_type in state")
  end.

(** The errors of a provider that tell that nobody is signed in. *)
Definition anonymous_errors : list jstr :=
  [js "login_required"; js "consent_required"; js "interaction_required"; js "account_selection_required"].

Definition querySessionStatus (args : obj value) : IO value :=
  let url := setting st "silent_redirect_uri" in
  throw_if (negb (truthy url)) (Error "No silent_redirect_uri configured") ≫= fun _ =>
  handle ← prepare Frame [(js "silentRequestTimeoutInSeconds", prop args "silentRequestTimeoutInSeconds")];
  navResponse ← signinStart
    (spread [(js "request_type", VStr "si:s"); (js "redirect_uri", url); (js "prompt", VStr "none");
             (js "response_type", setting st "query_status_response_type"); (js "scope", VStr "openid");
             (js "skipUserInfo", VBool true)]
       (rest [js "silentRequestTimeoutInSeconds"] args)) handle;
  catch
    (url ← url_of_response navResponse;
     response ← processSigninResponse url;
     let session_state := prop response "session_state" in
     if truthy session_state then
       sub ← from_res (field (prop response "profile") "sub");
       if truthy sub then
         sid ← from_res (field (prop response "profile") "sid");
         mret (VObj [(js "session_state", session_state); (js "sub", sub); (js "sid", sid)])
       else mret VNull
     else mret VNull)
    (fun e =>
       match e with
       | ErrorResponse r =>
           if truthy (setting st "monitorAnonymousSession") && existsb (eq_word (OidcWorld.error r)) anonymous_errors
           then mret (VObj [(js "session_state", OidcWorld.session_state r)])
           else fail e
       | _ => fail e
       end).

(** ** Signing out *)

(** The types whose tokens are texts; only a list can be filtered. *)
Definition types_present (user : obj value) (types : value) : res (list jstr) :=
  match types with
  | VArr l => Ok (omap (fun t => match prop user (to_str t) with VStr _ => Some (to_str t) | _ => None end) l)
  | _ => Throw TypeError
  end.

(** _revokeInternal: the loop over the types *)
Fixpoint revoke_types (user : obj value) (types : list jstr) : IO (obj value) :=
  match types with
  | [] => mret user
  | t :: types =>
      revokeToken (prop user t) (VStr t) ≫= fun _ =>
      revoke_types (if decide (t = js "access_token") then user else put user t VNull) types
  end.

Definition revokeInternal (user : option (obj value)) (types : value) : IO unit :=
  match user with
  | None => mret tt
  | Some u =>
      typesPresent ← from_res (types_present u (or_default types (setting st "revokeTokenTypes")));
      match typesPresent with
      | [] => mret tt
      | types =>
          u ← revoke_types u types;
          storeUser (Some u) ≫= fun _ => load_user u true
      end
  end.

Definition revokeTokens (types : value) : IO unit := user ← loadUser; revokeInternal user types.

Definition signoutStart (args : obj value) (handle : window) : IO value :=
  catch
    (user ← loadUser;
     (if truthy (setting st "revokeTokensOnSignout") then revokeInternal user VUndef else mret tt) ≫= fun _ =>
     let hint := prop args "id_token_hint" in
     let id_token := if truthy hint then hint else match user with Some u => prop u "id_token" | None => VNull end in
     let args := if truthy id_token then put args "id_token_hint" id_token else args in
     removeUser ≫= fun _ =>
     request ← createSignoutRequest args;
     navigate handle [(js "url", VStr (signout_url request));
       (js "state", match signout_state request with Some s => id s | None => VUndef end)])
    (fun e => close_window handle ≫= fun _ => fail e).

Definition signoutRedirect (args : obj value) : IO unit :=
  handle ← prepare Redirect [(js "redirectMethod", prop args "redirectMethod")];
  signoutStart
    (spread [(js "request_type", VStr "so:r"); (js "post_logout_redirect_uri", setting st "post_logout_redirect_uri")]
       (rest [js "redirectMethod"] args)) handle ≫= fun _ => mret tt.

Definition signout (args : obj value) (handle : window) : IO (obj value) :=
  navResponse ← signoutStart args handle;
  url ← url_of_response navResponse;
  signoutEnd url.

Definition signoutPopup (args : obj value) : IO unit :=
  let url := setting st "popup_post_logout_redirect_uri" in
  handle ← prepare Popup [(js "popupWindowFeatures", prop args "popupWindowFeatures");
                          (js "popupWindowTarget", prop args "popupWindowTarget")];
  signout
    (spread [(js "request_type", VStr "so:p"); (js "post_logout_redirect_uri", url);
             (js "state", if nullish url then VUndef else VObj [])]
       (rest [js "popupWindowFeatures"; js "popupWindowTarget"] args)) handle ≫= fun _ => mret tt.

(** ** SilentRenewService *)

Definition tokenExpiring : IO unit :=
  catch (signinSilent [] ≫= fun _ => mret tt)
        (fun e =>
           match e with
           | ErrorTimeout _ =>
               change (fun w => set_events (init (clock w) Retry (Some (num_of 5)) (user_events w)) w)
           | _ => raise_event SilentRenewError
           end).

Definition startSilentRenew : IO unit :=
  started ← read (fun w => isStarted (user_events w));
  if (started : bool) then mret tt
  else
    change (fun w => set_events (start_renew (user_events w)) w) ≫= fun _ =>
    catch (getUser ≫= fun _ => mret tt) (fun _ => mret tt).

Definition stopSilentRenew : IO unit := change (fun w => set_events (stop_renew (user_events w)) w).

Definition clearStaleState : IO unit := client_clearStaleState random st.

End manager.

(** UserManager, the constructor: the settings, and the renewal when it is automatic *)
Definition new_UserManager (args : obj value) (given_state given_user : option state_store) : settings * IO unit :=
  let st := new_UserManagerSettingsStore args given_state given_user in
  (st, if truthy (setting st "automaticSilentRenew") then startSilentRenew st else mret tt).
