(* ===== verification/OidcSession.v ===== *)
(** The session of the provider, watched (oidc-client-ts.js, the readable copy):
    CheckSessionIFrame, SessionMonitor, InMemoryWebStorage and the features of
    popups.

    The functions of SessionMonitor wait for the network; what they do after each
    wait is a function of the monitor as it is then ([query_settled],
    [url_settled], [frame_loaded]), so that what happens in between is not
    excluded. The frame in the document is a parameter: whether it has a window,
    and the address it shows. *)
From S2P Require Import Prelude JsString JsNum JsObject JsValue OAuth OidcTimers OidcWorld OidcTokens.

(** ** CheckSessionIFrame *)

Record check_session := {
  callback_client : value;              (* _client_id *)
  intervalInSeconds : value;
  stopOnError : value;
  frame_origin : jstr;
  session_state : value;                (* _session_state *)
  poll : option nat;                    (* _timer *)
  polls : list nat;                     (* the intervals of the browser that send *)
  next_poll : nat;
  posted : list (jstr * jstr);          (* messages to the frame with their target, latest last *)
}.

(** [url.indexOf(p, n)] *)
Definition index_after (n : nat) (s p : jstr) : Z :=
  let i := index_of (drop n s) p in if i =? -1 then -1 else Z.of_nat n + i.

(** The constructor's part that is not the document's: an address without a path
    gives no origin. *)
Definition origin_of (url : jstr) : jstr :=
  take (Z.to_nat (index_after (Z.to_nat (index_of url "//" + 2)) url "/")) url.

Definition new_CheckSessionIFrame (client_id : value) (url : jstr) (seconds stop_on_error : value) : check_session :=
  {| callback_client := client_id; intervalInSeconds := seconds; stopOnError := stop_on_error;
     frame_origin := origin_of url; session_state := VNull; poll := None; polls := []; next_poll := 1; posted := [] |}.

Definition set_poll (st : value) (p : option nat) (l : list nat) (n : nat) (f : check_session) : check_session :=
  {| callback_client := callback_client f; intervalInSeconds := intervalInSeconds f; stopOnError := stopOnError f;
     frame_origin := frame_origin f; session_state := st; poll := p; polls := l; next_poll := n; posted := posted f |}.
Definition post (m t : jstr) (f : check_session) : check_session :=
  {| callback_client := callback_client f; intervalInSeconds := intervalInSeconds f; stopOnError := stopOnError f;
     frame_origin := frame_origin f; session_state := session_state f; poll := poll f; polls := polls f;
     next_poll := next_poll f; posted := posted f ++ [(m, t)] |}.

(** The function [send], when the frame has a window or not *)
Definition send (window : bool) (f : check_session) : check_session :=
  if negb window || negb (truthy (session_state f)) then f
  else post (to_str (callback_client f) ++ " " ++ to_str (session_state f)) (frame_origin f) f.

(** CheckSessionIFrame.stop *)
Definition stop_frame (f : check_session) : check_session :=
  match poll f with
  | Some h => set_poll VNull None (filter (fun k => k <> h) (polls f)) (next_poll f) f
  | None => set_poll VNull None (polls f) (next_poll f) f
  end.

(** CheckSessionIFrame.start *)
Definition start_frame (window : bool) (st : value) (f : check_session) : check_session :=
  if strict_equal (session_state f) st then f
  else
    let f := stop_frame f in
    let f := send window (set_poll st (poll f) (polls f) (next_poll f) f) in
    set_poll (session_state f) (Some (next_poll f)) (polls f ++ [next_poll f]) (S (next_poll f)) f.

(** An interval of the browser runs. *)
Definition poll_tick (window : bool) (h : nat) (f : check_session) : check_session :=
  if decide (h ∈ polls f) then send window f else f.

(** The handler of messages: the frame afterwards, and whether the callback is called *)
Definition on_message (origin : jstr) (from_frame : bool) (data : value) (f : check_session) : check_session * bool :=
  if bool_decide (origin = frame_origin f) && from_frame then
    match data with
    | VStr t =>
        if decide (t = js "error") then (if truthy (stopOnError f) then stop_frame f else f, false)
        else if decide (t = js "changed") then (stop_frame f, true)
        else (f, false)
    | _ => (f, false)
    end
  else (f, false).

(** ** SessionMonitor *)

Record monitor := { sub : value; sid : value; frame : option check_session }.

Definition initial_monitor : monitor := {| sub := VUndef; sid := VUndef; frame := None |}.

Definition member (v : value) (k : jstr) : value := match field v k with Ok x => x | Throw _ => VUndef end.

(** _start, up to the first wait: whether it goes on to ask for the address of the frame *)
Definition start_monitor (window : bool) (user : obj value) (m : monitor) : monitor * bool :=
  let st := prop user "session_state" in
  if negb (truthy st) then (m, false)
  else
    let profile := prop user "profile" in
    let '(s, i) := if truthy profile then (member profile "sub", member profile "sid") else (VUndef, VUndef) in
    match frame m with
    | Some f => ({| sub := s; sid := i; frame := Some (start_frame window st f) |}, false)
    | None => ({| sub := s; sid := i; frame := None |}, true)
    end.

(** _start, after the metadata: the frame to load, if there is an address for one *)
Definition url_settled (st : settings) (url : outcome value) : option check_session :=
  match url with
  | Done (VStr ((_ :: _) as u)) =>
      Some (new_CheckSessionIFrame (setting st "client_id") u (setting st "checkSessionIntervalInSeconds")
              (setting st "stopCheckSessionOnError"))
  | _ => None
  end.

(** _start, after the frame is loaded *)
Definition frame_loaded (window : bool) (f : check_session) (session_state : value) (m : monitor) : monitor :=
  {| sub := sub m; sid := sid m; frame := Some (start_frame window session_state f) |}.

(** _stop, without the question after a second that an anonymous session is asked for *)
Definition stop_monitor (m : monitor) : monitor :=
  {| sub := VUndef; sid := VUndef; frame := stop_frame <$> frame m |}.

(** The user that a session without a user stands for *)
Definition tmp_user (session : value) : obj value :=
  [(js "session_state", member session "session_state");
   (js "profile", if truthy (member session "sub") && truthy (member session "sid")
      then VObj [(js "sub", member session "sub"); (js "sid", member session "sid")] else VNull)].

(** _callback, after querySessionStatus: the monitor, and the event that is raised *)
Definition query_settled (window : bool) (session : outcome value) (m : monitor) : monitor * option event_name :=
  let left_or_came := if truthy (sub m) then UserSignedOut else UserSignedIn in
  match session with
  | Failed _ => (m, if truthy (sub m) then Some UserSignedOut else None)
  | Done session =>
      match frame m with
      | Some f =>
          if truthy session && strict_equal (member session "sub") (sub m) then
            ({| sub := sub m; sid := sid m; frame := Some (start_frame window (member session "session_state") f) |},
             if strict_equal (member session "sid") (sid m) then None else Some UserSessionChanged)
          else (m, Some left_or_came)
      | None => (m, Some left_or_came)
      end
  end.

(** ** InMemoryWebStorage *)

Definition getItem (data : obj jstr) (key : jstr) : option jstr := get data key.
Definition setItem (data : obj jstr) (key v : jstr) : obj jstr := put data key v.
Definition removeItem (data : obj jstr) (key : jstr) : obj jstr := del data key.
Definition clear (data : obj jstr) : obj jstr := [].
Definition size (data : obj jstr) : Z := Z.of_nat (length (entries data)).
Definition key_at (data : obj jstr) (index : nat) : option jstr := keys_of (entries data) !! index.

(** ** PopupUtils.serialize *)

Definition serialize (features : obj value) : jstr :=
  join "," (omap (fun '(k, v) =>
    if nullish v then None
    else Some (k ++ "=" ++ match v with VBool b => if b then js "yes" else js "no" | _ => to_str v end))
    (entries features)).

(** ** What is watched *)

Inductive frame_event :=
  | Started (window : bool) (st : value)
  | Stopped
  | Message (origin : jstr) (from_frame : bool) (data : value)
  | Ticked (window : bool) (h : nat).

Definition frame_step (f : check_session) (e : frame_event) : check_session :=
  match e with
  | Started w st => start_frame w st f
  | Stopped => stop_frame f
  | Message o from d => (on_message o from d f).1
  | Ticked w h => poll_tick w h f
  end.

(** One interval at most runs, the one that is known; without one no session is
    watched; what is posted is told to the frame's origin only. *)
Record watch_ok (f : check_session) : Prop := {
  watch_polls : polls f = match poll f with Some h => [h] | None => [] end;
  watch_idle : poll f = None -> session_state f = VNull;
  watch_posted : Forall (fun mt => mt.2 = frame_origin f) (posted f);
}.

Lemma send_fields w f :
  polls (send w f) = polls f /\ poll (send w f) = poll f /\ session_state (send w f) = session_state f /\
  next_poll (send w f) = next_poll f /\ frame_origin (send w f) = frame_origin f.
Proof. unfold send. by destruct (_ || _). Qed.

Lemma send_posted w f :
  Forall (fun mt => mt.2 = frame_origin f) (posted f) -> Forall (fun mt => mt.2 = frame_origin f) (posted (send w f)).
Proof.
  intros H. unfold send. destruct (_ || _); [done|]. cbn. apply Forall_app. split; [done|]. by constructor.
Qed.

Lemma send_ok w f : watch_ok f -> watch_ok (send w f).
Proof.
  intros [H1 H2 H3]. destruct (send_fields w f) as (E1 & E2 & E3 & _ & E5).
  split; rewrite ?E1, ?E2, ?E3, ?E5; [done..|]. by apply send_posted.
Qed.

Lemma stop_ok f : watch_ok f -> watch_ok (stop_frame f) /\ poll (stop_frame f) = None /\ polls (stop_frame f) = [].
Proof.
  intros [H1 H2 H3]. unfold stop_frame. destruct (poll f) as [h|]; rewrite H1.
  - rewrite filter_cons_False, filter_nil by auto. done.
  - done.
Qed.

Lemma start_ok w st f : watch_ok f -> watch_ok (start_frame w st f).
Proof.
  intros Hf. unfold start_frame. destruct (strict_equal _ _); [done|]. destruct (stop_ok f Hf) as ([H1 H2 H3] & Hp & Hl).
  set (g := stop_frame f) in *. rewrite Hl. set (g' := set_poll st (poll g) [] (next_poll g) g).
  destruct (send_fields w g') as (E1 & _ & _ & _ & E5). split; cbn.
  - by rewrite E1.
  - done.
  - rewrite E5. by apply (send_posted w g').
Qed.

Lemma message_ok o from d f : watch_ok f -> watch_ok (on_message o from d f).1.
Proof.
  intros Hf. destruct (stop_ok f Hf) as [Hs _]. unfold on_message. destruct (_ && _); [|done].
  destruct d; try done. repeat case_decide; [|done..]. by destruct (truthy _).
Qed.

Lemma frame_step_ok f e : watch_ok f -> watch_ok (frame_step f e).
Proof.
  destruct e; cbn [frame_step]; auto using start_ok, message_ok.
  - intros Hf. by apply stop_ok.
  - intros Hf. unfold poll_tick. case_decide; [by apply send_ok | done].
Qed.

(** Whatever starts, stops, messages and ticks happen, one interval at most sends,
    and it sends to the origin of the frame only. *)
Lemma frame_watched client url seconds stop_on_error es :
  watch_ok (foldl frame_step (new_CheckSessionIFrame client url seconds stop_on_error) es).
Proof.
  generalize (new_CheckSessionIFrame client url seconds stop_on_error)
    (ltac:(by split) : watch_ok (new_CheckSessionIFrame client url seconds stop_on_error)).
  induction es as [|e es IH]; intros f Hf; cbn; [done|]. by apply IH, frame_step_ok.
Qed.

(** A message of another page, or of another frame, is not obeyed. *)
Lemma foreign_message_ignored o from d f :
  o <> frame_origin f \/ from = false -> on_message o from d f = (f, false).
Proof. unfold on_message. intros [H| ->]; [by rewrite bool_decide_false|by rewrite andb_false_r]. Qed.

(** The end of a session is told only when a subject was signed in and the
    provider does not say that the same one still is. *)
Lemma signed_out_told w session m m' :
  query_settled w session m = (m', Some UserSignedOut) ->
  truthy (sub m) = true /\ forall v, session = Done v -> is_Some (frame m) ->
    truthy v && strict_equal (member v "sub") (sub m) = false.
Proof.
  unfold query_settled. destruct session as [v|e].
  - destruct (frame m) as [f|].
    + destruct (_ && _) eqn:E; [by destruct (strict_equal _ (sid m))|].
      destruct (truthy (sub m)); [|done]. intros _. split; [done|]. by intros ? [= <-].
    + destruct (truthy (sub m)); [|done]. intros _. split; [done|]. by intros ? _ [].
  - destruct (truthy (sub m)); [|done]. by intros _.
Qed.

Example origin_examples : map origin_of [js "https://idp.test/frame?x"; js "https://idp.test"; js "frame"] =
  [js "https://idp.test"; []; []].
Proof. by vm_compute. Qed.
