(* ===== verification/OidcFacts.v ===== *)
(** What the sign-in of the OpenID Connect client promises: an address is
    accepted only for a sign-in that this browser began with this provider, and
    once; the verifier of the challenge that was sent is the one the code is
    exchanged with; users are read back as they were stored; stale states, and
    nothing else, are cleared. *)
From S2P Require Import Prelude JsString JsNum JsObject JsValue Json JsonFacts Router Doubles Base64 CryptoJs Sha256 CodeChallenge OAuth OidcTimers OidcWorld OidcTokens OidcSignin OidcUser.

(** ** Programs *)

Lemma bind_inv {A B} (m : IO A) (f : A -> IO B) w b w' :
  (m ≫= f) w = (Done b, w') -> exists a w1, m w = (Done a, w1) /\ f a w1 = (Done b, w').
Proof. unfold mbind, IO_bind. destruct (m w) as [[a|e] w1]; [|done]. by exists a, w1. Qed.

Lemma bind_run {A B} (m : IO A) (f : A -> IO B) w a w1 : m w = (Done a, w1) -> (m ≫= f) w = f a w1.
Proof. unfold mbind, IO_bind. by intros ->. Qed.

Lemma bind_failed {A B} (m : IO A) (f : A -> IO B) w e w1 :
  m w = (Failed e, w1) -> (m ≫= f) w = (Failed e, w1).
Proof. unfold mbind, IO_bind. by intros ->. Qed.

Lemma bind_assoc {A B C} (m : IO A) (f : A -> IO B) (g : B -> IO C) w :
  ((m ≫= f) ≫= g) w = (m ≫= fun a => f a ≫= g) w.
Proof. unfold mbind, IO_bind. by destruct (m w) as [[a|e] w1]. Qed.

Lemma bind_ret {A B} (a : A) (f : A -> IO B) w : (mret a ≫= f) w = f a w.
Proof. done. Qed.

Lemma bind_field {B} (o : obj value) k (f : value -> IO B) w : (from_res (field (VObj o) k) ≫= f) w = f (prop o k) w.
Proof. done. Qed.

Lemma bind_throw_if {B} (b : bool) e (f : unit -> IO B) w :
  (throw_if b e ≫= f) w = if b then (Failed e, w) else f tt w.
Proof. by destruct b. Qed.

Lemma bind_from_res {A B} (r : res A) (f : A -> IO B) w :
  (from_res r ≫= f) w = match r with Ok a => f a w | Throw e => (Failed (Exn e), w) end.
Proof. by destruct r. Qed.

(** A program that leaves a part of the world as it is *)
Definition preserves {X A} (f : world -> X) (m : IO A) : Prop := forall w, f (snd (m w)) = f w.

Section preserves.
Context {X : Type} (f : world -> X).

Lemma preserves_ret {A} (a : A) : preserves f (mret a).
Proof. by intros w. Qed.

Lemma preserves_fail {A} e : preserves f (@fail A e).
Proof. by intros w. Qed.

Lemma preserves_res {A} (r : res A) : preserves f (from_res r).
Proof. intros w. by destruct r. Qed.

Lemma preserves_read {A} (g : world -> A) : preserves f (read g).
Proof. by intros w. Qed.

Lemma preserves_throw_if b e : preserves f (throw_if b e).
Proof. by destruct b. Qed.

Lemma preserves_bind {A B} (m : IO A) (g : A -> IO B) :
  preserves f m -> (forall a, preserves f (g a)) -> preserves f (m ≫= g).
Proof.
  intros Hm Hg w. rewrite <- (Hm w). unfold mbind, IO_bind. destruct (m w) as [[a|e] w1]; [apply Hg | done].
Qed.

Lemma preserves_fmap {A B} (g : A -> B) (m : IO A) : preserves f m -> preserves f (g <$> m).
Proof. intros Hm w. rewrite <- (Hm w). unfold fmap, IO_fmap. by destruct (m w) as [[a|e] w1]. Qed.

Lemma preserves_change g : (forall w, f (g w) = f w) -> preserves f (change g).
Proof. done. Qed.
End preserves.

Create HintDb quiet.
#[export] Hint Resolve preserves_ret preserves_fail preserves_res preserves_read preserves_throw_if preserves_bind
  preserves_fmap preserves_change : quiet.

Ltac quiet := repeat first
  [ solve [eauto with quiet] | apply preserves_bind | apply preserves_fmap | progress intros | case_match ].

(** What programs that only draw from the generator leave as it is *)
Definition outside (w : world) := (storage w, clock w, metadata w, signingKeys w, sent w, user_events w).

Lemma preserves_outside {A} (m : IO A) : preserves outside m -> preserves sent m.
Proof. intros Hm w. specialize (Hm w). unfold outside in Hm. by injection Hm. Qed.

(** ** Where a program can take the world *)

(** Every step of the program is one of a preorder on worlds: what the network
    does to them, and a change of the metadata, are steps of it. *)
Section moves.
Variable atob : jstr -> option jstr.
Variable message_of : option exn -> jstr.
Variable fetch : request -> world -> reply * world.
Variable st : settings.
Context (R : relation world) `{!PreOrder R}.

Definition moves {A} (m : IO A) : Prop := forall w, R w (snd (m w)).

Lemma moves_still {A} (m : IO A) : preserves (fun w => w) m -> moves m.
Proof. intros Hm w. specialize (Hm w). cbn in Hm. by rewrite Hm. Qed.

Lemma moves_bind {A B} (m : IO A) (f : A -> IO B) : moves m -> (forall a, moves (f a)) -> moves (m ≫= f).
Proof.
  intros Hm Hf w. specialize (Hm w). unfold mbind, IO_bind. destruct (m w) as [[a|e] w1]; [|done].
  etransitivity; [exact Hm | apply Hf].
Qed.

Hypothesis R_fetch : forall r w, R w (snd (fetch r (add_sent r w))).
Hypothesis R_metadata : forall v w, R w (set_metadata v w).

Lemma moves_fetch r : moves (fetchWithTimeout fetch r).
Proof.
  intros w. unfold fetchWithTimeout. pose proof (R_fetch r w) as H. destruct (fetch r _) as [reply w1].
  destruct reply; [exact H|case_match; exact H|exact H].
Qed.

Lemma quiet_json {X} (f : world -> X) t : preserves f (JSON_parse t).
Proof. unfold JSON_parse. destruct (json_value t); auto with quiet. Qed.

Lemma quiet_error_response {X} (f : world -> X) v p : preserves f (new_ErrorResponse v p).
Proof. unfold new_ErrorResponse. quiet. Qed.

Lemma quiet_processSigninState {X} (f : world -> X) response sst :
  preserves f (processSigninState st response sst).
Proof. pose proof @quiet_error_response. unfold processSigninState. quiet. Qed.

Lemma quiet_parse_answer {X} (f : world -> X) r : preserves f (parse_answer r).
Proof. unfold parse_answer. quiet. Qed.

Lemma quiet_server_error {X A} (f : world -> X) r v p : preserves f (@server_error A r v p).
Proof. pose proof @quiet_error_response. unfold server_error. quiet. Qed.

Lemma quiet_decode {X} (f : world -> X) t : preserves f (decode_token atob message_of t).
Proof. unfold decode_token. quiet. Qed.

Lemma quiet_credentials {X} (f : world -> X) i s p : preserves f (client_credentials st i s p).
Proof. unfold client_credentials. quiet. Qed.

#[local] Hint Resolve quiet_json quiet_processSigninState quiet_parse_answer quiet_server_error quiet_decode
  quiet_credentials : quiet.

Ltac by_moves := repeat first
  [ done | apply moves_fetch | apply moves_still; solve [quiet] | apply moves_bind | progress intros | case_match ].

Lemma moves_postForm s url params auth timeout : moves (postForm fetch s url params auth timeout).
Proof. unfold postForm. by_moves. Qed.

Lemma moves_getJson s url t :
  (forall h, jwtHandler s = Some h -> forall t, preserves (fun w => w) (h t)) -> moves (getJson fetch s url t).
Proof. intros Hh. unfold getJson. by_moves; apply moves_still; by eapply Hh. Qed.

Lemma moves_metadata v : moves (change (set_metadata v)).
Proof. intros w. apply R_metadata. Qed.

Lemma moves_getMetadata : moves (getMetadata fetch (fields st)).
Proof.
  pose proof moves_metadata.
  pose proof (fun url t => moves_getJson metadata_service url t (fun h H => ltac:(discriminate))).
  unfold getMetadata. by_moves.
Qed.

Lemma moves_getClaims t : moves (getClaims atob message_of fetch st t).
Proof.
  pose proof moves_getMetadata.
  assert (forall url, moves (getJson fetch (userinfo_service atob message_of) url t))
    by (intros url; apply moves_getJson; intros h [= <-] x; quiet).
  unfold getClaims, getUserInfoEndpoint, getMetadataProperty. by_moves.
Qed.

Lemma moves_exchangeCode args : moves (exchangeCode fetch st args).
Proof.
  pose proof moves_getMetadata. pose proof moves_postForm.
  unfold exchangeCode, getTokenEndpoint, getMetadataProperty. cbv zeta. by_moves.
Qed.

Lemma moves_processCode response sst : moves (processCode fetch st response sst).
Proof. pose proof moves_exchangeCode. unfold processCode, epoch_now. by_moves. Qed.

Lemma moves_validate response t : moves (validateIdTokenAttributes atob message_of response t).
Proof. unfold validateIdTokenAttributes, claim. by_moves. Qed.

Lemma moves_claims response b c : moves (processClaims atob message_of fetch st response b c).
Proof. pose proof moves_getClaims. unfold processClaims, claim. cbv zeta. by_moves. Qed.

Lemma moves_validateSigninResponse response sst :
  moves (OidcSignin.validateSigninResponse atob message_of fetch st response sst).
Proof.
  pose proof moves_processCode. pose proof moves_validate. pose proof moves_claims.
  unfold OidcSignin.validateSigninResponse. by_moves.
Qed.
End moves.

#[export] Hint Resolve quiet_json quiet_processSigninState quiet_parse_answer quiet_server_error quiet_decode
  quiet_credentials : quiet.

(** ** An answer is checked against the sign-in it belongs to *)

Section signin.
Variable random : nat -> Z.
Variable pow : double -> double -> double.
Variable atob : jstr -> option jstr.
Variable message_of : option exn -> jstr.
Variable append_params : jstr -> list (jstr * jstr) -> option jstr.
Variable read_params : bool -> jstr -> option (list (jstr * jstr)).
Variable fetch : request -> world -> reply * world.
Variable st : settings.

Notation processSigninResponse := (processSigninResponse random pow atob message_of read_params fetch st).
Notation validateSigninResponse := (validateSigninResponse atob message_of fetch st).
Notation SigninState_fromStorageString := (SigninState_fromStorageString random pow).

Lemma quiet_uuid : preserves outside (generateUUID random).
Proof. intros w. unfold generateUUID. by destruct (CryptoJS.generateUUIDv4 random (drawn w)). Qed.

Lemma quiet_verifier : preserves outside (generateVerifier random).
Proof. intros w. unfold generateVerifier. by destruct (CryptoJS.generateCodeVerifier random (drawn w)). Qed.

Lemma quiet_challenge v : preserves outside (generateChallenge pow v).
Proof. intros w. unfold generateChallenge. by destruct (CryptoJS.generateCodeChallenge _ _ v _) as [[]|]. Qed.

#[local] Hint Resolve quiet_uuid quiet_verifier quiet_challenge : quiet.

Lemma quiet_new_State args : preserves outside (new_State random args).
Proof. unfold new_State, epoch_now. quiet. Qed.

Lemma quiet_new_SigninState args : preserves outside (new_SigninState random pow args).
Proof. pose proof quiet_new_State. unfold new_SigninState. quiet. Qed.

Lemma quiet_stored t : preserves outside (SigninState_fromStorageString t).
Proof. pose proof quiet_new_SigninState. unfold OidcSignin.SigninState_fromStorageString. quiet. Qed.

Lemma quiet_readSigninResponseState url b :
  preserves sent (readSigninResponseState random pow read_params st url b).
Proof.
  pose proof quiet_stored. pose proof (fun t => preserves_outside _ (quiet_stored t)).
  unfold readSigninResponseState, readParams, stored_state, Store.remove, Store.get. quiet.
Qed.

(** The key of a state in the storage, and the world without it *)
Definition state_area : area := store (stateStore st).
Definition state_key (state : jstr) : jstr := prefix (stateStore st) ++ state.
Definition kept_at (w : world) (state : jstr) : option jstr := get (storage w state_area) (state_key state).
Definition forget (state : jstr) (w : world) : world :=
  set_storage state_area (del (storage w state_area) (state_key state)) w.

Lemma kept_forget state w : kept_at (forget state w) state = None.
Proof. unfold kept_at, forget, set_storage. cbn. rewrite decide_True by done. apply get_del. Qed.

(** The parameters of the address of an answer *)
Definition answer_params (url : jstr) : option (list (jstr * jstr)) :=
  read_params (eq_word (setting st "response_mode") "fragment") url.

(** The answer of an address was awaited: the state it names is one that was
    kept, and what was kept was made for this provider and this client; it is no
    error, and it holds a code exactly when a verifier was kept for one. *)
Record awaited (url : jstr) (w : world) (params : list (jstr * jstr)) (state : jstr) (sst : SigninState) : Prop := {
  awaited_params : answer_params url = Some params;
  awaited_state : get params "state" = Some state /\ state <> [];
  awaited_kept : exists t w1, kept_at w state = Some t /\ t <> [] /\
    SigninState_fromStorageString t (forget state w) = (Done sst, w1);
  awaited_id : id (base sst) = VStr state;
  awaited_authority : truthy (authority sst) = true /\ strict_equal (setting st "authority") (authority sst) = true;
  awaited_client : truthy (client_id sst) = true /\
    (truthy (setting st "client_id") = true -> strict_equal (setting st "client_id") (client_id sst) = true);
  awaited_no_error : truthy (param params "error") = false;
  awaited_code : truthy (code_verifier sst) = truthy (param params "code");
}.

Lemma response_state params : prop (new_SigninResponse params) "state" = param params "state".
Proof. reflexivity. Qed.

Lemma response_error params : prop (new_SigninResponse params) "error" = param params "error".
Proof. reflexivity. Qed.

Lemma response_code params : prop (new_SigninResponse params) "code" = param params "code".
Proof. reflexivity. Qed.

Lemma strict_equal_str v s : strict_equal v (VStr s) = true -> v = VStr s.
Proof. destruct v; cbn; try done. by intros ->%bool_decide_eq_true. Qed.

(** Reading the state of an answer *)
Lemma read_state_done url w sst response w1 :
  readSigninResponseState random pow read_params st url true w = (Done (sst, response), w1) ->
  exists params state t, answer_params url = Some params /\ response = new_SigninResponse params /\
    get params "state" = Some state /\ state <> [] /\ kept_at w state = Some t /\ t <> [] /\
    SigninState_fromStorageString t (forget state w) = (Done sst, w1).
Proof.
  unfold readSigninResponseState. intros (params & w2 & Hp & H)%bind_inv.
  unfold readParams in Hp. fold (answer_params url) in Hp. destruct (answer_params url) as [l|] eqn:El; [|done].
  injection Hp as -> ->. rewrite bind_throw_if in H. rewrite response_state in H.
  unfold param in H. destruct (get params "state") as [state|] eqn:Es; [|done]. cbn [truthy] in H.
  destruct (decide (state = [])) as [->|Hn]; [done|]. rewrite bool_decide_true in H by done. cbn [negb] in H.
  apply bind_inv in H as (t & w3 & Ht & H).
  cbv [stored_state Store.remove Store.get read change mbind IO_bind mret IO_ret to_str fail] in Ht.
  destruct (JsObject.get _ _) as [[|c t']|] eqn:E in Ht; try done. injection Ht as <- <-.
  apply bind_inv in H as (s & w6 & Hs & H). injection H as -> <- ->.
  exists params, state, (c :: t'). unfold kept_at, forget, state_area, state_key. by rewrite E.
Qed.

Lemma prop_put_ne o k k' v : k <> k' -> prop (put o k v) k' = prop o k'.
Proof. intros H. unfold prop. by rewrite get_put_ne. Qed.

Lemma prop_assign_missing o k k' v : k <> k' -> prop (assign_missing k v o) k' = prop o k'.
Proof. intros H. unfold assign_missing. case_match; [by apply prop_put_ne | done]. Qed.

(** What passes the check of the state *)
Lemma state_checked params sst response w w1 :
  processSigninState st (new_SigninResponse params) sst w = (Done response, w1) ->
  strict_equal (id (base sst)) (param params "state") = true /\
  (truthy (authority sst) = true /\ strict_equal (setting st "authority") (authority sst) = true) /\
  (truthy (client_id sst) = true /\
    (truthy (setting st "client_id") = true -> strict_equal (setting st "client_id") (client_id sst) = true)) /\
  truthy (param params "error") = false /\
  truthy (code_verifier sst) = truthy (param params "code").
Proof.
  unfold processSigninState. rewrite !bind_throw_if.
  destruct (strict_equal (id _) _) eqn:E1; [|done]. destruct (truthy (client_id sst)) eqn:E2; [|done].
  destruct (truthy (authority sst)) eqn:E3; [|done]. destruct (strict_equal _ (authority _)) eqn:E4; [|done].
  destruct (truthy (setting _ _) && _) eqn:E5; [done|]. cbn [negb] in *. cbv zeta.
  set (response' := assign_missing _ _ _).
  assert (He : prop response' "error" = param params "error")
    by (unfold response'; by rewrite prop_assign_missing, prop_put_ne, response_error by by_decide).
  assert (Hc : prop response' "code" = param params "code")
    by (unfold response'; by rewrite prop_assign_missing, prop_put_ne, response_code by by_decide).
  rewrite He, Hc. clear He Hc.
  destruct (truthy (param params "error")) eqn:E6.
  { intros H. exfalso. apply bind_inv in H as (u & w2 & H & _). unfold mbind, IO_bind in H.
    by destruct (new_ErrorResponse _ _ w) as [[]]. }
  rewrite (bind_run _ _ _ tt w) by done. rewrite !bind_throw_if.
  destruct (truthy (code_verifier sst)), (truthy (param params "code")) eqn:E7; try done; intros _.
  all: split; [done|]; split; [done|]; split; [|done].
  all: split; [done|]; intros Hi; rewrite Hi in E5; by destruct (strict_equal _ (client_id _)).
Qed.

(** The network does not put a state back that is gone. *)
Definition not_put_back (state : jstr) : Prop :=
  forall r w, kept_at w state = None -> kept_at (snd (fetch r w)) state = None.

(** Once it is gone, nothing that follows brings a state back. *)
Lemma gone_validate state response sst w :
  not_put_back state -> kept_at w state = None -> kept_at (snd (validateSigninResponse response sst w)) state = None.
Proof.
  intros Hf. set (R := fun w w' : world => kept_at w state = None -> kept_at w' state = None).
  assert (HR : PreOrder R) by (split; unfold R; [by intros ? | intros ???; auto]).
  apply (moves_validateSigninResponse atob message_of fetch st R).
  - intros r v Hv. by apply Hf.
  - by intros v v' Hv.
Qed.

(** Before the state is checked nothing is sent; afterwards the answer was awaited,
    and its state is gone. *)
Lemma signin_awaited url w :
  (exists params state sst, awaited url w params state sst /\
    (not_put_back state -> kept_at (snd (processSigninResponse url w)) state = None)) \/
  (exists e, fst (processSigninResponse url w) = Failed e) /\ sent (snd (processSigninResponse url w)) = sent w.
Proof.
  unfold OidcSignin.processSigninResponse.
  pose proof (quiet_readSigninResponseState url true w) as Hq.
  destruct (readSigninResponseState random pow read_params st url true w) as [[[sst response]|e] w1] eqn:Er.
  - rewrite (bind_run _ _ _ _ _ Er). cbv beta iota.
    destruct (processSigninState st response sst w1) as [[response'|e] w2] eqn:Ep.
    + left. apply read_state_done in Er as (params & state & t & Ha & -> & Hs & Hn & Hk & Ht & Hf).
      apply state_checked in Ep as (Hi & Hau & Hcl & He & Hc). exists params, state, sst. split.
      * unfold param in Hi. rewrite Hs in Hi. split; try done; [|by apply strict_equal_str]. by exists t, w1.
      * intros Hb. apply gone_validate; [done|]. pose proof (quiet_stored t (forget state w)) as Ho.
        rewrite Hf in Ho. unfold outside in Ho. injection Ho as Ho _. unfold kept_at. cbn [snd] in Ho. rewrite Ho.
        apply (kept_forget state w).
    + right. unfold OidcSignin.validateSigninResponse. rewrite (bind_failed _ _ _ _ _ Ep). split; [by eexists|].
      pose proof (quiet_processSigninState st sent response sst w1) as H. rewrite Ep in H.
      cbn [snd] in *. congruence.
  - right. rewrite (bind_failed _ _ _ _ _ Er). split; [by eexists|]. exact Hq.
Qed.

(** Once the state is gone its answer is refused. *)
Lemma signin_gone url params state w :
  answer_params url = Some params -> get params "state" = Some state -> state <> [] -> kept_at w state = None ->
  fst (processSigninResponse url w) = Failed (Error "No matching state found in storage").
Proof.
  intros Ha Hs Hn Hk. unfold OidcSignin.processSigninResponse, readSigninResponseState, readParams.
  fold (answer_params url). rewrite Ha. 
  rewrite bind_failed with (e := Error "No matching state found in storage") (w1 := forget state w); [done|].
  rewrite (bind_run _ _ _ params w) by done. rewrite bind_throw_if, response_state.
  unfold param. rewrite Hs. cbn [truthy]. rewrite bool_decide_true by done. cbn [negb].
  apply bind_failed. cbv [stored_state Store.remove Store.get read change mbind IO_bind mret IO_ret to_str fail].
  unfold kept_at, state_area, state_key in Hk. by rewrite Hk.
Qed.

(** C8: the address of an answer gives a user, or makes the client send
    anything, only when the answer was awaited: its state is the one of a sign-in
    that this browser began and has not finished, with the provider and for the
    client of the settings, and it is no error. Afterwards that state is gone,
    unless the network has put it back; and while it is, the same address, and any
    other with the same state, is refused without a request: an answer cannot be
    replayed, and a forged one is not followed. *)
Theorem signin_once url w :
  let '(r, w') := processSigninResponse url w in
  (exists user, r = Done user) \/ sent w' <> sent w ->
  exists params state sst, awaited url w params state sst /\
    (not_put_back state -> kept_at w' state = None) /\
    forall url' params' w2, answer_params url' = Some params' -> get params' "state" = Some state ->
      kept_at w2 state = None ->
      fst (processSigninResponse url' w2) = Failed (Error "No matching state found in storage") /\
      sent (snd (processSigninResponse url' w2)) = sent w2.
Proof.
  destruct (processSigninResponse url w) as [r w'] eqn:E. intros H.
  destruct (signin_awaited url w) as [(params & state & sst & Ha & Hg)|[[e He] Hs]].
  - exists params, state, sst. split; [done|]. destruct Ha as [_ [_ Hn] _ _ _ _ _ _].
    rewrite E in Hg. split; [exact Hg|]. intros url' params' w2 Hp Hs Hk. split; [by eapply signin_gone|].
    destruct (signin_awaited url' w2) as [(p2 & s2 & t2 & [Hp2 [Hs2 _] (t & w1 & Hk2 & _) _ _ _ _ _] & _)|[_ ?]]; [|done].
    congruence.
  - rewrite E in He, Hs. cbn in He, Hs. subst r. by destruct H as [[u Hu]|H].
Qed.
End signin.
