(* ===== verification/OidcPkce.v ===== *)
(** Proof Key for Code Exchange, from the start of a sign-in to the exchange of
    its code: what is kept of a sign-in is read back from its text, and the
    verifier that is sent with the code is the one whose challenge was sent when
    the sign-in began. *)
From S2P Require Import Prelude JsString JsNum Uri JsObject JsValue Json JsonFacts Router Doubles CryptoJs Sha256 CodeChallenge OAuth OidcTimers OidcWorld OidcTokens OidcSignin OidcFacts.

(** ** Texts of the generator *)

Lemma unreserved_unit c : unreserved c = true -> 0 <= c < 128.
Proof.
  unfold unreserved, is_alnum, is_digit, is_upper, is_lower.
  rewrite !orb_true_iff, !andb_true_iff, !Z.leb_le, bool_decide_eq_true, !elem_of_cons, elem_of_nil. lia.
Qed.

Lemma unreserved_text s : Forall (fun c => unreserved c = true) s -> wf_jstr s /\ utf8_of s = Some s.
Proof.
  induction 1 as [|c s Hc _ [IHw IHu]]; [by split; [constructor|]|]. apply unreserved_unit in Hc.
  split; [constructor; [unfold is_code_unit; lia | done]|]. destruct (ascii_not_surrogate c) as [Ht Hl]; [lia|].
  cbn [utf8_of]. rewrite Hl, Ht, IHu. cbn. unfold utf8. by rewrite (proj2 (Z.ltb_lt c 128)) by lia.
Qed.

Lemma uuid_text random n :
  let s := (CryptoJS.generateUUIDv4 random n).1 in wf_jstr s /\ s <> [].
Proof.
  rewrite generateUUIDv4_spec. cbn [fst]. assert (Hd : Forall (fun c => unreserved c = true) digits_template) by by_decide.
  destruct (fill_with_unreserved digits_template _ (drawn_in_range random n digits_template) Hd) as [Hu Hl].
  split; [by apply unreserved_text|]. intros He. by rewrite He in Hl.
Qed.

Lemma verifier_text random n :
  let v := (CryptoJS.generateCodeVerifier random n).1 in
  wf_jstr v /\ utf8_of v = Some v /\ length v = 96%nat.
Proof.
  rewrite generateCodeVerifier_eq. cbn [fst].
  assert (Hd : Forall (fun c => unreserved c = true) verifier_template) by by_decide.
  destruct (fill_with_unreserved verifier_template _ (drawn_in_range random n verifier_template) Hd) as [Hu Hl].
  destruct (unreserved_text _ Hu). by rewrite Hl.
Qed.

(** ** Texts of states *)

Lemma get_filter {A} (P : jstr * A -> Prop) `{!forall kv, Decision (P kv)} (o : obj A) k :
  NoDup (keys_of o) ->
  get (filter P o) k = match get o k with Some v => if decide (P (k, v)) then Some v else None | None => None end.
Proof.
  induction o as [|[k' v] o IH]; [done|]. unfold keys_of. cbn [fmap list_fmap fst]. intros [Hk Hd]%NoDup_cons.
  specialize (IH Hd). rewrite filter_cons. cbn [get].
  destruct (decide (k' = k)) as [->|Hn].
  - destruct (decide (P (k, v))); [cbn [get]; by rewrite decide_True|].
    rewrite IH. apply get_None in Hk. by rewrite Hk.
  - destruct (decide (P (k', v))); [cbn [get]; by rewrite decide_False | done].
Qed.

Lemma get_map_snd {A B} (f : A -> B) (o : obj A) k : get (map (fun kv => (kv.1, f kv.2)) o) k = f <$> get o k.
Proof. induction o as [|[k' v] o IH]; [done|]. cbn. by case_decide. Qed.

Lemma keys_map_snd {A B} (f : A -> B) (o : obj A) : keys_of (map (fun kv => (kv.1, f kv.2)) o) = keys_of o.
Proof. unfold keys_of. induction o as [|kv o IH]; [done|]. cbn. by f_equal. Qed.

(** The object that is read back from the text of an object *)
Definition norm_members (o : obj value) : obj value :=
  filter (fun kv => defined kv.2 = true) (entries (map (fun kv => (kv.1, json_norm kv.2)) o)).

Lemma prop_norm o k : NoDup (keys_of o) -> prop (norm_members o) k = json_norm (prop o k).
Proof.
  intros Hd. unfold prop, norm_members. rewrite get_filter.
  - rewrite get_entries by (by rewrite keys_map_snd). rewrite get_map_snd.
    destruct (get o k) as [v|]; [|done]. cbn. rewrite defined_norm. case_decide as H; [done|]. by destruct v.
  - apply NoDup_entries. by rewrite keys_map_snd.
Qed.

Lemma json_text_back v : json_data v -> defined v = true -> json_value (JSON_text v) = Some (json_norm v).
Proof.
  intros Hv Hd. unfold JSON_text. destruct (str_defined None [] [] v Hd) as (t & Ht & _). rewrite Ht.
  by apply (str_round_trip [] v t).
Qed.

Lemma field_norm o k : NoDup (keys_of o) -> field (VObj (norm_members o)) k = Ok (json_norm (prop o k)).
Proof. intros Hd. cbn [field]. f_equal. by apply prop_norm. Qed.

Lemma truthy_norm v : truthy (json_norm v) = truthy v.
Proof. by destruct v. Qed.

Section exchange.
Variable random : nat -> Z.
Variable pow : double -> double -> double.
Hypothesis Hpow : pow_approximates pow.

(** A verifier, and its challenge *)
Definition verifier (v : jstr) : Prop := wf_jstr v /\ utf8_of v = Some v /\ length v = 96%nat.
Definition S256 (v : jstr) : jstr := base64url (FIPS.sha256 v).

Lemma verifier_truthy v : verifier v -> truthy (VStr v) = true.
Proof. intros (_ & _ & Hl). by destruct v. Qed.

Lemma verifier_small v : verifier v -> small v.
Proof. intros (_ & _ & Hl). unfold small. rewrite Hl. lia. Qed.

Lemma challenge_runs v w : verifier v ->
  exists w1, generateChallenge pow v w = (Done (S256 v), w1) /\ outside w1 = outside w.
Proof.
  intros Hv. pose proof (verifier_small v Hv) as Hs. destruct Hv as (Hw & Hu & _).
  destruct (constants_spec pow Hpow) as [HH HK].
  pose proof (generateCodeChallenge_spec _ _ v v (shared_array w) HH HK Hw Hu Hs) as H. fold (S256 v) in H.
  revert H. generalize (S256 v). intros c. unfold generateChallenge. 
  destruct (CryptoJS.generateCodeChallenge _ _ v _) as [[c' W]|]; [|done].
  cbn. intros [= ->]. eexists. split; reflexivity.
Qed.

Lemma S256_truthy v : verifier v -> truthy (VStr (S256 v)) = true.
Proof.
  intros Hv. pose proof (verifier_small v Hv) as Hs. destruct Hv as (Hw & Hu & _).
  destruct (constants_spec pow Hpow) as [HH HK]. apply bool_decide_eq_true.
  exact (challenge_nonempty _ _ v v HH HK Hw Hu Hs).
Qed.

Lemma verifier_runs w :
  exists v w1, generateVerifier random w = (Done v, w1) /\ verifier v /\ outside w1 = outside w.
Proof.
  unfold generateVerifier. pose proof (verifier_text random (drawn w)) as H.
  destruct (CryptoJS.generateCodeVerifier random (drawn w)) as [v n]. by exists v; eexists.
Qed.

Lemma uuid_runs w :
  exists s w1, generateUUID random w = (Done s, w1) /\ wf_jstr s /\ s <> [] /\ outside w1 = outside w.
Proof.
  unfold generateUUID. pose proof (uuid_text random (drawn w)) as [H Hs].
  destruct (CryptoJS.generateUUIDv4 random (drawn w)) as [s n]. by exists s; eexists.
Qed.

Lemma signin_keys sst : NoDup (keys_of (signin_members sst)).
Proof.
  set (ks := keys_of (signin_members sst)). vm_compute in ks. assert (H : NoDup ks) by by_decide. exact H.
Qed.

(** A state whose text can be read *)
Record kept_state (sst : SigninState) (state v : jstr) : Prop := {
  kept_data : json_data (VObj (signin_members sst));
  kept_id : id (base sst) = VStr state;
  kept_named : state <> [];
  kept_verifier : code_verifier sst = VStr v;
  kept_verifier_text : verifier v;
}.

(** The constructors, on objects *)
Definition created_of (o : obj value) (w : world) : value :=
  if truthy (prop o "created") && match to_num (prop o "created") with Some n => is_positive n | None => false end
  then prop o "created" else VInt (epoch w).

Lemma new_State_given o w : truthy (prop o "id") = true ->
  new_State random (VObj o) w =
  (Done {| id := prop o "id"; data := prop o "data"; created := created_of o w;
           request_type := prop o "request_type" |}, w).
Proof. intros Hi. unfold new_State. by rewrite bind_field, Hi. Qed.

Lemma outside_epoch w1 w : outside w1 = outside w -> epoch w1 = epoch w.
Proof. unfold outside, epoch. by intros [= _ ->]. Qed.

Lemma new_State_drawn o w : truthy (prop o "id") = false ->
  exists s w1, new_State random (VObj o) w =
    (Done {| id := VStr s; data := prop o "data"; created := created_of o w;
             request_type := prop o "request_type" |}, w1) /\
    wf_jstr s /\ s <> [] /\ outside w1 = outside w.
Proof.
  intros Hi. destruct (uuid_runs w) as (s & w1 & Hu & Hw & Hn & Ho). exists s, w1.
  split; [|done]. unfold new_State. rewrite bind_field, Hi.
  rewrite bind_run with (a := VStr s) (w1 := w1) by (unfold fmap, IO_fmap; by rewrite Hu).
  unfold created_of. by rewrite <- (outside_epoch _ _ Ho).
Qed.

(** A sign-in with a verifier, made now or given *)
Definition state_of (base : State) (v : jstr) (o : obj value) : SigninState :=
  {| base := base; code_verifier := VStr v; code_challenge := VStr (S256 v); authority := prop o "authority";
     client_id := prop o "client_id"; redirect_uri := prop o "redirect_uri"; scope := prop o "scope";
     client_secret := prop o "client_secret"; extraTokenParams := prop o "extraTokenParams";
     response_mode := prop o "response_mode"; skipUserInfo := prop o "skipUserInfo" |}.

Lemma new_SigninState_runs o base w w0 :
  new_State random (VObj o) w = (Done base, w0) ->
  prop o "code_verifier" = VBool true \/ (exists v, prop o "code_verifier" = VStr v /\ verifier v) ->
  exists v w1, (prop o "code_verifier" = VBool true \/ prop o "code_verifier" = VStr v) /\ verifier v /\
    new_SigninState random pow (VObj o) w = (Done (state_of base v o), w1) /\ outside w1 = outside w0.
Proof.
  intros Hb Hc.
  assert (Hv : exists v w1, (prop o "code_verifier" = VBool true \/ prop o "code_verifier" = VStr v) /\ verifier v /\
    match prop o "code_verifier" with
    | VBool true => VStr <$> generateVerifier random
    | _ => mret (if truthy (prop o "code_verifier") then prop o "code_verifier" else VUndef)
    end w0 = (Done (VStr v), w1) /\ outside w1 = outside w0).
  { destruct Hc as [->|(v & -> & Hv)].
    - destruct (verifier_runs w0) as (v & w1 & Hr & Hv & Ho). exists v, w1. split; [by left|]. split; [done|].
      split; [|done]. unfold fmap, IO_fmap. by rewrite Hr.
    - exists v, w0. cbv beta iota zeta. rewrite verifier_truthy by done. split; [by right|]. by split. }
  destruct Hv as (v & w1 & Hc' & Hv & Hr & Ho). destruct (challenge_runs v w1 Hv) as (w2 & Hch & Ho2).
  exists v, w2. split; [done|]. split; [done|]. split; [|congruence].
  unfold new_SigninState. rewrite (bind_run _ _ _ _ _ Hb), bind_field, (bind_run _ _ _ _ _ Hr).
  rewrite bind_run with (a := VStr (S256 v)) (w1 := w2).
  - reflexivity.
  - rewrite verifier_truthy by done. unfold fmap, IO_fmap. rewrite Hch. reflexivity.
Qed.

(** What is kept of a sign-in is read back. *)
Lemma state_read_back sst state v w : kept_state sst state v ->
  exists base w1,
    SigninState_fromStorageString random pow (SigninState_toStorageString sst) w =
      (Done (state_of base v (norm_members (signin_members sst))), w1) /\
    id base = VStr state /\ outside w1 = outside w.
Proof.
  intros [Hd Hi Hn Hv Ht]. unfold SigninState_fromStorageString, SigninState_toStorageString, JSON_parse.
  rewrite json_text_back by done. cbn [json_norm]. fold (norm_members (signin_members sst)). rewrite bind_ret.
  assert (Hp : forall k, prop (norm_members (signin_members sst)) k = json_norm (prop (signin_members sst) k))
    by (intros k; apply prop_norm, signin_keys).
  revert Hp. generalize (norm_members (signin_members sst)). intros o Hp.
  assert (Hid : prop o "id" = VStr state) by (rewrite Hp; unfold prop; cbn; by rewrite Hi).
  assert (Hcv : prop o "code_verifier" = VStr v) by (rewrite Hp; unfold prop; cbn; by rewrite Hv).
  assert (Hb : truthy (prop o "id") = true) by (rewrite Hid; by destruct state).
  destruct (new_SigninState_runs o _ w w (new_State_given o w Hb) (or_intror (ex_intro _ v (conj Hcv Ht))))
    as (v' & w1 & [H|H] & _ & Hr & Ho); rewrite Hcv in H; [done|]. injection H as <-.
  by exists {| id := prop o "id"; data := prop o "data"; created := created_of o w;
               request_type := prop o "request_type" |}, w1.
Qed.

(** ** The start of a sign-in *)

Lemma prop_data o k : json_data (VObj o) -> json_data (prop o k).
Proof.
  intros Ho. inversion Ho as [| | | | | | |o' _ _ Hf]; subst o'. unfold prop.
  destruct (get o k) as [v|] eqn:E; [|constructor]. apply get_In in E. rewrite Forall_forall in Hf. exact (Hf _ E).
Qed.

Lemma data_int n : json_data (VInt n).
Proof. by constructor. Qed.

Lemma created_data o w : json_data (prop o "created") -> json_data (created_of o w).
Proof. intros H. unfold created_of. case_match; [done | apply data_int]. Qed.

Lemma state_data (base : State) v o :
  json_data (id base) -> json_data (data base) -> json_data (created base) -> json_data (request_type base) ->
  verifier v -> (forall k, json_data (prop o k)) -> json_data (VObj (signin_members (state_of base v o))).
Proof.
  intros Hi Hd Hc Hr (Hv & _) Ho. constructor; [apply signin_keys| |].
  - set (ks := keys_of _). vm_compute in ks. assert (H : Forall wf_jstr ks) by by_decide. exact H.
  - unfold signin_members, state_members. cbn [app state_of OidcSignin.base]. repeat apply Forall_cons_2; try apply Forall_nil_2;
    cbn [snd code_verifier authority client_id redirect_uri scope client_secret extraTokenParams response_mode
      skipUserInfo]; first [assumption | apply Ho | by apply data_str].
Qed.

Section start.
Variable append_params : jstr -> list (jstr * jstr) -> option jstr.
Variable fetch : request -> world -> reply * world.
Variable st : settings.

(** The object a state is made of when a sign-in begins *)
Definition start_members (args : obj value) : obj value :=
  [(js "data", prop args "state_data"); (js "request_type", prop args "request_type");
   (js "code_verifier", VBool true); (js "client_id", prop args "client_id");
   (js "authority", prop args "authority"); (js "redirect_uri", prop args "redirect_uri");
   (js "response_mode", prop args "response_mode"); (js "client_secret", prop args "client_secret");
   (js "scope", prop args "scope"); (js "extraTokenParams", prop args "extraTokenParams");
   (js "skipUserInfo", prop args "skipUserInfo")].

Lemma start_data args k : (forall k, k <> js "url" -> json_data (prop args k)) -> json_data (prop (start_members args) k).
Proof.
  intros Ha. unfold prop at 1, start_members. cbn [get].
  repeat (case_decide; [cbn [default]; first [apply Ha; by_decide | constructor]|]). constructor.
Qed.

(** A request: the state it keeps, and what its address says *)
Lemma request_done args w req w1 :
  (forall k, k <> js "url" -> json_data (prop args k)) ->
  new_SigninRequest random pow append_params args w = (Done req, w1) ->
  exists base v state params,
    signin_state req = state_of base v (start_members args) /\ kept_state (signin_state req) state v /\
    append_params (to_str (prop args "url")) params = Some (signin_url req) /\
    (js "state", state) ∈ params /\ (js "code_challenge", S256 v) ∈ params /\
    (js "code_challenge_method", js "S256") ∈ params /\ truthy (prop args "redirect_uri") = true.
Proof.
  intros Ha H. unfold new_SigninRequest, required in H. rewrite !bind_throw_if in H.
  destruct (truthy (prop args "redirect_uri")) eqn:Hredirect; [|by repeat case_match].
  repeat match type of H with (if ?b then _ else _) = _ => destruct b; [done|] end.
  fold (start_members args) in H.
  destruct (new_State_drawn (start_members args) w eq_refl) as (state & w0 & Hb & Hw & Hn & Ho0).
  destruct (new_SigninState_runs _ _ _ _ Hb (or_introl eq_refl)) as (v & w2 & _ & Hv & Hr & Ho2).
  revert Hb Hr. set (base := Build_State _ _ _ _). intros Hb Hr.
  rewrite (bind_run _ _ _ _ _ Hr) in H. cbv zeta in H. unfold url_of in H.
  destruct (append_params _ _) as [url|] eqn:Eu in H; [|done].
  injection H as <- <-. exists base, v, state. eexists.
  split; [reflexivity|]. split.
  { split; [|reflexivity|done|reflexivity|done]. cbn [signin_state].
    assert (Hd : forall k, json_data (prop (start_members args) k)) by (intros k; by apply start_data).
    apply state_data; [by apply data_str | apply Hd | by apply created_data | apply Hd | done | done]. }
  split; [exact Eu|]. cbn [code_challenge state_of]. rewrite (S256_truthy v Hv).
  split_and!; [rewrite !elem_of_app, !elem_of_cons; tauto .. |done].
Qed.

Hypothesis Hst : json_data (VObj (fields st)).

Lemma setting_data k : json_data (setting st k).
Proof. by apply prop_data. Qed.

Lemma or_setting_data args k : json_data (VObj args) -> json_data (or_setting st args k).
Proof.
  intros Ha. unfold or_setting, or_default. pose proof (prop_data args k Ha) as H.
  destruct (prop args k); try done. apply setting_data.
Qed.

(** What a sign-in leaves behind: a state that can be read, under its name *)
Record begun (args : obj value) (req : SigninRequest) (w1 : world) (state v : jstr) : Prop := {
  begun_kept : kept_state (signin_state req) state v;
  begun_text : kept_at st w1 state = Some (SigninState_toStorageString (signin_state req));
  begun_address : exists endpoint params, append_params endpoint params = Some (signin_url req) /\
    (js "state", state) ∈ params /\ (js "code_challenge", S256 v) ∈ params /\
    (js "code_challenge_method", js "S256") ∈ params;
  begun_authority : authority (signin_state req) = setting st "authority";
  begun_client : client_id (signin_state req) = setting st "client_id";
  begun_redirect : redirect_uri (signin_state req) = or_setting st args "redirect_uri";
  begun_redirected : truthy (or_setting st args "redirect_uri") = true;
  begun_token_params : extraTokenParams (signin_state req) = or_setting st args "extraTokenParams";
}.

Lemma create_done args w req w1 :
  json_data (VObj args) ->
  createSigninRequest random pow append_params fetch st args w = (Done req, w1) ->
  exists state v, begun args req w1 state v.
Proof.
  intros Ha H. unfold createSigninRequest in H. cbv zeta in H. rewrite bind_throw_if in H.
  destruct (negb _); [done|]. apply bind_inv in H as (url & w2 & _ & H).
  apply bind_inv in H as (req' & w3 & Hr & H).
  apply request_done in Hr as (base & v & state & params & Hs & Hk & Hu & H1 & H2 & H3 & Hredirect).
  2: { intros k Hk. unfold prop at 1. cbn [get]. rewrite (decide_False (P := js "url" = k)) by done.
    repeat (case_decide; [first [by apply or_setting_data | by apply setting_data | by apply prop_data]|]). constructor. }
  apply bind_inv in H as ([] & w4 & H & He). injection He as -> ->.
  exists state, v. split; [done| |by eexists _, params|by rewrite Hs..| exact Hredirect|by rewrite Hs].
  destruct Hk as [_ Hi _ _ _]. unfold Store.set in H. injection H as <-.
  unfold kept_at, set_storage. cbn [storage]. rewrite decide_True by done.
  rewrite Hi. apply get_put.
Qed.
End start.

(** ** Parameters of the request for tokens *)

Lemma get_set_param k v (l : list (jstr * jstr)) k' :
  get (set_param k v l) k' = if decide (k = k') then Some v else get l k'.
Proof.
  induction l as [|[k0 v0] l IH]; [done|]. cbn [set_param get]. destruct (decide (k0 = k)) as [->|Hn]; cbn [get].
  - case_decide as Hk; [done|]. clear IH. induction l as [|[k1 v1] l IH]; [done|]. rewrite filter_cons. cbn.
    destruct (decide (k1 <> k)) as [H1|H1]; cbn [get].
    + by rewrite IH.
    + rewrite decide_False, IH; [done|]. intros ->. by apply H1.
  - rewrite IH. repeat case_decide; congruence.
Qed.

Lemma get_set_params_list (o : obj value) k : forall l, NoDup (keys_of o) ->
  get (foldl (fun l '(k, v) => if nullish v then l else set_param k (to_str v) l) l o) k =
  match get o k with Some v => if nullish v then get l k else Some (to_str v) | None => get l k end.
Proof.
  induction o as [|[k0 v0] o IH]; intros l; [done|]. unfold keys_of. cbn [fmap list_fmap fst].
  intros [Hk Hd]%NoDup_cons. cbn [foldl get]. rewrite IH by done. destruct (decide (k0 = k)) as [->|Hn].
  - apply get_None in Hk. rewrite Hk. destruct (nullish v0); [done|]. rewrite get_set_param. by rewrite decide_True.
  - destruct (nullish v0); [done|]. rewrite get_set_param, decide_False by done. done.
Qed.

Lemma get_set_params (o : obj value) k l : NoDup (keys_of o) ->
  get (set_params o l) k =
  match get o k with Some v => if nullish v then get l k else Some (to_str v) | None => get l k end.
Proof. intros Hd. unfold set_params. rewrite get_set_params_list by (by apply NoDup_entries). by rewrite get_entries. Qed.

Lemma keys_entries {A} (o : obj A) k : k ∈ keys_of (entries o) <-> k ∈ keys_of o.
Proof. unfold keys_of. by rewrite entries_perm. Qed.

Lemma spread_other (o p : obj value) k : k ∉ keys_of p -> get (spread o p) k = get o k.
Proof.
  rewrite <- keys_entries. unfold spread. revert o. induction (entries p) as [|[k0 v0] l IH]; intros o; [done|].
  unfold keys_of. cbn [fmap list_fmap fst]. rewrite not_elem_of_cons. intros [Hk Hl]. cbn [foldl].
  rewrite IH by done. by apply get_put_ne.
Qed.

Lemma spread_NoDup (o p : obj value) : NoDup (keys_of o) -> NoDup (keys_of (spread o p)).
Proof.
  unfold spread. revert o. induction (entries p) as [|[k0 v0] l IH]; intros o Ho; [done|].
  cbn [foldl]. by apply IH, NoDup_put.
Qed.

Lemma keys_filter {A} (P : jstr * A -> Prop) `{!forall kv, Decision (P kv)} (o : obj A) :
  NoDup (keys_of o) -> NoDup (keys_of (filter P o)).
Proof. intros Hd. eapply sublist_NoDup; [exact Hd|]. apply fmap_sublist, sublist_filter. Qed.

Lemma get_rest ks (o : obj value) k : NoDup (keys_of o) ->
  get (rest ks o) k = if decide (k ∈ ks) then None else get o k.
Proof.
  intros Hd. unfold rest. rewrite get_filter by done. cbn [fst].
  destruct (get o k); repeat case_decide; tauto || done.
Qed.

Lemma norm_members_keys o k : k ∈ keys_of (norm_members o) -> k ∈ keys_of o.
Proof.
  unfold keys_of, norm_members. intros ([k' v] & -> & [_ H]%list_elem_of_filter)%list_elem_of_fmap.
  rewrite entries_perm in H. apply list_elem_of_In, in_map_iff in H as ([k0 v0] & [= <- <-] & H).
  apply list_elem_of_fmap. exists (k0, v0). split; [done|]. by apply list_elem_of_In.
Qed.

(** ** What is sent *)

(** A program only adds to the requests that were sent. *)
Definition more_sent (w w' : world) : Prop := exists l, sent w' = l ++ sent w.

#[global] Instance more_sent_preorder : PreOrder more_sent.
Proof.
  split; [by intros w; exists []|]. intros w1 w2 w3 [l1 H1] [l2 H2]. exists (l2 ++ l1).
  by rewrite H2, H1, app_assoc.
Qed.

Notation grows := (moves more_sent).

Lemma grows_still {A} (m : IO A) : preserves (fun w => w) m -> grows m.
Proof. apply moves_still, _. Qed.

Lemma grows_bind {A B} (m : IO A) (f : A -> IO B) : grows m -> (forall a, grows (f a)) -> grows (m ≫= f).
Proof. apply moves_bind, _. Qed.

(** A request that is sent when a program starts stays sent. *)
Definition sends {A} (m : IO A) (w : world) (r : request) : Prop := exists l, sent (snd (m w)) = l ++ r :: sent w.

Lemma sends_bind {A B} (m : IO A) (f : A -> IO B) w r :
  sends m w r -> (forall a, grows (f a)) -> sends (m ≫= f) w r.
Proof.
  intros [l Hl] Hf. unfold sends, mbind, IO_bind. destruct (m w) as [[a|e] w1]; [|by exists l].
  destruct (Hf a w1) as [l' Hl']. exists (l' ++ l). cbn in *. by rewrite Hl', Hl, <- app_assoc.
Qed.

Section tokens.
Variable atob : jstr -> option jstr.
Variable message_of : option exn -> jstr.
Variable read_params : bool -> jstr -> option (list (jstr * jstr)).
Variable fetch : request -> world -> reply * world.
Variable st : settings.

(** The network does not add to what the client has sent. *)
Hypothesis Hfetch : forall r w, sent (snd (fetch r w)) = sent w.

Lemma sends_fetch r w : sends (fetchWithTimeout fetch r) w r.
Proof.
  unfold sends, fetchWithTimeout. pose proof (Hfetch r (add_sent r w)) as H. destruct (fetch r _) as [reply w1].
  exists []. cbn in H. destruct reply; [exact H|case_match; exact H|exact H].
Qed.

Lemma more_fetch r w : more_sent w (snd (fetch r (add_sent r w))).
Proof. exists [r]. by rewrite Hfetch. Qed.

Lemma more_metadata v w : more_sent w (set_metadata v w).
Proof. by exists []. Qed.

Ltac grow := repeat first
  [ done | apply grows_still; solve [quiet] | apply grows_bind | progress intros | case_match ].

Lemma sends_post s url params auth timeout w :
  exists r, sends (postForm fetch s url params auth timeout) w r /\
    method r = "POST" /\ OidcWorld.url r = url /\ body r = Some params.
Proof.
  unfold postForm. eexists. split; [apply sends_bind; [apply sends_fetch | grow] | by split_and!].
Qed.

(** The token endpoint, when the metadata is there *)
Lemma token_endpoint_known w md te :
  metadata w = VObj md -> prop md "token_endpoint" = VStr te ->
  getTokenEndpoint fetch (fields st) false w = (Done (VStr te), w).
Proof.
  intros Hm Ht. unfold getTokenEndpoint, getMetadataProperty, getMetadata.
  rewrite bind_assoc. unfold read at 1. unfold mbind at 1, IO_bind at 1. cbn [fst]. rewrite Hm. cbn [truthy].
  rewrite bind_ret, bind_field, Ht. done.
Qed.

Lemma get_app {A} (l l' : obj A) k : get (l ++ l') k = match get l k with Some v => Some v | None => get l' k end.
Proof. induction l as [|[k0 v0] l IH]; [done|]. cbn [app get]. by case_decide. Qed.

(** What the request for tokens says *)
Definition token_request (r : request) (te c v ci : jstr) : Prop :=
  method r = "POST" /\ OidcWorld.url r = te /\ exists b, body r = Some b /\
    get b "grant_type" = Some (js "authorization_code") /\ get b "code" = Some c /\
    get b "code_verifier" = Some v /\ get b "client_id" = Some ci.

Lemma exchange_sends args w md te c v ci :
  NoDup (keys_of args) -> setting st "client_authentication" = VStr "client_secret_post" ->
  metadata w = VObj md -> prop md "token_endpoint" = VStr te ->
  prop args "grant_type" = VUndef ->
  truthy (or_default (prop args "redirect_uri") (setting st "redirect_uri")) = true ->
  prop args "client_id" = VStr ci -> ci <> [] -> prop args "code" = VStr c -> c <> [] ->
  prop args "code_verifier" = VStr v -> v <> [] ->
  exists r, sends (exchangeCode fetch st args) w r /\ token_request r te c v ci.
Proof.
  intros Hd Hau Hm Hte Hg Hr Hi Hi0 Hc Hc0 Hv Hv0. unfold sends, exchangeCode. cbv zeta.
  set (ks := [js "grant_type"; _; _; _]).
  assert (Hrest : forall k, k ∉ ks -> prop (rest ks args) k = prop args k)
    by (intros k Hk; unfold prop; by rewrite get_rest, decide_False).
  assert (Hsets : forall k x l, k ∉ ks -> prop args k = VStr x -> get (set_params (rest ks args) l) k = Some x).
  { intros k x l Hk Hx. rewrite get_set_params by (by apply keys_filter). rewrite get_rest, decide_False by done.
    unfold prop in Hx. by destruct (get args k) as [y|]; [cbn in Hx; subst y|]. }
  assert (Hkeeps : forall k l, k ∈ ks -> get (set_params (rest ks args) l) k = get l k).
  { intros k l Hk. rewrite get_set_params by (by apply keys_filter). by rewrite get_rest, decide_True. }
  rewrite !bind_throw_if, Hr, Hi, Hg, !Hrest by by_decide. rewrite Hc, Hv. cbn [or_default truthy].
  rewrite !bool_decide_true by done. cbn [negb]. set (secret := or_default _ _).
  unfold client_credentials. rewrite Hau, decide_False, decide_True by by_decide. rewrite bind_ret.
  rewrite (bind_run _ _ _ _ _ (token_endpoint_known w md te Hm Hte)). cbn [to_str].
  match goal with |- context [postForm fetch token_service te ?p None VUndef] => set (params := p) end.
  destruct (sends_post token_service te params None VUndef w) as (r & Hs & H1 & H2 & H3).
  exists r. split; [exact Hs|]. split; [exact H1|]. split; [exact H2|]. exists params. split; [exact H3|].
  unfold params. rewrite !get_app. rewrite (Hkeeps "grant_type"), (Hkeeps "client_id") by by_decide.
  rewrite (Hsets "code" c), (Hsets "code_verifier" v) by (done || by_decide). by split_and!.
Qed.

(** ** The answer *)

Lemma strict_equal_same s : strict_equal (VStr s) (VStr s) = true.
Proof. cbn. by rewrite bool_decide_true. Qed.

Lemma read_state_kept url w params state t sst w1 :
  answer_params read_params st url = Some params -> get params "state" = Some state -> state <> [] ->
  kept_at st w state = Some t -> t <> [] ->
  SigninState_fromStorageString random pow t (forget st state w) = (Done sst, w1) ->
  readSigninResponseState random pow read_params st url true w = (Done (sst, new_SigninResponse params), w1).
Proof.
  intros Ha Hs Hn Hk Ht Hf. unfold readSigninResponseState, readParams.
  fold (answer_params read_params st url). rewrite Ha, bind_ret. cbv zeta. rewrite bind_throw_if, response_state.
  unfold param. rewrite Hs. cbn [truthy]. rewrite bool_decide_true by done. cbn [negb to_str].
  rewrite bind_run with (a := t) (w1 := forget st state w); [by rewrite (bind_run _ _ _ _ _ Hf)|].
  cbv [stored_state Store.remove Store.get read change mbind IO_bind mret IO_ret to_str fail].
  unfold kept_at, state_area, state_key in Hk. rewrite Hk. by destruct t.
Qed.

Lemma state_passes sst params state a ci c v w :
  get params "state" = Some state -> id (base sst) = VStr state ->
  authority sst = VStr a -> a <> [] -> setting st "authority" = VStr a ->
  client_id sst = VStr ci -> ci <> [] -> setting st "client_id" = VStr ci ->
  truthy (param params "error") = false -> get params "code" = Some c -> c <> [] ->
  code_verifier sst = VStr v -> v <> [] ->
  exists response, processSigninState st (new_SigninResponse params) sst w = (Done response, w) /\
    prop response "code" = VStr c.
Proof.
  intros Hs Hi Ha Ha0 Hsa Hc Hc0 Hsc He Hco Hco0 Hv Hv0. unfold processSigninState. cbv zeta.
  rewrite !bind_throw_if, response_state. unfold param at 1. rewrite Hs, Hi, Ha, Hsa, Hc, Hsc, !strict_equal_same.
  cbn [truthy]. rewrite !bool_decide_true by done. cbn [negb andb].
  set (response' := assign_missing _ _ _).
  assert (H1 : prop response' "error" = param params "error")
    by (unfold response'; by rewrite prop_assign_missing, prop_put_ne, response_error by by_decide).
  assert (H2 : prop response' "code" = VStr c)
    by (unfold response'; rewrite prop_assign_missing, prop_put_ne, response_code by by_decide; unfold param; by rewrite Hco).
  rewrite H1, He, bind_ret, !bind_throw_if, H2, Hv. cbn [truthy]. rewrite !bool_decide_true by done.
  by exists response'.
Qed.

Lemma sends_run {A B} (m : IO A) (f : A -> IO B) w a w1 r :
  m w = (Done a, w1) -> sent w1 = sent w -> sends (f a) w1 r -> sends (m ≫= f) w r.
Proof. intros Hm Hs [l Hl]. exists l. by rewrite (bind_run _ _ _ _ _ Hm), Hl, Hs. Qed.

(** The members that tokens are asked with *)
Definition token_keys : list jstr :=
  [js "grant_type"; js "client_id"; js "redirect_uri"; js "code"; js "code_verifier"].

(** An answer of the provider to a sign-in, with a code, when its state is still kept *)
Record answers (url : jstr) (state text c : jstr) (w : world) : Prop := {
  answers_params : exists params, answer_params read_params st url = Some params /\
    get params "state" = Some state /\ get params "code" = Some c /\ truthy (param params "error") = false;
  answers_code : c <> [];
  answers_kept : kept_at st w state = Some text;
}.

Lemma code_args_get response sst etp k :
  extraTokenParams sst = VObj etp -> (forall k, k ∈ token_keys -> k ∉ keys_of etp) -> k ∈ token_keys ->
  prop (code_args response sst) k =
  prop [(js "client_id", client_id sst); (js "client_secret", client_secret sst);
        (js "code", prop response "code"); (js "redirect_uri", redirect_uri sst);
        (js "code_verifier", code_verifier sst)] k.
Proof.
  intros He Hk Hi. unfold code_args, prop. rewrite He, spread_other; [done|]. cbn [own].
  rewrite keys_entries. by apply Hk.
Qed.

Lemma code_args_NoDup response sst : NoDup (keys_of (code_args response sst)).
Proof. unfold code_args. apply spread_NoDup. cbn [keys_of fmap list_fmap fst]. by_decide. Qed.

Lemma callback_sends sst state v url c w a ci etp md te :
  kept_state sst state v -> authority sst = VStr a -> a <> [] -> setting st "authority" = VStr a ->
  client_id sst = VStr ci -> ci <> [] -> setting st "client_id" = VStr ci ->
  setting st "client_authentication" = VStr "client_secret_post" ->
  truthy (redirect_uri sst) = true -> extraTokenParams sst = VObj etp ->
  (forall k, k ∈ token_keys -> k ∉ keys_of etp) ->
  metadata w = VObj md -> prop md "token_endpoint" = VStr te ->
  answers url state (SigninState_toStorageString sst) c w ->
  exists r, sends (processSigninResponse random pow atob message_of read_params fetch st url) w r /\
    token_request r te c v ci.
Proof.
  intros Hk Ha Ha0 Hsa Hc Hc0 Hsc Hau Hr He Hek Hm Hte [(params & Hp & Hs & Hco & Her) Hc1 Hkept].
  destruct (state_read_back sst state v (forget st state w) Hk) as (base & w1 & Hf & Hid & Ho).
  assert (Hn : forall k, prop (norm_members (signin_members sst)) k = json_norm (prop (signin_members sst) k))
    by (intros k; apply prop_norm, signin_keys).
  assert (Ht : SigninState_toStorageString sst <> []).
  { intros E. unfold SigninState_toStorageString in E.
    pose proof (json_text_back (VObj (signin_members sst)) (kept_data _ _ _ Hk) eq_refl) as H. by rewrite E in H. }
  pose proof (read_state_kept url w params state _ _ w1 Hp Hs (kept_named _ _ _ Hk) Hkept Ht Hf) as Hread.
  revert Hread. set (sst' := state_of base v _). intros Hread.
  assert (H1 : authority sst' = VStr a)
    by (unfold sst'; cbn [authority state_of]; rewrite Hn; change (prop _ _) with (authority sst); by rewrite Ha).
  assert (H2 : client_id sst' = VStr ci)
    by (unfold sst'; cbn [client_id state_of]; rewrite Hn; change (prop _ _) with (client_id sst); by rewrite Hc).
  assert (H3 : truthy (redirect_uri sst') = true)
    by (unfold sst'; cbn [redirect_uri state_of]; rewrite Hn, truthy_norm; exact Hr).
  assert (H4 : extraTokenParams sst' = VObj (norm_members etp))
    by (unfold sst'; cbn [extraTokenParams state_of]; rewrite Hn;
        change (prop _ _) with (extraTokenParams sst); by rewrite He).
  assert (Hv0 : v <> []) by (destruct (kept_verifier_text _ _ _ Hk) as (_ & _ & Hl); by destruct v).
  destruct (state_passes sst' params state a ci c v w1 Hs Hid H1 Ha0 Hsa H2 Hc0 Hsc Her Hco Hc1 eq_refl Hv0)
    as (response & Hresponse & Hcode).
  assert (Hek' : forall k, k ∈ token_keys -> k ∉ keys_of (norm_members etp))
    by (intros k Hk' Hin; by apply (Hek k Hk'), norm_members_keys).
  pose proof (fun k => code_args_get response sst' _ k H4 Hek') as Hargs.
  assert (Hm1 : metadata w1 = VObj md) by (rewrite <- Hm; by injection Ho).
  destruct (exchange_sends (code_args response sst') w1 md te c v ci) as (r & Hsend & Htr); try done.
  - apply code_args_NoDup.
  - by rewrite Hargs by by_decide.
  - rewrite Hargs by by_decide. change (prop _ "redirect_uri") with (redirect_uri sst').
    by destruct (redirect_uri sst').
  - rewrite Hargs by by_decide. exact H2.
  - rewrite Hargs by by_decide. exact Hcode.
  - by rewrite Hargs by by_decide.
  - exists r. split; [|exact Htr]. unfold OidcSignin.processSigninResponse.
    eapply sends_run; [exact Hread|by injection Ho|]. cbv beta iota.
    unfold OidcSignin.validateSigninResponse. eapply sends_run; [exact Hresponse|done|].
    apply sends_bind.
    + unfold processCode. rewrite Hcode. cbn [truthy]. rewrite bool_decide_true by done.
      apply sends_bind; [exact Hsend|]. unfold epoch_now. grow.
    + pose proof (moves_claims atob message_of fetch st more_sent more_fetch more_metadata).
      pose proof (moves_validate atob message_of more_sent). grow.
Qed.

Variable append_params : jstr -> list (jstr * jstr) -> option jstr.
Hypothesis Hst : json_data (VObj (fields st)).

(** C9: proof key for code exchange, end to end: the address a sign-in goes to
    holds a state and the challenge (S256 of RFC 7636) of a verifier of 96
    characters, and what is kept under that state in the storage is enough for
    the rest: when an answer with that state and a code comes back, whatever
    happened meanwhile, while the state is still kept, the code is sent to the
    token endpoint with that very verifier and for this client. What else is
    asked with (the parameters of the settings) must not name these members; the
    settings and the arguments are data; the client authenticates as it does by
    default. *)
Theorem pkce_bound args w req w1 a ci etp :
  createSigninRequest random pow append_params fetch st args w = (Done req, w1) ->
  json_data (VObj args) ->
  setting st "authority" = VStr a -> a <> [] -> setting st "client_id" = VStr ci -> ci <> [] ->
  setting st "client_authentication" = VStr "client_secret_post" ->
  or_setting st args "extraTokenParams" = VObj etp -> (forall k, k ∈ token_keys -> k ∉ keys_of etp) ->
  exists state v text,
    verifier v /\ kept_at st w1 state = Some text /\
    (exists endpoint params, append_params endpoint params = Some (signin_url req) /\
      (js "state", state) ∈ params /\ (js "code_challenge", S256 v) ∈ params /\
      (js "code_challenge_method", js "S256") ∈ params) /\
    forall url c w2 md te, answers url state text c w2 ->
      metadata w2 = VObj md -> prop md "token_endpoint" = VStr te ->
      exists r, sends (processSigninResponse random pow atob message_of read_params fetch st url) w2 r /\
        token_request r te c v ci.
Proof.
  intros Hc Hargs Ha Ha0 Hi Hi0 Hau He Hk.
  destruct (create_done append_params fetch st Hst args w req w1 Hargs Hc) as (state & v & Hb).
  destruct Hb as [Hkept Htext Haddr Hba Hbc Hbr Hbt Hbe].
  exists state, v, (SigninState_toStorageString (signin_state req)).
  split; [exact (kept_verifier_text _ _ _ Hkept)|]. split; [exact Htext|]. split; [exact Haddr|].
  intros url c w2 md te Hans Hm Hte.
  apply (callback_sends (signin_state req) state v url c w2 a ci etp md te); first [assumption | congruence].
Qed.
End tokens.
End exchange.
