(* ===== verification/OidcStorage.v ===== *)
(** The storages of the OpenID Connect client: a user is read back as it was
    stored, and clearing the stale states removes these and nothing else, not even
    the user that the page keeps among them. *)
From S2P Require Import Prelude JsString JsNum JsObject JsValue Json JsonFacts Router Doubles CryptoJs OAuth OidcTimers OidcWorld OidcTokens OidcSignin OidcUser OidcFacts OidcPkce.

(** ** Users *)

Section users.
Variable st : settings.

Definition user_keys : list jstr :=
  [js "id_token"; js "session_state"; js "access_token"; js "refresh_token"; js "token_type"; js "scope";
   js "profile"; js "expires_at"].

Lemma user_members_keys u : keys_of (user_members u) = user_keys.
Proof. reflexivity. Qed.

Lemma user_member u k : k ∈ user_keys -> prop (user_members u) k = prop u k.
Proof.
  intros Hk. unfold prop. assert (Hg : forall l, k ∈ l -> get (map (fun k => (k, prop u k)) l) k = Some (prop u k)).
  { induction l as [|k0 l IH]; [by intros ?%not_elem_of_nil|]. rewrite elem_of_cons. intros H. cbn [map get].
    case_decide; [by subst k0|]. apply IH. destruct H; [congruence | done]. }
  change (user_members u) with (map (fun k => (k, prop u k)) user_keys). by rewrite (Hg _ Hk).
Qed.

Lemma user_data u : json_data (VObj u) -> json_data (VObj (user_members u)).
Proof.
  intros Hu. constructor.
  - rewrite user_members_keys. by_decide.
  - rewrite user_members_keys. by_decide.
  - apply Forall_forall. intros [k v] H. unfold user_members in H.
    apply list_elem_of_In, in_map_iff in H as (k0 & [= <- <-] & _). by apply prop_data.
Qed.

(** The user that is read: what has no text is null or left out, and the state
    the user came with, which is not stored, is forgotten. *)
Definition stored_user (u : obj value) : obj value :=
  let member k := json_norm (prop u k) in
  [(js "id_token", member "id_token"); (js "session_state", or_else (member "session_state") VNull);
   (js "access_token", member "access_token"); (js "refresh_token", member "refresh_token");
   (js "token_type", member "token_type"); (js "scope", member "scope"); (js "profile", member "profile");
   (js "expires_at", member "expires_at"); (js "state", VUndef)].

Lemma new_User_runs o w : new_User (VObj o) w =
  (Done [(js "id_token", prop o "id_token"); (js "session_state", or_else (prop o "session_state") VNull);
        (js "access_token", prop o "access_token"); (js "refresh_token", prop o "refresh_token");
        (js "token_type", prop o "token_type"); (js "scope", prop o "scope"); (js "profile", prop o "profile");
        (js "expires_at", prop o "expires_at"); (js "state", prop o "userState")], w).
Proof. reflexivity. Qed.

Lemma user_text u w : json_data (VObj u) -> User_fromStorageString (User_toStorageString u) w = (Done (stored_user u), w).
Proof.
  intros Hu. unfold User_fromStorageString, User_toStorageString, JSON_parse.
  rewrite json_text_back by (by apply user_data || done). cbn [json_norm].
  fold (norm_members (user_members u)). rewrite bind_ret, new_User_runs.
  rewrite !prop_norm by (rewrite user_members_keys; by_decide).
  rewrite !user_member by by_decide. reflexivity.
Qed.

(** C38: a user that is stored (its members are data) is what the next load of
    the page finds: its tokens, its scope, its profile and its expiry, member by
    member; removing the user leaves none; other keys of the storage, and the
    other storage, stay as they are. *)
Theorem user_round_trip u w :
  json_data (VObj u) ->
  let w1 := snd (storeUser st (Some u) w) in
  let w2 := snd (storeUser st None w) in
  fst (storeUser st (Some u) w) = Done tt /\ loadUser st w1 = (Done (Some (stored_user u)), w1) /\
  fst (storeUser st None w) = Done tt /\ loadUser st w2 = (Done None, w2) /\
  forall a k, (a, k) <> (store (userStore st), prefix (userStore st) ++ userStoreKey st) ->
    get (storage w1 a) k = get (storage w a) k /\ get (storage w2 a) k = get (storage w a) k.
Proof.
  intros Hu. set (key := prefix (userStore st) ++ userStoreKey st). cbn zeta.
  assert (Ht : User_toStorageString u <> []).
  { intros E. pose proof (user_text u w Hu) as H. by rewrite E in H. }
  assert (Hs : storeUser st (Some u) w = (Done tt, set_storage (store (userStore st))
    (put (storage w (store (userStore st))) key (User_toStorageString u)) w)) by done.
  assert (Hr : storeUser st None w = (Done tt, set_storage (store (userStore st))
    (del (storage w (store (userStore st))) key) w)) by done.
  rewrite Hs, Hr. cbn [fst snd]. split; [done|]. split.
  - unfold loadUser, Store.get. fold key. unfold mbind, IO_bind, read. cbn [storage set_storage].
    rewrite decide_True, get_put by done. destruct (User_toStorageString u) as [|c t] eqn:E; [done|].
    rewrite <- E. unfold fmap, IO_fmap. by rewrite (user_text u _ Hu).
  - split; [done|]. split.
    + unfold loadUser, Store.get. fold key. unfold mbind, IO_bind, read. cbn [storage set_storage].
      by rewrite decide_True, get_del by done.
    + intros a k Hn. cbn [storage set_storage]. destruct (decide (a = store (userStore st))) as [->|]; [|done].
      rewrite get_put_ne, get_del_ne by congruence. done.
Qed.
End users.

(** ** Stale states *)

Section stale.
Variable random : nat -> Z.
Variable s : state_store.

(** Whether a text in the storage is stale at a time in seconds: it is empty, it
    is no JSON, it is null, or what it holds was created at or before the
    cutoff; what tells no such time was created now. *)
Definition stale (now : Z) (cutoff : option num) (t : jstr) : bool :=
  bool_decide (t = []) ||
  match json_value t with
  | None | Some VUndef | Some VNull => true
  | Some v =>
      let c := match field v "created" with Ok c => c | Throw _ => VUndef end in
      let created := if truthy c && match to_num c with Some n => is_positive n | None => false end
                     then c else VInt now in
      match to_num created, cutoff with Some n, Some c => num_leb n c | _, _ => false end
  end.

Lemma field_ok v k : nullish v = false -> exists x, field v k = Ok x.
Proof. destruct v; try done; cbn; eauto. Qed.

Lemma field_null v k : nullish v = true -> field v k = Throw TypeError.
Proof. by destruct v. Qed.

Lemma state_created t w : 
  match json_value t with
  | None => fst (State_fromStorageString random t w) = Failed (Exn SyntaxError)
  | Some v => if nullish v then fst (State_fromStorageString random t w) = Failed (Exn TypeError)
      else exists st, fst (State_fromStorageString random t w) = Done st /\
        created st = let c := match field v "created" with Ok c => c | Throw _ => VUndef end in
          if truthy c && match to_num c with Some n => is_positive n | None => false end
          then c else VInt (epoch w)
  end.
Proof.
  unfold State_fromStorageString, JSON_parse. destruct (json_value t) as [v|]; [|done]. rewrite bind_ret.
  destruct (nullish v) eqn:Hn; [unfold new_State; by rewrite bind_from_res, field_null|].
  destruct (field_ok v "id" Hn) as [i Hi], (field_ok v "data" Hn) as [d Hd], (field_ok v "created" Hn) as [c Hc],
    (field_ok v "request_type" Hn) as [r Hr].
  assert (Hid : exists i' w1, (if truthy i then mret i else VStr <$> generateUUID random) w = (Done i', w1) /\
    outside w1 = outside w).
  { destruct (truthy i); [by exists i, w|]. destruct (uuid_runs random w) as (u & w1 & Hu & _ & _ & Ho).
    exists (VStr u), w1. split; [unfold fmap, IO_fmap; by rewrite Hu | done]. }
  destruct Hid as (i' & w1 & Hi' & Ho). unfold new_State.
  rewrite bind_from_res, Hi, (bind_run _ _ _ _ _ Hi'), bind_from_res, Hd, bind_from_res, Hc.
  rewrite (bind_run _ _ _ (epoch w) w1) by (unfold epoch_now, read; by rewrite (outside_epoch _ _ Ho)).
  rewrite bind_from_res, Hr. by eexists.
Qed.

(** The world after one key *)
Definition same_but (w w' : world) : Prop :=
  clock w' = clock w /\ sent w' = sent w /\ forall a, a <> store s -> storage w' a = storage w a.

Definition here (w : world) (k : jstr) : option jstr := get (storage w (store s)) k.

Lemma same_but_refl w : same_but w w.
Proof. by split. Qed.

Lemma same_but_trans w w1 w2 : same_but w w1 -> same_but w1 w2 -> same_but w w2.
Proof. intros (H1 & H2 & H3) (H4 & H5 & H6). split_and!; [congruence..|]. intros a Ha. by rewrite H6, H3. Qed.

Lemma same_but_epoch w w' : same_but w w' -> epoch w' = epoch w.
Proof. intros (H & _). unfold epoch. by rewrite H. Qed.

Lemma remove_runs key w1 :
  exists w', (Store.remove s key ≫= fun _ => mret tt) w1 = (Done tt, w') /\ same_but w1 w' /\
    forall k, here w' k = if decide (k = prefix s ++ key) then None else here w1 k.
Proof.
  eexists. split; [reflexivity|]. split.
  - split_and!; [done..|]. intros a Ha. cbn. by rewrite decide_False.
  - intros k. unfold here. cbn. rewrite decide_True by done. case_decide as Hk; [subst k; apply get_del|].
    by rewrite get_del_ne.
Qed.

Lemma outside_same w w1 : outside w1 = outside w -> same_but w w1 /\ forall k, here w1 k = here w k.
Proof. intros [= H1 H2 _ _ H3 _]. unfold here. split; [split_and!; [done..|intros a _]; by rewrite H1|]. by rewrite H1. Qed.

(** Whether a text is removed *)
Lemma stale_runs cutoff c t w :
  exists w1, catch (st ← State_fromStorageString random (c :: t);
      mret match to_num (created st), cutoff with Some n, Some c => num_leb n c | _, _ => false end)
    (fun _ => mret true) w = (Done (stale (epoch w) cutoff (c :: t)), w1) /\ outside w1 = outside w.
Proof.
  set (text := c :: t). assert (Ho : outside (snd (State_fromStorageString random text w)) = outside w).
  { apply preserves_bind; [apply quiet_json|]. intros v. apply quiet_new_State. }
  pose proof (state_created text w) as Hc. unfold catch, mbind at 1, IO_bind at 1.
  destruct (State_fromStorageString random text w) as [r w1]. cbn [fst snd] in *. exists w1.
  unfold stale. rewrite bool_decide_false by done. cbn [orb].
  destruct (json_value text) as [v|]; [|by subst r].
  destruct (nullish v) eqn:Hn; [subst r; by destruct v|]. destruct Hc as (st & -> & Hc).
  split; [|done]. unfold mret, IO_ret. rewrite Hc. by destruct v.
Qed.

(** One key: what is stale, or missing, is removed. *)
Lemma clear_key_runs cutoff key w :
  let full := prefix s ++ key in
  exists w', clear_key random s cutoff key w = (Done tt, w') /\ same_but w w' /\
    forall k, here w' k =
      if decide (k = full) then t ← here w k; if stale (epoch w) cutoff t then None else Some t else here w k.
Proof.
  cbv zeta. destruct (remove_runs key w) as (w0 & Hr0 & Hs0 & Hh0).
  unfold clear_key. rewrite (bind_run _ _ _ (here w (prefix s ++ key)) w) by done.
  destruct (here w (prefix s ++ key)) as [[|c t]|] eqn:E.
  - exists w0. split; [exact Hr0|]. split; [done|]. intros k. rewrite Hh0. case_decide as Hk; [by subst k; rewrite E|done].
  - destruct (stale_runs cutoff c t w) as (w1 & Hrun & Ho). destruct (outside_same w w1 Ho) as [Hs1 Hh1].
    rewrite (bind_run _ _ _ _ _ Hrun). destruct (stale (epoch w) cutoff (c :: t)) eqn:Est.
    + destruct (remove_runs key w1) as (w2 & -> & Hs2 & Hh2). exists w2. split; [done|].
      split; [by eapply same_but_trans|]. intros k. rewrite Hh2, Hh1. case_decide as Hk; [|done].
      subst k. rewrite E. unfold mbind, option_bind. by rewrite Est.
    + exists w1. split; [done|]. split; [done|]. intros k. rewrite Hh1. case_decide as Hk; [|done].
      subst k. rewrite E. unfold mbind, option_bind. by rewrite Est.
  - exists w0. split; [exact Hr0|]. split; [done|]. intros k. rewrite Hh0. case_decide as Hk; [by subst k; rewrite E|done].
Qed.

Lemma for_keys_runs cutoff keys w :
  exists w', for_keys (clear_key random s cutoff) keys w = (Done tt, w') /\ same_but w w' /\
    forall k, here w' k =
      if decide (k ∈ map (app (prefix s)) keys)
      then t ← here w k; if stale (epoch w) cutoff t then None else Some t else here w k.
Proof.
  revert w. induction keys as [|key keys IH]; intros w; cbn [for_keys map].
  - exists w. split; [done|]. split; [apply same_but_refl|]. intros k. by rewrite decide_False by apply not_elem_of_nil.
  - destruct (clear_key_runs cutoff key w) as (w1 & Hr & Hs & Hh). rewrite (bind_run _ _ _ _ _ Hr).
    destruct (IH w1) as (w2 & -> & Hs2 & Hh2). exists w2. split; [done|]. split; [by eapply same_but_trans|].
    intros k. rewrite Hh2, Hh, (same_but_epoch _ _ Hs).
    destruct (decide (k ∈ _ :: _)) as [Hi|Hi]; rewrite elem_of_cons in Hi; destruct (decide (k = _)) as [->|Hn];
      try (exfalso; tauto); [|by rewrite decide_True by tauto|by rewrite decide_False by tauto].
    case_decide; [|done]. destruct (here w _) as [t|]; [|done]. unfold mbind, option_bind.
    by destruct (stale _ _ t) eqn:E; rewrite ?E.
Qed.

(** The keys that are looked at *)
Lemma starts_index t p : (index_of t p =? 0) = starts_with t p.
Proof.
  unfold index_of. destruct t as [|c t]; cbn [index_from]; destruct (starts_with _ p); try done.
  pose proof (index_from_range (0 + 1) t p). destruct (Z.eqb_spec (index_from (0 + 1) t p) 0); lia.
Qed.

Definition ours (k : jstr) : bool := negb (bool_decide (k = [])) && starts_with k (prefix s).

Lemma getAllKeys_keys w k :
  k ∈ map (app (prefix s)) (match fst (Store.getAllKeys s w) with Done l => l | _ => [] end) <->
  k ∈ keys_of (storage w (store s)) /\ ours k = true.
Proof.
  cbn. rewrite list_elem_of_fmap. setoid_rewrite list_elem_of_omap. unfold ours. split.
  - intros (key & -> & k' & Hk & He). rewrite starts_index in He. destruct (_ && _) eqn:Eo; [|done].
    injection He as <-. apply andb_prop in Eo as Eo'. destruct Eo' as [_ (t & ->)%starts_with_spec].
    rewrite drop_app_length. by split.
  - intros [Hk Ho]. apply andb_prop in Ho as Ho'. destruct Ho' as [_ (t & ->)%starts_with_spec].
    exists t. split; [done|]. exists (prefix s ++ t). split; [done|]. rewrite starts_index, Ho.
    by rewrite drop_app_length.
Qed.

Definition cutoff_of (w : world) (age : option num) : option num :=
  (fun a => Num (epoch w * pow10 a - mant a) (scale a)) <$> age.

Lemma user_not_stale now u a w :
  json_data (VObj u) -> 0 < mant a -> epoch w = now -> stale now (cutoff_of w (Some a)) (User_toStorageString u) = false.
Proof.
  intros Hu Ha <-. unfold stale. assert (Hd : json_data (VObj (user_members u))) by by apply user_data.
  rewrite bool_decide_false.
  2: { intros E. pose proof (user_text u w Hu) as H. by rewrite E in H. }
  unfold User_toStorageString. rewrite json_text_back by done. cbn [orb json_norm].
  fold (norm_members (user_members u)). rewrite field_norm by (rewrite user_members_keys; by_decide).
  change (prop (user_members u) "created") with VUndef. cbn [json_norm truthy andb to_num cutoff_of fmap option_fmap option_map].
  unfold num_leb, num_ltb, VInt, num_of. cbn [mant scale]. apply negb_false_iff, Z.ltb_lt. unfold pow10. cbn. lia.
Qed.

(** C37: clearing the stale states, with an age in seconds, ends without an error,
    sends nothing and removes from the storage exactly the texts under the prefix
    of the client that are old (created at or before the cutoff) or that are no
    state at all; what tells no time of its creation is kept, so that the user
    that the page keeps in the same storage stays there whatever its age. *)
Theorem clear_stale age w :
  let '(r, w') := OidcSignin.clearStaleState random s age w in
  r = Done tt /\ same_but w w' /\
  (forall k, here w' k =
    t ← here w k; if ours k && stale (epoch w) (cutoff_of w age) t then None else Some t) /\
  forall k u a, json_data (VObj u) -> age = Some a -> 0 < mant a ->
    here w k = Some (User_toStorageString u) -> here w' k = Some (User_toStorageString u).
Proof.
  unfold OidcSignin.clearStaleState. rewrite (bind_run _ _ _ (epoch w) w) by done. cbv zeta. fold (cutoff_of w age).
  rewrite (bind_run _ _ _ (match fst (Store.getAllKeys s w) with Done l => l | _ => [] end) w) by done.
  match goal with |- context [for_keys _ ?l w] => destruct (for_keys_runs (cutoff_of w age) l w) as (w' & -> & Hs & Hh) end.
  assert (Hall : forall k, here w' k =
    t ← here w k; if ours k && stale (epoch w) (cutoff_of w age) t then None else Some t).
  { intros k. rewrite Hh. pose proof (getAllKeys_keys w k) as Hk. unfold here in *.
    destruct (get (storage w (store s)) k) as [t|] eqn:E; unfold mbind, option_bind; [|by case_decide].
    assert (k ∈ keys_of (storage w (store s))).
    { apply get_In in E. unfold keys_of. apply list_elem_of_fmap. by exists (k, t). }
    destruct (ours k); cbn [andb]; case_decide as Hd; [done|exfalso; tauto|exfalso; by apply Hk in Hd as [_ ?]|done]. }
  split; [done|]. split; [done|]. split; [exact Hall|]. intros k u a Hu -> Ha Hk. rewrite Hall, Hk.
  unfold mbind, option_bind. by rewrite (user_not_stale _ u a w Hu Ha eq_refl), andb_false_r.
Qed.
End stale.
