(* ===== verification/OidcExamples.v ===== *)
(** A sign-in of the page with a provider, from its start to the user that is
    stored: the settings are the ones of the page (oidc_settings_from of
    helper.js) for one resource server, and the browser is a small one (addresses
    without escapes, a generator that counts, a network that answers at once). *)
From S2P Require Import Prelude JsString JsNum JsObject JsValue Json JsonFacts Router Doubles CryptoJs Sha256 CodeChallenge OAuth OidcTimers OidcWorld OidcTokens OidcSignin OidcUser OidcFacts OidcPkce OidcStorage.

(** ** The browser and the provider *)

Definition here_is : location :=
  {| protocol := "https:"; hostname := "mq.test"; port := []; pathname := "/" |}.

Definition resource_server : obj value :=
  [(js "id", VStr "mq"); (js "oauth_provider_url", VStr "https://idp.test"); (js "oauth_client_id", VStr "mq-ui");
   (js "oauth_response_type", VStr "code"); (js "oauth_scopes", VStr "mq.read"); (js "end_session_endpoint", VStr []);
   (js "oauth_client_secret", VStr []); (js "oauth_token_endpoint_params", VObj [(js "audience", VStr "mq")])].

(** The page keeps users in the local storage. *)
Definition page_settings : settings :=
  new_UserManagerSettingsStore (oidc_settings_from here_is resource_server) None (Some (default_store Local)).

Definition counting (n : nat) : Z := Z.of_nat n * 7.

Definition append_text (u : jstr) (ps : list (jstr * jstr)) : option jstr :=
  Some (u ++ "?" ++ join "&" (map (fun kv => kv.1 ++ "=" ++ kv.2) ps)).

Definition read_text (fragment : bool) (u : jstr) : option (list (jstr * jstr)) :=
  match split_on (if fragment then 35 else 63) u !! 1%nat with
  | Some q => Some (map (fun p => match split_on 61 p with [k; v] => (k, v) | _ => (p, []) end) (split_on 38 q))
  | None => Some []
  end.

Definition answer (text : jstr) : reply :=
  Answered {| ok := true; status := 200; statusText := "OK"; content_type := Some (js "application/json"); text := text |}.

Definition provider (r : request) (w : world) : reply * world :=
  (answer "{`access_token`:`T1`,`token_type`:`bearer`,`scope`:`mq.read`,`expires_in`:300}", w).

Definition provider_metadata : obj value :=
  [(js "authorization_endpoint", VStr "https://idp.test/auth"); (js "token_endpoint", VStr "https://idp.test/token")].

Definition fresh_world : world :=
  {| storage := fun _ => []; clock := 1700000000000; drawn := 0; shared_array := [];
     metadata := VObj provider_metadata; signingKeys := VNull; sent := []; user_events := initial |}.

Definition no_atob (s : jstr) : option jstr := None.
Definition no_message (e : option exn) : jstr := [].

Definition begin_signin : outcome SigninRequest * world :=
  createSigninRequest counting nearest_pow append_text provider page_settings [(js "request_type", VStr "si:r")] fresh_world.

Definition return_to (url : jstr) (w : world) : outcome (obj value) * world :=
  processSigninResponse counting nearest_pow no_atob no_message read_text provider page_settings url w.

Definition begun_world : world := snd begin_signin.

(** The first identifier the generator makes, and the address of the answer *)
Definition first_state : jstr := (CryptoJS.generateUUIDv4 counting 0).1.
Definition answer_url : jstr := "https://mq.test/cb?code=C1&state=" ++ first_state.

(** ** An answer is followed once *)

Definition kept_text : jstr :=
  "{`id`:`S1`,`created`:1700000000,`authority`:`https://idp.test`,`client_id`:`mq-ui`,`scope`:`mq.read`}".

Definition waiting : world := set_storage Local [(js "oidc.S1", kept_text)] fresh_world.

Lemma signin_once_witness :
  let url := js "https://mq.test/cb?state=S1" in
  fst (return_to url waiting) <> Failed (Error "No matching state found in storage") /\
  exists params state sst,
    awaited counting nearest_pow read_text page_settings url waiting params state sst /\
    kept_at page_settings (snd (return_to url waiting)) state = None /\
    fst (return_to url fresh_world) = Failed (Error "No matching state found in storage").
Proof.
  cbv zeta. split; [by vm_compute|].
  pose proof (signin_once counting nearest_pow no_atob no_message read_text provider page_settings
    "https://mq.test/cb?state=S1" waiting) as H.
  fold (return_to "https://mq.test/cb?state=S1" waiting) in H.
  destruct (return_to "https://mq.test/cb?state=S1" waiting) as [r w'] eqn:E.
  destruct H as (params & state & sst & Ha & Hf & Hg).
  { left. vm_compute in E. injection E as <- _. eexists. reflexivity. }
  exists params, state, sst. split; [exact Ha|]. split; [apply Hf; intros ? ? Hn; exact Hn|].
  destruct Ha as [Hp [Hs _] _ _ _ _ _ _]. by apply (Hg _ params fresh_world Hp Hs).
Defined.

(** ** Users and stale states *)

Definition some_user : obj value :=
  [(js "id_token", VStr "I1"); (js "session_state", VNull); (js "access_token", VStr "T1");
   (js "refresh_token", VStr "R1"); (js "token_type", VStr "bearer"); (js "scope", VStr "openid mq.read");
   (js "profile", VObj [(js "sub", VStr "u1")]); (js "expires_at", VInt 1700000300); (js "state", VUndef)].

Ltac data := repeat first [ by_decide | constructor | by apply data_int ].

Lemma some_user_data : json_data (VObj some_user).
Proof. data. Qed.

Lemma user_round_trip_witness :
  let w1 := snd (storeUser page_settings (Some some_user) fresh_world) in
  loadUser page_settings w1 = (Done (Some (stored_user some_user)), w1) /\ stored_user some_user = some_user.
Proof.
  cbv zeta. split; [|by vm_compute].
  by destruct (user_round_trip page_settings some_user fresh_world some_user_data) as (_ & H & _).
Defined.

(** A storage with the user, a state of an hour ago, one of now, a text that is no
    state, and a key that is not the client's *)
Definition full_world : world :=
  set_storage Local
    [(prefix (userStore page_settings) ++ userStoreKey page_settings, User_toStorageString some_user);
     (js "oidc.old", js "{`id`:`old`,`created`:1699996400}"); (js "oidc.new", js "{`id`:`new`,`created`:1700000000}");
     (js "oidc.bad", js "{id}"); (js "other", js "{`created`:1}")] fresh_world.

Lemma clear_stale_witness :
  let s := stateStore page_settings in
  let w' := snd (OidcSignin.clearStaleState counting s (Some (num_of 900)) full_world) in
  get (storage w' Local) (prefix (userStore page_settings) ++ userStoreKey page_settings) =
    Some (User_toStorageString some_user) /\
  get (storage w' Local) "oidc.old" = None /\ get (storage w' Local) "oidc.bad" = None /\
  get (storage w' Local) "oidc.new" = Some (js "{`id`:`new`,`created`:1700000000}") /\
  get (storage w' Local) "other" = Some (js "{`created`:1}").
Proof.
  cbv zeta. pose proof (clear_stale counting (stateStore page_settings) (Some (num_of 900)) full_world) as H.
  destruct (OidcSignin.clearStaleState _ _ _ _) as [r w']. destruct H as (_ & _ & Hall & Huser). cbn [snd].
  change (here (stateStore page_settings)) with (fun w k => get (storage w Local) k) in *. cbv beta in *.
  split; [apply (Huser _ some_user (num_of 900) some_user_data eq_refl); by vm_compute|].
  rewrite !Hall. split_and!; by vm_compute.
Defined.

(** ** A sign-in with a code *)

Lemma page_settings_data : json_data (VObj (fields page_settings)).
Proof. assert (H : json_data (VObj ltac:(let f := eval vm_compute in (fields page_settings) in exact f))) by data. exact H. Qed.

Lemma signin_args_data : json_data (VObj [(js "request_type", VStr "si:r")]).
Proof. data. Qed.

Lemma token_params_apart k : k ∈ token_keys -> k ∉ keys_of [(js "audience", VStr "mq")].
Proof.
  assert (H : Forall (fun k => k ∉ keys_of [(js "audience", VStr "mq")]) token_keys) by by_decide.
  rewrite Forall_forall in H. apply H.
Qed.

Lemma begin_done : match begin_signin with (Done _, _) => true | _ => false end = true.
Proof. by vm_compute. Qed.

Lemma pkce_bound_witness :
  match begin_signin with
  | (Done req, w1) => exists state v text,
      verifier v /\ kept_at page_settings w1 state = Some text /\
      (exists endpoint params, append_text endpoint params = Some (signin_url req) /\
        (js "code_challenge", S256 v) ∈ params) /\
      forall url c w2 md te, answers read_text page_settings url state text c w2 ->
        metadata w2 = VObj md -> prop md "token_endpoint" = VStr te ->
        exists r, sends (return_to url) w2 r /\ token_request r te c v "mq-ui"
  | (Failed _, _) => False
  end.
Proof.
  destruct begin_signin as [[req|e] w1] eqn:E; [|pose proof begin_done as H; rewrite E in H; discriminate H].
  destruct (pkce_bound counting nearest_pow nearest_pow_approximates no_atob no_message read_text provider page_settings
    (fun r w => eq_refl) append_text page_settings_data [(js "request_type", VStr "si:r")] fresh_world req w1
    "https://idp.test" "mq-ui" [(js "audience", VStr "mq")] E signin_args_data eq_refl ltac:(done) eq_refl ltac:(done)
    eq_refl eq_refl token_params_apart) as (state & v & text & Hv & Ht & (ep & ps & Ha & _ & Hc & _) & Hr).
  exists state, v, text. split; [exact Hv|]. split; [exact Ht|]. split; [exists ep, ps; split; [exact Ha | exact Hc]|]. exact Hr.
Defined.

(** The answer of the provider gives a user; the same address is refused afterwards. *)
Example signin_run :
  let '(r, w) := return_to answer_url begun_world in
  match r with Done u => prop u "access_token" = VStr "T1" /\ prop u "expires_at" = VInt 1700000300 | _ => False end /\
  length (sent w) = 1%nat /\
  fst (return_to answer_url w) = Failed (Error "No matching state found in storage").
Proof. vm_compute. repeat split. Qed.
