(* ===== verification/Rounding.v ===== *)
(** Rounding of doubles: the result of an operation is a double in its normal
    form, and not above any double that the exact result is not above. These are
    the facts about floating-point numbers that bounds on computed numbers need. *)
From Stdlib Require SpecFloat.
From S2P Require Import Prelude JsString JsNum JsValue Doubles.

Notation fexp := (SpecFloat.fexp 53 1024).
Notation round_aux := (SpecFloat.binary_round_aux 53 1024).
Notation digits := SpecFloat.Zdigits2.
Notation exact := SpecFloat.loc_Exact.

Lemma fexp_eq x : fexp x = Z.max (x - 53) (-1074).
Proof. done. Qed.

Lemma fexp_min x : -1074 <= fexp x.
Proof. rewrite fexp_eq. lia. Qed.

(** ** Digits *)

Lemma digits_log2 m : 0 < m -> digits m = Z.log2 m + 1.
Proof.
  destruct m as [|p|p]; [lia| |lia]. intros _. cbn [digits].
  assert (Hs : forall p, SpecFloat.digits2_pos p = Pos.size p) by (induction p0; cbn; congruence).
  rewrite Hs. destruct p; cbn; lia.
Qed.

Lemma digits_nonneg m : 0 <= digits m.
Proof. by destruct m. Qed.

Lemma digits_pos p : 1 <= digits (Zpos p).
Proof. cbn. lia. Qed.

Lemma digits_lt m : 0 <= m -> m < 2 ^ digits m.
Proof.
  intros Hm. destruct (Z.eq_dec m 0) as [->|Hn]; [done|].
  rewrite digits_log2 by lia. apply Z.log2_spec. lia.
Qed.

Lemma digits_le m : 0 < m -> 2 ^ (digits m - 1) <= m.
Proof. intros Hm. rewrite digits_log2 by lia. rewrite Z.add_simpl_r. apply Z.log2_spec. lia. Qed.

(** A number has at least as many digits as a power below it. *)
Lemma digits_ge m n : 2 ^ (n - 1) <= m -> 0 <= m -> n <= digits m.
Proof.
  intros Hn Hm. pose proof (digits_nonneg m). destruct (Z_lt_dec n 1); [lia|].
  assert (0 < 2 ^ (n - 1)) by (apply Z.pow_pos_nonneg; lia).
  rewrite digits_log2 by lia. assert (n - 1 <= Z.log2 m) by (apply Z.log2_le_pow2; lia). lia.
Qed.

(** A number has at most as many digits as a power above it. *)
Lemma digits_le_of_lt m n : 0 <= m -> 0 <= n -> m < 2 ^ n -> digits m <= n.
Proof.
  intros Hm Hn Hl. destruct (Z.eq_dec m 0) as [->|]; [done|].
  rewrite digits_log2 by lia. assert (Z.log2 m < n) by (apply Z.log2_lt_pow2; lia). lia.
Qed.

(** ** Shifting *)

Lemma iter_pos_ind {A} (f : A -> A) (P : Z -> A -> Prop) :
  (forall n x, 0 <= n -> P n x -> P (n + 1) (f x)) ->
  forall p n x, 0 <= n -> P n x -> P (n + Zpos p) (SpecFloat.iter_pos f p x).
Proof.
  intros Hf. induction p as [p IH|p IH|]; intros n x Hn Hx; cbn [SpecFloat.iter_pos].
  - replace (n + Zpos p~1) with (n + 1 + Zpos p + Zpos p) by lia.
    apply IH; [lia|]. apply IH; [lia|]. by apply Hf.
  - replace (n + Zpos p~0) with (n + Zpos p + Zpos p) by lia. apply IH; [lia|]. by apply IH.
  - by apply Hf.
Qed.

(** What a record holds after [n] shifts of [m]: the quotient, and a location
    that is exact only when nothing was lost, now or before. *)
Definition shifted (m : Z) (l : SpecFloat.location) (n : Z) (mrs : SpecFloat.shr_record) : Prop :=
  SpecFloat.shr_m mrs = m / 2 ^ n /\
  (SpecFloat.loc_of_shr_record mrs <> exact -> m mod 2 ^ n <> 0 \/ l <> exact).

Lemma shifted_start m l : shifted m l 0 (SpecFloat.shr_record_of_loc m l).
Proof.
  split; [by destruct l as [|[]]; cbn; rewrite Z.div_1_r|]. intros Hl. right. by destruct l.
Qed.

Lemma shr_1_spec m r s :
  0 <= m -> exists s', SpecFloat.shr_1 (SpecFloat.Build_shr_record m r s) =
    SpecFloat.Build_shr_record (m / 2) (Z.odd m) s' /\ s' = r || s.
Proof.
  intros Hm. exists (r || s). split; [|done].
  destruct m as [|[p|p|]|p]; cbn; try done; try lia; f_equal; lia_div.
Qed.

Lemma shifted_step m l n mrs :
  0 <= m -> 0 <= n -> shifted m l n mrs -> shifted m l (n + 1) (SpecFloat.shr_1 mrs).
Proof.
  intros Hm Hn [Hq Hl]. destruct mrs as [q r s]. cbn in Hq, Hl.
  assert (Hp : 0 < 2 ^ n) by (apply Z.pow_pos_nonneg; lia).
  assert (Hp1 : 2 ^ (n + 1) = 2 ^ n * 2) by (rewrite Z.pow_add_r by lia; lia).
  assert (Hqn : 0 <= q) by (subst q; apply Z.div_pos; lia).
  destruct (shr_1_spec q r s Hqn) as (s' & -> & ->). unfold shifted. cbn [SpecFloat.shr_m].
  rewrite Hp1, <- Z.div_div, <- Hq by lia. split; [done|].
  rewrite Z.rem_mul_r, <- Hq by lia. pose proof (Z.mod_pos_bound m (2 ^ n) Hp).
  intros He. destruct (Z.odd q) eqn:Ho.
  - left. rewrite Zmod_odd, Ho. lia.
  - assert (r = true \/ s = true) as Hrs by (destruct r, s; cbn in He; auto).
    destruct (Hl ltac:(destruct r, s; naive_solver)) as [Hmod|]; [left|by right].
    rewrite Zmod_odd, Ho. lia.
Qed.

Lemma shr_fexp_spec m e l :
  0 <= m ->
  let n := Z.max 0 (fexp (digits m + e) - e) in
  exists mrs, SpecFloat.shr_fexp 53 1024 m e l = (mrs, e + n) /\ shifted m l n mrs.
Proof.
  intros Hm n. unfold SpecFloat.shr_fexp, SpecFloat.shr, n.
  destruct (fexp (digits m + e) - e) as [|p|p].
  - eexists. rewrite Z.add_0_r. split; [done|]. apply shifted_start.
  - eexists. split; [done|]. change (0 `max` Zpos p) with (0 + Zpos p).
    apply (iter_pos_ind _ (shifted m l)); [|lia|apply shifted_start].
    intros k x Hk Hx. by apply shifted_step.
  - eexists. rewrite Z.add_0_r. split; [done|]. apply shifted_start.
Qed.

(** ** Rounding *)

(** A number in the normal form of doubles, the binary point being far enough
    to the right for 2 ^ 971 and far enough to the left for 2 ^ -1074. *)
Definition normal (m : positive) (e : Z) : Prop :=
  -1074 <= e <= 971 /\ Zpos m < 2 ^ 53 /\ (e = -1074 \/ 2 ^ 52 <= Zpos m).

(** [m * 2 ^ e] as an integer: all exponents that occur are above -5000. *)
Definition scaled (m e : Z) : Z := m * 2 ^ (e + 5000).

Lemma scaled_shift m e n : 0 <= n -> -5000 <= e -> scaled m (e + n) = scaled (m * 2 ^ n) e.
Proof. intros Hn He. unfold scaled. replace (e + n + 5000) with (n + (e + 5000)) by lia.
  rewrite Z.pow_add_r by lia. lia. Qed.

Lemma scaled_mono m m' e : m <= m' -> -5000 <= e -> scaled m e <= scaled m' e.
Proof. intros Hm He. unfold scaled. apply Z.mul_le_mono_nonneg_r; [|lia]. apply Z.pow_nonneg. lia. Qed.

Lemma scaled_inj m m' e : -5000 <= e -> scaled m e <= scaled m' e -> m <= m'.
Proof.
  intros He. unfold scaled. intros H. assert (0 < 2 ^ (e + 5000)) by (apply Z.pow_pos_nonneg; lia). nia.
Qed.

Lemma scaled_lt_inj m m' e : -5000 <= e -> scaled m e < scaled m' e -> m < m'.
Proof.
  intros He. unfold scaled. intros H. assert (0 < 2 ^ (e + 5000)) by (apply Z.pow_pos_nonneg; lia). nia.
Qed.

(** Shifting right only makes a number smaller. *)
Lemma scaled_div m e n : 0 <= n -> -5000 <= e -> scaled (m / 2 ^ n) (e + n) <= scaled m e.
Proof.
  intros Hn He. rewrite scaled_shift by lia. apply scaled_mono; [|lia].
  assert (0 < 2 ^ n) by (apply Z.pow_pos_nonneg; lia). pose proof (Z.mul_div_le m (2 ^ n)). lia.
Qed.

Lemma scaled_div_lt m e n :
  0 <= n -> -5000 <= e -> m mod 2 ^ n <> 0 -> scaled (m / 2 ^ n) (e + n) < scaled m e.
Proof.
  intros Hn He Hr. rewrite scaled_shift by lia. unfold scaled.
  assert (0 < 2 ^ n) by (apply Z.pow_pos_nonneg; lia).
  assert (0 < 2 ^ (e + 5000)) by (apply Z.pow_pos_nonneg; lia).
  apply Z.mul_lt_mono_pos_r; [done|]. pose proof (Z.mod_pos_bound m (2 ^ n)).
  pose proof (Z.div_mod m (2 ^ n)). lia.
Qed.

(** How the mantissas look after a shift to the exponent [fexp]: at most 53
    digits, and exactly that many when it is not the smallest exponent. *)
Lemma shift_digits m e :
  0 <= m ->
  let n := Z.max 0 (fexp (digits m + e) - e) in
  0 <= m / 2 ^ n < 2 ^ 53 /\
  (fexp (digits m + e) < e \/ e + n = -1074 \/ 2 ^ 52 <= m / 2 ^ n).
Proof.
  intros Hm n. unfold n. rewrite fexp_eq. set (k := Z.max 0 _).
  assert (Hp : 0 < 2 ^ k) by (apply Z.pow_pos_nonneg; lia).
  pose proof (digits_lt m Hm) as Hlt. split.
  - split; [apply Z.div_pos; lia|]. apply Z.div_lt_upper_bound; [done|].
    eapply Z.lt_le_trans; [exact Hlt|]. rewrite <- Z.pow_add_r by lia. apply Z.pow_le_mono_r; lia.
  - destruct (Z_lt_dec (Z.max (digits m + e - 53) (-1074)) e) as [|Hk]; [by left|right].
    destruct (Z.eq_dec (e + k) (-1074)) as [|Hne]; [by left|right].
    assert (Hd : k = digits m - 53) by lia.
    apply Z.div_le_lower_bound; [done|]. rewrite <- Z.pow_add_r by lia.
    replace (k + 52) with (digits m - 1) by lia. apply digits_le.
    destruct (Z.eq_dec m 0) as [->|]; [cbn in *; lia|lia].
Qed.

(** The mantissa after the choice of the nearest: one more when something was
    lost, if at all. *)
Lemma round_nearest_spec m l :
  SpecFloat.round_nearest_even m l = m \/ (SpecFloat.round_nearest_even m l = m + 1 /\ l <> exact).
Proof. destruct l as [|[]]; cbn; auto; try (by right). destruct (Z.even m); [by left|by right]. Qed.

(** The steps of a rounding, from an exponent that is at most that of the
    result: a shift, the choice of the nearest, and the shift it may need. *)
Lemma round_steps sx m e l :
  0 <= m -> e <= fexp (digits m + e) ->
  let e1 := fexp (digits m + e) in
  let m1 := m / 2 ^ (e1 - e) in
  exists m2 n2,
    (m2 = m1 \/ (m2 = m1 + 1 /\ (m mod 2 ^ (e1 - e) <> 0 \/ l <> exact))) /\
    n2 = Z.max 0 (fexp (digits m2 + e1) - e1) /\
    round_aux sx m e l =
      match m2 / 2 ^ n2 with
      | 0 => dzero sx
      | Zpos p => if e1 + n2 <=? 971 then finite sx p (e1 + n2) else infinite sx
      | Zneg _ => dnan
      end.
Proof.
  intros Hm He e1 m1. destruct (shr_fexp_spec m e l Hm) as (mrs & E1 & H1 & Hl1). fold e1 in E1, H1, Hl1.
  rewrite Z.max_r in E1, H1, Hl1 by (unfold e1; lia).
  set (m2 := SpecFloat.round_nearest_even (SpecFloat.shr_m mrs) (SpecFloat.loc_of_shr_record mrs)).
  assert (Hm1 : 0 <= m1) by (apply Z.div_pos; [lia|]; apply Z.pow_pos_nonneg; unfold e1; lia).
  assert (Hm2 : m2 = m1 \/ (m2 = m1 + 1 /\ (m mod 2 ^ (e1 - e) <> 0 \/ l <> exact))).
  { unfold m1. rewrite <- H1. unfold m2.
    destruct (round_nearest_spec (SpecFloat.shr_m mrs) (SpecFloat.loc_of_shr_record mrs)) as [->|[-> Hne]];
      [by left|right]. split; [done|]. by apply Hl1. }
  destruct (shr_fexp_spec m2 e1 exact ltac:(lia)) as (mrs2 & E2 & H2 & _).
  exists m2, (Z.max 0 (fexp (digits m2 + e1) - e1)). split; [done|]. split; [done|].
  unfold SpecFloat.binary_round_aux. rewrite E1. replace (e + (e1 - e)) with e1 by lia.
  fold m2. rewrite E2, H2. change (Z.sub 1024 53) with 971. done.
Qed.

(** The mantissa a rounding ends with. *)
Lemma round_mantissa m e m2 n2 l :
  0 <= m -> e <= fexp (digits m + e) ->
  let e1 := fexp (digits m + e) in
  let m1 := m / 2 ^ (e1 - e) in
  (m2 = m1 \/ (m2 = m1 + 1 /\ (m mod 2 ^ (e1 - e) <> 0 \/ l <> exact))) ->
  n2 = Z.max 0 (fexp (digits m2 + e1) - e1) ->
  0 <= m2 / 2 ^ n2 < 2 ^ 53 /\ -1074 <= e1 + n2 /\ (e1 + n2 = -1074 \/ 2 ^ 52 <= m2 / 2 ^ n2).
Proof.
  intros Hm He e1 m1 Hm2 ->. destruct (shift_digits m e Hm) as [Hr1 Hn1]. fold e1 in Hr1, Hn1.
  rewrite Z.max_r in Hr1, Hn1 by (unfold e1; lia). fold m1 in Hr1, Hn1.
  destruct (shift_digits m2 e1 ltac:(lia)) as [Hr2 Hn2].
  split; [exact Hr2|]. pose proof (fexp_min (digits m + e)). split; [lia|].
  destruct Hn2 as [Hs|Hn2]; [|exact Hn2]. rewrite Z.max_l by lia. rewrite Z.pow_0_r, Z.div_1_r. lia.
Qed.

(** A rounding gives a zero, a number in normal form or an infinity. *)
Lemma round_normal sx m e l :
  0 <= m -> e <= fexp (digits m + e) ->
  match round_aux sx m e l with
  | dzero s | infinite s => s = sx
  | finite s m' e' => s = sx /\ normal m' e'
  | dnan => False
  end.
Proof.
  intros Hm He. destruct (round_steps sx m e l Hm He) as (m2 & n2 & Hm2 & Hn2 & ->).
  destruct (round_mantissa m e m2 n2 l Hm He Hm2 Hn2) as (Hr & He2 & Hn).
  destruct (m2 / 2 ^ n2) as [|p|p]; [done| |lia].
  destruct (Z.leb_spec (fexp (digits m + e) + n2) 971); [|done]. split; [done|]. unfold normal. lia.
Qed.

(** A rounding does not pass a number of at most 53 digits. *)
Lemma round_le sx m e l N k :
  0 <= m -> -5000 <= e <= fexp (digits m + e) -> 1 <= N < 2 ^ 53 -> -1074 <= k <= 971 ->
  scaled m e <= scaled N k -> (l <> exact -> scaled m e < scaled N k) ->
  match round_aux sx m e l with
  | dzero s => s = sx
  | finite s m' e' => s = sx /\ normal m' e' /\ scaled (Zpos m') e' <= scaled N k
  | _ => False
  end.
Proof.
  intros Hm [Hlow He] HN Hk Hle Hlt. destruct (round_steps sx m e l Hm He) as (m2 & n2 & Hm2 & Hn2 & ->).
  destruct (round_mantissa m e m2 n2 l Hm He Hm2 Hn2) as (Hr & He2 & Hn).
  set (e1 := fexp (digits m + e)) in *. set (m1 := m / 2 ^ (e1 - e)) in *.
  assert (He1 : -1074 <= e1) by apply fexp_min.
  assert (Hm1 : scaled m1 e1 <= scaled m e).
  { replace e1 with (e + (e1 - e)) at 1 by lia. apply scaled_div; lia. }
  assert (H2 : scaled m2 e1 <= scaled N k).
  { destruct Hm2 as [->|[-> Hx]]; [lia|].
    assert (Hs : scaled m1 e1 < scaled N k).
    { destruct Hx as [Hx|Hx]; [|specialize (Hlt Hx); lia].
      replace e1 with (e + (e1 - e)) at 1 by lia.
      pose proof (scaled_div_lt m e (e1 - e)). fold m1 in H. lia. }
    destruct (Z_le_dec e1 k) as [Hek|Hek].
    - replace k with (e1 + (k - e1)) in Hs |- * by lia. rewrite scaled_shift in Hs |- * by lia.
      apply scaled_lt_inj in Hs; [|lia]. apply scaled_mono; lia.
    - exfalso. assert (Hd : 2 ^ 52 <= m1).
      { destruct (shift_digits m e Hm) as [_ Hn1]. fold e1 in Hn1. rewrite Z.max_r in Hn1 by lia.
        fold m1 in Hn1. lia. }
      replace e1 with (k + 1 + (e1 - (k + 1))) in Hs by lia.
      rewrite scaled_shift, (scaled_shift _ k) in Hs by lia. apply scaled_lt_inj in Hs; [|lia].
      assert (0 < 2 ^ (e1 - (k + 1))) by (apply Z.pow_pos_nonneg; lia). nia. }
  assert (H3 : scaled (m2 / 2 ^ n2) (e1 + n2) <= scaled N k).
  { etrans; [apply scaled_div; lia|done]. }
  destruct (m2 / 2 ^ n2) as [|p|p]; [done| |lia].
  destruct (Z.leb_spec (e1 + n2) 971) as [H|H]; [split; [done|]; split; [unfold normal; lia|done]|].
  replace (e1 + n2) with (k + (e1 + n2 - k)) in H3 by lia. rewrite scaled_shift in H3 by lia.
  apply scaled_inj in H3; [|lia].
  assert (2 ^ 1 <= 2 ^ (e1 + n2 - k)) by (apply Z.pow_le_mono_r; lia). nia.
Qed.

(** ** Operations *)

(** What is known of a double that may be the result of an operation. *)
Definition canonical (x : double) : Prop :=
  match x with finite _ m e => normal m e | _ => True end.

(** Not negative, and at most [N * 2 ^ k]. *)
Definition at_most (N k : Z) (x : double) : Prop :=
  match x with
  | dzero s => s = false
  | finite s m e => s = false /\ normal m e /\ scaled (Zpos m) e <= scaled N k
  | _ => False
  end.

(** Numbers of moderate size in binary: what occurs as an operand. *)
Definition operand (e : Z) : Prop := -1200 <= e <= 1200.

Lemma normal_operand m e : normal m e -> operand e.
Proof. unfold normal, operand. lia. Qed.

Lemma div_core_spec m1 e1 m2 e2 :
  operand e1 -> operand e2 ->
  exists q s r l,
    SpecFloat.SFdiv_core_binary 53 1024 (Zpos m1) e1 (Zpos m2) e2 = (q, e1 - e2 - s, l) /\
    0 <= s /\ -5000 <= e1 - e2 - s <= fexp (digits q + (e1 - e2 - s)) /\
    0 <= q /\ 0 <= r /\ q * Zpos m2 + r = Zpos m1 * 2 ^ s /\ (l <> exact -> 0 < r).
Proof.
  unfold operand. intros He1 He2. unfold SpecFloat.SFdiv_core_binary. rewrite fexp_eq.
  set (D := digits (Zpos m1) + e1 - (digits (Zpos m2) + e2)).
  set (e' := Z.min (Z.max (D - 53) (-1074)) (e1 - e2)). set (s := e1 - e2 - e').
  assert (Hs : 0 <= s) by (unfold s, e'; lia).
  assert (Hm : match s with 0 => Zpos m1 | Zpos _ => Z.shiftl (Zpos m1) s | Zneg _ => 0 end = Zpos m1 * 2 ^ s).
  { destruct s as [|s'|]; [lia|by rewrite Z.shiftl_mul_pow2 by lia|lia]. }
  rewrite Hm. set (M := Zpos m1 * 2 ^ s).
  pose proof (digits_pos m1). pose proof (digits_pos m2).
  assert (HM : 2 ^ (digits (Zpos m1) - 1 + s) <= M).
  { rewrite Z.pow_add_r by lia. unfold M. apply Z.mul_le_mono_nonneg_r; [apply Z.pow_nonneg; lia|].
    by apply digits_le. }
  pose proof (Z_div_mod M (Zpos m2) ltac:(lia)) as Hqr. destruct (Z.div_eucl M (Zpos m2)) as [q r].
  destruct Hqr as [HqM Hr]. assert (Hq : 0 <= q) by nia.
  assert (Hdq : digits (Zpos m1) + s - digits (Zpos m2) <= digits q).
  { pose proof (digits_nonneg q). pose proof (digits_lt (Zpos m2) ltac:(lia)) as H2.
    destruct (Z_le_dec (digits (Zpos m1) + s - digits (Zpos m2)) 0); [lia|].
    apply digits_ge; [|done]. set (d2 := digits (Zpos m2)) in *. set (t := digits (Zpos m1) + s - d2 - 1).
    assert (2 ^ (t + d2) <= M) as Ht by (etrans; [|exact HM]; apply Z.pow_le_mono_r; lia).
    rewrite Z.pow_add_r in Ht by lia.
    assert (0 < 2 ^ t) by (apply Z.pow_pos_nonneg; lia). nia. }
  exists q, s, r, (SpecFloat.new_location (Zpos m2) r).
  split; [repeat f_equal; lia|]. split; [done|]. rewrite fexp_eq. split; [lia|].
  split; [done|]. split; [lia|]. split; [lia|].
  intros Hl. destruct (Z.eq_dec r 0) as [->|]; [|lia].
  destruct Hl. unfold SpecFloat.new_location. by destruct (Z.even (Zpos m2)).
Qed.

Lemma ddiv_finite s1 m1 e1 s2 m2 e2 :
  ddiv (finite s1 m1 e1) (finite s2 m2 e2) =
  let '(q, e, l) := SpecFloat.SFdiv_core_binary 53 1024 (Zpos m1) e1 (Zpos m2) e2 in
  round_aux (xorb s1 s2) q e l.
Proof. done. Qed.

(** A quotient is in normal form. *)
Lemma ddiv_canonical s1 m1 e1 s2 m2 e2 :
  operand e1 -> operand e2 -> canonical (ddiv (finite s1 m1 e1) (finite s2 m2 e2)).
Proof.
  intros He1 He2. rewrite ddiv_finite.
  destruct (div_core_spec m1 e1 m2 e2 He1 He2) as (q & s & r & l & -> & Hs & He & Hq & _).
  pose proof (round_normal (xorb s1 s2) q (e1 - e2 - s) l Hq ltac:(lia)) as H.
  destruct (round_aux _ _ _ _); [done..|]. by destruct H.
Qed.

(** A quotient is at most a number that the exact quotient is not above. *)
Lemma ddiv_at_most m1 e1 m2 e2 N k :
  operand e1 -> operand e2 -> 1 <= N < 2 ^ 53 -> -1074 <= k <= 971 ->
  scaled (Zpos m1) e1 <= scaled (N * Zpos m2) (k + e2) ->
  at_most N k (ddiv (finite false m1 e1) (finite false m2 e2)).
Proof.
  intros He1 He2 HN Hk Hle. rewrite ddiv_finite.
  destruct (div_core_spec m1 e1 m2 e2 He1 He2) as (q & s & r & l & -> & Hs & He & Hq & Hr & Hqr & Hl).
  unfold operand in *. set (e := e1 - e2 - s) in *.
  (* both sides times the divisor, at the exponent of the dividend *)
  assert (Hmul : forall c, scaled c e * (Zpos m2 * 2 ^ (e2 + 5000)) = c * Zpos m2 * 2 ^ (e + e2 + 10000)).
  { intros c. unfold scaled. replace (e + e2 + 10000) with (e + 5000 + (e2 + 5000)) by lia.
    rewrite (Z.pow_add_r 2 (e + 5000)) by lia. ring. }
  assert (Hx : (q * Zpos m2 + r) * 2 ^ (e + e2 + 10000) <= scaled N k * (Zpos m2 * 2 ^ (e2 + 5000))).
  { rewrite Hqr, <- Z.mul_assoc, <- Z.pow_add_r by lia.
    replace (s + (e + e2 + 10000)) with (e1 + 5000 + 5000) by lia.
    unfold scaled in *. replace (N * 2 ^ (k + 5000) * (Zpos m2 * 2 ^ (e2 + 5000)))
      with (N * Zpos m2 * 2 ^ (k + e2 + 5000) * 2 ^ 5000).
    - rewrite (Z.pow_add_r 2 (e1 + 5000)), Z.mul_assoc by lia.
      apply Z.mul_le_mono_nonneg_r; [apply Z.pow_nonneg; lia|done].
    - replace (N * 2 ^ (k + 5000) * (Zpos m2 * 2 ^ (e2 + 5000)))
        with (N * Zpos m2 * (2 ^ (k + 5000) * 2 ^ (e2 + 5000))) by ring.
      rewrite <- Z.mul_assoc, <- !Z.pow_add_r by lia. do 2 f_equal. lia. }
  assert (HP : 0 < Zpos m2 * 2 ^ (e2 + 5000)).
  { apply Z.mul_pos_pos; [lia|]. apply Z.pow_pos_nonneg; lia. }
  assert (HQ : 0 < 2 ^ (e + e2 + 10000)) by (apply Z.pow_pos_nonneg; lia).
  assert (Hstep : scaled q e * (Zpos m2 * 2 ^ (e2 + 5000)) + r * 2 ^ (e + e2 + 10000) <=
    scaled N k * (Zpos m2 * 2 ^ (e2 + 5000))) by (rewrite Hmul; lia).
  assert (H0 : scaled q e <= scaled N k).
  { apply (Z.mul_le_mono_pos_r _ _ _ HP). assert (0 <= r * 2 ^ (e + e2 + 10000)) by nia. lia. }
  assert (H1 : l <> exact -> scaled q e < scaled N k).
  { intros Hne. specialize (Hl Hne). apply (Z.mul_lt_mono_pos_r _ _ _ HP).
    assert (0 < r * 2 ^ (e + e2 + 10000)) by nia. lia. }
  pose proof (round_le (xorb false false) q e l N k Hq He HN Hk H0 H1) as H. unfold at_most.
  by destruct (round_aux (xorb false false) q e l).
Qed.

(** ** Sums and products *)

Lemma digits_shift p n : 0 <= n -> digits (Zpos p * 2 ^ n) = digits (Zpos p) + n.
Proof.
  intros Hn. assert (0 < 2 ^ n) by (apply Z.pow_pos_nonneg; lia).
  rewrite !digits_log2 by lia. rewrite Z.log2_mul_pow2 by lia. lia.
Qed.

Lemma iter_xO p m : Zpos (Pos.iter xO m p) = Zpos m * 2 ^ Zpos p.
Proof.
  induction p as [|p IH] using Pos.peano_ind; [cbn; lia|].
  rewrite Pos.iter_succ, Pos2Z.inj_succ, Z.pow_succ_r by lia. lia.
Qed.

Lemma shl_align_spec m e e' :
  SpecFloat.shl_align m e e' = (fst (SpecFloat.shl_align m e e'), Z.min e e') /\
  Zpos (fst (SpecFloat.shl_align m e e')) = Zpos m * 2 ^ (e - Z.min e e').
Proof.
  unfold SpecFloat.shl_align. destruct (e' - e) as [|d|d] eqn:Hd; cbn [fst].
  - rewrite Z.min_l, Z.sub_diag by lia. split; [done|lia].
  - rewrite Z.min_l, Z.sub_diag by lia. split; [done|lia].
  - rewrite Z.min_r by lia. split; [done|]. rewrite iter_xO. do 2 f_equal. lia.
Qed.

(** A difference in exact arithmetic, rounded. *)
Lemma normalize_at_most m e N k :
  0 <= m -> -2000 <= e -> 1 <= N < 2 ^ 53 -> -1074 <= k <= 971 -> scaled m e <= scaled N k ->
  at_most N k (SpecFloat.binary_normalize 53 1024 m e false).
Proof.
  intros Hm He HN Hk Hle. destruct m as [|p|p]; [done| |lia].
  cbn [SpecFloat.binary_normalize]. unfold SpecFloat.binary_round.
  change (Zpos (SpecFloat.digits2_pos p)) with (digits (Zpos p)).
  pose proof (fexp_min (digits (Zpos p) + e)) as Hf. set (f := fexp (digits (Zpos p) + e)) in *.
  destruct (shl_align_spec p e f) as [Ha Hv]. rewrite Ha. clear Ha.
  set (q := fst (SpecFloat.shl_align p e f)) in *. set (n := e - Z.min e f) in *.
  assert (Hn : 0 <= n) by (unfold n; lia). replace (Z.min e f) with (e - n) by (unfold n; lia).
  assert (Hs : scaled (Zpos q) (e - n) = scaled (Zpos p) e).
  { rewrite Hv. replace e with (e - n + n) at 2 by lia. symmetry. apply scaled_shift; unfold n; lia. }
  assert (Hd : digits (Zpos q) + (e - n) = digits (Zpos p) + e) by (rewrite Hv, digits_shift by done; lia).
  pose proof (round_le false (Zpos q) (e - n) exact N k ltac:(lia)) as H.
  rewrite Hd, Hs in H. fold f in H. specialize (H ltac:(unfold n; lia) HN Hk Hle ltac:(done)).
  by destruct (round_aux false (Zpos q) (e - n) exact).
Qed.

(** A product by a number of 53 digits that is below 2 ^ 53. *)
Lemma dmul_at_most m1 e1 m2 e2 N k :
  2 ^ 52 <= Zpos m1 -> -200 <= e1 <= 0 -> normal m2 e2 -> 1 <= N < 2 ^ 53 -> -1074 <= k <= 971 ->
  scaled (Zpos m1 * Zpos m2) (e1 + e2) <= scaled N k ->
  at_most N k (dmul (finite false m1 e1) (finite false m2 e2)).
Proof.
  intros Hm1 He1 (He2 & _ & Hm2) HN Hk Hle. unfold dmul. cbn [SpecFloat.SFmul].
  rewrite Pos2Z.inj_mul. set (M := Zpos m1 * Zpos m2) in *.
  assert (Hf : e1 + e2 <= fexp (digits M + (e1 + e2))).
  { rewrite fexp_eq. destruct Hm2 as [->|Hm2]; [lia|].
    assert (105 <= digits M); [|lia]. apply digits_ge; unfold M; nia. }
  pose proof (round_le (xorb false false) M (e1 + e2) exact N k ltac:(unfold M; lia) ltac:(lia) HN Hk Hle
    ltac:(done)) as H.
  by destruct (round_aux (xorb false false) M (e1 + e2) exact).
Qed.

(** ** Numbers of values *)

Lemma of_fraction_canonical n d : canonical (of_fraction n d).
Proof. destruct n; [done| |]; by apply ddiv_canonical. Qed.

Lemma string_number_canonical s : canonical (string_number s).
Proof.
  unfold string_number. repeat case_match_goal; try done; apply of_fraction_canonical.
Qed.

(** Every value is, as a number, a double in its normal form. *)
Lemma to_number_canonical v : canonical (to_number v).
Proof.
  destruct v as [| |[]|n| |s|l|o]; cbn [to_number]; try done; try apply of_fraction_canonical;
    apply string_number_canonical.
Qed.

Lemma at_most_mono N k k' x : -5000 <= k <= k' -> 0 <= N -> at_most N k x -> at_most N k' x.
Proof.
  intros Hk HN. destruct x as [s|s| |s m e]; try done. intros (-> & Hn & Hx).
  split; [done|]. split; [done|]. etrans; [exact Hx|].
  unfold scaled. apply Z.mul_le_mono_nonneg_l; [done|]. apply Z.pow_le_mono_r; lia.
Qed.

(** What is at most a power of two stays below after a division. *)
Lemma at_most_ddiv N k N' k' d m e x :
  at_most N k x -> d = finite false m e -> operand e -> 1 <= N' < 2 ^ 53 -> -1074 <= k' <= 971 ->
  scaled N k <= scaled (N' * Zpos m) (k' + e) -> at_most N' k' (ddiv x d).
Proof.
  intros Hx -> He HN Hk Hle. destruct x as [s|s| |s mx ex]; try done.
  { cbn in Hx |- *. by subst. }
  destruct Hx as (-> & Hn & Hx). apply ddiv_at_most; eauto using normal_operand. lia.
Qed.
