(* ===== verification/Numbers.v ===== *)
(** Numbers, rates, sizes and times of formatters.js: the SI prefixes and the
    thousands of a number, rates, percentages and colours, the formatters that
    the tables and the charts are given, dates and durations.

    The arguments are values of the broker's JSON; each function reads them as
    the code does, as a number where it computes or compares, and calls methods
    of numbers on them, which fail on anything else. *)
From S2P Require Import Prelude JsString JsNum Base64 Uri JsObject JsValue Doubles Escape Format.

(** ** Arguments *)

(** [v.toFixed(f)] *)
Definition call_to_fixed (v : value) (f : nat) : res jstr :=
  match number_of v with Some d => Ok (to_fixed d f) | None => Throw TypeError end.

(** A value in a text. *)
Definition text_of (v : value) : jstr :=
  match number_of v with Some d => number_text d | None => to_str v end.

(** ** SI prefixes *)

(** The function f of fmt_si_prefix: number and maximum are divided by a
    thousand until the maximum is at most that. It calls itself as long as that
    takes; without fuel the recursion is too deep. *)
Fixpoint si_scale (fuel : nat) (thousand n m : double) (p : Z) : res (double * double * Z) :=
  if dlt thousand m then
    match fuel with
    | O => Throw RangeError
    | S fuel => si_scale fuel thousand (ddiv n thousand) (ddiv m thousand) (p + 1)
    end
  else Ok (n, m, p).

Definition si_fuel : nat := 200.

Definition powers : list jstr :=
  [js ""; js "k"; js "M"; js "G"; js "T"; js "P"; js "E"; js "Z"; js "Y"].

(** The suffix of a power, undefined beyond the table. *)
Definition si_suffix (power : Z) (binary : bool) : res jstr :=
  match powers !! Z.to_nat power with
  | Some s =>
      Ok (if negb (power =? 0) && binary
          then map (fun c => if is_lower c then c - 32 else c) s ++ "i" else s)
  | None => if binary then Throw TypeError else Ok (js "undefined")
  end.

(** fmt_si_prefix: the variable num the first line compares with 0 is declared
    further down and still undefined there, so the line does nothing. The number
    is divided along with the maximum; one that was not divided is still the
    value it was. *)
Definition fmt_si_prefix (num0 max0 : value) (binary allow_fractions : bool) : res jstr :=
  let thousand := of_int (if binary then 1024 else 1000) in
  '(num, max, power) ← si_scale si_fuel thousand (to_number num0) (to_number max0) 0;
  suffix ← si_suffix power binary;
  let digits := if (negb (power =? 0) || allow_fractions) && dle max (of_int 10) then 1%nat else 0%nat in
  text ← (if power =? 0 then call_to_fixed num0 digits else Ok (to_fixed num digits));
  Ok (text ++ " " ++ suffix).

(** ** Thousands *)

(** fmt_num_thousands_unfixed: a comma before each three characters from the
    end. Each call drops three, so the length is enough fuel. *)
Fixpoint thousands_loop (fuel : nat) (num : jstr) : jstr :=
  match fuel with
  | O => num
  | S fuel =>
      if (length num <? 4)%nat then num
      else thousands_loop fuel (slice num 0 (-3)) ++ "," ++ slice_from num (-3)
  end.

Definition fmt_num_thousands_unfixed (num : jstr) : jstr := thousands_loop (length num) num.

(** fmt_num_thousands: a text is read as a number first. *)
Definition fmt_num_thousands (num : value) : jstr :=
  if nullish num then UNKNOWN_REPR
  else
    let conv_num :=
      match number_of num with
      | Some d => d
      | None => match parse_float (to_str num) with Some n => double_of n | None => dnan end
      end in
    fmt_num_thousands_unfixed (to_fixed conv_num 0).

(** ** Rates, percentages, colours *)

Definition fmt_rate_num (num : value) : res jstr :=
  if nullish num then Ok UNKNOWN_REPR
  else if dlt (to_number num) (of_int 1) then call_to_fixed num 2
  else if dlt (to_number num) (of_int 10) then call_to_fixed num 1
  else Ok (fmt_num_thousands num).

Definition fmt_percent (num : value) : jstr :=
  if nullish num then UNKNOWN_REPR
  else match num with
       | VStr [] => UNKNOWN_REPR
       | _ => number_text (math_round (dmul (to_number num) (of_int 100))) ++ "%"
       end.

(** The colour of the first threshold that is reached. *)
Fixpoint color_of (r : double) (thresholds : list (double * jstr)) : jstr :=
  match thresholds with
  | [] => "green"
  | (threshold, color) :: thresholds => if dle threshold r then color else color_of r thresholds
  end.

(** fmt_color; [None] is a ratio that is undefined. *)
Definition fmt_color (r : option double) (thresholds : list (double * jstr)) : jstr :=
  match r with Some r => color_of r thresholds | None => [] end.

Definition FD_THRESHOLDS : list (double * jstr) :=
  [(double_of (Num 95 2), js "red"); (double_of (Num 8 1), js "yellow")].
Definition SOCKETS_THRESHOLDS : list (double * jstr) :=
  [(double_of (num_of 1), js "red"); (double_of (Num 8 1), js "yellow")].
Definition PROCESS_THRESHOLDS : list (double * jstr) :=
  [(double_of (Num 75 2), js "red"); (double_of (Num 5 1), js "yellow")].

(** pick_rate and pick_abs: what a formatter makes of the details of a value,
    and nothing when the value or its details are missing. *)
Definition pick (fmt : value -> res jstr) (obj : value) (name mode : jstr)
  (avg now : value -> value -> res value) : res jstr :=
  if nullish obj then Ok []
  else
    v ← field obj name;
    if nullish v then Ok []
    else
      details ← field obj (name ++ "_details");
      if nullish details then Ok []
      else x ← (if decide (mode = "avg") then avg details v else now details v); fmt x.

Definition pick_rate (fmt : value -> res jstr) (obj : value) (name mode : jstr) : res jstr :=
  pick fmt obj name mode (fun details _ => field details "avg_rate") (fun details _ => field details "rate").

Definition pick_abs (fmt : value -> res jstr) (obj : value) (name mode : jstr) : res jstr :=
  pick fmt obj name mode (fun details _ => field details "avg") (fun _ v => Ok v).

(** ** Formatters for the charts *)

Definition fmt_plain (num : value) : res jstr := Ok (text_of num).

Definition fmt_plain_axis (num max : value) : res jstr := fmt_si_prefix num max false true.

Definition fmt_rate (num : value) : res jstr := s ← fmt_rate_num num; Ok (s ++ "/s").
Definition fmt_rate_axis (num max : value) : res jstr := s ← fmt_plain_axis num max; Ok (s ++ "/s").

Definition fmt_bytes (bytes : value) : res jstr :=
  if nullish bytes then Ok UNKNOWN_REPR
  else prefix ← fmt_si_prefix bytes bytes true false; Ok (prefix ++ "B").

(** fmt_bytes_axis does not use the maximum: parseInt of the number, of its own
    scale; what is no number counts as 0. *)
Definition fmt_bytes_axis (num max : value) : res jstr :=
  fmt_bytes (match parse_int (text_of num) with Some n => VInt n | None => VInt 0 end).

Definition fmt_rate_bytes (num : value) : res jstr := s ← fmt_bytes num; Ok (s ++ "/s").
Definition fmt_rate_bytes_axis (num max : value) : res jstr :=
  s ← fmt_bytes_axis num max; Ok (s ++ "/s").
Definition fmt_ms (num : value) : res jstr := s ← fmt_rate_num num; Ok (s ++ "ms").

Definition fmt_detail_rate (obj : value) (name mode : jstr) : res jstr := pick_rate fmt_rate obj name mode.
Definition fmt_detail_rate_bytes (obj : value) (name mode : jstr) : res jstr :=
  pick_rate fmt_rate_bytes obj name mode.

(** ** Times *)

Definition fmt_time (t : value) (suffix : jstr) : jstr :=
  match t with VUndef => [] | _ => text_of t ++ suffix end.

Definition fmt_millis (millis : value) : jstr :=
  number_text (math_round (ddiv (to_number millis) (of_int 1000))) ++ "s".

(** The parts of a local date, as the browser's clock gives them. *)
Record date_parts := mk_date {
  full_year : Z; month : Z; day_of_month : Z; hours : Z; minutes : Z; seconds : Z;
}.

Definition two_digits (i : Z) : jstr := if i <? 10 then "0" ++ dec i else dec i.

Definition fmt_date0 (d : date_parts) : jstr * jstr :=
  (dec (full_year d) ++ "-" ++ two_digits (month d + 1) ++ "-" ++ two_digits (day_of_month d),
   two_digits (hours d) ++ ":" ++ two_digits (minutes d) ++ ":" ++ two_digits (seconds d)).

Definition fmt_date (d : date_parts) : jstr := let '(day, time) := fmt_date0 d in day ++ " " ++ time.
Definition fmt_date_mini (d : date_parts) : jstr :=
  let '(day, time) := fmt_date0 d in time ++ "<sub>" ++ day ++ "</sub>".

(** fmt_timestamp and fmt_timestamp_mini, given the local parts of a time. *)
Section Timestamps.
Variable local : double -> date_parts.
Definition fmt_timestamp (ts : double) : jstr := fmt_date (local ts).
Definition fmt_timestamp_mini (ts : double) : jstr := fmt_date_mini (local ts).
End Timestamps.

Definition fmt_download_filename (host : jstr) (now : date_parts) : jstr :=
  replace_first 64 "_" host ++ "_" ++ dec (full_year now) ++ "-" ++ dec (month now + 1) ++ "-" ++
  dec (day_of_month now) ++ ".json".

(** fmt_uptime: the divisions and their integer parts are those of doubles, the
    remainders of integers exact, with the sign of the dividend. *)
Definition floor_div (n : double) (d : Z) : double := math_floor (ddiv n (of_int d)).

(** The integer that a double is. *)
Definition int_of (x : double) : Z :=
  match x with
  | finite s m e => if 0 <=? e then signed s m * 2 ^ e else signed s m / 2 ^ (- e)
  | _ => 0
  end.

(** [x % k] of a double that is an integer; no number stays none. *)
Definition rem (x : double) (k : Z) : double :=
  match x with
  | finite s _ _ =>
      let r := of_int (Z.rem (int_of x) k) in match r with dzero _ => dzero s | _ => r end
  | dzero s => dzero s
  | _ => dnan
  end.

Definition fmt_uptime (u : value) : jstr :=
  let uptime := floor_div (to_number u) 1000 in
  let sec := rem uptime 60 in
  let min := rem (floor_div uptime 60) 60 in
  let hour := rem (floor_div uptime 3600) 24 in
  let day := floor_div uptime 86400 in
  if dlt (dzero false) day then number_text day ++ "d " ++ number_text hour ++ "h"
  else if dlt (dzero false) hour then number_text hour ++ "h " ++ number_text min ++ "m"
  else number_text min ++ "m " ++ number_text sec ++ "s".
