(* ===== verification/Charts.v ===== *)
(** The charts of charts.js: the headings, texts, bars and legends that the
    templates put on a page, and the lines that are plotted once the page is
    shown.

    The details of a statistic (its rates and samples) are objects that the
    charts keep and mark with their place in the legend, so they live in a store
    of their own; an object of statistics refers to them. *)
From S2P Require Import Prelude JsString JsNum Base64 Uri JsObject JsValue Columns Prefs ChartRanges Doubles Escape Numbers.

(** ** Statistics *)

(** Details as the broker sent them, and the property ix a chart gave them. *)
Record details := mk_details { body : value; ix : option nat }.

(** A property of an object of statistics. *)
Inductive slot := Plain (v : value) | Details (r : nat).

Notation stats := (obj slot).

Definition deref (heap : list details) (s : slot) : value :=
  match s with Plain v => v | Details r => match heap !! r with Some d => body d | None => VUndef end end.

(** An object of statistics as a formatter reads it. *)
Definition read (heap : list details) (s : stats) : value :=
  VObj (map (fun kv => (kv.1, deref heap kv.2)) s).

Definition stat (heap : list details) (s : stats) (k : jstr) : value :=
  match get s k with Some v => deref heap v | None => VUndef end.

(** ** Charts *)

Definition formatter : Type := value -> res jstr.
Definition axis_formatter : Type := value -> value -> res jstr.

(** An entry of chart_data: the lines by their names and the formatter of the
    axis, none after the chart was plotted. *)
Record chart := mk_chart { lines : option (obj slot); axis : option axis_formatter }.

(** A line as it is given to the plotting library: a point is the time and the
    value at that time or the rate until then. *)
Record line := mk_line {
  points : list (value * (value + double)); line_color : option jstr; fill : bool;
}.

Record plot := mk_plot { target : jstr; plotted : list line; tick_formatter : option axis_formatter }.

Record chart_state (J : Type) := mk_state {
  page_of : page J;
  heap : list details;
  chart_data : obj chart;
  inverted : bool;         (* whether the global of that name was set *)
  plots : list plot;       (* what the library was given to plot *)
}.
Arguments mk_state {J} _ _ _ _ _.
Arguments page_of {J} _.
Arguments heap {J} _.
Arguments chart_data {J} _.
Arguments inverted {J} _.
Arguments plots {J} _.

Definition on_prefs {J A : Type} (m : M (page J) A) : M (chart_state J) A := fun x =>
  let '(r, p) := m (page_of x) in (r, mk_state p (heap x) (chart_data x) (inverted x) (plots x)).
Definition set_heap {J : Type} (h : list details) (x : chart_state J) : chart_state J :=
  mk_state (page_of x) h (chart_data x) (inverted x) (plots x).
Definition set_data {J : Type} (d : obj chart) (x : chart_state J) : chart_state J :=
  mk_state (page_of x) (heap x) d (inverted x) (plots x).
Definition set_inverted {J : Type} (x : chart_state J) : chart_state J :=
  mk_state (page_of x) (heap x) (chart_data x) true (plots x).
Definition add_plot {J : Type} (p : plot) (x : chart_state J) : chart_state J :=
  mk_state (page_of x) (heap x) (chart_data x) (inverted x) (plots x ++ [p]).

(** ** Tables *)

(** The name and the key of a statistic of a chart. *)
Definition item : Type := jstr * jstr.

Definition message_rates_items : list item := [
  (js "Publish", js "publish");
  (js "Publisher confirm", js "confirm");
  (js "Publish (In)", js "publish_in");
  (js "Publish (Out)", js "publish_out");
  (js "Deliver (manual ack)", js "deliver");
  (js "Deliver (auto ack)", js "deliver_no_ack");
  (js "Consumer ack", js "ack");
  (js "Redelivered", js "redeliver");
  (js "Get (manual ack)", js "get");
  (js "Get (auto ack)", js "get_no_ack");
  (js "Get (empty)", js "get_empty");
  (js "Unroutable (return)", js "return_unroutable");
  (js "Unroutable (drop)", js "drop_unroutable")].

Definition queue_lengths_items : list item := [
  (js "Ready", js "messages_ready");
  (js "Unacked", js "messages_unacknowledged");
  (js "Total", js "messages")].

Definition data_rates_items : list item := [(js "From client", js "recv_oct"); (js "To client", js "send_oct")].

Definition data_reductions_items : list item := [(js "Reductions", js "reductions")].

(** chart_colors *)
Definition chart_colors (type : jstr) : list jstr :=
  if decide (type = "full") then
    [js "#edc240"; js "#afd8f8"; js "#cb4b4b"; js "#4da74d"; js "#9440ed"; js "#666666"; js "#aaaaaa";
     js "#7c79c3"; js "#8e6767"; js "#67808e"; js "#e5e4ae"; js "#4b4a55"; js "#bba0c1"]
  else [js "#6ae26a"; js "#e24545"].

Definition chart_fill (mode : jstr) (i : option nat) : bool :=
  bool_decide (mode = "node" /\ i = Some 0%nat).

(** ** Headings *)

(** The description of a range in lower case: the descriptions are ASCII. *)
Definition lower (s : jstr) : jstr := map (fun c => if (65 <=? c) && (c <=? 90) then c + 32 else c) s.

(** prefix_title: the description is needed, and fails, even where it is not
    shown; only the current value does without. *)
Definition prefix_title (mode range : option jstr) : res jstr :=
  let desc := r ← range; get ALL_CHART_RANGES r in
  let lowered := match desc with Some d => Ok (lower d) | None => Throw TypeError end in
  if decide (mode = Some (js "chart")) then lowered
  else if decide (mode = Some (js "curr")) then Ok (js "current value")
  else d ← lowered; Ok (js "moving average: " ++ d).

(** A preference in a text. *)
Definition pref_text (v : option jstr) : jstr := default (js "null") v.

(** ** Lines *)

(** pick_rate or pick_abs: what the legend and the texts show of a statistic. *)
Definition pick_text (fmt : formatter) (v : value) (key mode : jstr) (chart_rates : bool) : res jstr :=
  if chart_rates then pick_rate fmt v key mode else pick_abs fmt v key mode.

(** [key_details in stats] *)
Definition has_details (s : stats) (key : jstr) : bool := has_in s (key ++ "_details").

(** A row of the legend. *)
Record row := mk_row { row_name : jstr; row_key : jstr; row_value : jstr; row_show : bool }.

(** The reference an object of statistics has to its details. *)
Definition details_slot (s : stats) (key : jstr) : slot := default (Plain VUndef) (get s (key ++ "_details")).

(** [details.ix = i]: an object is marked, a primitive ignores it. *)
Definition mark (i : nat) (s : slot) (h : list details) : res (list details) :=
  match s with
  | Details r =>
      match h !! r with
      | Some d =>
          match body d with
          | VUndef | VNull => Throw TypeError
          | VObj _ | VArr _ => Ok (<[r := mk_details (body d) (Some i)]> h)
          | _ => Ok h
          end
      | None => Throw TypeError
      end
  | Plain v => if nullish v then Throw TypeError else Ok h
  end.

Section Charts.
Context {J : Type} {CJ : CookieJar J} {CK : Clock}.
Notation C := (M (chart_state J)).

Definition when (b : bool) (m : C unit) : C unit := if b then m else skip.
Definition get_heap : C (list details) := gets heap.
Definition get_data : C (obj chart) := gets chart_data.

(** chart_h3 *)
Definition chart_h3 (id heading : jstr) (heading_help : option jstr) : C jstr :=
  mode ← on_prefs (get_pref ("rate-mode-" ++ id));
  range ← on_prefs (get_pref "chart-range");
  title ← lift (prefix_title mode range);
  mret (js "<h3>" ++ heading ++ " <span class=`popup-options-link` title=`Click to change` type=`rate` for=`" ++
    id ++ "`>" ++ title ++ "</span>" ++
    match heading_help with
    | None => []
    | Some help => js " <span class=`help` id=`" ++ help ++ "`></span>"
    end ++ "</h3>").

(** node_stats_prefs *)
Definition node_stats_prefs : C jstr := chart_h3 "node-stats" "Node statistics" None.

(** show of rates_chart *)
Definition show (id key : jstr) : C bool :=
  v ← on_prefs (get_pref ("chart-line-" ++ id ++ key)); mret (bool_decide (v = Some (js "true"))).

Definition read_stats (s : stats) : C value := gets (fun x => read (heap x) s).

Definition pick_value (fmt : formatter) (s : stats) (key mode : jstr) (chart_rates : bool) : C jstr :=
  v ← read_stats s; lift (pick_text fmt v key mode chart_rates).

(** chart_data[id]['data'][name] = stats[key_details], marked with its place. *)
Definition add_line (id name : jstr) (i : nat) (s : slot) : C unit :=
  d ← get_data;
  modify (set_data match get d id with
                   | Some c => put d id (mk_chart (Some (put (default [] (lines c)) name s)) (axis c))
                   | None => d
                   end) ;;;
  h ← get_heap;
  h ← lift (mark i s h);
  modify (set_heap h).

(** The loop of rates_chart over its items: the rows of the legend so far, whose
    number is the place of the next one. *)
Fixpoint chart_rows (id : jstr) (items : list item) (s : stats) (fmt : formatter) (chart_rates : bool)
  (legend : list row) : C (list row) :=
  match items with
  | [] => mret legend
  | (name, key) :: items =>
      if has_details s key then
        shown ← show id key;
        when shown (add_line id name (length legend) (details_slot s key)) ;;;
        value ← pick_value fmt s key [] chart_rates;
        visible ← show id key;
        chart_rows id items s fmt chart_rates (legend ++ [mk_row name key value visible])
      else chart_rows id items s fmt chart_rates legend
  end.

End Charts.

(** ** The markup of a chart *)

(** The classes of the element of a chart. *)
Definition chart_classes (type : jstr) (size : option jstr) (chart_rates : bool) : jstr :=
  "chart chart-" ++ type ++ " chart-" ++ pref_text size ++ (if chart_rates then js " chart-rates" else []).

Definition row_html (id type : jstr) (n i : nat) (r : row) : jstr :=
  (if decide (i mod 3 = 0 /\ i < n - 1)%nat then js "</table><table class=`legend`>" else []) ++
  "<tr><th><span title=`Click to toggle line` class=`rate-visibility-option" ++
  (if row_show r then [] else js " rate-visibility-option-hidden") ++
  "` data-pref=`chart-line-" ++ id ++ row_key r ++ "`>" ++ row_name r ++ "</span></th><td>" ++
  "<div class=`colour-key` style=`background: " ++ default (js "undefined") (chart_colors type !! i) ++
  ";`></div>" ++ row_value r ++ "</td></tr>".

Definition legend_html (id type : jstr) (legend : list row) : jstr :=
  concat (imap (row_html id type (length legend)) legend).

Definition chart_html (id type : jstr) (size : option jstr) (chart_rates : bool) (legend : list row) : jstr :=
  "<div class=`box`><div id=`chart-" ++ id ++ "` class=`" ++ chart_classes type size chart_rates ++
  "`></div><table class=`legend`>" ++ legend_html id type legend ++ "</table></div>".

(** ** Texts and bars *)

(** The bar of node_stat_bar: how far its image is shifted. *)
Definition bar_offset (ratio : double) : double :=
  math_round (dmul (of_int 120) (dsub (of_int 1) ratio)).

(** The ratio the bar shows, and whether it is the inverse of what is asked. *)
Definition bar_ratio (used limit : double) (invert : bool) : double * bool :=
  let ratio := if invert then ddiv limit used else ddiv used limit in
  if dlt (of_int 1) ratio then (ddiv (of_int 1) ratio, true) else (ratio, false).

Section ChartTexts.
Context {J : Type} {CJ : CookieJar J} {CK : Clock}.
Notation C := (M (chart_state J)).

(** rates_chart *)
Definition rates_chart (type_id id : jstr) (items : list item) (s : stats) (fmt : formatter)
  (axis_fmt : axis_formatter) (type : jstr) (chart_rates : bool) : C jstr :=
  size ← on_prefs (get_pref ("chart-size-" ++ type_id));
  d ← get_data;
  modify (set_data (put d id (mk_chart (Some []) (Some axis_fmt)))) ;;;
  legend ← chart_rows id items s fmt chart_rates [];
  mret (match legend with [] => [] | _ => chart_html id type size chart_rates legend end).

(** The loop of rates_text. *)
Fixpoint text_rows (items : list item) (s : stats) (mode : jstr) (fmt : formatter) (chart_rates : bool)
  : C jstr :=
  match items with
  | [] => mret (js "")
  | (name, key) :: items =>
      if has_details s key then
        value ← pick_value fmt s key mode chart_rates;
        rest ← text_rows items s mode fmt chart_rates;
        mret ("<div class=`highlight`>" ++ name ++ "<strong>" ++ value ++ "</strong></div>" ++ rest)
      else text_rows items s mode fmt chart_rates
  end.

Definition rates_text (items : list item) (s : stats) (mode : option jstr) (fmt : formatter)
  (chart_rates : bool) : C jstr :=
  res ← text_rows items s (default [] mode) fmt chart_rates;
  mret (match res with [] => [] | _ => "<div class=`box`>" ++ res ++ "</div>" end).

(** rates_chart_or_text_no_heading; statistics that are undefined have no keys. *)
Definition rates_chart_or_text_no_heading (type_id id : jstr) (s : stats) (items : list item)
  (fmt : formatter) (axis_fmt : axis_formatter) (chart_rates : bool) : C jstr :=
  mode ← on_prefs (get_pref ("rate-mode-" ++ type_id));
  _ ← on_prefs (get_pref "chart-range");
  if decide (s = []) then mret (js "<p>Currently idle</p>")
  else
    res ← (if decide (mode = Some (js "chart"))
           then rates_chart type_id id items s fmt axis_fmt "full" chart_rates
           else rates_text items s mode fmt chart_rates);
    mret (match res with [] => js "<p>Waiting for data...</p>" | _ => res end).

Definition rates_chart_or_text (id : jstr) (s : stats) (items : list item) (fmt : formatter)
  (axis_fmt : axis_formatter) (chart_rates : bool) (heading : jstr) (heading_help : option jstr) : C jstr :=
  prefix ← chart_h3 id heading heading_help;
  res ← rates_chart_or_text_no_heading id id s items fmt axis_fmt chart_rates;
  mret (prefix ++ res).

Definition message_rates (id : jstr) (s : stats) : C jstr :=
  rates_chart_or_text id s message_rates_items fmt_rate fmt_rate_axis true "Message rates"
    (Some (js "message-rates")).

Definition queue_lengths (id : jstr) (s : stats) : C jstr :=
  rates_chart_or_text id s queue_lengths_items (fun v => Ok (fmt_num_thousands v)) fmt_plain_axis false
    "Queued messages" (Some (js "queued-messages")).

Definition data_rates (id : jstr) (s : stats) : C jstr :=
  rates_chart_or_text id s data_rates_items fmt_rate_bytes fmt_rate_bytes_axis true "Data rates" None.

Definition data_reductions (id : jstr) (s : stats) : C jstr :=
  rates_chart_or_text id s data_reductions_items fmt_rate fmt_rate_axis true "Reductions (per second)"
    (Some (js "process-reductions")).

(** ** Statistics of a node *)

(** The samples of add_fake_limit_details: the limit at the times of the
    samples. What is no array has no elements in the end, but is read. *)
Definition fake_samples (source limit : value) : res (list value) :=
  foldr (fun kv acc =>
      t ← field kv.2 "timestamp"; rest ← acc;
      Ok (VObj [(js "sample", limit); (js "timestamp", t)] :: rest))
    (Ok []) (for_in source).

(** add_fake_limit_details: the object of statistics gets a property that refers
    to new details; it is returned. *)
Definition add_fake_limit_details (used_key limit_key : jstr) (s : stats) : C stats :=
  v ← read_stats s;
  used_details ← lift (field v (used_key ++ "_details"));
  source ← lift (field used_details "samples");
  limit ← lift (field v limit_key);
  dest ← lift (fake_samples source limit);
  let samples := match source with VArr _ | VStr _ => VArr dest | _ => VArr [] end in
  h ← get_heap;
  modify (set_heap (h ++ [mk_details (VObj [(js "samples", samples)]) None])) ;;;
  mret (put s (limit_key ++ "_details") (Details (length h))).

(** node_stat_bar; [None] for the colour and the help stands for a call without. *)
Definition node_stat_bar (used_key limit_key suffix : jstr) (s : stats) (fmt : formatter)
  (colour help : option jstr) (invert : bool) : C jstr :=
  v ← read_stats s;
  used ← lift (field v used_key);
  limit ← lift (field v limit_key);
  let '(ratio, inverse) := bar_ratio (to_number used) (to_number limit) invert in
  when inverse (modify set_inverted) ;;;
  let c := default (js "undefined") colour in
  let colour := if inverse then c ++ "-dark" else c in
  let other_colour := if inverse then c else c ++ "-dark" in
  let offset := bar_offset ratio in
  used_text ← lift (fmt used);
  limit_text ← lift (fmt limit);
  mret ("<div class=`status-bar` style=`width: 120px;`><div class=`status-bar-main " ++ colour ++
    "` style=`background-image: url(img/bg-" ++ other_colour ++ ".png); background-position: -" ++
    number_text offset ++ "px 0px; background-repeat: no-repeat;`>" ++ used_text ++
    match help with None => [] | Some h => js " <span class=`help` id=`" ++ h ++ "`></span>" end ++
    "</div><sub>" ++ limit_text ++ " " ++ suffix ++ "</sub></div>").

(** node_stat: the statistics may have got the details of the limit. *)
Definition node_stat (used_key used_name limit_key suffix : jstr) (s : stats) (fmt : formatter)
  (axis_fmt : axis_formatter) (colour help : option jstr) (invert : bool) : C (jstr * stats) :=
  mode ← on_prefs (get_pref "rate-mode-node-stats");
  if decide (mode = Some (js "chart")) then
    s ← add_fake_limit_details used_key limit_key s;
    html ← rates_chart "node-stats" ("node-stats-" ++ used_key)
             [(used_name, used_key); (js "Limit", limit_key)] s fmt axis_fmt "node" false;
    mret (html, s)
  else
    html ← node_stat_bar used_key limit_key suffix s (fun v => axis_fmt v VUndef) colour help invert;
    mret (html, s).

(** node_stat_count and node_stat_count_bar: what is no number is shown itself. *)
Definition node_stat_count (used_key limit_key : jstr) (s : stats) (thresholds : list (double * jstr))
  : C (value * stats) :=
  v ← read_stats s;
  used ← lift (field v used_key);
  limit ← lift (field v limit_key);
  match number_of used with
  | Some u =>
      '(html, s) ← node_stat used_key "Used" limit_key "available" s fmt_plain fmt_plain_axis
        (Some (fmt_color (Some (ddiv u (to_number limit))) thresholds)) None false;
      mret (VStr html, s)
  | None => mret (used, s)
  end.

Definition node_stat_count_bar (used_key limit_key : jstr) (s : stats) (thresholds : list (double * jstr))
  : C value :=
  v ← read_stats s;
  used ← lift (field v used_key);
  limit ← lift (field v limit_key);
  match number_of used with
  | Some u =>
      html ← node_stat_bar used_key limit_key "available" s (fun v => fmt_plain_axis v VUndef)
        (Some (fmt_color (Some (ddiv u (to_number limit))) thresholds)) None false;
      mret (VStr html)
  | None => mret used
  end.

(** ** Plotting *)

Definition has_class (classes c : jstr) : bool := bool_decide (c ∈ split_on 32 classes).

(** A point: the time of a sample and its value, or the rate since the sample
    before it, per second where the times are milliseconds. *)
Definition point (rate_mode : bool) (before sample : value) : res (value * (value + double)) :=
  x ← field sample "timestamp";
  if rate_mode then
    s0 ← field before "sample"; s1 ← field sample "sample";
    t0 ← field before "timestamp"; t1 ← field sample "timestamp";
    Ok (x, inr (ddiv (dmul (dsub (to_number s0) (to_number s1)) (of_int 1000))
                     (dsub (to_number t0) (to_number t1))))
  else y ← field sample "sample"; Ok (x, inl y).

(** The loop over the samples, from the second on. *)
Fixpoint line_points (rate_mode : bool) (before : value) (samples : list value)
  : res (list (value * (value + double))) :=
  match samples with
  | [] => Ok []
  | sample :: samples =>
      p ← point rate_mode before sample;
      rest ← line_points rate_mode sample samples;
      Ok (p :: rest)
  end.

(** The samples of a series are a list; undefined ones fail. *)
Definition samples_of (v : value) : res (list value) :=
  match v with VArr l => Ok l | VUndef | VNull => Throw TypeError | _ => Ok [] end.

Definition series_points (rate_mode : bool) (series : value) : res (list (value * (value + double))) :=
  v ← field series "samples";
  samples ← samples_of v;
  match samples with [] => Ok [] | first :: rest => line_points rate_mode first rest end.

Definition series_line (h : list details) (rate_mode : bool) (mode : jstr) (s : slot) : res line :=
  d ← series_points rate_mode (deref h s);
  let i := match s with Details r => d ← h !! r; ix d | Plain _ => None end in
  Ok (mk_line d (i ≫= fun i => chart_colors mode !! i) (chart_fill mode i)).

Fixpoint series_lines (h : list details) (rate_mode : bool) (mode : jstr) (data : obj slot) : res (list line) :=
  match data with
  | [] => Ok []
  | (_, s) :: data =>
      l ← series_line h rate_mode mode s;
      rest ← series_lines h rate_mode mode data;
      Ok (l :: rest)
  end.

(** render_chart, of an element with an id and classes. *)
Definition render_chart (div_id classes : jstr) : C unit :=
  let id := drop (length (js "chart-")) div_id in
  let rate_mode := has_class classes "chart-rates" in
  d ← get_data;
  match get d id with
  | None => throw TypeError
  | Some c =>
      let mode := if has_class classes "chart-full" then js "full" else js "node" in
      h ← get_heap;
      out_data ← lift (series_lines h rate_mode mode (entries (default [] (lines c))));
      modify (set_data (put d id (mk_chart None None))) ;;;
      modify (add_plot (mk_plot div_id out_data (axis c)))
  end.

(** render_charts, of the elements of the page in order. *)
Definition render_charts (divs : list (jstr * jstr)) : C unit :=
  for_each (fun d => render_chart d.1 d.2) divs.

End ChartTexts.

(** fmt_y_axis: the text of a tick, and the ticks the axis has afterwards. The
    formatter of a chart that was plotted is gone. *)
Definition fmt_y_axis {A : Type} (fmt : option axis_formatter) (val max : value) (ticks : list A)
  : res jstr * list A :=
  (match fmt with Some f => f val max | None => Throw TypeError end,
   if deq (to_number max) (of_int 1) && (1 <? length ticks)%nat then take 1 ticks else ticks).
