(* ===== verification/ChartsFacts.v ===== *)
(** The charts: a chart that is put on a page and then plotted has exactly the
    lines that are shown in its legend, each in the colour of its row. *)
From S2P Require Import Prelude JsString JsNum JsObject JsValue Columns Prefs PrefsFacts ChartRanges Doubles Rounding Numbers Charts.

Lemma default_chart_line c k : default_pref c (js "chart-line-" ++ k) = Ok (Some (js "true")).
Proof.
  unfold default_pref. rewrite !substring_prefix by (rewrite length_app; cbn; lia).
  by rewrite !take_app_le by (cbn; lia).
Qed.

Lemma default_chart_size c k : default_pref c (js "chart-size-" ++ k) = Ok (Some (js "small")).
Proof.
  unfold default_pref. rewrite !substring_prefix by (rewrite length_app; cbn; lia).
  by rewrite !take_app_le by (cbn; lia).
Qed.

(** ** What is expected of a chart *)

(** Whether a line is shown, by the preferences that are stored. *)
Definition line_shown (l : gmap jstr jstr) (id key : jstr) : bool :=
  bool_decide (default (js "true") (l !! rabbit ("chart-line-" ++ id ++ key)) = js "true").

Definition stored_size (l : gmap jstr jstr) (type_id : jstr) : jstr :=
  default (js "small") (l !! rabbit ("chart-size-" ++ type_id)).

(** The items there are statistics for. *)
Definition present (s : stats) (items : list item) : list item :=
  filter (fun it => has_details s it.2 = true) items.

Definition ok_text (r : res jstr) : jstr := match r with Ok t => t | Throw _ => [] end.

Definition row_of (l : gmap jstr jstr) (id : jstr) (v : value) (fmt : formatter) (rates : bool) (it : item) : row :=
  mk_row it.1 it.2 (ok_text (pick_text fmt v it.2 [] rates)) (line_shown l id it.2).

(** The legend: a row for each item that is there. *)
Definition legend_of (l : gmap jstr jstr) (id : jstr) (v : value) (fmt : formatter) (rates : bool)
  (s : stats) (items : list item) : list row :=
  map (row_of l id v fmt rates) (present s items).

Definition ok_points (r : res (list (value * (value + double)))) : list (value * (value + double)) :=
  match r with Ok d => d | Throw _ => [] end.

(** The line of the [i]th row, in the colour of that row. *)
Definition line_of (h : list details) (s : stats) (type : jstr) (rates : bool) (i : nat) (r : row) : line :=
  mk_line (ok_points (series_points rates (deref h (details_slot s (row_key r)))))
    (chart_colors type !! i) (chart_fill type (Some i)).

(** The lines of a legend, from the row with number [n] on. *)
Fixpoint lines_of (h : list details) (s : stats) (type : jstr) (rates : bool) (n : nat) (legend : list row)
  : list line :=
  match legend with
  | [] => []
  | r :: legend =>
      (if row_show r then [line_of h s type rates n r] else []) ++ lines_of h s type rates (S n) legend
  end.

(** ** Statistics that can be shown *)

(** The details of an item: an object of the store with samples that can be
    plotted and a value that can be formatted. *)
Definition item_ok (h : list details) (s : stats) (fmt : formatter) (rates : bool) (it : item) : Prop :=
  has_details s it.2 = true ->
  (exists r o i, details_slot s it.2 = Details r /\ h !! r = Some (mk_details (VObj o) i)) /\
  (exists d, series_points rates (deref h (details_slot s it.2)) = Ok d) /\
  (exists t, pick_text fmt (read h s) it.2 [] rates = Ok t).

(** The names and keys of the items are different, and so are their details. *)
Record items_ok (s : stats) (items : list item) : Prop := {
  names_apart : NoDup items.*1;
  details_apart : NoDup (map (fun it => details_slot s it.2) (present s items));
  names_words : Forall (fun k => index_key k = None) items.*1;
}.

(** ** The store *)

Definition same_bodies (h h' : list details) : Prop := map body h = map body h'.

Lemma deref_same h h' sl : same_bodies h h' -> deref h sl = deref h' sl.
Proof.
  unfold same_bodies, deref. intros Hb. destruct sl as [v|r]; [done|].
  pose proof (f_equal (.!! r) Hb) as Hr. cbn in Hr. rewrite !list_lookup_fmap in Hr.
  destruct (h !! r), (h' !! r); cbn in Hr; congruence.
Qed.

Lemma read_same h h' s : same_bodies h h' -> read h s = read h' s.
Proof.
  intros Hb. unfold read. f_equal. apply map_ext. intros [k sl]. cbn. by rewrite (deref_same h h').
Qed.

Lemma mark_bodies h r d i :
  h !! r = Some d -> same_bodies h (<[r := mk_details (body d) (Some i)]> h).
Proof.
  intros Hr. unfold same_bodies. change (map body) with (fmap (M := list) body).
  rewrite list_fmap_insert. cbn [body]. symmetry. apply list_insert_id. by rewrite list_lookup_fmap, Hr.
Qed.

Lemma item_ok_same h h' s fmt rates it :
  same_bodies h h' -> item_ok h s fmt rates it -> item_ok h' s fmt rates it.
Proof.
  intros Hb Hok Hd. destruct (Hok Hd) as ((r & o & i & Hs & Hr) & Hp & Ht). split_and!.
  - pose proof (f_equal (.!! r) Hb) as Hl. cbn in Hl. rewrite !list_lookup_fmap, Hr in Hl.
    destruct (h' !! r) as [[b j]|] eqn:Hr'; [|done]. cbn in Hl. injection Hl as <-. by exists r, o, j.
  - by rewrite <- (deref_same h h').
  - by rewrite <- (read_same h h').
Qed.

(** ** The legend *)

Section Charts.
Context {J : Type} {CJ : CookieJar J} {CK : Clock}.
Implicit Types (x : chart_state J).

Lemma on_prefs_get x l k v :
  local_storage (page_of x) = Some l ->
  match l !! rabbit k with Some v => Ok (Some v) | None => default_pref (COLUMNS (page_of x)) k end = v ->
  on_prefs (get_pref k) x = (v, x).
Proof. intros Hl <-. unfold on_prefs. rewrite (get_pref_local _ l) by done. by destruct x. Qed.

Lemma show_run x l id key :
  local_storage (page_of x) = Some l -> show id key x = (Ok (line_shown l id key), x).
Proof.
  intros Hl. unfold show, mbind, M_bind, line_shown. rewrite (on_prefs_get x l _ _ Hl eq_refl).
  change (js "chart-line-" ++ id ++ key) with (js "chart-line-" ++ (id ++ key)).
  rewrite default_chart_line. destruct (l !! _) as [v|]; [|done]. cbn [default].
  unfold mret, M_ret. do 2 f_equal. apply bool_decide_ext.
  change (Some v = Some (js "true") <-> v = js "true"). split; congruence.
Qed.

Lemma pick_value_run x s fmt key mode rates :
  pick_value fmt s key mode rates x = (pick_text fmt (read (heap x) s) key mode rates, x).
Proof. done. Qed.

Lemma add_line_run p h d0 id data ax inv pl name i r o j :
  h !! r = Some (mk_details (VObj o) j) -> name ∉ keys_of data ->
  add_line id name i (Details r) (mk_state p h (put d0 id (mk_chart (Some data) ax)) inv pl) =
  (Ok tt, mk_state (J := J) p (<[r := mk_details (VObj o) (Some i)]> h)
     (put d0 id (mk_chart (Some (data ++ [(name, Details r)])) ax)) inv pl).
Proof.
  intros Hr Hn. unfold add_line, get_data, get_heap, gets, modify, lift, mbind, M_bind.
  cbn [chart_data]. rewrite get_put. cbn [lines axis default set_data heap page_of inverted plots chart_data].
  rewrite put_put, (put_fresh data) by done. cbn [mark]. by rewrite Hr.
Qed.

End Charts.

Lemma present_cons s it items :
  present s (it :: items) = (if has_details s it.2 then [it] else []) ++ present s items.
Proof. unfold present. rewrite filter_cons. by destruct (has_details s it.2). Qed.

Lemma legend_of_cons l id v fmt rates s it items :
  legend_of l id v fmt rates s (it :: items) =
  (if has_details s it.2 then [row_of l id v fmt rates it] else []) ++ legend_of l id v fmt rates s items.
Proof. unfold legend_of. rewrite present_cons. by destruct (has_details s it.2). Qed.

Lemma lines_of_same h h' s type rates n legend :
  same_bodies h h' -> lines_of h s type rates n legend = lines_of h' s type rates n legend.
Proof.
  intros Hb. revert n. induction legend as [|r legend IH]; intros n; cbn [lines_of]; [done|].
  rewrite IH. unfold line_of. by rewrite (deref_same h h').
Qed.

Lemma series_line_run h rates type r o i d :
  h !! r = Some (mk_details (VObj o) (Some i)) -> series_points rates (VObj o) = Ok d ->
  series_line h rates type (Details r) = Ok (mk_line d (chart_colors type !! i) (chart_fill type (Some i))).
Proof. intros Hr Hd. unfold series_line, deref. cbn [mbind option_bind]. rewrite Hr. cbn [body]. by rewrite Hd. Qed.

Lemma series_lines_cons h rates type name sl data ln lns :
  series_line h rates type sl = Ok ln -> series_lines h rates type data = Ok lns ->
  series_lines h rates type ((name, sl) :: data) = Ok (ln :: lns).
Proof. intros H1 H2. cbn [series_lines]. rewrite H1. cbn [mbind res_bind]. by rewrite H2. Qed.

Section Rows.
Context {J : Type} {CJ : CookieJar J} {CK : Clock}.
Context (id : jstr) (s : stats) (fmt : formatter) (rates : bool) (type : jstr).
Context (l : gmap jstr jstr) (p : page J) (Hl : local_storage p = Some l).
Context (d0 : obj chart) (ax : option axis_formatter) (inv : bool) (pl : list plot).

(** The state with a store and the lines of the chart so far. *)
Definition with_lines (h : list details) (data : obj slot) : chart_state J :=
  mk_state p h (put d0 id (mk_chart (Some data) ax)) inv pl.

(** The store and the lines after a row with the number [n]. *)
Definition marked (shown : bool) (r : nat) (o : obj value) (n : nat) (h : list details) : list details :=
  if shown then <[r := mk_details (VObj o) (Some n)]> h else h.
Definition with_line (shown : bool) (name : jstr) (r : nat) (data : obj slot) : obj slot :=
  if shown then data ++ [(name, Details r)] else data.

Lemma marked_same shown r o j n h :
  h !! r = Some (mk_details (VObj o) j) -> same_bodies h (marked shown r o n h).
Proof. intros Hh. unfold marked. destruct shown; [|done]. by apply (mark_bodies h r (mk_details (VObj o) j)). Qed.

(** One turn of the loop for an item that is there. *)
Lemma chart_rows_step name key items h data legend r o j t :
  has_details s key = true -> details_slot s key = Details r -> h !! r = Some (mk_details (VObj o) j) ->
  pick_text fmt (read h s) key [] rates = Ok t -> name ∉ keys_of data ->
  chart_rows id ((name, key) :: items) s fmt rates legend (with_lines h data) =
  chart_rows id items s fmt rates (legend ++ [row_of l id (read h s) fmt rates (name, key)])
    (with_lines (marked (line_shown l id key) r o (length legend) h)
                (with_line (line_shown l id key) name r data)).
Proof using Hl.
  intros Hd Hr Hh Ht Hn. cbn [chart_rows]. rewrite Hd, Hr.
  unfold mbind at 1, M_bind at 1. rewrite (show_run _ l) by done.
  assert (when (line_shown l id key) (add_line id name (length legend) (Details r)) (with_lines h data) =
    (Ok tt, with_lines (marked (line_shown l id key) r o (length legend) h)
              (with_line (line_shown l id key) name r data))) as Hstep.
  { unfold when, marked, with_line. destruct (line_shown l id key); [|done]. by eapply add_line_run. }
  unfold mbind at 1, M_bind at 1. rewrite Hstep. unfold mbind at 1, M_bind at 1.
  rewrite pick_value_run. cbn [heap with_lines].
  rewrite <- (read_same h (marked (line_shown l id key) r o (length legend) h)) by (by eapply marked_same).
  rewrite Ht. unfold mbind at 1, M_bind at 1. rewrite (show_run _ l) by done.
  do 3 f_equal. unfold row_of. cbn [fst snd]. by rewrite Ht.
Qed.

(** What the loop over the items leaves: the rows of the legend, the lines of
    those that are shown, and details marked with the numbers of their rows. *)
Lemma chart_rows_run items : forall h data legend,
  Forall (item_ok h s fmt rates) items ->
  NoDup items.*1 -> NoDup (map (fun it => details_slot s it.2) (present s items)) ->
  (forall k, k ∈ items.*1 -> k ∉ keys_of data) ->
  exists h' new,
    chart_rows id items s fmt rates legend (with_lines h data) =
      (Ok (legend ++ legend_of l id (read h s) fmt rates s items), with_lines h' (data ++ new)) /\
    same_bodies h h' /\
    (forall r, Details r ∉ map (fun it => details_slot s it.2) (present s items) -> h' !! r = h !! r) /\
    Forall (fun kv => kv.1 ∈ items.*1) new /\
    series_lines h' rates type new =
      Ok (lines_of h s type rates (length legend) (legend_of l id (read h s) fmt rates s items)).
Proof using Hl.
  induction items as [|[name key] items IH]; intros h data legend Hok Hn Hs Hfresh.
  { exists h, []. rewrite !app_nil_r. by repeat split; try constructor. }
  apply NoDup_cons in Hn as [Hname Hn]. apply Forall_cons in Hok as [Hit Hok].
  rewrite legend_of_cons. rewrite present_cons in Hs |- *. cbn [snd fst] in *.
  destruct (has_details s key) eqn:Hd; cbn [app map] in *.
  2: { destruct (IH h data legend) as (h' & new & Hrun & Hb & Hkeep & Hnew & Hlines); [done..| |].
    { intros k Hk. apply Hfresh. by right. }
    exists h', new. split_and!; [by cbn [chart_rows]; rewrite Hd | done..| |done].
    eapply Forall_impl; [exact Hnew|]. intros kv Hkv. by right. }
  apply NoDup_cons in Hs as [Hslot Hs].
  destruct (Hit Hd) as ((r & o & j & Hr & Hh) & (pts & Hpts) & (t & Ht)). cbn [snd] in *.
  pose proof (chart_rows_step name key items h data legend r o j t Hd Hr Hh Ht (Hfresh name ltac:(left))) as Hstep.
  rewrite Hr in Hslot, Hpts |- *. cbn [deref] in Hpts. rewrite Hh in Hpts. cbn [body] in Hpts.
  pose proof (marked_same (line_shown l id key) r o j (length legend) h Hh) as Hb1.
  remember (line_shown l id key) as shown eqn:Hshown. set (h1 := marked shown r o (length legend) h) in *.
  set (row := row_of l id (read h s) fmt rates (name, key)).
  destruct (IH h1 (with_line shown name r data) (legend ++ [row]))
    as (h' & new & Hrun & Hb & Hkeep & Hnew & Hlines); [|done..| |].
  { eapply Forall_impl; [exact Hok|]. intros it. by apply item_ok_same. }
  { intros k Hk. assert (k ∉ keys_of data) by (apply Hfresh; by right). unfold with_line, keys_of in *.
    destruct shown; [|done]. rewrite fmap_app, not_elem_of_app. split; [done|].
    cbn. rewrite list_elem_of_singleton. by intros ->. }
  rewrite <- (read_same h h1) in Hrun, Hlines by done. rewrite <- (lines_of_same h h1) in Hlines by done.
  rewrite length_app in Hlines. cbn [length] in Hlines. rewrite Nat.add_1_r in Hlines.
  exists h', ((if shown then [(name, Details r)] else []) ++ new). split_and!.
  - etrans; [exact Hstep|]. fold row. rewrite Hrun, <- app_assoc. do 2 f_equal. unfold with_line. by destruct shown; rewrite <- ?app_assoc.
  - by etrans.
  - intros r' Hr'. apply not_elem_of_cons in Hr' as [Hne Hr']. rewrite Hkeep by done. unfold h1, marked.
    destruct shown; [|done]. apply list_lookup_insert_ne. congruence.
  - apply Forall_app. split; [destruct shown; [apply Forall_singleton; left|constructor]|].
    eapply Forall_impl; [exact Hnew|]. intros kv Hkv. by right.
  - cbn [lines_of]. assert (row_show row = shown) as -> by exact (eq_sym Hshown). destruct shown; [|done].
    apply series_lines_cons; [|exact Hlines]. etrans; [eapply (series_line_run _ _ _ r o (length legend))|].
    + rewrite Hkeep by done. unfold h1. apply list_lookup_insert_eq. by eapply lookup_lt_Some.
    + exact Hpts.
    + unfold line_of. cbn [row_key row row_of snd]. rewrite Hr. cbn [deref]. rewrite Hh. cbn [body].
      by rewrite Hpts.
Qed.

End Rows.

Definition sizes : list jstr := [js "small"; js "medium"; js "large"].

Lemma chart_classes_spec type size rates :
  type = js "full" \/ type = js "node" -> size ∈ sizes ->
  has_class (chart_classes type (Some size) rates) "chart-rates" = rates /\
  (if has_class (chart_classes type (Some size) rates) "chart-full" then js "full" else js "node") = type.
Proof.
  unfold sizes. rewrite !elem_of_cons, elem_of_nil.
  intros [-> | ->] [-> | [-> | [-> | []]]]; destruct rates; by vm_compute.
Qed.

Lemma entries_lines (new : obj slot) (items : list item) :
  Forall (fun kv => kv.1 ∈ items.*1) new -> Forall (fun k => index_key k = None) items.*1 -> entries new = new.
Proof.
  rewrite !Forall_forall. intros Hnew Hw. apply entries_unindexed. unfold keys_of.
  apply Forall_forall. intros k (kv & -> & Hkv)%list_elem_of_fmap. by apply Hw, Hnew.
Qed.

Section Plot.
Context {J : Type} {CJ : CookieJar J} {CK : Clock}.
Implicit Types (x : chart_state J).

(** A chart that a template puts on the page and that is plotted once the
    page is shown has a line for each row of its legend that is shown, in the
    order of the legend, with the points of its samples and in the colour of the
    row; statistics that are missing have neither row nor line. *)
Theorem chart_lines_match_legend x l type_id id items s fmt axis_fmt type rates :
  local_storage (page_of x) = Some l -> (type = js "full" \/ type = js "node") ->
  stored_size l type_id ∈ sizes -> items_ok s items -> Forall (item_ok (heap x) s fmt rates) items ->
  let size := stored_size l type_id in
  let legend := legend_of l id (read (heap x) s) fmt rates s items in
  exists x' x'',
    rates_chart type_id id items s fmt axis_fmt type rates x =
      (Ok (match legend with [] => [] | _ => chart_html id type (Some size) rates legend end), x') /\
    render_chart ("chart-" ++ id) (chart_classes type (Some size) rates) x' = (Ok tt, x'') /\
    plots x'' = plots x ++
      [mk_plot ("chart-" ++ id) (lines_of (heap x) s type rates 0 legend) (Some axis_fmt)].
Proof.
  intros Hl Htype Hsize [Hn Hs Hw] Hok size legend. destruct x as [p h d inv pl]. cbn [page_of heap] in *.
  destruct (chart_rows_run id s fmt rates type l p Hl d (Some axis_fmt) inv pl items h [] [] Hok Hn Hs)
    as (h' & new & Hrun & Hb & _ & Hnew & Hlines).
  { intros k _. apply not_elem_of_nil. }
  cbn [app] in Hrun. fold legend in Hrun, Hlines. cbn [length] in Hlines.
  exists (with_lines id p d (Some axis_fmt) inv pl h' new). eexists. split_and!.
  - unfold rates_chart, mbind at 1, M_bind at 1.
    rewrite (on_prefs_get (mk_state p h d inv pl) l _ (Ok (Some size))); [|done|].
    2: { unfold size, stored_size. rewrite default_chart_size. by destruct (l !! _). }
    unfold mbind at 1, M_bind at 1, get_data at 1, gets at 1. cbn [chart_data].
    unfold mbind at 1, M_bind at 1, modify at 1, set_data at 1. cbn [page_of heap inverted plots].
    unfold mbind at 1, M_bind at 1. unfold with_lines in Hrun at 1. by rewrite Hrun.
  - unfold render_chart. destruct (chart_classes_spec type size rates Htype Hsize) as [-> ->].
    rewrite drop_app_length. unfold mbind at 1, M_bind at 1, get_data at 1, gets at 1.
    cbn [chart_data with_lines]. rewrite get_put. cbn [lines default].
    unfold mbind at 1, M_bind at 1, get_heap at 1, gets at 1. cbn [heap with_lines].
    change (Datatypes.id new) with new. rewrite (entries_lines new items) by done. rewrite Hlines.
    reflexivity.
  - done.
Qed.

End Plot.

(** ** The bars *)

Definition one_m : positive := 4503599627370496.

Lemma one_eq : of_int 1 = finite false one_m (-52).
Proof. by vm_compute. Qed.

(** Not negative, infinity included. *)
Definition nonneg (x : double) : Prop :=
  match x with
  | dzero s | infinite s => s = false
  | finite s m e => s = false /\ normal m e
  | dnan => False
  end.

Lemma ddiv_finite_nonneg m1 e1 m2 e2 :
  operand e1 -> operand e2 -> nonneg (ddiv (finite false m1 e1) (finite false m2 e2)).
Proof.
  intros He1 He2. rewrite ddiv_finite.
  destruct (div_core_spec m1 e1 m2 e2 He1 He2) as (q & s & r & l & -> & Hs & He & Hq & _).
  apply (round_normal (xorb false false)); [done|lia].
Qed.

Lemma double_of_nonneg n : 0 <= mant n -> nonneg (double_of n).
Proof.
  intros Hn. unfold double_of, of_fraction. destruct (mant n); [done| |lia]. by apply ddiv_finite_nonneg.
Qed.

(** A ratio of numbers that are not negative is not either, or there is none. *)
Lemma ratio_nonneg u l :
  nonneg u -> nonneg l ->
  nonneg (ddiv u l) \/
  (ddiv u l = dnan /\ (u = dzero false /\ l = dzero false \/ u = infinite false /\ l = infinite false)).
Proof.
  destruct u as [s|s| |s m e]; try done; destruct l as [s'|s'| |s' m' e']; try done; cbn [nonneg];
    intros Hu Hl; repeat match goal with H : _ /\ _ |- _ => destruct H end; subst; cbn; auto.
  left. apply ddiv_finite_nonneg; by eapply normal_operand.
Qed.

(** The ratio of a bar is at most 1: a larger one is inverted. *)
Lemma unit_ratio r : nonneg r -> at_most 1 0 (if dlt (of_int 1) r then ddiv (of_int 1) r else r).
Proof.
  rewrite one_eq. destruct r as [s|s| |s m e]; cbn [nonneg]; [by intros; subst | by intros; subst | done |].
  intros [-> Hn]. pose proof (normal_operand m e Hn) as Ho. destruct Hn as (He & Hm & Hd).
  unfold dlt, SpecFloat.SFltb. cbn [SpecFloat.SFcompare].
  destruct (Z.compare_spec (-52) e) as [<-|Hlt|Hgt].
  - change (Pos.compare_cont Eq one_m m) with (Pos.compare one_m m).
    assert (Hone : Zpos m <= Zpos one_m -> at_most 1 0 (finite false m (-52))).
    { intros H. split; [done|]. split; [by split; [|split]|].
      transitivity (scaled (Zpos one_m) (-52)); [by apply scaled_mono|by vm_compute]. }
    destruct (Pos.compare_spec one_m m) as [Heq|H|H]; [apply Hone; by rewrite Heq| |by apply Hone, Z.lt_le_incl].
    apply ddiv_at_most; [done|done|lia|lia|]. rewrite Z.mul_1_l, Z.add_0_l. apply scaled_mono; lia.
  - apply ddiv_at_most; [done|done|lia|lia|]. rewrite Z.mul_1_l, Z.add_0_l.
    replace e with (-52 + (e + 52)) by lia. rewrite scaled_shift by lia. apply scaled_mono; [|lia].
    assert (2 ^ 1 <= 2 ^ (e + 52)) by (apply Z.pow_le_mono_r; lia). unfold one_m. nia.
  - split; [done|]. split; [done|]. replace 0 with (e + (53 + (-53 - e))) at 1 by lia.
    rewrite scaled_shift by lia. apply scaled_mono; [|lia]. rewrite Z.mul_1_l, Z.pow_add_r by lia.
    assert (0 < 2 ^ (-53 - e)) by (apply Z.pow_pos_nonneg; lia). nia.
Qed.

(** What is left of 1, and of the width of the bar. *)
Lemma one_minus x : at_most 1 0 x -> at_most 1 0 (dsub (of_int 1) x).
Proof.
  rewrite one_eq. destruct x as [s|s| |s m e]; cbn [at_most]; try done.
  { intros _. split; [done|]. split; [by unfold normal, one_m; lia|]. by vm_compute. }
  intros (-> & (He & Hm & _) & Hx). unfold dsub. cbn [SpecFloat.SFsub].
  set (ez := Z.min (-52) e).
  destruct (shl_align_spec one_m (-52) ez) as [_ H1]. destruct (shl_align_spec m e ez) as [_ H2].
  unfold SpecFloat.cond_Zopp. rewrite H1, H2.
  replace (Z.min (-52) ez) with ez by (unfold ez; lia). replace (Z.min e ez) with ez by (unfold ez; lia).
  assert (scaled (Zpos m * 2 ^ (e - ez)) ez <= scaled (Zpos one_m * 2 ^ (-52 - ez)) ez) as Hle.
  { rewrite <- !scaled_shift by (unfold ez; lia).
    replace (ez + (e - ez)) with e by lia. replace (ez + (-52 - ez)) with (-52) by lia.
    etrans; [exact Hx|]. by vm_compute. }
  assert (Hs : scaled (Zpos one_m * 2 ^ (-52 - ez)) ez = scaled 1 0).
  { rewrite <- scaled_shift by (unfold ez; lia). replace (ez + (-52 - ez)) with (-52) by lia. by vm_compute. }
  apply scaled_inj in Hle; [|unfold ez; lia].
  apply normalize_at_most; [lia|unfold ez; lia|lia|lia|]. etrans; [|apply Z.eq_le_incl, Hs].
  apply scaled_mono; [|unfold ez; lia]. assert (0 < 2 ^ (e - ez)) by (apply Z.pow_pos_nonneg; unfold ez; lia). nia.
Qed.

Lemma width_times x : at_most 1 0 x -> at_most 120 0 (dmul (of_int 120) x).
Proof.
  assert (of_int 120 = finite false 8444249301319680 (-46)) as -> by by vm_compute.
  destruct x as [s|s| |s m e]; cbn [at_most]; try done.
  intros (-> & Hn & Hx). apply dmul_at_most; [lia|lia|done|lia|lia|].
  change 8444249301319680%positive with (Z.to_pos (120 * 2 ^ 46)). rewrite Z2Pos.id by lia.
  replace (120 * 2 ^ 46 * Zpos m) with (120 * Zpos m * 2 ^ 46) by ring. destruct Hn as (He & _).
  rewrite <- scaled_shift by lia. replace (-46 + e + 46) with e by lia. unfold scaled in *. nia.
Qed.

Lemma round_at_most x : at_most 120 0 x -> exists n, 0 <= n <= 120 /\ math_round x = of_int n.
Proof.
  destruct x as [s|s| |s m e]; cbn [at_most]; try done.
  { intros ->. exists 0. split; [lia|by vm_compute]. }
  intros (-> & (He & _) & Hx). exists (round_half_up (Zpos m) e). split; [|done]. unfold round_half_up.
  destruct (Z.leb_spec 0 e) as [H|H].
  - replace e with (0 + e) in Hx by lia. rewrite scaled_shift in Hx by lia. apply scaled_inj in Hx; [|lia].
    split; [|done]. apply Z.mul_nonneg_nonneg; [lia|]. apply Z.pow_nonneg. lia.
  - replace 0 with (e + - e) in Hx at 1 by lia. rewrite scaled_shift in Hx by lia.
    apply scaled_inj in Hx; [|lia]. rewrite Z.pow_add_r by lia.
    assert (0 < 2 ^ (- e)) by (apply Z.pow_pos_nonneg; lia).
    split; [apply Z.div_pos; lia|]. apply Z.lt_succ_r, Z.div_lt_upper_bound; lia.
Qed.

(** The image of a bar is shifted by a whole number of pixels within its
    width of 120, for all numbers that are used and limits that are not negative,
    inverted or not, whatever the rounding; only where there is no ratio (both
    are 0, or too large for doubles) the shift is no number. *)
Theorem bar_offset_range (used limit : num) invert :
  0 <= mant used -> 0 <= mant limit ->
  let u := double_of used in
  let l := double_of limit in
  let ratio := (bar_ratio u l invert).1 in
  (exists n, 0 <= n <= 120 /\ bar_offset ratio = of_int n) \/
  (ratio = dnan /\ (u = dzero false /\ l = dzero false \/ u = infinite false /\ l = infinite false)).
Proof.
  intros Hu%double_of_nonneg Hl%double_of_nonneg u l ratio. fold u in Hu. fold l in Hl.
  set (r0 := if invert then ddiv l u else ddiv u l).
  assert (Hr0 : nonneg r0 \/
    (r0 = dnan /\ (u = dzero false /\ l = dzero false \/ u = infinite false /\ l = infinite false))).
  { unfold r0. destruct invert; [|by apply ratio_nonneg].
    destruct (ratio_nonneg l u Hl Hu) as [|[? [[]|[]]]]; auto. }
  assert (Hratio : ratio = if dlt (of_int 1) r0 then ddiv (of_int 1) r0 else r0).
  { unfold ratio, bar_ratio. fold r0. by destruct (dlt (of_int 1) r0). }
  destruct Hr0 as [Hr0|[Hnan Hz]]; [left|right].
  - rewrite Hratio. apply round_at_most, width_times, one_minus. by apply unit_ratio.
  - split; [|exact Hz]. rewrite Hratio, Hnan. by vm_compute.
Qed.

Lemma bar_offset_range_witness :
  exists n, 0 <= n <= 120 /\ bar_offset (bar_ratio (double_of (num_of 7)) (double_of (num_of 3)) false).1 = of_int n.
Proof.
  destruct (bar_offset_range (num_of 7) (num_of 3) false ltac:(by vm_compute) ltac:(by vm_compute))
    as [H|[H _]]; [exact H|by vm_compute in H].
Defined.

Module ChartExamples.
Import PrefsFacts.Browser.

(** Statistics of a queue: messages were published and acknowledged, and the
    user has hidden the line of the former. *)
Definition sample (t v : Z) : value := VObj [(js "sample", VInt v); (js "timestamp", VInt t)].

Definition store : list details := [
  mk_details (VObj [(js "rate", VInt 2); (js "samples", VArr [sample 6000 10; sample 1000 0])]) None;
  mk_details (VObj [(js "rate", VNum (Num 5 1)); (js "samples", VArr [sample 6000 8; sample 1000 3])]) None].

Definition queue_stats : stats := [
  (js "ack", Plain (VInt 8)); (js "ack_details", Details 1);
  (js "publish", Plain (VInt 10)); (js "publish_details", Details 0)].

Definition stored : gmap jstr jstr := {[rabbit "chart-line-qpublish" := js "false"]}.

Definition state0 : chart_state cookies := mk_state (mk_page (Some stored) [] 5000 None) store [] false [].

Lemma queue_items_ok : items_ok queue_stats message_rates_items.
Proof.
  split; [by_decide| |by_decide].
  replace (map _ _) with [Details 0; Details 1] by by vm_compute.
  apply NoDup_cons. rewrite list_elem_of_singleton. split; [done|]. apply NoDup_singleton.
Qed.

(** Each item is there with its details, or is not there. *)
Definition check_item (it : item) : bool :=
  negb (has_details queue_stats it.2) ||
  match details_slot queue_stats it.2 with
  | Details r =>
      match store !! r with
      | Some (mk_details (VObj _) _) =>
          match series_points true (deref store (Details r)),
                pick_text fmt_rate (read store queue_stats) it.2 [] true with
          | Ok _, Ok _ => true
          | _, _ => false
          end
      | _ => false
      end
  | Plain _ => false
  end.

Lemma check_item_ok it : check_item it = true -> item_ok store queue_stats fmt_rate true it.
Proof.
  unfold check_item, item_ok. intros Hc Hd. rewrite Hd in Hc. cbn [negb orb] in Hc.
  destruct (details_slot queue_stats it.2) as [|r]; [done|].
  destruct (store !! r) as [[b i]|] eqn:Hr; [|done]. destruct b; try done.
  destruct (series_points true _) as [d|]; [|done]. destruct (pick_text _ _ _ _ _) as [t|]; [|done].
  split_and!; eauto.
Qed.

Lemma chart_lines_match_legend_witness :
  exists x' x'',
    rates_chart "q" "q" message_rates_items queue_stats fmt_rate fmt_rate_axis "full" true state0 =
      (Ok (chart_html "q" "full" (Some (js "small")) true
        [mk_row "Publish" "publish" "2.0/s" false; mk_row "Consumer ack" "ack" "0.50/s" true]), x') /\
    render_chart "chart-q" "chart chart-full chart-small chart-rates" x' = (Ok tt, x'') /\
    plots x'' = [mk_plot "chart-q" [mk_line [(VInt 1000, inr (of_int 1))] (Some (js "#afd8f8")) false]
                   (Some fmt_rate_axis)].
Proof.
  assert (Hit : Forall (item_ok store queue_stats fmt_rate true) message_rates_items).
  { apply Forall_forall. intros it Hin. apply check_item_ok. revert it Hin. apply Forall_forall. by_decide. }
  assert (Hsz : stored_size stored "q" ∈ sizes) by by_decide.
  destruct (chart_lines_match_legend state0 stored "q" "q" message_rates_items queue_stats fmt_rate
    fmt_rate_axis "full" true eq_refl (or_introl eq_refl) Hsz queue_items_ok Hit) as (x' & x'' & H1 & H2 & H3).
  assert (Hlegend : legend_of stored "q" (read (heap state0) queue_stats) fmt_rate true queue_stats
    message_rates_items = [mk_row "Publish" "publish" "2.0/s" false; mk_row "Consumer ack" "ack" "0.50/s" true])
    by by vm_compute.
  rewrite Hlegend in H1, H3. exists x', x''. split; [exact H1|]. split; [exact H2|].
  rewrite H3. reflexivity.
Defined.

(** The bar of what is used, and of what is left of more. *)
Example bars :
  map (fun ul => (number_text (bar_offset (bar_ratio (of_int ul.1) (of_int ul.2) false).1),
                  (bar_ratio (of_int ul.1) (of_int ul.2) false).2)) [(30, 120); (120, 120); (240, 120); (0, 0)] =
  [(js "90", false); (js "0", false); (js "60", true); (js "NaN", false)].
Proof. by vm_compute. Qed.

(** A range of the preferences that is unknown makes every heading but those of
    the current value fail. *)
Example unknown_range :
  map (fun m => prefix_title (Some m) (Some (js "61|5"))) [js "chart"; js "avg"; js "curr"] =
  [Throw TypeError; Throw TypeError; Ok (js "current value")].
Proof. by vm_compute. Qed.

End ChartExamples.
