(* ===== verification/Help.v ===== *)
(** The texts of the help (global.js: HELP), which a click on a help mark opens.
    The table is an object literal: a name that is given twice keeps the last text. *)
From S2P Require Import Prelude JsString Uri JsObject JsValue.

(** A text of several lines of the source. *)
Definition text (l : list string) : jstr := concat (map js l).

(** The arguments and the messages of exchanges and queues. *)
Definition queue_help : list (jstr * jstr) := [
  (js "delivery-limit", text [
    "The number of allowed unsuccessful delivery attempts. Once a message has been delivered ";
    "unsuccessfully more than this many times it will be dropped or dead-lettered, depending on the ";
    "queue configuration. The default is always 20. A value of -1 sets the limit to `unlimited`."]);
  (js "exchange-auto-delete", text [
    "If yes, the exchange will delete itself after at least one queue or exchange has been bound to ";
    "this one, and then all queues or exchanges have been unbound."]);
  (js "exchange-internal", text [
    "If yes, clients cannot publish to this exchange directly. It can only be used with exchange to ";
    "exchange bindings."]);
  (js "exchange-alternate", text [
    "If messages to this exchange cannot otherwise be routed, send them to the alternate exchange ";
    "named here.<br/>(Sets the `<a target=`_blank` ";
    "href=`https://rabbitmq.com/ae.html`>alternate-exchange</a>` argument.)"]);
  (js "queue-message-ttl", text [
    "How long a message published to a queue can live before it is discarded ";
    "(milliseconds).<br/>(Sets the `<a target=`_blank` ";
    "href=`https://rabbitmq.com/ttl.html#per-queue-message-ttl`>x-message-ttl</a>` argument.)"]);
  (js "queue-consumer-timeout", text [
    "If a consumer does not ack its delivery for more than the <a ";
    "href=`https://www.rabbitmq.com/consumers.html#acknowledgement-timeout`>timeout value</a> (30 ";
    "minutes by default), its channel will be closed with a <code>PRECONDITION_FAILED</code> channel ";
    "exception."]);
  (js "queue-consumer-disconnected-timeout", text [
    "How long to wait (in milliseconds) before returning checked out messages when a consumer's node ";
    "becomes unreachable. Defaults to 60000 (60 seconds).<br/>(Sets the ";
    "`<code>x-consumer-disconnected-timeout</code>` argument.)"]);
  (js "queue-delayed-retry-type", text [
    "The type of delayed retry for quorum queues. Valid values are <code>all</code> (retry all ";
    "returned and failed messages), <code>failed</code> (retry only failed messages), ";
    "<code>returned</code> (retry only returned messages), or <code>disabled</code>. You must also ";
    "set <code>delayed-retry-min</code> for delayed retry to be enabled."]);
  (js "queue-delayed-retry-min", text [
    "Required. The minimum delay (in milliseconds) before retrying a message. Delayed retry will not ";
    "be enabled unless this value is set."]);
  (js "queue-delayed-retry-max", text [
    "Optional. The maximum delay (in milliseconds) before retrying a message. Must be greater than ";
    "or equal to the minimum delay. Defaults to the minimum delay if not set."]);
  (js "queue-expires", text [
    "How long a queue can be unused for before it is automatically deleted (milliseconds).<br/>(Sets ";
    "the `<a target=`_blank` href=`https://rabbitmq.com/ttl.html#queue-ttl`>x-expires</a>` argument.)"]);
  (js "queue-max-length", text [
    "How many (ready) messages a queue can contain before it starts to drop them from its head or ";
    "reject publishes, depending on the overflow behaviour.<br/>(Sets the `<a target=`_blank` ";
    "href=`https://rabbitmq.com/maxlength.html`>x-max-length</a>` argument.)"]);
  (js "queue-max-length-bytes", text [
    "Total body size for ready messages a queue can contain before it starts to drop them from its ";
    "head or reject publishes, depending on the overflow behaviour.<br/>(Sets the `<a ";
    "target=`_blank` href=`https://rabbitmq.com/maxlength.html`>x-max-length-bytes</a>` argument.)"]);
  (js "queue-max-age", js "How long a message published to a stream queue can live before it is discarded.");
  (js "queue-stream-filter-size-bytes", text [
    "Size of the filter data attached to each stream chunk.<br/>(Sets the x-stream-filter-size-bytes ";
    "argument.)"]);
  (js "queue-auto-delete", text [
    "If yes, the queue will delete itself after at least one consumer has connected, and then all ";
    "consumers have disconnected."]);
  (js "queue-dead-letter-exchange", text [
    "Optional name of an exchange to which messages will be republished if they are rejected or ";
    "expire.<br/>(Sets the `<a target=`_blank` ";
    "href=`https://rabbitmq.com/dlx.html`>x-dead-letter-exchange</a>` argument.)"]);
  (js "queue-dead-letter-routing-key", text [
    "Optional replacement routing key to use when a message is dead-lettered. If this is not set, ";
    "the message's original routing key will be used.<br/>(Sets the `<a target=`_blank` ";
    "href=`https://rabbitmq.com/dlx.html`>x-dead-letter-routing-key</a>` argument.)"]);
  (js "queue-dead-letter-strategy", text [
    "Valid values are <code>at-most-once</code> or <code>at-least-once</code>. It defaults to ";
    "<code>at-most-once</code>. If <code>at-least-once</code> is set, <code>Overflow ";
    "behaviour</code> must be set to <code>reject-publish</code>. Otherwise, dead letter strategy ";
    "will fall back to <code>at-most-once</code>."]);
  (js "queue-single-active-consumer", text [
    "If set, makes sure only one consumer at a time consumes from the queue and fails over to ";
    "another registered consumer in case the active one is cancelled or dies.<br/>(Sets the `<a ";
    "target=`_blank` href=`https://rabbitmq.com/consumers.html#single-active-consumer`>x-single-activ";
    "e-consumer</a>` argument.)"]);
  (js "queue-max-priority", text [
    "Maximum number of priority levels for the queue to support; if not set, the queue will not ";
    "support message priorities.<br/>(Sets the `<a target=`_blank` ";
    "href=`https://rabbitmq.com/priority.html`>x-max-priority</a>` argument.)"]);
  (js "queue-max-age", text [
    "Sets the data retention for stream queues in time units </br>(Y=Years, M=Months, D=Days, ";
    "h=hours, m=minutes, s=seconds).<br/>E.g. `1h` configures the stream to only keep the last 1 ";
    "hour of received messages.</br></br>(Sets the x-max-age argument.)"]);
  (js "queue-overflow", text [
    "Sets the <a target=`_blank` ";
    "href=`https://www.rabbitmq.com/maxlength.html#overflow-behaviour`>queue overflow behaviour</a>. ";
    "This determines what happens to messages when the maximum length of a queue is reached. Valid ";
    "values are <code>drop-head</code>, <code>reject-publish</code> or ";
    "<code>reject-publish-dlx</code>"]);
  (js "quorum-queue-overflow", text [
    "Sets the <a target=`_blank` ";
    "href=`https://www.rabbitmq.com/maxlength.html#overflow-behaviour`>queue overflow behaviour</a>. ";
    "This determines what happens to messages when the maximum length of a queue is reached. Valid ";
    "values for quorum queues are <code>drop-head</code> and <code>reject-publish</code>."]);
  (js "queue-master-locator", text [
    "Deprecated: please use "] ++ [96] ++ text [
    "queue-leader-locator"] ++ [96] ++ text [
    " instead. <a target=`_blank` ";
    "href=`https://www.rabbitmq.com/docs/clustering#replica-placement`>Controls which node the queue ";
    "will be running on.</a>"]);
  (js "queue-leader-locator", text [
    "Set the rule by which the queue leader is located when declared on a cluster of nodes. Valid ";
    "values are <code>client-local</code> (default) and <code>balanced</code>."]);
  (js "queue-initial-cluster-size", js "Set the queue initial cluster size, i.e. number of queue members/replicas");
  (js "quorum-queue-target-group-size", text [
    "The target number of replicas. Used by the <a target=`_blank` ";
    "href=`https://www.rabbitmq.com/docs/quorum-queues#member-reconciliation`>periodic membership ";
    "reconciliation</a> mechanism.<br/>"]);
  (js "queue-type", text [
    "Set the queue type, determining the type of queue to use: raft-based high availability or ";
    "classic queue. Valid values are <code>quorum</code> or <code>classic</code>. It defaults to ";
    "<code>classic</code>. <br/>"]);
  (js "queue-messages", js "<p>Message counts.</p><p>Note that some messages can be in memory and on disk at the same time.");
  (js "queue-messages-stream", text [
    "<p>Approximate message counts.</p><p>Note that streams store some entries that are not user ";
    "messages such as offset tracking data which is included in this count. Thus this value will ";
    "never be completely correct.</p>"]);
  (js "queue-dead-lettered", js "Applies to messages dead-lettered with dead-letter-strategy <code>at-least-once</code>.");
  (js "queue-delivery-limit", text [
    "The maximum number of failed delivery attempts before the message is dead-lettered (if ";
    "configured) or dropped."]);
  (js "queue-message-body-bytes", text [
    "<p>The sum total of the sizes of the message bodies in this queue. This only counts message ";
    "bodies; it does not include message properties (including headers) or metadata used by the ";
    "queue.</p><p>Note that some messages can be in memory and on disk at the same time.</p><p>For ";
    "classic queues, if a message larger than <code>queue_index_embed_msgs_below</code> (4KB by ";
    "default) is routed to multiple queues, its body will be stored only once and shared between ";
    "queues. The value shown here does not take this optimization into account.</p>"]);
  (js "queue-process-memory", text [
    "Total memory used by this queue process. This does not include in-memory message bodies (which ";
    "may be shared between queues and will appear in the global `binaries` memory) but does include ";
    "everything else."])].

(** Consumers, definitions, channels, nodes, messages. *)
Definition object_help : list (jstr * jstr) := [
  (js "queue-consumer-capacity", text [
    "Fraction of the time that the queue is able to immediately deliver messages to consumers. Will ";
    "be 0 for queues that have no consumers. If this number is less than 100% you may be able to ";
    "deliver messages faster if:         <ul>           <li>There were more consumers or</li>        ";
    "   <li>The consumers were faster or</li>           <li>The consumer channels used a higher ";
    "prefetch count</li>         </ul>"]);
  (js "internal-users-only", text [
    "Only users within the internal RabbitMQ database are shown here. Other users (e.g. those ";
    "authenticated over LDAP) will not appear."]);
  (js "export-definitions", text [
    "The definitions consist of users, virtual hosts, permissions, parameters, exchanges, queues, ";
    "policies and bindings. They do not include the contents of queues. Exclusive queues will not be ";
    "exported."]);
  (js "export-definitions-vhost", text [
    "The definitions exported for a single virtual host consist of exchanges, queues, bindings and ";
    "policies."]);
  (js "import-definitions", text [
    "The definitions that are imported will be merged with the current definitions. If an error ";
    "occurs during import, any changes made will not be rolled back."]);
  (js "import-definitions-vhost", js "For a single virtual host, only exchanges, queues, bindings and policies are imported.");
  (js "exchange-rates-incoming", js "The incoming rate is the rate at which messages are published directly to this exchange.");
  (js "exchange-rates-outgoing", text [
    "The outgoing rate is the rate at which messages enter queues, having been published directly to ";
    "this exchange."]);
  (js "channel-mode", text [
    "Channel guarantee mode. Can be one of the following, or neither:<br/>       <dl>         ";
    "<dt><abbr title=`Confirm`>C</abbr> &ndash; <a target=`_blank` ";
    "href=`https://www.rabbitmq.com/confirms.html`>confirm</a></dt>         <dd>Channel will send ";
    "streaming publish confirmations.</dd>         <dt><abbr title=`Transactional`>T</abbr> &ndash; ";
    "<a target=`_blank` href=`https://www.rabbitmq.com/amqp-0-9-1-reference.html#class.tx`>transactio";
    "nal</a></dt>         <dd>Channel is transactional.</dd>       </dl>"]);
  (js "channel-prefetch", text [
    "Channel prefetch count.       <p>          Each channel can have a prefetch count. The prefetch ";
    "is the number of messages that will be held          by the client. Setting a value of 0 will ";
    "result in an unlimited prefetch.        </p>        "]);
  (js "file-descriptors", text [
    "<p>File descriptor count and limit, as reported by the operating       system. The count ";
    "includes network sockets and file handles.</p>       <p>To optimize disk access RabbitMQ uses ";
    "as many file descriptors as       needed, so the limit must be high enough for safe ";
    "operation.</p>       <p>To change the limit on Unix / Linux, use `ulimit -n`. To change       ";
    "the limit on Windows, set the ERL_MAX_PORTS environment variable</p>       <p>To report used ";
    "file handles on Windows, handle.exe from       sysinternals must be installed in your path. You ";
    "can download it       <a target=`_blank` ";
    "href=`https://technet.microsoft.com/en-us/sysinternals/bb896655`>here</a>.</p>"]);
  (js "memory-alarm", text [
    "<p>The <a target=`_blank` href=`https://www.rabbitmq.com/memory.html#memsup`>memory       ";
    "alarm</a> for this node has gone off. It will block       incoming network traffic until the ";
    "memory usage drops below       the watermark.</p>      <p>Note that the pale line in this case ";
    "indicates the high watermark       in relation to how much memory is used in total. </p>"]);
  (js "disk-free-alarm", text [
    "The <a target=`_blank` href=`https://www.rabbitmq.com/memory.html#diskfreesup`>disk       free ";
    "space alarm</a> for this node has gone off. It will block       incoming network traffic until ";
    "the amount of free space exceeds       the limit."]);
  (js "message-get-requeue", text [
    "<p>Clicking `Get Message(s)` will consume messages from the queue.       If requeue is set the ";
    "message will be put back into the queue in place,       but `redelivered` will be set on the ";
    "message.</p>       <p>If requeue is not set messages will be removed from the queue.</p>       ";
    "<p>Furthermore, message payloads will be truncated to 50000 bytes.</p>"]);
  (js "message-publish-headers", js "Headers can have any name. Only long string headers can be set here.");
  (js "message-publish-properties", text [
    "<p>You can set other message properties here (delivery mode and headers       are pulled out as ";
    "the most common cases).</p>      <p>Invalid properties will be ignored. Valid properties ";
    "are:</p>      <ul>      <li>content_type</li>      <li>content_encoding</li>      ";
    "<li>priority</li>      <li>correlation_id</li>      <li>reply_to</li>      <li>expiration</li>  ";
    "    <li>message_id</li>      <li>timestamp</li>      <li>type</li>      <li>user_id</li>      ";
    "<li>app_id</li>      <li>cluster_id</li>      </ul>"])].

(** Users, messages and rates, memory, federation, filters. *)
Definition page_help : list (jstr * jstr) := [
  (js "string-base64", text [
    "<p>AMQP message payloads can contain any binary content. They can      therefore be difficult ";
    "to display in a browser. The options here      have the following meanings:</p>      <dl>       ";
    " <dt>Auto string / base64</dt>        <dd>If the message payload can be interpreted as a string ";
    "in UTF-8            encoding, do so. Otherwise return the payload encoded as            ";
    "base64.</dd>        <dt>base64</dt>        <dd>Return the payload encoded as base64 ";
    "unconditionally.</dd>      </dl>"]);
  (js "user-tags", text [
    "Comma-separated list of tags to apply to the user. Currently        <a target=`_blank` ";
    "href=`https://www.rabbitmq.com/management.html#permissions`>supported        by the management ";
    "plugin</a>:       <dl>         <dt>management</dt>         <dd>           User can access the ";
    "management plugin         </dd>         <dt>policymaker</dt>         <dd>           User can ";
    "access the management plugin and manage policies and           parameters for the vhosts they ";
    "have access to.         </dd>         <dt>monitoring</dt>         <dd>           User can ";
    "access the management plugin and see all connections and           channels as well as ";
    "node-related information.         </dd>         <dt>administrator</dt>         <dd>           ";
    "User can do everything monitoring can do, manage users,           vhosts and permissions, close ";
    "other user's connections, and manage           policies and parameters for all vhosts.         ";
    "</dd>       </dl>       <p>         Note that you can set any tag here; the links for the above ";
    "four         tags are just for convenience.       </p>"]);
  (js "queued-messages", text [
    "<dl>                                  <dt>Ready</dt>        <dd>Number of messages that are ";
    "available to be delivered now.</dd>        <dt>Unacknowledged</dt>        <dd>Number of ";
    "messages for which the server is waiting for acknowledgement.</dd>        <dt>Total</dt>        ";
    "<dd>The total of these two numbers.</dd>      </dl>"]);
  (js "message-rates", text [
    "Only rates for which some activity is taking place will be shown.      <dl>        ";
    "<dt>Publish</dt>        <dd>Rate at which messages are entering the server.</dd>        ";
    "<dt>Publisher confirm</dt>        <dd>Rate at which the server is confirming publishes.</dd>    ";
    "    <dt>Deliver (manual ack)</dt>        <dd>Rate at which messages are delivered to consumers ";
    "that use manual acknowledgements.</dd>        <dt>Deliver (auto ack)</dt>        <dd>Rate at ";
    "which messages are delivered to consumers that use automatic acknowledgements.</dd>        ";
    "<dt>Consumer ack</dt>        <dd>Rate at which messages are being acknowledged by ";
    "consumers.</dd>        <dt>Redelivered</dt>        <dd>Rate at which messages with the ";
    "'redelivered' flag set are being delivered. Note that these messages will <b>also</b> be ";
    "counted in one of the delivery rates above.</dd>        <dt>Get (manual ack)</dt>        ";
    "<dd>Rate at which messages requiring acknowledgement are being delivered in response to ";
    "basic.get.</dd>        <dt>Get (auto ack)</dt>        <dd>Rate at which messages not requiring ";
    "acknowledgement are being delivered in response to basic.get.</dd>        <dt>Get (empty)</dt>  ";
    "      <dd>Rate at which empty queues are hit in response to basic.get.</dd>        ";
    "<dt>Return</dt>        <dd>Rate at which basic.return is sent to publishers for unroutable ";
    "messages published with the 'mandatory' flag set.</dd>      </dl>      <p>        Note that the ";
    "last two items originate in queues rather than         channels; they may therefore be slightly ";
    "out of sync with other         statistics.      </p>"]);
  (js "disk-monitoring-no-watermark", text [
    "There is no <a target=`_blank` href=`https://www.rabbitmq.com/memory.html#diskfreesup`>disk ";
    "space low watermark</a> set. RabbitMQ will not take any action to avoid running out of disk ";
    "space."]);
  (js "resource-counts", js "Shows total number of objects for all virtual hosts the current user has access to.");
  (js "memory-use", text [
    "<p>Note that the memory details shown here are only updated on request - they could be too ";
    "expensive to calculate every few seconds on a busy server.</p><p><a target=`_blank` ";
    "href=`https://www.rabbitmq.com/memory-use.html`>Read more</a> on memory use.</p>"]);
  (js "memory-calculation-strategy-breakdown", text [
    "<p>The setting <code>vm_memory_calculation_strategy</code> defines which of the below memory ";
    "values is used to check if the memory usage reaches the watermark or paging to disk is ";
    "required.</p><p><a target=`_blank` href=`https://www.rabbitmq.com/memory-use.html`>Read ";
    "more</a> on memory use.</p>"]);
  (js "memory-calculation-strategy", text [
    "<p>This value can be calculated using different strategies, see the ";
    "<code>vm_memory_calculation_strategy</code> configuration setting.</p><p><a target=`_blank` ";
    "href=`https://www.rabbitmq.com/memory-use.html`>Read more</a> on memory use.</p>"]);
  (js "binary-use", text [
    "<p>Binary accounting is not exact; binaries are shared between processes (and thus the same ";
    "binary might be counted in more than one section), and the VM does not allow us to track ";
    "binaries that are not associated with processes (so some binary use might not appear at ";
    "all).</p>"]);
  (js "policy-federation-upstream-set", text [
    "A string; only if the federation plugin is enabled. Chooses the name of a set of upstreams to ";
    "use with federation, or `all` to use all upstreams. Incompatible with ";
    "<code>federation-upstream</code>."]);
  (js "policy-federation-upstream", text [
    "A string; only if the federation plugin is enabled. Chooses a specific upstream set to use for ";
    "federation. Incompatible with <code>federation-upstream-set</code>."])].

(** The statistics of a node. *)
Definition node_help : list (jstr * jstr) := [
  (js "handle-exe", text [
    "In order to monitor the number of file descriptors in use on Windows, RabbitMQ needs the <a ";
    "href=`https://technet.microsoft.com/en-us/sysinternals/bb896655` target=`_blank`>handle.exe ";
    "command line tool from Microsoft</a>. Download it and place it in the path (e.g. in C:Windows)."]);
  (js "filter-regex", text [
    "Whether to enable regular expression matching. Both string literals     and regular expressions ";
    "are matched in a case-insensitive manner.<br/><br/>"]);
  (js "consumer-active", text [
    "Whether the consumer is active or not, i.e. whether the consumer can get messages from the ";
    "queue.     When single active consumer is enabled for the queue, only one consumer at a time is ";
    "active.     When single active consumer is disabled for the queue, consumers are active by ";
    "default.     For a quorum queue, a consumer can be inactive because its owning node is ";
    "suspected down. <br/><br/>     (<a ";
    "href=`https://www.rabbitmq.com/consumers.html#active-consumer` ";
    "target=`_blank`>Documentation</a>)"]);
  (js "consumer-owner", text [
    "<a href=`https://www.rabbitmq.com/consumers.html`>AMQP 0-9-1 consumers</a> belong to a channel, ";
    "    and <a href=`https://www.rabbitmq.com/stream.html`>stream consumers</a> belong to a stream ";
    "connection."]);
  (js "plugins", js "Note that only plugins which are both explicitly enabled and running are shown here.");
  (js "io-operations", text [
    "Rate of I/O operations. Only operations performed by the message       persister are shown here ";
    "(e.g. changes in the schema data store or writes       to the log files are not shown).      ";
    "<dl>        <dt>Read</dt>        <dd>Rate at which data is read from the disk.</dd>        ";
    "<dt>Write</dt>        <dd>Rate at which data is written to the disk.</dd>        <dt>Seek</dt>  ";
    "      <dd>Rate at which the broker switches position while reading or          writing to ";
    "disk.</dd>        <dt>Sync</dt>        <dd>Rate at which the node invokes <code>fsync()</code> ";
    "to ensure          data is flushed to disk.</dd>        <dt>Reopen</dt>        <dd>Rate at ";
    "which the node recycles file handles in order to support          more queues than it has file ";
    "handles. If this operation is occurring          frequently you may get a performance boost ";
    "from increasing the number          of file handles available.</dd>      </dl>"]);
  (js "mnesia-transactions", text [
    "Rate at which schema data store transactions are initiated on this node (this node      will ";
    "also take part in the transactions initiated on other nodes).      <dl>        <dt>RAM ";
    "only</dt>        <dd>Rate at which RAM-only schema data store transactions take place (e.g. ";
    "creation or             deletion of transient queues).</dd>        <dt>Disk</dt>        ";
    "<dd>Rate at which all schema data store transactions take place (e.g.             creation or ";
    "deletion of durable queues).</dd>      </dl>"]);
  (js "persister-operations-msg", text [
    "Rate at which per-message persister operations take place on this node. See      <a ";
    "href=`https://www.rabbitmq.com/persistence-conf.html` target=`_blank`>here</a>      for more ";
    "information on the persister.       <dl>        <dt>QI Journal</dt>        <dd>Rate at which ";
    "message information (publishes, deliveries and             acknowledgements) is written to ";
    "queue index journals.</dd>        <dt>Store Read</dt>        <dd>Rate at which messages are ";
    "read from the message store.</dd>        <dt>Store Write</dt>        <dd>Rate at which messages ";
    "are written to the message store.</dd>      </dl>"]);
  (js "persister-operations-bulk", text [
    "Rate at which whole-file persister operations take place on this node. See      <a ";
    "href=`https://www.rabbitmq.com/persistence-conf.html` target=`_blank`>here</a>      for more ";
    "information on the persister.       <dl>        <dt>QI Read</dt>        <dd>Rate at which queue ";
    "index segment files are read.</dd>        <dt>QI Write</dt>        <dd>Rate at which queue ";
    "index segment files are written. </dd>      </dl>"]);
  (js "gc-operations", js "Rate at which garbage collection operations take place on this node.");
  (js "gc-bytes", js "Rate at which memory is reclaimed by the garbage collector on this node.");
  (js "context-switches-operations", js "Rate at which runtime context switching takes place on this node.");
  (js "process-reductions", js "Rate at which reductions take place on this process.")].

(** Connections, channels, queues, and AMQP 1.0. *)
Definition connection_help : list (jstr * jstr) := [
  (js "connection-operations", text [
    " <dl>        <dt>Created</dt>        <dd>Rate at which connections are created.</dd>        ";
    "<dt>Closed</dt>        <dd>Rate at which connections are closed.</dd>      </dl> "]);
  (js "channel-operations", text [
    " <dl>        <dt>Created</dt>        <dd>Rate at which channels are created.</dd>        ";
    "<dt>Closed</dt>        <dd>Rate at which channels are closed.</dd>      </dl> "]);
  (js "queue-operations", text [
    " <dl>        <dt>Declared</dt>        <dd>Rate at which queues are declared by clients.</dd>    ";
    "    <dt>Created</dt>        <dd>Rate at which queues are created. Declaring a queue that ";
    "already exists counts for a `Declared` event, but not for a `Created` event. </dd>        ";
    "<dt>Deleted</dt>        <dd>Rate at which queues are deleted.</dd>     </dl> "]);
  (js "container-id", text [
    "Name of the client application as sent from client to RabbitMQ in the `container-id` field of ";
    "the AMQP 1.0 <a target=`_blank` ";
    "href=`https://docs.oasis-open.org/amqp/core/v1.0/os/amqp-core-transport-v1.0-os.html#type-open`>";
    "open</a> frame."]);
  (js "incoming-links", text [
    "<a target=`_blank` href=`https://docs.oasis-open.org/amqp/core/v1.0/os/amqp-core-transport-v1.0-";
    "os.html#section-links`>Links</a> where the client is the sender/publisher and RabbitMQ is the ";
    "receiver of messages."]);
  (js "outgoing-links", text [
    "<a target=`_blank` href=`https://docs.oasis-open.org/amqp/core/v1.0/os/amqp-core-transport-v1.0-";
    "os.html#section-links`>Links</a> where the client is the receiver/consumer and RabbitMQ is the ";
    "sender of messages."]);
  (js "target-address", text [
    "The `address` field of the link <a target=`_blank` ";
    "href=`https://docs.oasis-open.org/amqp/core/v1.0/os/amqp-core-messaging-v1.0-os.html#type-target";
    "`>target</a>."]);
  (js "source-address", text [
    "The `address` field of the link <a target=`_blank` ";
    "href=`https://docs.oasis-open.org/amqp/core/v1.0/os/amqp-core-messaging-v1.0-os.html#type-source";
    "`>source</a>."]);
  (js "amqp-source-queue", js "The client receives messages from this queue.");
  (js "amqp-unconfirmed-messages", js "Number of messages that have been sent to queues but have not been confirmed by all queues.");
  (js "snd-settle-mode", text [
    "<a target=`_blank` href=`https://docs.oasis-open.org/amqp/core/v1.0/os/amqp-core-transport-v1.0-";
    "os.html#type-sender-settle-mode`>Sender Settle Mode</a>"]);
  (js "sender-settles", text [
    "`true` if the sender sends all deliveries settled to the receiver. `false` if the sender sends ";
    "all deliveries initially unsettled to the receiver."]);
  (js "outgoing-unsettled-deliveries", js "Number of messages that have been sent to consumers but have not yet been settled/acknowledged.");
  (js "amqp-filter", text [
    "Filters are predicates that define which messages RabbitMQ sends to the receiver. Each filter ";
    "in the <a target=`_blank` ";
    "href=`https://docs.oasis-open.org/amqp/core/v1.0/os/amqp-core-messaging-v1.0-os.html#type-filter";
    "-set`>Filter Set</a> has a name displayed in the boxes below. Hovering over a box will display ";
    "the filter descriptor and the filter definition."]);
  (js "amqp-consumer-timeout", text [
    "`true` if this consumer has ever had messages released due to a consumer timeout, i.e. because ";
    "the consumer did not settle messages within the configured (x-)consumer-timeout period."])].

(** HELP *)
Definition HELP : obj jstr :=
  foldl (fun o kv => put o kv.1 kv.2) [] (queue_help ++ object_help ++ page_help ++ node_help ++ connection_help).

(** [HELP[id]] *)
Definition help_text (id : jstr) : value := match get HELP id with Some t => VStr t | None => VUndef end.

(** ** The texts are markup

    A reference reading of markup: the tags that are open, innermost first. *)

(** The name of a tag. *)
Fixpoint tag_name (t : jstr) : jstr :=
  match t with c :: t => if is_alnum c then c :: tag_name t else [] | [] => [] end.

(** A tag opens an element, ends the innermost one, or is a line break. *)
Definition read_tag (t : jstr) (opened : list jstr) : option (list jstr) :=
  match t with
  | 47 :: t =>
      if decide (tag_name t = "br") then Some opened
      else match opened with
           | name :: opened => if decide (tag_name t = name) then Some opened else None
           | [] => None
           end
  | _ => if decide (tag_name t = []) then None
         else if decide (tag_name t = "br") then Some opened else Some (tag_name t :: opened)
  end.

(** The text, inside a tag or not. *)
Fixpoint read_markup (s : jstr) (tag : option jstr) (opened : list jstr) : option (list jstr) :=
  match s with
  | [] => match tag with None => Some opened | Some _ => None end
  | c :: s =>
      match tag with
      | None =>
          if decide (c = 60) then read_markup s (Some []) opened
          else if decide (c = 62) then None else read_markup s None opened
      | Some t =>
          if decide (c = 62) then (opened ← read_tag t opened; read_markup s None opened)
          else if decide (c = 60) then None else read_markup s (Some (t ++ [c])) opened
      end
  end.

Definition balanced (s : jstr) : Prop := read_markup s None [] = Some [].

#[global] Instance balanced_dec s : Decision (balanced s).
Proof. unfold balanced. apply _. Defined.

(** Every text is markup whose elements are ended in their order, but for one,
    which opens a paragraph at its end. *)
Lemma help_balanced id t : get HELP id = Some t -> id <> js "queue-messages" -> balanced t.
Proof.
  intros Hg%get_In Hne.
  assert (Hall : Forall (fun kv => kv.1 <> js "queue-messages" -> balanced kv.2) HELP) by by_decide.
  rewrite Forall_forall in Hall. by apply (Hall (id, t)).
Qed.

Lemma help_unbalanced : (t ← get HELP "queue-messages"; read_markup t None []) = Some [js "p"].
Proof. vm_compute. reflexivity. Qed.

(** The marks that the scripts of the page draw (charts.js, formatters.js) open a text. *)
Definition script_marks : list jstr :=
  [js "message-rates"; js "queued-messages"; js "process-reductions"; js "filter-regex"].

Lemma script_marks_open : Forall (fun id => is_Some (get HELP id)) script_marks.
Proof. by_decide. Qed.

(** A mark of the template of the arguments of streams opens nothing. *)
Lemma stream_segment_missing : help_text "queue-stream-max-segment-size-bytes" = VUndef.
Proof. vm_compute. reflexivity. Qed.

(** Of the two texts for the age of messages the first is lost. *)
Lemma queue_max_age_twice :
  length (filter (fun kv => kv.1 = js "queue-max-age") queue_help) = 2%nat /\
  NoDup HELP.*1 /\ S (length HELP) =
    length (queue_help ++ object_help ++ page_help ++ node_help ++ connection_help).
Proof. split_and!; [vm_compute; reflexivity|by_decide|vm_compute; reflexivity]. Qed.
