(* ===== verification/Listeners.v ===== *)
(** What a rendered page listens to (main.js, global.js): the handlers that
    postprocess gives to the document, the filters, the warnings, the popups,
    debounce, and the registries of postprocessors and listeners that extensions
    fill.

    postprocess runs at the end of every full update and gives the document
    another copy of its handlers, while the document stays: an event is handled
    by all the copies, one after the other. *)
From S2P Require Import Prelude JsString JsNum Base64 Uri JsObject JsValue Columns Prefs PrefsFacts Requests ChartRanges Escape Format Links Forms World Pages Refresh Sync RefreshFacts RefreshRuns ChartsFacts Help.

(** ** Registries (global.js) *)

(** A Map: the names in the order they were first set. *)
Section Registry.
Context {F : Type}.
Implicit Types (m : obj F).

(** registerPostProcessor: the first one of a name stays. *)
Definition registerPostProcessor (name : jstr) (f : F) (m : obj F) : obj F :=
  match get m name with Some _ => m | None => put m name f end.

Definition clear_postprocessors (m : obj F) : obj F := [].
Definition is_postprocessor_registered (name : jstr) (m : obj F) : bool := bool_decide (is_Some (get m name)).
Definition unregisterPostProcessor (name : jstr) (m : obj F) : obj F := del m name.

(** registerApplicationListener: a name that is null or blank is refused, as is
    one that is taken; whether it was registered. *)
Definition registerApplicationListener (name : option jstr) (listener : option F) (m : obj F) : bool * obj F :=
  match name, listener with
  | Some name, Some f =>
      if decide (trim name = []) then (false, m)
      else match get m name with Some _ => (false, m) | None => (true, put m name f) end
  | _, _ => (false, m)
  end.

Definition unregisterApplicationListener (name : jstr) (m : obj F) : obj F := del m name.

End Registry.

Section Notify.
Context {W : Type}.

(** invokeRegisteredPostProcessors: each is called, and one that throws does not
    keep the others from running. *)
Fixpoint invokeRegisteredPostProcessors (m : obj (M W unit)) : M W unit :=
  match m with
  | [] => skip
  | (_, f) :: m => (fun w => (Ok tt, (f w).2)) ;;; invokeRegisteredPostProcessors m
  end.

(** An ApplicationListener, with the methods it has. *)
Record listener := mk_listener {
  onRefresh_ : option (M W unit);
  onVhostChange : option (jstr -> M W unit);
  onTabActivated : option (option jstr -> M W unit);
}.

(** The loop of the three notifications over the listeners. *)
Fixpoint notify (method : listener -> option (M W unit)) (m : obj listener) : M W unit :=
  match m with
  | [] => skip
  | (_, l) :: m =>
      (fun w => (Ok tt, match method l with Some f => (f w).2 | None => w end)) ;;; notify method m
  end.

Definition notifyOnRefresh : obj listener -> M W unit := notify onRefresh_.
Definition notifyOnVhostChange (newVhost : jstr) : obj listener -> M W unit :=
  notify (fun l => f ← onVhostChange l; Some (f newVhost)).
Definition notifyActivatedTab (tab : option jstr) : obj listener -> M W unit :=
  notify (fun l => f ← onTabActivated l; Some (f tab)).

End Notify.
Arguments listener : clear implicits.

(** ** Filters *)

(** [new RegExp(s, "i")], or the message of its error. *)
Class RegExps := { new_regexp : jstr -> regexp + jstr }.

Section Filters.
Context {RE : RegExps}.

(** update_filter_regex: the expression of the filter in force, and the message
    put below it. *)
Definition update_filter_regex (G : globals) : globals * option jstr :=
  let with_regex r := mk_globals (current_filter G) r (current_filter_regex_on G) (vhosts_interesting G)
    (exchange_types G) (Links.current_sort G) (Links.current_sort_reverse G) in
  if current_filter_regex_on G && bool_decide (trim (current_filter G) <> []) then
    match new_regexp (current_filter G) with
    | inl r => (with_regex (Some r), None)
    | inr message => (with_regex None, Some ("<p class=`status-error`>" ++ fmt_escape_html (VStr message) ++ "</p>"))
    end
  else (with_regex None, None).

(** update_filter_regex_mode, up to the partial update that follows. *)
Definition update_filter_regex_mode (checked : bool) (G : globals) : globals * option jstr :=
  update_filter_regex (mk_globals (current_filter G) (current_filter_regex G) checked (vhosts_interesting G)
    (exchange_types G) (Links.current_sort G) (Links.current_sort_reverse G)).

(** update_filter, up to the partial update that follows: also whether the table
    is marked as filtered. *)
Definition update_filter (val : jstr) (G : globals) : globals * option jstr * bool :=
  (update_filter_regex (mk_globals val (current_filter_regex G) (current_filter_regex_on G) (vhosts_interesting G)
     (exchange_types G) (Links.current_sort G) (Links.current_sort_reverse G)),
   bool_decide (val <> [])).

End Filters.

(** ** debounce *)

(** A function that is called once no call has come for a while: the call that
    waits, with the time it is due. *)
Record debounced (X : Type) := mk_debounced { waiting : option (Z * X); called : list X }.
Arguments mk_debounced {X} _ _.
Arguments waiting {X} _.
Arguments called {X} _.

Section Debounce.
Context {X : Type} (delay : Z).

(** The timeout of the call that waits. *)
Definition expire (t : Z) (d : debounced X) : debounced X :=
  match waiting d with
  | Some (due, x) => if due <=? t then mk_debounced None (called d ++ [x]) else d
  | None => d
  end.

(** A call at a time: the call that waits is given up. *)
Definition debounce (d : debounced X) (c : Z * X) : debounced X :=
  let d := expire c.1 d in mk_debounced (Some (c.1 + delay, c.2)) (called d).

Definition debounce_all (calls : list (Z * X)) : debounced X :=
  foldl debounce (mk_debounced None []) calls.

End Debounce.

(** ** Popups, warnings and handlers *)

Section Handlers.
Context {J : Type} {CJ : CookieJar J} {CK : Clock} {RX : RegExpSyntax} {TP : Templates}.
Variable oauth_enabled : bool.
Notation H := (M (world J)).

(** The markup of update_warnings, when there is something to warn of. *)
Definition warnings_markup (needs_enabling needs_deprecating : bool) : option jstr :=
  if needs_enabling || needs_deprecating then
    Some ("<p class=`warning`>" ++
      (if needs_enabling
       then js "<span>&#9888;</span> All stable feature flags must be enabled after completing an upgrade. <a href=`https://www.rabbitmq.com/feature-flags.html`>[Learn more]</a>"
       else []) ++
      (if needs_deprecating then
         (if needs_enabling then js "<br/>" else []) ++
         "<span>&#9888;</span> Deprecated features are being used. <a href=`https://www.rabbitmq.com/feature-flags.html`>[Learn more]</a>"
       else []) ++ "</p>")
  else None.

(** The loop over the feature flags: whether one is disabled that is not
    experimental. *)
Fixpoint needs_enabling (flags : list value) : res bool :=
  match flags with
  | [] => Ok false
  | flag :: flags =>
      state ← field flag "state"; stability ← field flag "stability";
      rest ← needs_enabling flags;
      Ok ((eq_word state "disabled" && negb (eq_word stability "experimental")) || rest)
  end.

(** The elements of a list; what else the server may answer has none. *)
Definition elements (v : value) : res (list value) :=
  match v with VArr l => Ok l | VUndef | VNull => Throw TypeError | _ => Ok [] end.

Section Server.
Variable form : form_state.
Variable server : jstr -> jstr -> option (obj value) -> response.

(** update_warnings: the markup of the warnings, or none. *)
Definition update_warnings : H (option jstr) :=
  feature_flags ← get_json oauth_enabled form server "/feature-flags";
  flags ← lift (elements feature_flags);
  enabling ← lift (needs_enabling flags);
  deprecated_features ← get_json oauth_enabled form server "/deprecated-features/used";
  used ← lift (elements deprecated_features);
  mret (warnings_markup enabling (bool_decide (used <> []))).

(** update_manual: the statistics that are only read on demand are those of the
    memory and of the binaries of a node. *)
Definition update_manual (div : jstr) (binary : bool) : H unit :=
  let query := if binary then js "binary" else js "memory" in
  v ← gets view_of;
  path ← lift (match get (current_reqs v) "node" with
               | Some (WithOptions path _) => Ok (path ++ "?" ++ query ++ "=true")
               | Some (Path _) => Ok ("undefined?" ++ query ++ "=true")
               | None => Throw TypeError
               end);
  data ← get_json oauth_enabled form server path;
  let model := match data with VObj o => o | _ => [] end in
  if renders query model [] then emit (Content div query model) else clear_timer.

End Server.

(** The click on a line of a legend: the preference is turned. *)
Definition on_rate_visibility (k : jstr) : H unit :=
  v ← on_prefs (get_pref k);
  on_prefs (store_pref k (bool_string (negb (bool_decide (v = Some (js "true")))))) ;;;
  partial_update.

(** The click on a help mark. *)
Definition on_help (id : jstr) : H unit := emit (Popup "help" (help_text id)).

(** The submission of the form that enables a feature flag. *)
Definition on_enable_feature_flag : H unit := full_refresh.

(** A field gets the focus. *)
Definition on_focus : H unit := on_view reset_counter.

(** The fields that ask for a page of a list: a key in the field of a number, which
    counts when it is the one that enters; the box and the choice at once. *)
Definition on_page_key (keyCode : Z) (val page_start : value) : H unit :=
  when (keyCode =? 13) (update_pages_from_ui oauth_enabled val page_start).

(** A choice of what a form shows: the parts of its options, each shown or not. *)
Definition controls_appearance (s : selector) : list (jstr * bool) :=
  map (fun param => (param, bool_decide (param = selected s))) (options s).

(** maybe_format_extra_queue_content: what the extensions add to a queue. *)
Definition maybe_format_extra_queue_content {Q E : Type} (QUEUE_EXTRA_CONTENT : list (Q -> E -> jstr))
  (queue : Q) (extraContent : E) : jstr :=
  foldl (fun content f => content ++ f queue extraContent) [] QUEUE_EXTRA_CONTENT.

(** ** The handlers of the document *)

(** postprocess ran at the end of each full update. *)
Definition full_rendering (e : effect) : bool :=
  match e with Rendered AfterUpdate _ _ _ => true | _ => false end.

Definition attached (w : world J) : nat := length (filter (fun e => full_rendering e = true) (log w)).

Fixpoint run_copies (n : nat) (m : H unit) : H unit :=
  match n with O => skip | S n => callback m ;;; run_copies n m end.

(** An event on the document: the handlers run that were given to it, each to
    its end or its exception. *)
Definition document_event (m : H unit) : H unit := n ← gets attached; run_copies n m.

End Handlers.

(** ** Properties *)

(** What is hidden is not sent: of the options of a choice just the one that is
    shown stays a parameter of the form. *)
Lemma hidden_not_sent (s : selector) params p :
  ((p, false) ∈ controls_appearance s -> get (remove_fields params s) p = None) /\
  ((p, true) ∈ controls_appearance s -> p <> select_name s -> get (remove_fields params s) p = get params p).
Proof.
  assert (Hdel : forall k (o : obj value) l, get (foldl (fun params option =>
      if decide (option = selected s) then params else del params option) o l) k =
    if decide (k ∈ l /\ k <> selected s) then None else get o k).
  { intros k o l. revert o. induction l as [|x l IH]; intros o; [by rewrite decide_False by (rewrite elem_of_nil; tauto)|].
    cbn [foldl]. rewrite IH. destruct (decide (x = selected s)) as [->|Hx].
    - apply decide_ext. rewrite elem_of_cons. naive_solver.
    - destruct (decide (k = x)) as [->|Hk].
      + rewrite get_del. rewrite (decide_True (P := x ∈ x :: l /\ _)) by (split; [left|done]). by case_decide.
      + rewrite get_del_ne by done. apply decide_ext. rewrite elem_of_cons. naive_solver. }
  unfold controls_appearance, remove_fields. rewrite !list_elem_of_fmap. split.
  - intros (q & [= -> Hq] & Hin). symmetry in Hq. apply bool_decide_eq_false in Hq.
    destruct (decide (q = select_name s)) as [->|Hne]; [by rewrite get_del|].
    by rewrite get_del_ne, Hdel, decide_True.
  - intros (q & [= -> Hq] & Hin) Hne. symmetry in Hq. apply bool_decide_eq_true in Hq.
    rewrite get_del_ne, Hdel by done. by rewrite decide_False by tauto.
Qed.

Section Facts.
Context {J : Type} {CJ : CookieJar J} {CK : Clock} {CL : CookieJarLaws J} {RX : RegExpSyntax} {TP : Templates}.
Variable k v : jstr.
(** A preference that no handler of a refresh writes. *)
Hypothesis Hk : Forall (fun k' => k <> k') [js "position"; CREDENTIALS; AUTH_SCHEME; AUTH_RESOURCE].

(** The preference has a value. *)
Definition stored (w : world J) : Prop :=
  exists l, local_storage (prefs w) = Some l /\ l !! rabbit k = Some v.

Definition page_stored (p : page J) : Prop := exists l, local_storage p = Some l /\ l !! rabbit k = Some v.

Lemma rabbit_inj a b : rabbit a = rabbit b -> a = b.
Proof. unfold rabbit. apply app_inv_head. Qed.

Lemma keeps_stored_on_prefs {A} (m : M (page J) A) : keeps_inv page_stored m -> keeps_inv stored (on_prefs m).
Proof. intros Hm w Hw. unfold on_prefs. specialize (Hm (prefs w) Hw). by destruct (m (prefs w)). Qed.

Lemma keeps_store_local k' v' : k <> k' -> keeps_inv page_stored (store_local_pref k' v').
Proof.
  intros Hne p (l & Hl & Hv). unfold store_local_pref. rewrite Hl. eexists. split; [done|].
  rewrite lookup_insert_ne; [done|]. intros He%rabbit_inj. congruence.
Qed.

Lemma keeps_clear_local k' : k <> k' -> keeps_inv page_stored (clear_local_pref k').
Proof.
  intros Hne p (l & Hl & Hv). unfold clear_local_pref. rewrite Hl. eexists. split; [done|].
  rewrite lookup_delete_ne; [done|]. intros He%rabbit_inj. congruence.
Qed.

Lemma keeps_get_local k' : keeps_inv page_stored (get_local_pref k').
Proof. intros p Hp. unfold get_local_pref. by destruct (local_storage p). Qed.


Lemma keeps_get_pref k' : keeps_inv page_stored (get_pref k').
Proof.
  intros p (l & Hl & Hv). exists l. by rewrite (get_pref_local p l).
Qed.

Lemma keeps_store_pref k' v' : k <> k' -> keeps_inv page_stored (store_pref k' v').
Proof.
  intros Hne p Hp. unfold store_pref. destruct Hp as (l & Hl & Hv). rewrite Hl.
  apply keeps_store_local; [done|by exists l].
Qed.

Lemma keeps_clear_pref k' : k <> k' -> keeps_inv page_stored (clear_pref k').
Proof.
  intros Hne p Hp. unfold clear_pref. destruct Hp as (l & Hl & Hv). rewrite Hl.
  apply keeps_clear_local; [done|by exists l].
Qed.

Lemma keeps_clear_auth : keeps_inv page_stored clear_auth.
Proof using Hk CL.
  intros p (l & Hl & Hv). destruct (clear_auth_run p l Hl) as (p' & -> & Hl' & _). cbn [snd].
  exists (without_auth l). split; [done|]. unfold without_auth. rewrite !Forall_cons in Hk.
  destruct Hk as (_ & H1 & H2 & H3 & _).
  by rewrite !lookup_delete_ne by (intros He%rabbit_inj; congruence).
Qed.

Lemma keeps_same_prefs {A} (m : M (world J) A) : (forall w, prefs (m w).2 = prefs w) -> keeps_inv stored m.
Proof. intros Hm w (l & Hl & Hv). exists l. by rewrite Hm. Qed.

Lemma keeps_has_auth scheme : keeps_inv page_stored (has_auth_credentials scheme).
Proof. intros p (l & Hl & Hv). rewrite (has_auth_run p l) by done. by exists l. Qed.

Lemma keeps_header : keeps_inv page_stored authorization_header.
Proof. intros p (l & Hl & Hv). rewrite (authorization_header_run p l) by done. by exists l. Qed.

Lemma partial_update_keeps_stored : keeps_inv stored partial_update.
Proof using Hk CL.
  assert (Hpos : k <> js "position") by (rewrite Forall_cons in Hk; apply Hk).
  unfold partial_update, full_refresh, with_update, with_reqs, with_req, finish, maybe_scroll, reset_timer.
  keeps;
    first [ by apply keeps_same_prefs | apply keeps_stored_on_prefs ];
    first [ apply keeps_get_pref | by apply keeps_store_pref | apply keeps_has_auth
          | apply keeps_clear_auth | apply keeps_header ].
Qed.

End Facts.

Section Clicks.
Context {J : Type} {CJ : CookieJar J} {CK : Clock} {CL : CookieJarLaws J} {RX : RegExpSyntax} {TP : Templates}.

(** Whether a line is shown, by its preference in the local storage. *)
Definition pref_shown (l : gmap jstr jstr) (k : jstr) : bool :=
  bool_decide (default (js "true") (l !! rabbit k) = js "true").

Lemma chart_line_key id :
  Forall (fun k' => js "chart-line-" ++ id <> k') [js "position"; CREDENTIALS; AUTH_SCHEME; AUTH_RESOURCE].
Proof. repeat constructor; done. Qed.

Lemma rate_visibility_run (w : world J) l id :
  local_storage (prefs w) = Some l ->
  exists l', local_storage (prefs (callback (on_rate_visibility (js "chart-line-" ++ id)) w).2) = Some l' /\
    pref_shown l' (js "chart-line-" ++ id) = negb (pref_shown l (js "chart-line-" ++ id)).
Proof.
  intros Hl. set (k := js "chart-line-" ++ id). set (v := bool_string (negb (pref_shown l k))).
  set (w1 := set_prefs (set_local (<[rabbit k := v]> l) (prefs w)) w).
  assert (Hrun : on_rate_visibility k w = partial_update w1).
  { unfold on_rate_visibility, mbind, M_bind, on_prefs. rewrite (get_pref_local _ l) by done.
    unfold k. rewrite default_chart_line. fold k.
    assert (Hs : forall o, o = match l !! rabbit k with Some v => Some v | None => Some (js "true") end ->
      bool_decide (o = Some (js "true")) = pref_shown l k).
    { intros o ->. unfold pref_shown. apply bool_decide_ext. destruct (l !! rabbit k) as [x|]; [|done].
      change (Some x = Some (js "true") <-> x = js "true"). split; congruence. }
    destruct (l !! rabbit k) as [x|]; cbv beta iota; rewrite (Hs _ eq_refl); fold v;
      (rewrite (store_pref_local _ l) by done); by destruct w. }
  assert (Hw1 : stored k v w1) by (exists (<[rabbit k := v]> l); split; [done|apply lookup_insert_eq]).
  destruct (partial_update_keeps_stored k v (chart_line_key id) w1 Hw1) as (l' & Hl' & Hv).
  exists l'. split.
  - unfold callback. rewrite Hrun. by destruct (partial_update w1) as [[[]|e] w2].
  - unfold pref_shown at 1. rewrite Hv. cbn [default]. unfold v. by destruct (pref_shown l k).
Qed.

Lemma run_copies_rate n : forall (w : world J) l id,
  local_storage (prefs w) = Some l ->
  exists l', local_storage (prefs (run_copies n (on_rate_visibility (js "chart-line-" ++ id)) w).2) = Some l' /\
    pref_shown l' (js "chart-line-" ++ id) = xorb (Nat.odd n) (pref_shown l (js "chart-line-" ++ id)).
Proof.
  induction n as [|n IH]; intros w l id Hl; [by exists l|].
  destruct (rate_visibility_run w l id Hl) as (l1 & Hl1 & Hs1). cbn [run_copies]. unfold mbind, M_bind.
  assert (Hc : (callback (on_rate_visibility (js "chart-line-" ++ id)) w).1 = Ok tt)
    by (unfold callback; by destruct (on_rate_visibility _ w) as [[[]|e] w2]).
  destruct (callback _ w) as [r w1]. cbn [fst snd] in *. subst r.
  destruct (IH w1 l1 id Hl1) as (l2 & Hl2 & Hs2). exists l2. split; [done|].
  rewrite Hs2, Hs1, Nat.odd_succ, <- Nat.negb_odd. by destruct (Nat.odd n), (pref_shown l _).
Qed.

(** A click on a line of the legend of a chart turns the line once for each
    full update since the page was loaded, since each has attached the handler
    anew: after an odd number it is shown when it was hidden and hidden when it
    was shown, after an even number the click changes nothing. *)
Theorem legend_click_parity (w : world J) l id :
  local_storage (prefs w) = Some l ->
  let k := js "chart-line-" ++ id in
  exists l', local_storage (prefs (document_event (on_rate_visibility k) w).2) = Some l' /\
    pref_shown l' k = xorb (Nat.odd (attached w)) (pref_shown l k).
Proof. intros Hl k. apply (run_copies_rate (attached w) w l id Hl). Qed.

End Clicks.

(** ** Debouncing *)

Section DebounceFacts.
Context {X : Type} (delay : Z).

(** The calls that are not followed by another before they are due. *)
Fixpoint settled_calls (calls : list (Z * X)) : list X :=
  match calls with
  | [] => []
  | c :: rest =>
      match rest with
      | [] => [c.2]
      | c' :: _ => if c.1 + delay <=? c'.1 then c.2 :: settled_calls rest else settled_calls rest
      end
  end.

Lemma debounce_from c calls l T :
  Forall (fun c => c.1 + delay <= T) (c :: calls) ->
  called (expire T (foldl (debounce delay) (mk_debounced (Some (c.1 + delay, c.2)) l) calls)) =
  l ++ settled_calls (c :: calls).
Proof.
  revert c l. induction calls as [|c' calls IH]; intros c l HT; apply Forall_cons in HT as [Hc HT].
  - unfold expire. cbn [foldl waiting]. assert (c.1 + delay <=? T = true) as -> by lia. done.
  - cbn [foldl]. unfold debounce at 2, expire at 2. cbn [waiting called].
    change (settled_calls (c :: c' :: calls)) with
      (if c.1 + delay <=? c'.1 then c.2 :: settled_calls (c' :: calls) else settled_calls (c' :: calls)).
    destruct (c.1 + delay <=? c'.1); cbn [called]; rewrite IH by done; [by rewrite <- app_assoc|done].
Qed.

(** Of calls that come one after the other, the function is called for those that
    no other follows within the delay, in their order: the last of each burst. *)
Lemma debounce_last_of_burst calls T :
  Forall (fun c => c.1 + delay <= T) calls ->
  called (expire T (debounce_all delay calls)) = settled_calls calls.
Proof.
  intros HT. destruct calls as [|c calls]; [done|]. unfold debounce_all. cbn [foldl].
  unfold debounce at 2, expire at 2. cbn [waiting called]. by apply (debounce_from c calls []).
Qed.

End DebounceFacts.

Module ListenerExamples.
Import RefreshRuns.Page.

(** The overview was opened twice. *)
Definition opened_twice : world cookies :=
  run false world0
    [Open overview "overview" "#/";
     Response 2 (good (VObj [])); Response 3 (good (VArr []))].

(** Twice a full update: the click is handled twice and changes nothing. *)
Lemma legend_click_parity_witness :
  exists l', local_storage (prefs (document_event (on_rate_visibility "chart-line-msg-rates-overpublish") opened_twice).2) = Some l' /\
    pref_shown l' "chart-line-msg-rates-overpublish" = true.
Proof.
  set (l := default ∅ (local_storage (prefs opened_twice))).
  assert (Hl : local_storage (prefs opened_twice) = Some l) by by_decide.
  destruct (legend_click_parity opened_twice l (js "msg-rates-overpublish") Hl) as (l' & Hl' & Hs).
  exists l'. split; [exact Hl'|]. etrans; [exact Hs|]. by vm_compute.
Defined.

(** A help mark that is clicked then opens its popup twice. *)
Example help_twice :
  omap (fun e => match e with Popup type text => Some (type, to_str text) | _ => None end)
    (log (document_event (on_help (js "plugins")) opened_twice).2) =
  [(js "help", default [] (get HELP "plugins")); (js "help", default [] (get HELP "plugins"))].
Proof. vm_compute. reflexivity. Qed.

Example three_keys :
  called (expire 2000 (debounce_all 500 [(0, js "a"); (200, js "ab"); (900, js "abc")])) = [js "ab"; js "abc"].
Proof. by vm_compute. Qed.

(** The heading of a list tells how many objects there are, so that the
    visibility of its section is forgotten when their number changes. *)
Example heading_with_count :
  section_pref "queues" " All queues (5)" <> section_pref "queues" " All queues (6)".
Proof. by_decide. Qed.

End ListenerExamples.
