(* ===== verification/Widgets.v ===== *)
(** The smaller pieces of markup of formatters.js: marks for booleans, members of
    a queue, plugins, the fields and the navigation of a list with pages, the
    headings of groups of columns, and the fields of forms. *)
From S2P Require Import Prelude JsString JsNum Base64 Uri JsObject JsValue Columns Prefs PrefsFacts Requests ChartRanges Escape Format Links World Pages Refresh RefreshRuns Doubles Numbers.

(** fmt_boolean; [None] for what is shown when it is unknown is a call without. *)
Definition fmt_boolean (b : value) (unknown : option jstr) : jstr :=
  if nullish b then default UNKNOWN_REPR unknown
  else if truthy b then "&#9679;" else "&#9675;".

(** ** Members of a queue *)

(** [a.splice(i, 1)]: an index that is negative counts from the end. *)
Definition splice_one {A} (i : Z) (l : list A) : list A :=
  let n := Z.of_nat (length l) in
  let i := if i <? 0 then Z.max (n + i) 0 else Z.min i n in
  take (Z.to_nat i) l ++ drop (S (Z.to_nat i)) l.

Fixpoint index_in (x : jstr) (l : list jstr) (i : Z) : Z :=
  match l with [] => -1 | y :: l => if decide (y = x) then i else index_in x l (i + 1) end.

(** fmt_members, of the members of a queue, those that are online and its
    leader: the markup, and what is left of the list of those online. *)
Definition fmt_members (members online : list jstr) (node : jstr) : jstr * list jstr :=
  let isMajority := Z.of_nat (length members) / 2 + 1 <=? Z.of_nat (length online) in
  let followers := splice_one (index_in node online 0) online in
  let count := dec (Z.of_nat (length followers)) in
  (if isMajority then " <abbr title=`Followers: " ++ join "," followers ++ "`>+" ++ count ++ "</abbr>"
   else " <abbr class=`warning` title=`Cluster is in minority`>+" ++ count ++ "</abbr>", followers).

(** ** Plugins of a node *)

Record application := mk_application { app_name : jstr; app_rest : obj value }.

(** get_plugins_list *)
Definition get_plugins_list (applications : list application) (enabled_plugins : list jstr) : list application :=
  filter (fun a => app_name a ∈ enabled_plugins) applications.

(** fmt_plugins_small: nothing for a node whose applications are not known. *)
Definition fmt_plugins_small (applications : option (list application)) (enabled_plugins : list jstr) : jstr :=
  match applications with
  | None => []
  | Some applications =>
      let plugins := get_plugins_list applications enabled_plugins in
      "<abbr title=`Enabled plugins: " ++ join ", " (map app_name plugins) ++ "`>" ++
      dec (Z.of_nat (length plugins)) ++ "</abbr>"
  end.

(** ** Columns *)

Section Columns.
Context {J : Type} {CJ : CookieJar J} {CK : Clock}.

(** The loop of group_count over the columns of a group. *)
Fixpoint count_columns (mode : jstr) (disable_stats : bool) (options : list column) : M (page J) Z :=
  match options with
  | [] => mret 0
  | c :: options =>
      if bool_decide (mode = js "connections") && disable_stats &&
         (bool_decide (col_key c = js "from_client") || bool_decide (col_key c = js "to_client"))
      then count_columns mode disable_stats options
      else
        shown ← show_column mode (col_key c);
        rest ← count_columns mode disable_stats options;
        mret (if (shown : bool) then rest + 1 else rest)
  end.

(** group_count *)
Definition group_count (mode group : jstr) (disable_stats : bool) (bools : list bool) : M (page J) Z :=
  cols ← gets COLUMNS;
  options ← lift (match cols with
                  | Some cols => match get cols mode with
                                 | Some groups => match get groups group with
                                                  | Some options => Ok options
                                                  | None => Throw TypeError
                                                  end
                                 | None => Throw TypeError
                                 end
                  | None => Throw TypeError
                  end);
  count ← count_columns mode disable_stats options;
  mret (Z.of_nat (length (filter (fun b => b = true) bools)) + count).

(** group_heading *)
Definition group_heading (mode group : jstr) (disable_stats : bool) (bools : list bool) : M (page J) jstr :=
  count ← group_count mode group disable_stats bools;
  mret (if count =? 0 then [] else "<th colspan=`" ++ dec count ++ "`>" ++ group ++ "</th>").

End Columns.

(** ** Fields of forms *)

(** fmt_radio: the number of the field comes from the global radio_id. *)
Definition fmt_radio (radio_id : Z) (name text value current : jstr) : jstr * Z :=
  let id := dec (radio_id + 1) in
  ("<label class=`radio` for=`radio-" ++ id ++ "`><input type=`radio` id=`radio-" ++ id ++ "` name=`" ++ name ++
   "` value=`" ++ value ++ "`" ++ (if decide (value = current) then js " checked=`checked`" else []) ++
   ">" ++ text ++ "</label>", radio_id + 1).

Definition fmt_checkbox (name text : jstr) (current : bool) : jstr :=
  "<label class=`checkbox` for=`checkbox-" ++ name ++ "`><input type=`checkbox` id=`checkbox-" ++ name ++
  "` name=`" ++ name ++ "`" ++ (if current then js " checked=`checked`" else []) ++ ">" ++ text ++ "</label>".

(** isNumberKey, of the code of a key: control keys and digits. *)
Definition isNumberKey (charCode : Z) : bool := negb ((31 <? charCode) && ((charCode <? 48) || (57 <? charCode))).

(** ** Pages of a list *)

(** What the server tells of a page. *)
Record page_info := mk_pages {
  page_number : value; page_size : value;
  page_count : Z; total_count : Z; filtered_count : Z; item_count : Z;
}.

(** paginate_header_ui; the label is the context when there is none. *)
Definition paginate_header_ui (pages : page_info) (context : jstr) (label : option jstr) : jstr :=
  "<h2 class=`updatable`> All " ++ default context label ++ " (" ++ dec (total_count pages) ++
  (if filtered_count pages =? total_count pages then [] else ", filtered down to " ++ dec (filtered_count pages)) ++
  ")</h2>".

(** The choices of a page: the one that is shown is selected. *)
Definition page_options (pages : page_info) (page : value) : jstr :=
  concat (map (fun i =>
    if deq (of_int i) (to_number page)
    then " <option selected=`selected` value=`" ++ dec i ++ "`>" ++ dec i ++ "</option>"
    else "<option value=`" ++ dec i ++ "`> " ++ dec i ++ "</option>") (seqZ 1 (page_count pages))).

Section Pages.
Context {J : Type} {CJ : CookieJar J} {CK : Clock} {RX : RegExpSyntax} {TP : Templates}.
Variable oauth_enabled : bool.
Notation H := (M (world J)).

(** paginate_ui: [None] is undefined, when the page asked for is not there and
    the last one is opened instead. *)
Definition paginate_ui (pages : page_info) (context : jstr) (label : option jstr) : H (option jstr) :=
  let res := paginate_header_ui pages context label in
  page ← on_prefs (fmt_page_number_request context (page_number pages));
  if (0 <? page_count pages) && dlt (of_int (page_count pages)) (to_number page) then
    update_pages oauth_enabled context (VInt (page_count pages)) ;;; mret None
  else
    name ← on_prefs (fmt_filter_name_request context (VStr []));
    regex ← on_prefs (fmt_regex_request context (VStr []));
    size ← on_prefs (fmt_page_size_request context (page_size pages));
    mret (Some (res ++
      "<div class=`hider`><h3>Pagination</h3><div class=`filter`><table class=`updatable`><tr>" ++
      "<th><label for=`" ++ context ++ "-page`>Page </label> <select id=`" ++ context ++
      "-page` class=`pagination_class pagination_class_select`  >" ++ page_options pages page ++ "</select> </th>" ++
      "<th><label for=`" ++ context ++ "-pageof`>of </label>  " ++ dec (page_count pages) ++ "</th>" ++
      "<th><span><label for=`" ++ context ++ "-name`> - Filter: </label> <input id=`" ++ context ++
      "-name`  data-page-start=`1`  class=`pagination_class pagination_class_input` type=`text`value=`" ++
      name ++ "`></input></th></span>" ++
      "<th> <input type=`checkbox` data-page-start=`1` class=`pagination_class pagination_class_checkbox` id=`" ++
      context ++ "-filter-regex-mode`" ++ regex ++
      "></input> <label for=`filter-regex-mode`>Regex</label> <span class=`help` id=`filter-regex`></span></th>" ++
      " </table><p id=`filter-truncate`><span class=`updatable`><span><label for=`" ++ context ++
      "-pagesize`> Displaying " ++ dec (item_count pages) ++ "  item" ++
      (if 1 <? item_count pages then js "s" else []) ++ " , page size up to: </label>  <input id=`" ++ context ++
      "-pagesize` data-page-start=`1` class=`pagination_class shortinput pagination_class_input` type=`text` value = `" ++
      to_str size ++ "`onkeypress = `return isNumberKey(event)`> </input></span></p></tr></div></div>")).

End Pages.

(** ** Properties *)

Lemma index_in_spec x l i : 0 <= i ->
  match index_in x l i with
  | j => (j = -1 /\ x ∉ l) \/ (i <= j /\ l !! Z.to_nat (j - i) = Some x)
  end.
Proof.
  revert i. induction l as [|y l IH]; intros i Hi; cbn [index_in]; [left; split; [done|apply not_elem_of_nil]|].
  case_decide as H; [right; split; [lia|]; rewrite Z.sub_diag; by subst|].
  destruct (IH (i + 1) ltac:(lia)) as [[-> Hn]|[Hj Hl]]; [left; rewrite not_elem_of_cons; by split; [|split]|].
  right. split; [lia|]. replace (index_in x l (i + 1) - i) with (Z.succ (index_in x l (i + 1) - (i + 1))) by lia.
  by rewrite Z2Nat.inj_succ by lia.
Qed.

(** A leader that is online is left out of its followers, and only it; one that
    is not takes the last of them away. *)
Lemma fmt_members_followers members online node :
  (node ∈ online -> exists a b, online = a ++ node :: b /\ (fmt_members members online node).2 = a ++ b) /\
  (node ∉ online -> (fmt_members members online node).2 = take (length online - 1) online).
Proof.
  unfold fmt_members. cbn [snd]. pose proof (index_in_spec node online 0 ltac:(lia)) as Hi. cbv beta zeta in Hi.
  rewrite Z.sub_0_r in Hi. set (j := index_in node online 0) in *. split; intros Hin.
  - destruct Hi as [[_ Hn]|[Hj Hl]]; [done|]. pose proof (lookup_lt_Some _ _ _ Hl) as Hlt.
    exists (take (Z.to_nat j) online), (drop (S (Z.to_nat j)) online).
    split; [symmetry; by apply take_drop_middle|]. unfold splice_one.
    assert (j <? 0 = false) as -> by lia. by rewrite Z.min_l by lia.
  - destruct Hi as [[-> _]|[_ Hl]]; [|by apply list_elem_of_lookup_2 in Hl]. unfold splice_one. cbn [Z.ltb Z.compare].
    destruct online as [|x l]; [done|]. rewrite drop_ge by (cbn [length]; lia). rewrite app_nil_r. f_equal. lia.
Qed.

(** A leader that is down takes the place of a follower that is not. *)
Example leader_down :
  (fmt_members [js "a"; js "b"; js "c"] [js "b"; js "c"] "a").1 =
  js " <abbr title=`Followers: b`>+1</abbr>".
Proof. by vm_compute. Qed.

Module PageExamples.
Import RefreshRuns.Page.

Definition no_page : page_info := mk_pages (VInt 1) (VInt 100) 2 150 150 0.

(** The page asked for is not there any more: nothing is shown, and the last
    page is opened. *)
Example page_out_of_range :
  let w := set_prefs (set_local {[rabbit "queues_current_page_number" := js "3"]} logged_page) start in
  (paginate_ui false no_page "queues" None w).1 = Ok None /\
  (get_pref "queues_current_page_number" (prefs (paginate_ui false no_page "queues" None w).2)).1 = Ok (Some (js "2")).
Proof. split; by vm_compute. Qed.

End PageExamples.
