(* ===== verification/NumbersFacts.v ===== *)
(** The texts of numbers: what a grouping of thousands looks like, and that the
    search for an SI prefix ends for every number that is finite. *)
From S2P Require Import Prelude JsString JsNum JsObject JsValue Doubles Rounding Escape Numbers.

(** ** Groups of thousands *)

Lemma split_on_snoc c s t : c ∉ t -> split_on c (s ++ c :: t) = split_on c s ++ [t].
Proof.
  intros Ht. induction s as [|d s IH]; cbn [app split_on].
  { by rewrite decide_True, split_on_free. }
  rewrite IH. case_decide; [done|].
  pose proof (split_on_nonempty c s). by destruct (split_on c s).
Qed.

Lemma slice_init3 s : (3 <= length s)%nat -> slice s 0 (-3) = take (length s - 3) s.
Proof.
  intros Hs. unfold slice, slice_index, clamp. cbn [Z.ltb Z.compare].
  f_equal; [lia|]. replace (Z.to_nat _) with 0%nat by lia. done.
Qed.

Lemma slice_last3 s : (3 <= length s)%nat -> slice_from s (-3) = drop (length s - 3) s.
Proof.
  intros Hs. unfold slice_from, slice, slice_index, clamp. cbn [Z.ltb Z.compare].
  rewrite take_ge; [f_equal; lia|]. rewrite length_drop. destruct (Z.ltb_spec (Z.of_nat (length s)) 0); lia.
Qed.

(** Groups of three, but for the first, that make up a text. *)
Definition grouped (s : jstr) (gs : list jstr) : Prop :=
  concat gs = s /\ Forall (fun g => length g = 3%nat) (tail gs) /\
  match gs with g :: _ => (length g <= 3)%nat /\ (g = [] -> s = []) | [] => False end.

Lemma grouped_snoc s t gs : s <> [] -> length t = 3%nat -> grouped s gs -> grouped (s ++ t) (gs ++ [t]).
Proof.
  intros Hs Ht (Hc & Hl & Hh). destruct gs as [|g gs]; [done|].
  unfold grouped. cbn [app tail]. split; [|split; [|split; [apply Hh|]]].
  - rewrite app_comm_cons, concat_app, Hc. cbn. by rewrite app_nil_r.
  - apply Forall_app. split; [done|]. by apply Forall_singleton.
  - intros ->. by destruct Hs; apply Hh.
Qed.

Lemma thousands_loop_groups fuel s :
  44 ∉ s -> (length s <= fuel)%nat -> grouped s (split_on 44 (thousands_loop fuel s)).
Proof.
  revert s. induction fuel as [|fuel IH]; intros s Hs Hl; cbn [thousands_loop].
  { destruct s; [|cbn in Hl; lia]. unfold grouped. cbn. split_and!; [done|constructor|lia|done]. }
  destruct (Nat.ltb_spec (length s) 4) as [Hn|Hn].
  { rewrite split_on_free by done. unfold grouped. cbn. rewrite app_nil_r.
    split_and!; [done|constructor|lia|done]. }
  rewrite slice_init3, slice_last3 by lia.
  rewrite <- (take_drop (length s - 3) s) in Hs at 1. apply not_elem_of_app in Hs as [Hi Hd].
  change (js "," ++ ?t) with (44 :: t). rewrite split_on_snoc by done.
  rewrite <- (take_drop (length s - 3) s) at 1. apply grouped_snoc.
  - intros He. apply (f_equal length) in He. rewrite length_take in He. cbn in He. lia.
  - rewrite length_drop. lia.
  - apply IH; [done|]. rewrite length_take. lia.
Qed.

(** Fmt_num_thousands_unfixed only puts commas into a text without any: the
    pieces between them are the text, the first has one to three characters (or
    the text is empty), every other one exactly three. *)
Theorem thousands_grouped s :
  44 ∉ s -> grouped s (split_on 44 (fmt_num_thousands_unfixed s)).
Proof. intros Hs. by apply thousands_loop_groups. Qed.

Lemma thousands_grouped_witness :
  grouped (js "1234567") [js "1"; js "234"; js "567"].
Proof. apply (thousands_grouped (js "1234567")). by_decide. Defined.

(** ** SI prefixes *)

(** The thousand of a scale. *)
Definition thousand (binary : bool) : double := of_int (if binary then 1024 else 1000).

Definition thousand_exponent (binary : bool) : Z := if binary then -42 else -43.

Lemma thousand_finite binary :
  exists m, thousand binary = finite false m (thousand_exponent binary) /\ 2 ^ 52 <= Zpos m /\
    (binary = false -> Zpos m = 1000 * 2 ^ 43).
Proof.
  destruct binary; eexists; (split; [vm_compute; reflexivity|]);
    (split; [vm_compute; discriminate|by vm_compute]).
Qed.

(** What is left after a division by a thousand: at least nine binary digits
    less. *)
Lemma thousand_step binary k x :
  -1000 <= k <= 972 -> at_most (2 ^ 52) k x -> at_most (2 ^ 52) (k - 9) (ddiv x (thousand binary)).
Proof.
  intros Hk Hx. destruct (thousand_finite binary) as (m & Hm & Hbig & _).
  eapply (at_most_ddiv (2 ^ 52) k); [exact Hx|exact Hm|..]; [|lia|lia|].
  { destruct binary; unfold operand, thousand_exponent; lia. }
  replace (k - 9 + thousand_exponent binary) with (k - 52 + (thousand_exponent binary + 43))
    by (destruct binary; cbn; lia).
  rewrite scaled_shift by (destruct binary; cbn; lia).
  replace k with (k - 52 + 52) at 1 by lia. rewrite scaled_shift by lia. apply scaled_mono; [|lia].
  destruct binary; cbn [thousand_exponent]; nia.
Qed.

(** At most 512 is not more than a thousand. *)
Lemma below_thousand binary x : at_most (2 ^ 52) (-43) x -> dlt (thousand binary) x = false.
Proof.
  intros Hx. destruct x as [s|s| |s m e]; try done.
  { by destruct binary, s; vm_compute. }
  destruct Hx as (-> & (He & Hm & Hn) & Hx). destruct (thousand_finite binary) as (mt & -> & Hbig & Hdec).
  unfold dlt, SpecFloat.SFltb. cbn [SpecFloat.SFcompare].
  destruct (Z.compare_spec (thousand_exponent binary) e) as [Hee|Hee|Hee]; [| |done].
  - replace (-43) with (e + (-43 - e)) in Hx by lia. subst e.
    assert (Zpos m <= Zpos mt) as Hmm.
    { destruct binary; cbn [thousand_exponent] in Hx.
      - assert (scaled (Zpos m * 2 ^ 1) (-43) <= scaled (2 ^ 52) (-43)) as Hx'
          by (rewrite <- scaled_shift by lia; exact Hx).
        apply scaled_inj in Hx'; lia.
      - rewrite (Hdec eq_refl). change (-43 + (-43 - -43)) with (-43) in Hx.
        apply scaled_inj in Hx; lia. }
    change (Pos.compare_cont Eq mt m) with (Pos.compare mt m).
    destruct (Pos.compare_spec mt m); [done|lia|done].
  - exfalso. destruct Hn as [->|Hn]; [destruct binary; cbn in Hee; lia|].
    assert (-42 <= e) by (destruct binary; cbn in Hee; lia).
    replace e with (-43 + (e + 43)) in Hx by lia. rewrite scaled_shift in Hx by lia.
    apply scaled_inj in Hx; [|lia].
    assert (2 ^ 1 <= 2 ^ (e + 43)) by (apply Z.pow_le_mono_r; lia). nia.
Qed.

Lemma finite_at_most m e : normal m e -> at_most (2 ^ 52) 972 (finite false m e).
Proof.
  intros Hn. split; [done|]. split; [done|]. destruct Hn as (He & Hm & _).
  replace 972 with (e + (972 - e)) by lia. rewrite scaled_shift by lia. apply scaled_mono; [|lia].
  assert (2 ^ 1 <= 2 ^ (972 - e)) by (apply Z.pow_le_mono_r; lia). nia.
Qed.

(** The recursion ends once the maximum is small, which costs one call for nine
    binary digits. *)
Lemma si_scale_small fuel binary n m p k :
  at_most (2 ^ 52) k m -> -1000 <= k <= 972 -> k <= -43 + 9 * Z.of_nat fuel ->
  exists n' m' p', si_scale fuel (thousand binary) n m p = Ok (n', m', p') /\
    p <= p' <= p + Z.of_nat fuel /\ dlt (thousand binary) m' = false.
Proof.
  revert n m p k. induction fuel as [|fuel IH]; intros n m p k Hm Hk Hf; cbn [si_scale];
    (destruct (dlt (thousand binary) m) eqn:Hlt; [|exists n, m, p; split; [done|]; split; [lia|done]]);
    (destruct (Z_le_dec k (-43)) as [Hs|Hs];
      [by rewrite below_thousand in Hlt by (apply (at_most_mono _ k); [lia|lia|done])|]); [lia|].
  destruct (IH (ddiv n (thousand binary)) (ddiv m (thousand binary)) (p + 1) (k - 9))
    as (n' & m' & p' & Hr & Hp & Hl); [apply thousand_step; [lia|done]|lia|lia|].
  exists n', m', p'. split; [done|]. split; [lia|done].
Qed.

Lemma si_scale_done fuel th n m p : dlt th m = false -> si_scale fuel th n m p = Ok (n, m, p).
Proof. intros Hl. by destruct fuel; cbn [si_scale]; rewrite Hl. Qed.

Lemma si_scale_infinite fuel binary n p :
  si_scale fuel (thousand binary) n (infinite false) p = Throw RangeError.
Proof.
  destruct (thousand_finite binary) as (mt & -> & _). revert n p.
  induction fuel as [|fuel IH]; intros n p; [done|]. cbn [si_scale]. apply IH.
Qed.

(** More fuel does not change a result. *)
Lemma si_scale_more fuel fuel' th n m p r :
  si_scale fuel th n m p = Ok r -> (fuel <= fuel')%nat -> si_scale fuel' th n m p = Ok r.
Proof.
  revert fuel' n m p. induction fuel as [|fuel IH]; intros fuel' n m p Hr Hf.
  - cbn [si_scale] in Hr. destruct (dlt th m) eqn:Hl; [done|]. by rewrite si_scale_done.
  - destruct fuel' as [|fuel']; [lia|]. cbn [si_scale] in Hr |- *.
    destruct (dlt th m); [|done]. apply IH; [done|lia].
Qed.

(** C36: the search for an SI prefix ends for every number and every maximum but
    infinity, after at most 113 divisions, with a maximum that is no more than a
    thousand of the scale; for an infinite maximum no depth of recursion is
    enough. The fuel of fmt_si_prefix is more than that. *)
Theorem si_scale_ends fuel binary (num0 max0 : value) :
  (113 <= fuel)%nat ->
  (to_number max0 = infinite false /\
    si_scale fuel (thousand binary) (to_number num0) (to_number max0) 0 = Throw RangeError) \/
  (exists n m p, si_scale fuel (thousand binary) (to_number num0) (to_number max0) 0 = Ok (n, m, p) /\
    0 <= p <= 113 /\ dlt (thousand binary) m = false).
Proof.
  intros Hf. pose proof (to_number_canonical max0) as Hc. set (n := to_number num0).
  assert (Hdone : dlt (thousand binary) (to_number max0) = false -> exists n' m p,
    si_scale fuel (thousand binary) n (to_number max0) 0 = Ok (n', m, p) /\ 0 <= p <= 113 /\
    dlt (thousand binary) m = false).
  { intros Hl. exists n, (to_number max0), 0. by rewrite si_scale_done. }
  destruct (thousand_finite binary) as (mt & Hmt & _).
  destruct (to_number max0) as [s|s| |s m e];
    [right; apply Hdone; by destruct binary, s; vm_compute | | right; apply Hdone; by rewrite Hmt |].
  { destruct s; [right; apply Hdone; by rewrite Hmt|]. left. split; [done|]. apply si_scale_infinite. }
  right. destruct s; [apply Hdone; by rewrite Hmt|].
  destruct (si_scale_small 113 binary n (finite false m e) 0 972) as (n' & m' & p' & Hr & Hp & Hl);
    [by apply finite_at_most|lia|lia|].
  exists n', m', p'. split; [|split; [lia|done]]. by apply (si_scale_more 113).
Qed.

Lemma si_scale_ends_witness :
  exists n m p, si_scale si_fuel (thousand false) (to_number (VInt 5)) (to_number (VInt (10 ^ 300))) 0 =
      Ok (n, m, p) /\ 0 <= p <= 113 /\ dlt (thousand false) m = false.
Proof.
  destruct (si_scale_ends si_fuel false (VInt 5) (VInt (10 ^ 300)) ltac:(unfold si_fuel; lia)) as [[H _]|H];
    [by vm_compute in H|exact H].
Defined.

(** ** Examples *)

Example si_examples :
  map (fun n => fmt_si_prefix (VNum n) (VNum n) true false) [num_of 500; num_of 1536; num_of (10 ^ 9)] =
  [Ok (js "500 "); Ok (js "1.5 Ki"); Ok (js "954 Mi")].
Proof. by vm_compute. Qed.

Example rate_examples :
  map fmt_rate [VNum (Num 25 2); VNum (Num 25 1); VInt 1234567; VStr "0.5"; VUndef] =
  [Ok (js "0.25/s"); Ok (js "2.5/s"); Ok (js "1,234,567/s"); Throw TypeError;
   Ok (UNKNOWN_REPR ++ "/s")].
Proof. by vm_compute. Qed.

Example percent_examples :
  map fmt_percent [VNum (Num 995 3); VInt 1; VStr ""; VNull] =
  [js "100%"; js "100%"; UNKNOWN_REPR; UNKNOWN_REPR].
Proof. by vm_compute. Qed.

Example uptime_examples :
  map fmt_uptime [VInt 59999; VInt 3725000; VInt 90061000; VUndef; VInt (-1)] =
  [js "0m 59s"; js "1h 2m"; js "1d 1h"; js "NaNm NaNs"; js "-1m -1s"].
Proof. by vm_compute. Qed.

(** A comma follows the sign of a number of three digits. *)
Example negative_thousands : fmt_num_thousands (VInt (-100)) = js "-,100".
Proof. by vm_compute. Qed.
